(* ===== verification/_CoqProject ===== *)
-Q . S2P
Prelude.v
GoStd.v
Crypto.v
Wire.v
Authz.v
Limits.v
Engine.v
Feed.v
Backend.v
Session.v
Registry.v
Config.v
Secret.v
Storage.v
Token.v
Logout.v
Auth.v
Hrana.v
Sqlite.v
HttpApi.v
Metrics.v
Envelope.v
Endpoints.v
Blob.v
BlobCache.v
Changes.v
Client.v
ClientStream.v
Driver.v
Streams.v
Meta.v
Provision.v
Enroll.v
EnrollGate.v
Admin.v
Transport.v
Qip.v
Reconcile.v
Serverd.v
Launch.v
Server.v
