(* ===== verification/Prelude.v ===== *)
(** * quicSQL: verification development

    quicSQL is a server that puts SQLite databases on the network: a request is
    authenticated, authorized for one database, admitted by the limiter, routed, and then
    runs SQL on a shared handle or on the connection of an interactive stream; committed
    changes are fanned out to subscribers; principals enroll themselves and get databases of
    their own; operators manage the whole through a control plane.  This library models the
    Go code of the server, from the process's start-up to its wire formats, and of the
    client that talks to it, and proves what makes it correct.  It is a shallow embedding:
    Go functions are Gallina functions over explicit state, Go errors are the [Err] of
    [result], what runs under a mutex is one operation, and what several goroutines do is a
    step relation over those operations.

    ** Files, in dependency order

    Foundations:
    - [Prelude.v] (this file): the result type and its notations, 64-bit wrap-around, Go's
      [time.Time] arithmetic, shared lemmas on maps, counts and lists.
    - [GoStd.v], [Crypto.v]: the Go library functions the code uses, executable: strings,
      strconv, encoding/binary, encoding/hex, the query part of net/url, host and port,
      dates; the loop of a background ticker; base64, SHA-256, HMAC.
    - [Wire.v] (src/internal/wire): the canonical value, its native-JSON and Hrana codecs,
      SQLite code names, the keyring signing input.

    The services a request goes through:
    - [Authz.v] (src/authz): levels, the grant policy, assurance and step-up gates.
    - [Limits.v] (src/limits): the token bucket on binary64 and the concurrency cap.
    - [Engine.v] (src/engine): statement classification, bounded queries, batches.
    - [Feed.v] (src/feed): the commit hooks, the ring, subscribers, the broker's tables.
    - [Backend.v] (src/backend/backend.go): authorizers and the modes of a pooled
      connection.
    - [Session.v] (src/session): the stream store, batons, teardown.
    - [Registry.v] (src/registry): one shared handle per database; Get, Reserve, reaping,
      warming, the shutdown.
    - [Config.v] (src/config): database names, path containment, defaults, validation.
    - [Secret.v] (src/secret): secret references, their sources and key material.
    - [Storage.v] (src/backend: backend.go, file.go, memory.go, vault.go, vfs.go): from the
      description of a database to what the drivers are asked to open.
    - [Token.v], [Logout.v], [Auth.v] (src/auth): session tokens and challenges; sessions on
      record and their revocation by account, credential or id; the credential directory,
      the authenticator, the middleware.

    The data endpoints:
    - [Hrana.v] (src/httpapi/hrana.go, hrana_types.go, hrana_cursor.go): the stream request
      interpreter, batches and their conditions, capture sessions, the cursor.
    - [Sqlite.v]: what the server relies on of the SQLite driver, which is not part of the
      repository, as a contract any operations may keep to.
    - [HttpApi.v] (src/httpapi/handler.go, native.go): routing, authorize, meter, the
      native endpoint, the error mapping.
    - [Metrics.v] (src/obs/metrics.go): counters, latency histograms, forgetting a database.
    - [Envelope.v] (the JSON bodies of src/httpapi, src/httpjson and src/client).
    - [Endpoints.v] (src/httpapi/backup.go, export.go, changeset.go).
    - [Blob.v], [BlobCache.v] (src/httpapi/blob.go): the blob endpoint over the third-party
      store; the cache of opened stores.
    - [Changes.v] (src/httpapi/changes.go): the change stream over the broker of [Feed.v].
    - [Streams.v] (handlePipeline, stream, handleCursor of src/httpapi): the stream
      handlers over the real session store and limiter.

    The client:
    - [Client.v], [ClientStream.v] (src/client/client.go, hrana.go, admin.go): requests,
      authentication, error decoding, streams and batches.
    - [Driver.v] (src/client/sqldriver): the database/sql driver.

    Enrollment and administration:
    - [Meta.v] (src/meta/meta.go): the tables of the server's own store.
    - [Provision.v] (src/provision): creating and dropping databases at run time.
    - [Enroll.v] (src/enroll): self-service enrollment, codes, quotas, revocation, the idle
      collector, each operation as the code runs it; [EnrollGate.v]: the same operations
      interleaved under the per-principal gate.
    - [Admin.v] (src/admin): the control plane, its audit trail, maintenance and restore.

    The process:
    - [Transport.v] (src/transport): CORS, the HTTP/3 advertisement, TLS settings, bringing
      listeners up and down; [Qip.v] (qip.go, selfSignedCert of tls.go): the certificates.
    - [Reconcile.v] (src/serverd: reconcile, buildPolicy): what a start serves.
    - [Serverd.v] (src/serverd, src/config/section.go): start-up, features, shutdown.
    - [Launch.v] (src/cli, Open of src/meta/meta.go, src/meta/extension.go,
      src/backend/slowlog.go): the command line, the meta store's opening and migration,
      the slow-query log, the daemon from its arguments to its exit status.
    - [Server.v]: the parts composed: one request from the listener to the answer on the
      state all components share, and what the whole server enforces.

    A definition carries the name of the Go function it translates where Rocq allows it;
    a Go method that holds a lock in two stretches is two operations ([Open_reserve] and
    [Open_insert], [Get_lookup], [Get_opened] and [Get_recheck]).

    ** How the parts meet

    [HttpApi.v] takes a [Registry] handle, a [Limits] slot and an [Authz] level and runs
    [Engine]; [Streams.v] adds [Session] and [Hrana]; [Endpoints.v], [Blob.v] and
    [Changes.v] reuse [HttpApi]'s admission.  [Provision.v] works on the [Registry], the
    [Feed] and the [Meta] store together; [Enroll.v] calls it through the class
    [Provisioner] and [Admin.v] directly.  [Reconcile.v] folds [Provision.v]'s operations
    into the next start's input and [Serverd.v] composes all of them into a running
    process.  [Admin.v] asks the enrollment service through the class [Enrollments], which
    [Server.v] discharges with [Enroll.v]'s operations.  [Server.v] gives every component
    its part of one state (a view, and the way back), so that the theorems proved per
    component carry over to any request in any state of the server.  The client files are
    stated against the servers' own decoders ([Envelope.v], [HttpApi.v], [Hrana.v]).
    The background loops (the session and handle reapers, the idle collector) are
    [ticker]s of [GoStd.v] over their component's operation.

    ** What the theorems show

    - The whole server ([Server.v]): on every listener of a started server, in every state,
      a request changes a database's content only for an authenticated principal with the
      right to write the database it names (or one that had it when it opened the stream it
      resumes), or as an administrator who replaces its file; it
      is answered from a database only with the right to read it, and changes who may do
      what only as a named administrator or by a proved enrollment; refused credentials
      change nothing; streams of readers stay on connections that deny writes.
    - Concurrency: over all interleavings of the locked operations, no session has two
      requests in flight or is torn down under one, and a consumed baton stays refused
      ([Session.v]); users hold the one published handle of their database and a
      reservation is exclusive ([Registry.v]); in-flight counts equal the release functions
      still to be called, and who is admitted follows from its own calls and those counts
      ([Limits.v]); every subscriber sees the committed log without gap or repetition, also
      when it receives while a commit is being published ([Feed.v]), and so does the client
      of a change stream ([Changes.v]); with [on_revoke: drop] a provisioned database does
      not outlive its principal unless its enrollment took itself back on a doubt, and every
      gated request completes ([EnrollGate.v]); cached blob stores belong to live handles ([BlobCache.v]).
    - Read-only enforcement, at two levels: no client statement takes the write-denying
      authorizer off a connection, and what it accepts only reads ([Backend.v]); over any
      driver that runs only accepted statements ([Sqlite.v]), a whole request of a read-only
      principal leaves the database's content alone and its connection clean ([HttpApi.v]).
    - Authentication: the first method that finds a credential decides; tokens are
      authentic, bounded by a hard deadline and permanently revocable, one by one or for a
      whole account; minting needs a primary credential; a cookie never authorizes a
      cross-site write ([Token.v], [Logout.v], [Auth.v]); grants refine their history and assurance is monotone ([Authz.v]); a
      keyring client gets in, by answering the server's challenge with a signature that is
      good for that one request ([Client.v]).
    - Execution: batches that do not end their transaction themselves are all-or-nothing and
      results bounded ([Engine.v]); the Hrana
      batch loop equals its step-by-step reading, completes, and the cursor streams exactly
      its result ([Hrana.v]); however a stream request ends, its session is closed or idle
      behind the baton it announced ([Streams.v]); an uploaded object is what a later
      download answers ([Blob.v]).
    - Enrollment and control plane: an enrolled name is derived from a key whose possession
      was shown, quotas hold, codes are spent once, a refused enrollment leaves nothing
      behind and idle principals are collected ([Enroll.v], [Meta.v]); a create that fails
      leaves nothing but the files its open made and, if it shared its path with a served
      database, that one's feed lost ([Provision.v]); without the server-admin capability nothing but one
      database's maintenance can be asked for, every decision is audited, and a restore
      swaps the file or leaves it ([Admin.v]).
    - Process: a start brings everything up or releases all it took and a shutdown releases
      everything ([Serverd.v]); however the daemon exits nothing stays open, its store is
      migrated once, and its slow-query log shows no bound value ([Launch.v]); a restart serves what was served, and what was dropped
      while its record could not be deleted ([Reconcile.v]); listeners
      start together or not at all and CORS never weakens authentication ([Transport.v]); a
      renewed certificate never lapses while its source's outages are bounded ([Qip.v]).
    - Boundaries: a Go value is stored without loss, codecs and the client's decoders round-trip ([Wire.v], [ClientStream.v],
      [Envelope.v]); the driver keeps to the stream protocol ([Driver.v]); only valid names
      reach a database handler and internal errors do not leak ([HttpApi.v]); paths stay
      below their directory and a configuration that loads is safe ([Config.v]).

    Some theorems record where the code falls short of its own documentation; each is
    stated as what the code does, next to the component it concerns:
    [attach_behind_overlapping_comment], [batch_with_commit_is_not_atomic] ([Engine.v]);
    [reserve_before_reaped_handle_closes] ([Registry.v]); [query_only_guard_is_textual]
    ([Backend.v]); [client_query_only_survives_teardown] ([Session.v]);
    [negative_step_panics], [sequence_masks_sqlite_errors] ([Hrana.v]);
    [downgraded_principal_keeps_writer_stream] ([Streams.v]);
    [restart_keeps_small_integers] ([Storage.v]); [latency_revives_forgotten_series]
    ([Metrics.v]); [changeset_leaks_open_error] ([Endpoints.v]);
    [reopened_store_has_default_options] ([Blob.v]); [stream_loses_other_codes],
    [begin_commit_batch_commits_after_failure] ([ClientStream.v]);
    [failed_create_detaches_served_feed] ([Provision.v]);
    [unknown_principal_costs_a_database], [eviction_forgets_spent_buckets],
    [failed_flush_evicts_active] ([Enroll.v]); [revocation_race_locks_out],
    [recheck_error_orphans] ([EnrollGate.v]); [long_refresh_lapses] ([Qip.v]);
    [failed_feature_keeps_earlier_closers] ([Serverd.v]); [unaudited_database_drop]
    ([Server.v]).

    ** Bounds and fuel

    Integers are [Z] with Go's wrap-around written out where it can happen ([u64], [i64]).
    Recursion is structural; the few loops on a shrinking string or body take its length as
    fuel, and their equations are proved for that amount (the comment-skipping loop of
    [Engine.v], [trim_seqs] of [GoStd.v], the copy loops of [Blob.v]).  A Go panic is an
    explicit outcome ([None] or [PAborted]) in [Hrana.v] and [Streams.v], never a missing
    case; the database state a panic leaves is not tracked.  [inflight_sessions_are_safe] and
    [baton_single_use] assume fewer than 2^64 resumptions, the width of a generation.
    Interleavings are sequences of steps of any length; completion is a measure on the
    pool of threads ([total_work] of [EnrollGate.v]).

    ** Outside the model

    Code that is not in the repository enters as parameters with the documented facts a
    theorem needs as named hypotheses: the SQLite driver ([Queryer], [TxBeginner], [Conn];
    what it promises is [drives] and [sqlite_laws] of [Sqlite.v]), the blob store, the durable session store of a feature module, bcrypt, ed25519 and
    X.509, [encoding/json]'s text layer, YAML decoding, the file system and the processes a
    secret may come from.

    Not modelled: TLS handshakes and the cryptography of certificates; the system calls
    behind peer credentials (src/auth/peercred*.go; the uid they return is a field of the
    request); ordinary log output (src/obs/obs.go); the SQL text of the meta store (its
    operations are those of [Meta.v]); the statement timeout and the read deadlines of a
    request's body, which reach the model as a driver's error or a broken body; the account
    endpoints and the tables of feature modules, which are not in the repository; accessors
    that only return a field; the demonstration programs (src/examples); imports for their
    effect (src/extensions) and test support. *)
From Stdlib Require Export ZArith Lia String Ascii.
From stdpp Require Export base tactics decidable numbers option list strings gmap fin_maps.

#[global] Open Scope Z_scope.
#[global] Open Scope list_scope.

(** ** Results: Go's [(value, error)] pairs *)

Inductive result (E A : Type) : Type :=
| Ok (a : A)
| Err (e : E).
Arguments Ok {E A} a.
Arguments Err {E A} e.

Definition rbind {E A B : Type} (m : result E A) (k : A -> result E B) : result E B :=
  match m with Ok a => k a | Err e => Err e end.

Definition is_ok {E A : Type} (m : result E A) : bool :=
  match m with Ok _ => true | Err _ => false end.

Declare Scope res_scope.
Delimit Scope res_scope with res.
Notation "'let*' x ':=' m 'in' k" := (rbind m (fun x => k))
  (at level 10, x pattern, m at level 100, k at level 200) : res_scope.
Notation "'check' b 'else' e ';;' k" := (if b then k else Err e)
  (at level 10, b at level 100, e at level 100, k at level 200) : res_scope.
#[global] Open Scope res_scope.

(** [of_opt e o]: Go's [v, ok := ...; if !ok { return e }]. *)
Definition of_opt {E A : Type} (e : E) (o : option A) : result E A :=
  match o with Some a => Ok a | None => Err e end.

Lemma rbind_ok {E A B} (m : result E A) (k : A -> result E B) b :
  rbind m k = Ok b -> exists a, m = Ok a /\ k a = Ok b.
Proof. destruct m; simpl; [eauto | discriminate]. Qed.

Lemma of_opt_ok {E A} (e : E) (o : option A) a : of_opt e o = Ok a <-> o = Some a.
Proof. destruct o; simpl; split; congruence. Qed.

#[export] Instance result_eq_dec {E A} `{EqDecision E, EqDecision A} : EqDecision (result E A).
Proof. solve_decision. Defined.

(** ** Machine integers *)

Definition two8 : Z := 256.
Definition two16 : Z := 65536.
Definition two32 : Z := 4294967296.
Definition two63 : Z := 9223372036854775808.
Definition two64 : Z := 18446744073709551616.

(** Conversion to [uint64] / [int64] (Go wraps silently). *)
Definition u64 (z : Z) : Z := z mod two64.
Definition i64 (z : Z) : Z := (z + two63) mod two64 - two63.

Definition in_u64 (z : Z) : Prop := 0 <= z < two64.
Definition in_i64 (z : Z) : Prop := - two63 <= z < two63.

Lemma u64_id z : in_u64 z -> u64 z = z.
Proof. intros H. apply Z.mod_small, H. Qed.

Lemma i64_id z : in_i64 z -> i64 z = z.
Proof.
  unfold in_i64, i64. intros H. rewrite Z.mod_small; unfold two63, two64 in *; lia.
Qed.

Lemma i64_u64 z : in_i64 z -> i64 (u64 z) = z.
Proof.
  unfold in_i64, i64, u64. intros H.
  rewrite Zplus_mod_idemp_l. rewrite Z.mod_small; unfold two63, two64 in *; lia.
Qed.

Lemma u64_range z : in_u64 (u64 z).
Proof. apply Z.mod_pos_bound. reflexivity. Qed.

(** ** Time

    [time.Time] is the number of nanoseconds since the Unix epoch; the zero value
    [time.Time{}] is the first instant of year 1.  [time.Duration] is an [int64]
    of nanoseconds and [Time.Sub] saturates. *)

Definition zero_time : Z := -62135596800000000000.
Definition is_zero_time (t : Z) : bool := t =? zero_time.
Definition second : Z := 1000000000.
Definition unix_nano (t : Z) : Z := i64 t.
Definition time_sub (a b : Z) : Z := Z.max (- two63) (Z.min (two63 - 1) (a - b)).

Lemma unix_nano_id t : in_i64 t -> unix_nano t = t.
Proof. apply i64_id. Qed.

Lemma zero_time_out : ~ in_i64 zero_time.
Proof. unfold in_i64, zero_time, two63. lia. Qed.

(** ** Tactics shared by the components *)

Create HintDb quic.
Create Rewrite HintDb quic_rw.

(** [invc H]: inversion that cleans up after itself. *)
Ltac invc H := inversion H; clear H; simplify_eq/=.

(** Split every [match]/[if] scrutinee of a hypothesis [H : _ = Ok _]-like. *)
Ltac break_match_in H :=
  match type of H with
  | context [match ?x with _ => _ end] =>
      lazymatch x with
      | context [match _ with _ => _ end] => fail
      | _ => let E := fresh "E" in destruct x eqn:E
      end
  end.

Ltac break_match :=
  match goal with
  | |- context [match ?x with _ => _ end] =>
      lazymatch x with
      | context [match _ with _ => _ end] => fail
      | _ => let E := fresh "E" in destruct x eqn:E
      end
  end.

Ltac crush_ok H := repeat (break_match_in H; simplify_eq/=).

(** Turn boolean tests in the context into propositions. *)
Ltac bool_to_prop :=
  repeat match goal with
  | H : (_ && _)%bool = true |- _ => apply andb_true_iff in H as [? ?]
  | H : (_ || _)%bool = false |- _ => apply orb_false_iff in H as [? ?]
  | H : negb _ = true |- _ => apply negb_true_iff in H
  | H : negb _ = false |- _ => apply negb_false_iff in H
  | H : (_ =? _)%Z = true |- _ => apply Z.eqb_eq in H
  | H : (_ =? _)%Z = false |- _ => apply Z.eqb_neq in H
  | H : (_ <? _)%Z = true |- _ => apply Z.ltb_lt in H
  | H : (_ <? _)%Z = false |- _ => apply Z.ltb_ge in H
  | H : (_ <=? _)%Z = true |- _ => apply Z.leb_le in H
  | H : (_ <=? _)%Z = false |- _ => apply Z.leb_gt in H
  | H : (_ >? _)%Z = true |- _ => rewrite Z.gtb_lt in H
  | H : (_ >? _)%Z = false |- _ => rewrite Z.gtb_ltb, Z.ltb_ge in H
  | H : (_ >=? _)%Z = true |- _ => rewrite Z.geb_leb, Z.leb_le in H
  | H : (_ >=? _)%Z = false |- _ => rewrite Z.geb_leb, Z.leb_gt in H
  | H : String.eqb _ _ = true |- _ => apply String.eqb_eq in H
  | H : String.eqb _ _ = false |- _ => apply String.eqb_neq in H
  | H : bool_decide _ = true |- _ => apply bool_decide_eq_true in H
  | H : bool_decide _ = false |- _ => apply bool_decide_eq_false in H
  end.

(** ** Generic list and map lemmas *)

Lemma take_app_exact {A} (l k : list A) n : n = length l -> take n (l ++ k) = l.
Proof. intros ->. apply take_app_length. Qed.

Lemma drop_app_exact {A} (l k : list A) n : n = length l -> drop n (l ++ k) = k.
Proof. intros ->. apply drop_app_length. Qed.

(** Go's lookup of an absent key in a [map[K]int]: the zero value. *)
Definition zget {K} `{Countable K} (m : gmap K Z) (k : K) : Z := default 0 (m !! k).

Lemma zget_insert {K} `{Countable K} (m : gmap K Z) k k' v :
  zget (<[k := v]> m) k' = if decide (k = k') then v else zget m k'.
Proof. unfold zget. rewrite lookup_insert. by destruct (decide (k = k')). Qed.

#[export] Hint Rewrite @zget_insert : quic_rw.

(** The values of a map, up to permutation, and occurrence counts. *)
Section Vals.
Context {K A : Type} `{Countable K}.
Implicit Types (m : gmap K A).

Definition vals m : list A := (map_to_list m).*2.

Lemma vals_insert m i x : m !! i = None -> vals (<[i := x]> m) ≡ₚ x :: vals m.
Proof. intros Hi. unfold vals. by rewrite map_to_list_insert. Qed.

Lemma vals_delete m i x : m !! i = Some x -> vals m ≡ₚ x :: vals (delete i m).
Proof. intros Hi. unfold vals. by rewrite <- (map_to_list_delete m i x Hi). Qed.

Lemma vals_update {B} (g : A -> B) m i x y :
  m !! i = Some x -> g y = g x -> g <$> vals (<[i := y]> m) ≡ₚ g <$> vals m.
Proof.
  intros Hi Hg. rewrite <- insert_delete_eq, vals_insert by apply lookup_delete_eq.
  rewrite (vals_delete m i x Hi). cbn. by rewrite Hg.
Qed.

Lemma alter_some m i x (f : A -> A) : m !! i = Some x -> alter f i m = <[i := f x]> m.
Proof.
  intros Hi. apply map_eq. intros j. rewrite lookup_alter, lookup_insert.
  destruct (decide (i = j)) as [<-|]; [by rewrite Hi|done].
Qed.

Lemma elem_of_vals m x : x ∈ vals m <-> exists i, m !! i = Some x.
Proof.
  unfold vals. rewrite list_elem_of_fmap. split.
  - intros ([i y] & -> & Hin). exists i. by apply elem_of_map_to_list.
  - intros [i Hi]. exists (i, x). split; [done|]. by apply elem_of_map_to_list.
Qed.
End Vals.

Definition occurrences {A} `{EqDecision A} (x : A) (l : list A) : Z := Z.of_nat (length (filter (eq x) l)).

Lemma occurrences_perm {A} `{EqDecision A} (x : A) l k : l ≡ₚ k -> occurrences x l = occurrences x k.
Proof. unfold occurrences. by intros ->. Qed.
#[export] Instance occurrences_proper {A} `{EqDecision A} (x : A) :
  Proper ((≡ₚ) ==> eq) (occurrences x).
Proof. intros l k. apply occurrences_perm. Qed.
Lemma occurrences_cons {A} `{EqDecision A} (x y : A) l :
  occurrences x (y :: l) = (if decide (x = y) then 1 else 0) + occurrences x l.
Proof. unfold occurrences. rewrite filter_cons. destruct (decide (x = y)); cbn [length]; lia. Qed.
Lemma occurrences_nonneg {A} `{EqDecision A} (x : A) l : 0 <= occurrences x l.
Proof. unfold occurrences. lia. Qed.
#[export] Hint Resolve occurrences_nonneg : quic.

Lemma occurrences_not_in {A} `{EqDecision A} (x : A) l : x ∉ l -> occurrences x l = 0.
Proof.
  induction l as [|y l IH]; [done|]. intros [Hne Hni]%not_elem_of_cons.
  by rewrite occurrences_cons, decide_False, IH.
Qed.
Lemma occurrences_pos {A} `{EqDecision A} (x : A) l : 0 < occurrences x l <-> x ∈ l.
Proof.
  induction l as [|y l IH]; [split; [done|by intros ?%not_elem_of_nil]|].
  rewrite occurrences_cons, elem_of_cons, <- IH. pose proof (occurrences_nonneg x l).
  destruct (decide (x = y)); [split; [by left|lia]|]. split; [right; lia|intros [?|?]; [done|lia]].
Qed.

(** Sums over the values of a map. *)
Section MapSum.
Context {K A : Type} `{Countable K} (f : A -> Z).
Implicit Types (m : gmap K A).

Definition map_sum m : Z := foldr Z.add 0 (f <$> vals m).

#[local] Instance sum_proper : Proper ((≡ₚ) ==> eq) (foldr Z.add 0).
Proof. intros l k Hp. induction Hp; cbn; lia. Qed.

Lemma map_sum_insert m i x : m !! i = None -> map_sum (<[i := x]> m) = f x + map_sum m.
Proof. intros Hi. unfold map_sum. by rewrite vals_insert. Qed.
Lemma map_sum_update m i x y : m !! i = Some x -> map_sum (<[i := y]> m) = map_sum m - f x + f y.
Proof.
  intros Hi. unfold map_sum. rewrite (vals_delete m i x Hi), <- insert_delete_eq, vals_insert by apply lookup_delete_eq.
  rewrite !fmap_cons. cbn [foldr]. lia.
Qed.
Lemma map_sum_nonneg m : (forall x, 0 <= f x) -> 0 <= map_sum m.
Proof. intros Hf. unfold map_sum. induction (vals m) as [|x l IH]; cbn; [lia|]. specialize (Hf x). lia. Qed.
Lemma map_sum_ge m i x : (forall x, 0 <= f x) -> m !! i = Some x -> f x <= map_sum m.
Proof.
  intros Hf Hi. pose proof (map_sum_update m i x x Hi). unfold map_sum. rewrite (vals_delete m i x Hi). cbn.
  enough (0 <= foldr Z.add 0 (f <$> vals (delete i m))) by lia. by apply map_sum_nonneg.
Qed.
Lemma map_sum_pos m : 0 < map_sum m -> exists i x, m !! i = Some x /\ 0 < f x.
Proof.
  intros Hp. unfold map_sum in Hp.
  enough (exists x, x ∈ vals m /\ 0 < f x) as (x & [i Hi]%elem_of_vals & Hx) by eauto.
  induction (vals m) as [|x l IH]; cbn in Hp; [lia|]. destruct (Z.ltb_spec 0 (f x)); [exists x; split; [by left|done]|].
  destruct IH as (y & ? & ?); [lia|]. exists y. split; [by right|done].
Qed.
End MapSum.
