(* ===== verification/GoStd.v ===== *)
(** * The parts of Go's language and standard library the modelled code uses

    A Go [string] and a Go [[]byte] are both sequences of bytes: a [string] is
    modelled as Stdlib's [string], a [[]byte] as [list byte].  The functions below
    are those of packages [strings], [strconv] and [encoding/binary] the source calls. *)
From S2P Require Import Prelude.
From Stdlib Require Export Strings.Byte.
From Stdlib Require Import DecimalString DecimalZ.

(** ** Bytes *)

Abbreviation byte := Byte.byte.

Definition bz (b : byte) : Z := Z.of_N (Byte.to_N b).
Definition zb (z : Z) : byte := default Byte.x00 (Byte.of_N (Z.to_N (z mod 256))).

Lemma bz_range b : 0 <= bz b < 256.
Proof. unfold bz. pose proof (Byte.to_N_bounded b). lia. Qed.

Lemma zb_bz b : zb (bz b) = b.
Proof.
  unfold zb. rewrite Z.mod_small by apply bz_range.
  unfold bz. rewrite N2Z.id, Byte.of_to_N. reflexivity.
Qed.

Lemma bz_zb z : bz (zb z) = z mod 256.
Proof.
  unfold zb, bz. destruct (Byte.of_N (Z.to_N (z mod 256))) as [b|] eqn:E; simpl.
  - apply Byte.to_of_N in E. rewrite E, Z2N.id; [done|].
    apply Z.mod_pos_bound. lia.
  - apply Byte.of_N_None_iff in E. pose proof (Z.mod_pos_bound z 256). lia.
Qed.

Lemma bz_zb_small z : 0 <= z < 256 -> bz (zb z) = z.
Proof. intros. rewrite bz_zb. by apply Z.mod_small. Qed.

Lemma bz_inj a b : bz a = bz b -> a = b.
Proof. intros H. rewrite <- (zb_bz a), <- (zb_bz b). by rewrite H. Qed.

#[export] Instance byte_eq_dec : EqDecision byte := Byte.byte_eq_dec.

(** [[]byte(s)] and [string(b)]. *)
#[export] Instance byte_countable : Countable byte := inj_countable' bz zb zb_bz.

Definition bytes_of (s : string) : list byte := list_byte_of_string s.
Definition string_of (b : list byte) : string := string_of_list_byte b.

Lemma string_of_bytes_of s : string_of (bytes_of s) = s.
Proof. apply string_of_list_byte_of_string. Qed.
Lemma bytes_of_string_of b : bytes_of (string_of b) = b.
Proof. apply list_byte_of_string_of_list_byte. Qed.

#[export] Hint Rewrite string_of_bytes_of bytes_of_string_of zb_bz : quic_rw.

(** Big-endian fields (package [encoding/binary]). *)
Fixpoint put_be (n : nat) (z : Z) : list byte :=
  match n with
  | O => []
  | S m => zb (z / 256 ^ Z.of_nat m) :: put_be m z
  end.

Fixpoint get_be (l : list byte) : Z :=
  match l with
  | [] => 0
  | b :: r => bz b * 256 ^ Z.of_nat (length r) + get_be r
  end.

Lemma length_put_be n z : length (put_be n z) = n.
Proof. induction n; simpl; congruence. Qed.

Lemma get_put_be n z : get_be (put_be n z) = z mod 256 ^ Z.of_nat n.
Proof.
  induction n as [|n IH]; [by rewrite Z.mod_1_r|].
  cbn [put_be get_be]. rewrite length_put_be, IH, bz_zb.
  rewrite Nat2Z.inj_succ, Z.pow_succ_r by lia.
  set (q := 256 ^ Z.of_nat n). assert (Hq : 0 < q) by (unfold q; lia).
  rewrite (Z.mul_comm 256 q), Z.rem_mul_r by lia. lia.
Qed.

Lemma get_be_range l : 0 <= get_be l < 256 ^ Z.of_nat (length l).
Proof.
  induction l as [|b r IH]; [simpl; lia|].
  cbn [get_be length]. rewrite Nat2Z.inj_succ, Z.pow_succ_r by lia.
  pose proof (bz_range b). nia.
Qed.

Lemma zb_mod a k : zb (a + k * 256) = zb a.
Proof. unfold zb. by rewrite Z.mod_add. Qed.

Lemma put_be_add n z k : put_be n (z + k * 256 ^ Z.of_nat n) = put_be n z.
Proof.
  revert z k. induction n as [|m IH]; intros z k; [done|]. cbn [put_be].
  rewrite Nat2Z.inj_succ, Z.pow_succ_r by lia.
  replace (z + k * (256 * 256 ^ Z.of_nat m)) with (z + k * 256 * 256 ^ Z.of_nat m) by lia.
  rewrite IH, Z.div_add by lia. by rewrite zb_mod.
Qed.

Lemma put_get_be l : put_be (length l) (get_be l) = l.
Proof.
  induction l as [|b r IH]; [done|]. cbn [length put_be get_be].
  pose proof (get_be_range r). rewrite Z.div_add_l, Z.div_small, Z.add_0_r, zb_bz by lia.
  rewrite Z.add_comm, put_be_add, IH. done.
Qed.

#[export] Hint Rewrite @length_app length_put_be get_put_be : quic_rw.

(** ** Package strings *)

Definition lower_ascii (c : ascii) : ascii :=
  let n := nat_of_ascii c in
  if (65 <=? n)%nat && (n <=? 90)%nat then ascii_of_nat (n + 32) else c.
Definition upper_ascii (c : ascii) : ascii :=
  let n := nat_of_ascii c in
  if (97 <=? n)%nat && (n <=? 122)%nat then ascii_of_nat (n - 32) else c.

Fixpoint smap (f : ascii -> ascii) (s : string) : string :=
  match s with EmptyString => EmptyString | String c r => String (f c) (smap f r) end.

(** [strings.ToLower] and [strings.ToUpper], exact on ASCII text: the callers
    compare the result with ASCII words only. *)
Definition to_lower : string -> string := smap lower_ascii.
Definition to_upper : string -> string := smap upper_ascii.

(** [strings.HasPrefix] / [strings.CutPrefix]. *)
Fixpoint cut_prefix (p s : string) : option string :=
  match p, s with
  | EmptyString, _ => Some s
  | String a p', String b s' => if Ascii.eqb a b then cut_prefix p' s' else None
  | String _ _, EmptyString => None
  end.
Definition has_prefix (p s : string) : bool :=
  match cut_prefix p s with Some _ => true | None => false end.

Lemma sapp_nil r : (EmptyString ++ r)%string = r.
Proof. reflexivity. Qed.
Lemma sapp_cons a p r : (String a p ++ r)%string = String a (p ++ r).
Proof. reflexivity. Qed.

Lemma cut_prefix_app p s : cut_prefix p (p ++ s)%string = Some s.
Proof.
  induction p as [|a p IH]; [by destruct s|].
  rewrite sapp_cons. cbn [cut_prefix]. by rewrite Ascii.eqb_refl.
Qed.

Lemma cut_prefix_some p s r : cut_prefix p s = Some r <-> s = (p ++ r)%string.
Proof.
  split; [|intros ->; apply cut_prefix_app].
  revert s. induction p as [|a p IH]; intros [|b s]; cbn [cut_prefix]; try congruence.
  - by intros [= <-].
  - by intros [= <-].
  - destruct (Ascii.eqb_spec a b) as [->|]; [|discriminate].
    intros H%IH. by rewrite H, sapp_cons.
Qed.

Lemma has_prefix_app p s : has_prefix p (p ++ s)%string = true.
Proof. unfold has_prefix. by rewrite cut_prefix_app. Qed.

(** [strings.HasSuffix] / [strings.CutSuffix] / [strings.TrimSuffix]. *)
Fixpoint srev_app (s acc : string) : string :=
  match s with EmptyString => acc | String c r => srev_app r (String c acc) end.
Definition srev (s : string) : string := srev_app s EmptyString.
Definition cut_suffix (p s : string) : option string :=
  option_map srev (cut_prefix (srev p) (srev s)).
Definition trim_suffix (p s : string) : string := default s (cut_suffix p s).

(** [strings.ContainsAny s chars]. *)
Fixpoint mem_char (c : ascii) (s : string) : bool :=
  match s with EmptyString => false | String a r => Ascii.eqb c a || mem_char c r end.
Fixpoint contains_any (s chars : string) : bool :=
  match s with EmptyString => false | String a r => mem_char a chars || contains_any r chars end.

(** [strings.IndexByte]: the text after the first occurrence of [c]. *)
Fixpoint after_char (c : ascii) (s : string) : option string :=
  match s with
  | EmptyString => None
  | String a r => if Ascii.eqb a c then Some r else after_char c r
  end.

(** [strings.Cut s sep] for a one-byte separator. *)
Fixpoint cut_char (c : ascii) (s : string) : string * string * bool :=
  match s with
  | EmptyString => (EmptyString, EmptyString, false)
  | String a r =>
      if Ascii.eqb a c then (EmptyString, r, true)
      else let '(b, t, ok) := cut_char c r in (String a b, t, ok)
  end.

(** [strings.Index s p]: the text after the first occurrence of [p]. *)
Fixpoint after_str (p s : string) : option string :=
  match cut_prefix p s with
  | Some r => Some r
  | None => match s with EmptyString => None | String _ r => after_str p r end
  end.
Definition contains (s p : string) : bool :=
  match after_str p s with Some _ => true | None => false end.

Lemma sapp_nil_r s : (s ++ EmptyString)%string = s.
Proof. induction s as [|c s IH]; [done|]. by rewrite sapp_cons, IH. Qed.
Lemma sapp_assoc a b c : (a +:+ b) +:+ c = a +:+ (b +:+ c).
Proof. induction a as [|x a IH]; [done|]. rewrite !sapp_cons. by rewrite IH. Qed.
Lemma contains_any_app s t cs :
  contains_any (s +:+ t) cs = contains_any s cs || contains_any t cs.
Proof.
  induction s as [|a s IH]; [done|]. rewrite sapp_cons. cbn [contains_any].
  by rewrite IH, orb_assoc.
Qed.
Lemma slength_app s r : String.length (s ++ r)%string = (String.length s + String.length r)%nat.
Proof. induction s as [|c s IH]; [done|]. rewrite sapp_cons. cbn [String.length]. by rewrite IH. Qed.
Lemma cut_char_found c s : (cut_char c s).2 = mem_char c s.
Proof.
  induction s as [|a s IH]; [done|]. cbn [cut_char mem_char]. rewrite <- IH, (Ascii.eqb_sym c a).
  destruct (Ascii.eqb a c); [done|]. by destruct (cut_char c s) as [[b t] ok].
Qed.

(** [strings.Split s sep] for a one-byte separator. *)
Fixpoint split_char (c : ascii) (s : string) : list string :=
  match s with
  | EmptyString => [EmptyString]
  | String a r =>
      if Ascii.eqb a c then EmptyString :: split_char c r
      else match split_char c r with
           | [] => [String a EmptyString]
           | w :: ws => String a w :: ws
           end
  end.

(** [strings.Join]. *)
Fixpoint join (sep : string) (l : list string) : string :=
  match l with
  | [] => EmptyString
  | [w] => w
  | w :: ws => (w ++ sep ++ join sep ws)%string
  end.

(** ** Package net: addresses *)

Definition last_colon (s : string) : option (string * string) :=
  match rev (split_char ":" s) with
  | port :: h :: t => Some (join ":" (rev (h :: t)), port)
  | _ => None
  end.
(** [net.SplitHostPort]. *)
Definition SplitHostPort (s : string) : option (string * string) :=
  match last_colon s with
  | None => None
  | Some (host, port) =>
      match s with
      | String "["%char rest =>
          let '(inner, after, found) := cut_char "]" rest in
          if found && String.eqb after (":" +:+ port) && negb (mem_char "[" rest) && negb (mem_char "]" after)
          then Some (inner, port) else None
      | _ => if mem_char ":" host || mem_char "[" s || mem_char "]" s then None else Some (host, port)
      end
  end.

(** Membership in a table of strings (a Go [map[string]bool]). *)
Definition mem_string (x : string) (l : list string) : bool := existsb (String.eqb x) l.

Lemma mem_string_elem x l : mem_string x l = true <-> x ∈ l.
Proof.
  unfold mem_string. rewrite existsb_exists. split.
  - intros (y & Hy & ->%String.eqb_eq). by apply list_elem_of_In.
  - intros H. exists x. split; [by apply list_elem_of_In|apply String.eqb_refl].
Qed.

(** [strings.TrimLeft s cutset] for an ASCII cutset. *)
Fixpoint trim_left (cut : string) (s : string) : string :=
  match s with
  | EmptyString => EmptyString
  | String a r => if mem_char a cut then trim_left cut r else s
  end.
Definition trim_right (cut : string) (s : string) : string := srev (trim_left cut (srev s)).
Definition trim (cut : string) (s : string) : string := trim_right cut (trim_left cut s).

Definition chr (n : nat) : string := String (ascii_of_nat n) EmptyString.
Definition tab : string := chr 9.
Definition nl : string := chr 10.
Definition cr : string := chr 13.
Definition ff : string := chr 12.

(** [strings.TrimSpace]: the byte sequences of every Unicode white-space rune. *)
Definition space_seqs : list string :=
  map (join "")
    ([[" "%string]; [tab]; [nl]; [chr 11]; [ff]; [cr];
      [chr 194; chr 133]; [chr 194; chr 160]; [chr 225; chr 154; chr 128];
      [chr 226; chr 128; chr 168]; [chr 226; chr 128; chr 169];
      [chr 226; chr 128; chr 175]; [chr 226; chr 129; chr 159];
      [chr 227; chr 128; chr 128]] ++
     map (fun k => [chr 226; chr 128; chr (128 + k)]) (seq 0 11)).

Fixpoint strip_first (seqs : list string) (s : string) : option string :=
  match seqs with
  | [] => None
  | q :: qs => match cut_prefix q s with Some r => Some r | None => strip_first qs s end
  end.
Fixpoint trim_seqs (fuel : nat) (seqs : list string) (s : string) : string :=
  match fuel with
  | O => s
  | S n => match strip_first seqs s with Some r => trim_seqs n seqs r | None => s end
  end.
Definition trim_space (s : string) : string :=
  let l := trim_seqs (String.length s) space_seqs s in
  srev (trim_seqs (String.length l) (map srev space_seqs) (srev l)).

(** ** Package strconv: decimal integers *)

Definition digit (c : ascii) : option Z :=
  let n := Z.of_nat (nat_of_ascii c) in
  if (48 <=? n) && (n <=? 57) then Some (n - 48) else None.

Fixpoint digits_val (acc : Z) (s : string) : option Z :=
  match s with
  | EmptyString => Some acc
  | String c r => match digit c with Some d => digits_val (acc * 10 + d) r | None => None end
  end.

(** [strconv.ParseBool]. *)
Definition ParseBool (s : string) : option bool :=
  if mem_string s ["1"; "t"; "T"; "TRUE"; "true"; "True"]%string then Some true
  else if mem_string s ["0"; "f"; "F"; "FALSE"; "false"; "False"]%string then Some false else None.

(** [strconv.FormatInt(n, 10)]. *)
Definition format_int (z : Z) : string := NilZero.string_of_int (Z.to_int z).
Definition format_uint : Z -> string := format_int.

(** [strconv.ParseUint(s, 10, 64)]. *)
Definition parse_uint64 (s : string) : option Z :=
  match s with
  | EmptyString => None
  | _ => match digits_val 0 s with
         | Some n => if n <? two64 then Some n else None
         | None => None
         end
  end.

(** [strconv.ParseInt(s, 10, 64)]: an optional sign, then digits, then the range check. *)
Definition parse_int64 (s : string) : option Z :=
  let '(neg, body) := match s with
    | String "-" r => (true, r)
    | String "+" r => (false, r)
    | _ => (false, s)
    end in
  match parse_uint64 body with
  | Some n =>
      if neg then (if n <=? two63 then Some (- n) else None)
      else if n <? two63 then Some n else None
  | None => None
  end.

Lemma digits_val_step c d r acc :
  digit c = Some d -> digits_val acc (String c r) = digits_val (acc * 10 + d) r.
Proof. intros H. cbn [digits_val]. by rewrite H. Qed.

Ltac digits_step := erewrite digits_val_step by (vm_compute; reflexivity).

Lemma digits_val_acc u p :
  digits_val (Z.pos p) (NilEmpty.string_of_uint u) = Some (Z.pos (Pos.of_uint_acc u p)).
Proof.
  revert p. induction u; intros p; cbn [NilEmpty.string_of_uint Pos.of_uint_acc];
    [done|..]; digits_step; (etransitivity; [|apply IHu]); f_equal; lia.
Qed.

Lemma digits_val_uint u :
  digits_val 0 (NilEmpty.string_of_uint u) = Some (Z.of_uint u).
Proof.
  induction u; cbn [NilEmpty.string_of_uint]; [done|..]; digits_step;
    [exact IHu|..]; apply digits_val_acc.
Qed.

Lemma digits_val_nilzero u :
  digits_val 0 (NilZero.string_of_uint u) = Some (Z.of_uint u).
Proof. destruct u; try apply digits_val_uint. reflexivity. Qed.

Lemma parse_uint64_nilzero u :
  Z.of_uint u < two64 -> parse_uint64 (NilZero.string_of_uint u) = Some (Z.of_uint u).
Proof.
  intros H. unfold parse_uint64. rewrite digits_val_nilzero.
  destruct u; simpl NilZero.string_of_uint; try (by rewrite (proj2 (Z.ltb_lt _ _) H)).
Qed.

Lemma parse_format_uint z : in_u64 z -> parse_uint64 (format_uint z) = Some z.
Proof.
  intros [H0 H]. unfold format_uint, format_int.
  destruct z as [|p|p]; [reflexivity| |lia].
  cbn [Z.to_int NilZero.string_of_int].
  assert (E : Z.of_uint (Pos.to_uint p) = Z.pos p) by exact (DecimalZ.of_to (Z.pos p)).
  rewrite parse_uint64_nilzero; rewrite E; done.
Qed.

Lemma parse_int64_unsigned u :
  Z.of_uint u < two63 -> parse_int64 (NilZero.string_of_uint u) = Some (Z.of_uint u).
Proof.
  intros H. unfold parse_int64.
  assert (Hp := parse_uint64_nilzero u). unfold two63, two64 in *.
  destruct u; cbn -[parse_uint64 Z.of_uint] in *; rewrite Hp by lia;
    rewrite (proj2 (Z.ltb_lt _ _) H); reflexivity.
Qed.

(** [ParseInt] inverts [FormatInt] on every [int64]. *)
Lemma parse_format_int z : in_i64 z -> parse_int64 (format_int z) = Some z.
Proof.
  intros [Hl Hu]. unfold format_int.
  destruct z as [|p|p]; [reflexivity|..]; cbn [Z.to_int NilZero.string_of_int];
    assert (E : Z.of_uint (Pos.to_uint p) = Z.pos p) by exact (DecimalZ.of_to (Z.pos p)).
  - rewrite parse_int64_unsigned; rewrite E; done.
  - cbn -[parse_uint64 two63]. rewrite parse_uint64_nilzero; rewrite E;
      unfold two63, two64 in *; [|lia].
    rewrite (proj2 (Z.leb_le _ _)) by lia. reflexivity.
Qed.

Lemma digit_nonneg c d : digit c = Some d -> 0 <= d.
Proof. unfold digit. destruct (_ && _) eqn:E; [|done]. bool_to_prop. intros [= <-]. lia. Qed.

Lemma digits_val_nonneg s acc n : 0 <= acc -> digits_val acc s = Some n -> 0 <= n.
Proof.
  revert acc. induction s as [|c r IH]; intros acc Ha; cbn [digits_val]; [by intros [= <-]|].
  destruct (digit c) as [d|] eqn:E; [|done]. apply digit_nonneg in E. apply IH. lia.
Qed.

Lemma parse_uint64_range s n : parse_uint64 s = Some n -> in_u64 n.
Proof.
  unfold parse_uint64. destruct s as [|c r]; [done|].
  destruct (digits_val 0 (String c r)) as [m|] eqn:E; [|done].
  apply digits_val_nonneg in E; [|done].
  destruct (m <? two64) eqn:E2; [|done]. intros [= <-]. bool_to_prop. done.
Qed.

Lemma parse_int64_range s n : parse_int64 s = Some n -> in_i64 n.
Proof.
  unfold parse_int64.
  destruct (match s with String "-" r => (true, r) | String "+" r => (false, r) | _ => (false, s) end)
    as [neg body].
  destruct (parse_uint64 body) as [m|] eqn:Em; [|done]. apply parse_uint64_range in Em as [Em _].
  unfold in_i64, two63 in *.
  destruct neg; case_match eqn:E; try done; intros [= <-]; bool_to_prop; lia.
Qed.

(** Decimal text contains no point and no exponent, which is what keeps an integer
    literal an integer on the wire. *)
Lemma nilempty_no_point u : contains_any (NilEmpty.string_of_uint u) ".eE" = false.
Proof. induction u; simpl; auto. Qed.

Lemma format_int_no_point z : contains_any (format_int z) ".eE" = false.
Proof.
  assert (H : forall u, contains_any (NilZero.string_of_uint u) ".eE" = false).
  { intros u. destruct u; try apply nilempty_no_point. reflexivity. }
  unfold format_int. destruct (Z.to_int z); cbn [NilZero.string_of_int]; [apply H|].
  cbn. apply H.
Qed.

Example parse_int64_min : parse_int64 "-9223372036854775808" = Some (-9223372036854775808).
Proof. reflexivity. Qed.
Example parse_int64_over : parse_int64 "9223372036854775808" = None.
Proof. reflexivity. Qed.
Example trim_space_ex : trim_space (tab ++ " a b " ++ chr 194 ++ chr 160 ++ nl)%string = "a b"%string.
Proof. reflexivity. Qed.

(** ** Package encoding/hex *)

Definition hex_digit (n : Z) : ascii :=
  ascii_of_nat (Z.to_nat (if n <? 10 then n + 48 else n + 87)).
Definition hex_encode (l : list byte) : string :=
  string_of_list_ascii (flat_map (fun b => [hex_digit (bz b / 16); hex_digit (bz b mod 16)]) l).

Definition hex_val (c : ascii) : option Z :=
  let n := Z.of_nat (nat_of_ascii c) in
  if (48 <=? n) && (n <=? 57) then Some (n - 48)
  else if (97 <=? n) && (n <=? 102) then Some (n - 87)
  else if (65 <=? n) && (n <=? 70) then Some (n - 55)
  else None.
Fixpoint hex_decode_list (l : list ascii) : option (list byte) :=
  match l with
  | [] => Some []
  | a :: b :: r =>
      match hex_val a, hex_val b, hex_decode_list r with
      | Some x, Some y, Some t => Some (zb (x * 16 + y) :: t)
      | _, _, _ => None
      end
  | [_] => None
  end.
Definition hex_decode (s : string) : option (list byte) := hex_decode_list (list_ascii_of_string s).

(** Every byte, for the finite checks. *)
Definition all_bytes : list byte := map (fun n => zb (Z.of_nat n)) (seq 0 256).

Lemma in_all_bytes b : In b all_bytes.
Proof.
  apply in_map_iff. exists (Z.to_nat (bz b)). pose proof (bz_range b).
  split; [rewrite Z2Nat.id by lia; apply zb_bz | apply in_seq; lia].
Qed.

Lemma byte_forall (P : byte -> bool) : forallb P all_bytes = true -> forall b, P b = true.
Proof. intros H b. rewrite forallb_forall in H. apply H, in_all_bytes. Qed.

Definition hex_byte_check (b : byte) : bool :=
  match hex_val (hex_digit (bz b / 16)), hex_val (hex_digit (bz b mod 16)) with
  | Some x, Some y => (x =? bz b / 16) && (y =? bz b mod 16)
  | _, _ => false
  end.

Lemma hex_byte_ok b :
  hex_val (hex_digit (bz b / 16)) = Some (bz b / 16) /\
  hex_val (hex_digit (bz b mod 16)) = Some (bz b mod 16).
Proof.
  assert (H : hex_byte_check b = true) by (apply byte_forall; vm_compute; reflexivity).
  unfold hex_byte_check in H. repeat (case_match; try discriminate).
  bool_to_prop. subst. done.
Qed.

Lemma hex_decode_encode l : hex_decode (hex_encode l) = Some l.
Proof.
  unfold hex_decode, hex_encode. rewrite list_ascii_of_string_of_list_ascii.
  induction l as [|b l IH]; [reflexivity|].
  cbn -[hex_val hex_digit Z.div Z.modulo].
  destruct (hex_byte_ok b) as [-> ->]. rewrite IH.
  f_equal. f_equal.
  replace (bz b / 16 * 16 + bz b mod 16) with (bz b); [apply zb_bz|].
  pose proof (Z.div_mod (bz b) 16). lia.
Qed.

Lemma hex_encode_inj l k : hex_encode l = hex_encode k -> l = k.
Proof.
  intros H. apply (f_equal hex_decode) in H. rewrite !hex_decode_encode in H. congruence.
Qed.

(** ** Package net/url: the query string *)

Fixpoint QueryUnescape (s : string) : option string :=
  match s with
  | EmptyString => Some EmptyString
  | String c r =>
      if Ascii.eqb c "%" then
        match r with
        | String a (String b r') =>
            match hex_val a, hex_val b with
            | Some x, Some y => String (ascii_of_nat (Z.to_nat (16 * x + y))) <$> QueryUnescape r'
            | _, _ => None
            end
        | _ => None
        end
      else String (if Ascii.eqb c "+" then " "%char else c) <$> QueryUnescape r
  end.
(** [url.Values], in the order of the query string. *)
Definition values : Type := list (string * string).
(** [url.URL.Query]: a pair that does not decode, or holds a semicolon, is dropped. *)
Definition query_pair (s : string) : option (string * string) :=
  if String.eqb s "" || mem_char ";" s then None else
  let '(k, v, _) := cut_char "=" s in
  match QueryUnescape k, QueryUnescape v with Some k, Some v => Some (k, v) | _, _ => None end.
Definition ParseQuery (raw : string) : values := omap query_pair (split_char "&" raw).

(** ** A background loop

    [for { select { case <-ctx.Done(): ...; return; case <-t.C: ... } }], for the signals it
    receives: the ticks, with what each brings, and the cancellation.  The boolean says
    whether it still runs. *)
Inductive signal (T : Type) : Type := Tick (t : T) | Cancelled.
Arguments Tick {T} t. Arguments Cancelled {T}.
Fixpoint ticker {W T : Type} (on_tick : W -> T -> W) (on_done : W -> W) (w : W) (ss : list (signal T)) : W * bool :=
  match ss with
  | [] => (w, true)
  | Tick t :: rest => ticker on_tick on_done (on_tick w t) rest
  | Cancelled :: _ => (on_done w, false)
  end.

Lemma ticker_inv {W T} (on_tick : W -> T -> W) on_done (P : W -> Prop) ss : (forall w t, P w -> P (on_tick w t)) -> (forall w, P w -> P (on_done w)) ->
  forall w, P w -> P (ticker on_tick on_done w ss).1.
Proof. intros Ht Hd. induction ss as [|[t|] ss IH]; intros w Hw; cbn [ticker fst]; auto. Qed.
Lemma ticker_done {W T} (on_tick : W -> T -> W) on_done (Q : W -> Prop) ss : (forall w, Q (on_done w)) ->
  forall w, (ticker on_tick on_done w ss).2 = false -> Q (ticker on_tick on_done w ss).1.
Proof. intros Hd. induction ss as [|[t|] ss IH]; intros w; cbn [ticker fst snd]; [done|apply IH|intros _; apply Hd]. Qed.

(** ** Package time: two layouts of a UTC time in nanoseconds since the epoch *)

(** Days since 1970-01-01 as year, month and day of the Gregorian calendar. *)
Definition civil (days : Z) : Z * Z * Z :=
  let z := days + 719468 in
  let era := z / 146097 in
  let doe := z mod 146097 in
  let yoe := (doe - doe / 1460 + doe / 36524 - doe / 146096) / 365 in
  let doy := doe - (365 * yoe + yoe / 4 - yoe / 100) in
  let mp := (5 * doy + 2) / 153 in
  let m := if mp <? 10 then mp + 3 else mp - 9 in
  (yoe + era * 400 + (if m <=? 2 then 1 else 0), m, doy - (153 * mp + 2) / 5 + 1).
Fixpoint zeros (n : nat) : string := match n with O => EmptyString | S k => String "0" (zeros k) end.
Definition padded (n : nat) (z : Z) : string := let s := format_int z in zeros (n - String.length s) +:+ s.
Definition clock (secs : Z) : string :=
  let t := secs mod 86400 in padded 2 (t / 3600) +:+ ":" +:+ padded 2 (t / 60 mod 60) +:+ ":" +:+ padded 2 (t mod 60).
(** [t.UTC().Format(time.RFC3339)]. *)
Definition RFC3339 (t : Z) : string :=
  let secs := t / second in
  let '(y, m, d) := civil (secs / 86400) in
  padded 4 y +:+ "-" +:+ padded 2 m +:+ "-" +:+ padded 2 d +:+ "T" +:+ clock secs +:+ "Z".
(** [http.TimeFormat]. *)
Definition http_time (t : Z) : string :=
  let secs := t / second in
  let days := secs / 86400 in
  let '(y, m, d) := civil days in
  nth (Z.to_nat ((days + 4) mod 7)) ["Sun"; "Mon"; "Tue"; "Wed"; "Thu"; "Fri"; "Sat"]%string "" +:+ ", " +:+ padded 2 d +:+ " " +:+
  nth (Z.to_nat (m - 1)) ["Jan"; "Feb"; "Mar"; "Apr"; "May"; "Jun"; "Jul"; "Aug"; "Sep"; "Oct"; "Nov"; "Dec"]%string "" +:+ " " +:+
  padded 4 y +:+ " " +:+ clock secs +:+ " GMT".

Example formatted : RFC3339 (1700000000 * second) = "2023-11-14T22:13:20Z"%string /\ RFC3339 0 = "1970-01-01T00:00:00Z"%string /\
  http_time (951782400 * second) = "Tue, 29 Feb 2000 00:00:00 GMT"%string.
Proof. vm_compute. done. Qed.
