(* ===== verification/Crypto.v ===== *)
(** * encoding/base64, crypto/sha256 and crypto/hmac

    Executable models of the three packages behind every unforgeable string of the
    server (stream batons, session tokens, challenges).  They are checked against the
    published test vectors at the end of the file. *)
From S2P Require Import Prelude GoStd.

(** ** encoding/base64 *)

Inductive b64 : Type := StdEncoding | RawURLEncoding.

Definition b64_alphabet (e : b64) : string :=
  match e with
  | StdEncoding => "ABCDEFGHIJKLMNOPQRSTUVWXYZabcdefghijklmnopqrstuvwxyz0123456789+/"
  | RawURLEncoding => "ABCDEFGHIJKLMNOPQRSTUVWXYZabcdefghijklmnopqrstuvwxyz0123456789-_"
  end.
Definition b64_padded (e : b64) : bool :=
  match e with StdEncoding => true | RawURLEncoding => false end.

Definition b64_char (e : b64) (n : Z) : ascii :=
  default "A"%char (String.get (Z.to_nat n) (b64_alphabet e)).

Definition b64_val (e : b64) (c : ascii) : option Z :=
  let n := Z.of_nat (nat_of_ascii c) in
  if (65 <=? n) && (n <=? 90) then Some (n - 65)
  else if (97 <=? n) && (n <=? 122) then Some (n - 71)
  else if (48 <=? n) && (n <=? 57) then Some (n + 4)
  else match e with
       | StdEncoding => if n =? 43 then Some 62 else if n =? 47 then Some 63 else None
       | RawURLEncoding => if n =? 45 then Some 62 else if n =? 95 then Some 63 else None
       end.

Definition pad_char : ascii := "="%char.

Fixpoint b64_enc (e : b64) (l : list byte) : list ascii :=
  let ch := b64_char e in
  match l with
  | [] => []
  | [a] =>
      let v := bz a * 16 in
      [ch (v / 64); ch (v mod 64)] ++ (if b64_padded e then [pad_char; pad_char] else [])
  | [a; b] =>
      let v := bz a * 1024 + bz b * 4 in
      [ch (v / 4096); ch (v / 64 mod 64); ch (v mod 64)] ++
      (if b64_padded e then [pad_char] else [])
  | a :: b :: c :: r =>
      let v := bz a * 65536 + bz b * 256 + bz c in
      [ch (v / 262144); ch (v / 4096 mod 64); ch (v / 64 mod 64); ch (v mod 64)] ++ b64_enc e r
  end.

(** Non-strict decoding: trailing bits of the last quantum are ignored. *)
Fixpoint b64_dec (e : b64) (l : list ascii) : option (list byte) :=
  let v := b64_val e in
  match l with
  | [] => Some []
  | [_] => None
  | [c1; c2] =>
      if b64_padded e then None else
      match v c1, v c2 with
      | Some x, Some y => Some [zb ((x * 64 + y) / 16)]
      | _, _ => None
      end
  | [c1; c2; c3] =>
      if b64_padded e then None else
      match v c1, v c2, v c3 with
      | Some x, Some y, Some z =>
          let w := (x * 4096 + y * 64 + z) / 4 in Some [zb (w / 256); zb w]
      | _, _, _ => None
      end
  | c1 :: c2 :: c3 :: c4 :: r =>
      match v c1, v c2 with
      | Some x, Some y =>
          match v c3, v c4 with
          | Some z, Some w =>
              let n := x * 262144 + y * 4096 + z * 64 + w in
              match b64_dec e r with
              | Some t => Some (zb (n / 65536) :: zb (n / 256) :: zb n :: t)
              | None => None
              end
          | Some z, None =>
              if b64_padded e && Ascii.eqb c4 pad_char && bool_decide (r = []) then
                let w := (x * 4096 + y * 64 + z) / 4 in Some [zb (w / 256); zb w]
              else None
          | None, _ =>
              if b64_padded e && Ascii.eqb c3 pad_char && Ascii.eqb c4 pad_char
                 && bool_decide (r = []) then Some [zb ((x * 64 + y) / 16)]
              else None
          end
      | _, _ => None
      end
  end.

Definition not_newline (c : ascii) : bool :=
  negb (Ascii.eqb c (ascii_of_nat 10)) && negb (Ascii.eqb c (ascii_of_nat 13)).

(** [enc.EncodeToString] and [enc.DecodeString]. *)
Definition b64_encode (e : b64) (l : list byte) : string := string_of_list_ascii (b64_enc e l).
Definition b64_decode (e : b64) (s : string) : option (list byte) :=
  b64_dec e (List.filter not_newline (list_ascii_of_string s)).

Lemma list_ind3 {A} (P : list A -> Prop) :
  P [] -> (forall a, P [a]) -> (forall a b, P [a; b]) ->
  (forall a b c r, P r -> P (a :: b :: c :: r)) -> forall l, P l.
Proof.
  intros H0 H1 H2 H3 l.
  assert (P l /\ (forall a, P (a :: l)) /\ (forall a b, P (a :: b :: l))) as [? _]; [|done].
  induction l as [|x l (IH0 & IH1 & IH2)]; auto.
Qed.

Definition sextet_check (e : b64) (n : nat) : bool :=
  let c := b64_char e (Z.of_nat n) in
  match b64_val e c with
  | Some m => (m =? Z.of_nat n) && not_newline c
  | None => false
  end.

Lemma b64_char_ok e n : 0 <= n < 64 ->
  b64_val e (b64_char e n) = Some n /\ not_newline (b64_char e n) = true.
Proof.
  intros Hn.
  assert (Hall : forallb (sextet_check e) (seq 0 64) = true) by (by destruct e).
  rewrite forallb_forall in Hall.
  specialize (Hall (Z.to_nat n)). unfold sextet_check in Hall.
  rewrite Z2Nat.id in Hall by lia.
  specialize (Hall ltac:(apply in_seq; lia)).
  destruct (b64_val e (b64_char e n)); [|discriminate]. bool_to_prop. by subst.
Qed.

Lemma b64_val_char e n : 0 <= n < 64 -> b64_val e (b64_char e n) = Some n.
Proof. intros. by apply b64_char_ok. Qed.

Lemma not_newline_pad : not_newline pad_char = true.
Proof. reflexivity. Qed.

Ltac bytes_in_range :=
  repeat match goal with
  | b : Byte.byte |- _ =>
      lazymatch goal with H : 0 <= bz b < 256 |- _ => fail | _ => pose proof (bz_range b) end
  end.

Ltac sextet_range := bytes_in_range; split; [Z.to_euclidean_division_equations; lia ..].

Lemma b64_enc_no_newline e l : List.filter not_newline (b64_enc e l) = b64_enc e l.
Proof.
  assert (Hc : forall n, 0 <= n < 64 -> not_newline (b64_char e n) = true)
    by (intros; by apply b64_char_ok).
  induction l as [|a|a b|a b c r IH] using list_ind3; [done|..];
    cbn [b64_enc List.filter app]; rewrite ?Hc by sextet_range.
  - by destruct e.
  - by destruct e.
  - by rewrite IH.
Qed.

Lemma zb_of b z : z = bz b -> zb z = b.
Proof. intros ->. apply zb_bz. Qed.

Lemma zb_of_mod b z : z mod 256 = bz b -> zb z = b.
Proof. intros H. unfold zb. rewrite H. pose proof (zb_bz b) as Hb. unfold zb in Hb.
  rewrite Z.mod_small in Hb by apply bz_range. done. Qed.

Lemma b64_dec_enc e l : b64_dec e (b64_enc e l) = Some l.
Proof.
  induction l as [|a|a b|a b c r IH] using list_ind3; [done|..].
  - destruct e; cbn [b64_enc b64_dec b64_padded app];
      rewrite ?b64_val_char by sextet_range; cbn -[zb Z.mul Z.div Z.modulo Z.add];
      do 2 f_equal; apply zb_of; bytes_in_range; Z.to_euclidean_division_equations; lia.
  - destruct e; cbn [b64_enc b64_dec b64_padded app];
      rewrite ?b64_val_char by sextet_range; cbn -[zb Z.mul Z.div Z.modulo Z.add];
      do 2 f_equal; [apply zb_of|f_equal; apply zb_of_mod|apply zb_of|f_equal; apply zb_of_mod];
      bytes_in_range; Z.to_euclidean_division_equations; lia.
  - cbn [b64_enc b64_dec app]. rewrite ?b64_val_char by sextet_range. rewrite IH.
    do 2 f_equal; [apply zb_of|f_equal; [apply zb_of_mod|f_equal; apply zb_of_mod]];
      bytes_in_range; Z.to_euclidean_division_equations; lia.
Qed.

Lemma b64_decode_encode e l : b64_decode e (b64_encode e l) = Some l.
Proof.
  unfold b64_decode, b64_encode. rewrite list_ascii_of_string_of_list_ascii.
  rewrite b64_enc_no_newline. apply b64_dec_enc.
Qed.

Lemma b64_encode_inj e l k : b64_encode e l = b64_encode e k -> l = k.
Proof.
  intros H. apply (f_equal (b64_decode e)) in H. rewrite !b64_decode_encode in H. congruence.
Qed.

#[export] Hint Rewrite b64_decode_encode : quic_rw.

(** ** crypto/sha256 *)

Module Sha256.

Definition w32 (z : Z) : Z := z mod two32.
Definition rotr (n x : Z) : Z := Z.lor (Z.shiftr x n) (w32 (Z.shiftl x (32 - n))).

Definition K : list Z :=
  [
    1116352408; 1899447441; 3049323471; 3921009573; 961987163; 1508970993;
    2453635748; 2870763221; 3624381080; 310598401; 607225278; 1426881987;
    1925078388; 2162078206; 2614888103; 3248222580; 3835390401; 4022224774;
    264347078; 604807628; 770255983; 1249150122; 1555081692; 1996064986; 2554220882;
    2821834349; 2952996808; 3210313671; 3336571891; 3584528711; 113926993;
    338241895; 666307205; 773529912; 1294757372; 1396182291; 1695183700; 1986661051;
    2177026350; 2456956037; 2730485921; 2820302411; 3259730800; 3345764771;
    3516065817; 3600352804; 4094571909; 275423344; 430227734; 506948616; 659060556;
    883997877; 958139571; 1322822218; 1537002063; 1747873779; 1955562222;
    2024104815; 2227730452; 2361852424; 2428436474; 2756734187; 3204031479;
    3329325298].

Record state := St { ha : Z; hb : Z; hc : Z; hd : Z; he : Z; hf : Z; hg : Z; hh : Z }.

Definition init : state :=
  St 1779033703 3144134277 1013904242 2773480762
     1359893119 2600822924 528734635 1541459225.

Definition pad (m : list byte) : list byte :=
  let n := Z.of_nat (length m) in
  m ++ [Byte.x80] ++ repeat Byte.x00 (Z.to_nat ((55 - n) mod 64)) ++ put_be 8 (8 * n).

Fixpoint words (l : list byte) : list Z :=
  match l with
  | a :: b :: c :: d :: r => get_be [a; b; c; d] :: words r
  | _ => []
  end.

(** The message schedule, newest word first. *)
Fixpoint schedule (n : nat) (rev_w : list Z) : list Z :=
  match n with
  | O => rev_w
  | S m =>
      let at_ k := nth k rev_w 0 in
      let s0 := Z.lxor (Z.lxor (rotr 7 (at_ 14%nat)) (rotr 18 (at_ 14%nat))) (Z.shiftr (at_ 14%nat) 3) in
      let s1 := Z.lxor (Z.lxor (rotr 17 (at_ 1%nat)) (rotr 19 (at_ 1%nat))) (Z.shiftr (at_ 1%nat) 10) in
      schedule m (w32 (at_ 15%nat + s0 + at_ 6%nat + s1) :: rev_w)
  end.

Definition round (s : state) (kw : Z * Z) : state :=
  let '(k, w) := kw in
  let s1 := Z.lxor (Z.lxor (rotr 6 (he s)) (rotr 11 (he s))) (rotr 25 (he s)) in
  let ch := Z.lxor (Z.land (he s) (hf s)) (Z.land (two32 - 1 - he s) (hg s)) in
  let t1 := hh s + s1 + ch + k + w in
  let s0 := Z.lxor (Z.lxor (rotr 2 (ha s)) (rotr 13 (ha s))) (rotr 22 (ha s)) in
  let mj := Z.lxor (Z.lxor (Z.land (ha s) (hb s)) (Z.land (ha s) (hc s))) (Z.land (hb s) (hc s)) in
  St (w32 (t1 + s0 + mj)) (ha s) (hb s) (hc s) (w32 (hd s + t1)) (he s) (hf s) (hg s).

Definition add_state (a b : state) : state :=
  St (w32 (ha a + ha b)) (w32 (hb a + hb b)) (w32 (hc a + hc b)) (w32 (hd a + hd b))
     (w32 (he a + he b)) (w32 (hf a + hf b)) (w32 (hg a + hg b)) (w32 (hh a + hh b)).

Definition block (s : state) (ws : list Z) : state :=
  add_state s (fold_left round (combine K (rev (schedule 48 (rev ws)))) s).

Fixpoint blocks (fuel : nat) (s : state) (ws : list Z) : state :=
  match fuel with
  | O => s
  | S n => match ws with [] => s | _ => blocks n (block s (take 16 ws)) (drop 16 ws) end
  end.

(** [sha256.Sum256]. *)
Definition sum (m : list byte) : list byte :=
  let ws := words (pad m) in
  let s := blocks (length ws) init ws in
  flat_map (put_be 4) [ha s; hb s; hc s; hd s; he s; hf s; hg s; hh s].

Lemma length_sum m : length (sum m) = 32%nat.
Proof. reflexivity. Qed.

End Sha256.

(** ** crypto/hmac over SHA-256 *)

Definition xor_bytes (k : Z) (l : list byte) : list byte := map (fun b => zb (Z.lxor (bz b) k)) l.
Definition hmac_sha256 (key msg : list byte) : list byte :=
  let k0 := if (64 <? Z.of_nat (length key)) then Sha256.sum key else key in
  let k := k0 ++ repeat Byte.x00 (64 - length k0) in
  Sha256.sum (xor_bytes 92 k ++ Sha256.sum (xor_bytes 54 k ++ msg)).

(** [hmac.Equal] / [subtle.ConstantTimeCompare]: equality of byte strings. *)
Definition bytes_eqb (a b : list byte) : bool := bool_decide (a = b).

Lemma length_hmac k m : length (hmac_sha256 k m) = 32%nat.
Proof. apply Sha256.length_sum. Qed.

#[export] Hint Rewrite length_hmac : quic_rw.
#[global] Opaque hmac_sha256.

(** Hex digests of the published test vectors (FIPS 180-4 "abc", RFC 4231 case 2). *)
Example sha256_abc :
  hex_encode (Sha256.sum (bytes_of "abc")) =
  "ba7816bf8f01cfea414140de5dae2223b00361a396177a9cb410ff61f20015ad"%string.
Proof. vm_compute. reflexivity. Qed.
Example hmac_rfc4231 :
  hex_encode (hmac_sha256 (bytes_of "Jefe") (bytes_of "what do ya want for nothing?")) =
  "5bdcc146bf60754e6a042426089575c75a003f089d2739839dec58b964ec3843"%string.
Proof. vm_compute. reflexivity. Qed.
Example b64_ex : b64_encode StdEncoding (bytes_of "sure.") = "c3VyZS4="%string.
Proof. reflexivity. Qed.
Example b64_bad : b64_decode RawURLEncoding "c3VyZS4=" = None.
Proof. reflexivity. Qed.
