(* ===== verification/Wire.v ===== *)
(** * internal/wire: the canonical value union and its two JSON codecs

    [src/internal/wire/value.go], [codec.go], [codes.go], [keyring.go].  JSON documents
    are modelled as syntax trees whose numbers keep their literal text (the decoders
    use [json.Number]); the float formatter and parser of [strconv] are the class
    [FloatText], with their documented inverse law as [FloatTextLaws]. *)
From S2P Require Import Prelude GoStd Crypto.
From Stdlib Require Import Floats.SpecFloat DecimalString.

(** ** JSON documents *)

Inductive json : Type :=
| JNull
| JBool (b : bool)
| JNum (lit : string)
| JStr (s : string)
| JArr (l : list json)
| JObj (kvs : list (string * json)).

(** ** UTF-8: what [json.Marshal] does to a string that is not valid UTF-8 *)

Definition in_rng (lo hi : nat) (s : string) : bool :=
  match s with
  | EmptyString => false
  | String c _ => (lo <=? nat_of_ascii c)%nat && (nat_of_ascii c <=? hi)%nat
  end.
Definition stail (s : string) : string := match s with EmptyString => EmptyString | String _ r => r end.

(** Width of the first rune, 0 when the leading bytes are not valid UTF-8. *)
Definition rune_width (s : string) : nat :=
  let t1 := stail s in let t2 := stail t1 in let t3 := stail t2 in
  let cont := in_rng 128 191 in
  if in_rng 0 127 s then 1
  else if in_rng 194 223 s then (if cont t1 then 2 else 0)
  else if in_rng 224 239 s then
    (if in_rng 224 224 s then (if in_rng 160 191 t1 && cont t2 then 3 else 0)
     else if in_rng 237 237 s then (if in_rng 128 159 t1 && cont t2 then 3 else 0)
     else (if cont t1 && cont t2 then 3 else 0))
  else if in_rng 240 244 s then
    (if in_rng 240 240 s then (if in_rng 144 191 t1 && cont t2 && cont t3 then 4 else 0)
     else if in_rng 244 244 s then (if in_rng 128 143 t1 && cont t2 && cont t3 then 4 else 0)
     else (if cont t1 && cont t2 && cont t3 then 4 else 0))
  else 0.

Fixpoint stake (n : nat) (s : string) : string :=
  match n, s with S m, String c r => String c (stake m r) | _, _ => EmptyString end.
Fixpoint sdrop (n : nat) (s : string) : string :=
  match n, s with S m, String _ r => sdrop m r | _, _ => s end.

Definition replacement : string := chr 239 +:+ chr 191 +:+ chr 189.

(** [utf8_coerce]: every invalid byte becomes U+FFFD. *)
Fixpoint utf8_coerce_fuel (fuel : nat) (s : string) : string :=
  match fuel with
  | O => EmptyString
  | S n =>
      match s with
      | EmptyString => EmptyString
      | String _ r =>
          match rune_width s with
          | O => replacement +:+ utf8_coerce_fuel n r
          | w => stake w s +:+ utf8_coerce_fuel n (sdrop w s)
          end
      end
  end.
Definition utf8_coerce (s : string) : string := utf8_coerce_fuel (String.length s) s.

Fixpoint utf8_valid_fuel (fuel : nat) (s : string) : bool :=
  match fuel with
  | O => true
  | S n =>
      match s with
      | EmptyString => true
      | _ => match rune_width s with O => false | w => utf8_valid_fuel n (sdrop w s) end
      end
  end.
Definition utf8_valid (s : string) : bool := utf8_valid_fuel (String.length s) s.

Fixpoint is_ascii (s : string) : bool :=
  match s with EmptyString => true | String c r => (nat_of_ascii c <=? 127)%nat && is_ascii r end.

(** ** Values *)

Inductive value : Type :=
| VNull
| VInt (n : Z)
| VFloat (f : spec_float)
| VText (s : string)
| VBlob (b : list byte).

(** The dynamic types [FromGo] switches on.  [GInt] is every integer type that fits
    an [int64], [GUint] the unsigned 64-bit ones, [GOther] any other type with its
    [fmt.Sprint] text. *)
Inductive goany : Type :=
| GNil
| GBool (b : bool)
| GInt (n : Z)
| GUint (n : Z)
| GFloat32 (f : spec_float)
| GFloat64 (f : spec_float)
| GString (s : string)
| GBytes (b : list byte)
| GTime (t : Z)
| GNumber (lit : string)
| GOther (sprint : string).

Definition bool_value (b : bool) : value := if b then VInt 1 else VInt 0.

Definition uintValue (u : Z) : value :=
  if u <? two63 then VInt u else VText (format_uint u).

(** [math.IsInf || math.IsNaN]. *)
Definition non_finite (f : spec_float) : bool :=
  match f with S754_infinity _ | S754_nan => true | _ => false end.

(** [float64(t)] of a [float32]. *)
Definition widen (f : spec_float) : spec_float :=
  match f with
  | S754_finite s m e => binary_normalize 53 1024 (if s then Z.neg m else Z.pos m) e s
  | _ => f
  end.

(** Formatting and parsing of [float64] and [time.Time] (packages strconv, time):
    [format_g] is [FormatFloat(f, 'g', -1, 64)], [format_json] the shortest form
    [json.Marshal] writes, [parse_float] is [ParseFloat(s, 64)] ([None] on a syntax or
    range error), [format_time] is [t.Format(time.RFC3339Nano)]. *)
Class FloatText := {
  format_g : spec_float -> string;
  format_json : spec_float -> string;
  parse_float : string -> option spec_float;
  format_time : Z -> string
}.

Definition finite_float (f : spec_float) : bool :=
  negb (non_finite f) && valid_binary 53 1024 f.

(** The documented contract of precision -1: the text parses back to the same float,
    and a decimal point with a zero after an integer form does not change its value. *)
Class FloatTextLaws `{FloatText} := {
  parse_format_g f : finite_float f = true -> parse_float (format_g f) = Some f;
  parse_format_g_point f : finite_float f = true ->
    contains_any (format_g f) ".eE" = false ->
    parse_float (format_g f +:+ ".0") = Some f;
  parse_format_json f : finite_float f = true -> parse_float (format_json f) = Some f;
  parse_float_valid s f : parse_float s = Some f -> valid_binary 53 1024 f = true
}.

Inductive wire_err : Type :=
| ErrJSON
| ErrUnsupportedObject
| ErrBase64NotString
| ErrInvalidBase64
| ErrUnsupportedType
| ErrBadInteger
| ErrUnknownType (t : string)
| ErrArg (i : nat) (e : wire_err).

Section Codec.
Context `{FT : FloatText}.

Definition numberValue (s : string) : value :=
  if contains_any s ".eE" then
    match parse_float s with Some f => VFloat f | None => VText s end
  else
    match parse_int64 s with
    | Some i => VInt i
    | None => match parse_float s with Some f => VFloat f | None => VText s end
    end.

Definition FromGo (x : goany) : value :=
  match x with
  | GNil => VNull
  | GBool b => bool_value b
  | GInt n => VInt n
  | GUint n => uintValue n
  | GFloat32 f => VFloat (widen f)
  | GFloat64 f => VFloat f
  | GString s => VText s
  | GBytes b => VBlob b
  | GTime t => VText (format_time t)
  | GNumber lit => numberValue lit
  | GOther s => VText s
  end.

(** [Value.Go], and [Value.Arg] which is the same function. *)
Definition Go (v : value) : goany :=
  match v with
  | VInt n => GInt n
  | VFloat f => GFloat64 f
  | VText s => GString s
  | VBlob b => GBytes b
  | VNull => GNil
  end.
Definition Arg (v : value) : goany := Go v.

Definition Size (v : value) : Z :=
  match v with
  | VText s => Z.of_nat (String.length s)
  | VBlob b => Z.of_nat (length b)
  | _ => 8
  end.

(** [json.Marshal] of a Go string. *)
Definition marshal_string (s : string) : json := JStr (utf8_coerce s).

(** *** The native (bare JSON) codec *)

Definition floatNativeJSON (f : spec_float) : json :=
  if non_finite f then JNull
  else let s := format_g f in
       JNum (if contains_any s ".eE" then s else s +:+ ".0").

Definition NativeValue_MarshalJSON (v : value) : json :=
  match v with
  | VInt n => JNum (format_int n)
  | VFloat f => floatNativeJSON f
  | VText s => marshal_string s
  | VBlob b => JObj [("base64", marshal_string (b64_encode StdEncoding b))]%string
  | VNull => JNull
  end.

(** [map[string]any]: later duplicates replace earlier ones. *)
Definition obj_map (kvs : list (string * json)) : gmap string json :=
  fold_left (fun m kv => <[kv.1 := kv.2]> m) kvs ∅.

Definition fromNativeAny (x : json) : result wire_err value :=
  match x with
  | JNull => Ok VNull
  | JBool b => Ok (bool_value b)
  | JStr s => Ok (VText s)
  | JNum lit => Ok (numberValue lit)
  | JObj kvs =>
      let t := obj_map kvs in
      match t !! "base64"%string with
      | Some b =>
          if bool_decide (size t = 1%nat) then
            match b with
            | JStr s =>
                match b64_decode StdEncoding s with
                | Some data => Ok (VBlob data)
                | None => Err ErrInvalidBase64
                end
            | _ => Err ErrBase64NotString
            end
          else Err ErrUnsupportedObject
      | None => Err ErrUnsupportedObject
      end
  | JArr _ => Err ErrUnsupportedType
  end.

Definition NativeValue_UnmarshalJSON (b : json) : result wire_err value := fromNativeAny b.

Fixpoint DecodeNativeArgs_from (i : nat) (raw : list json) : result wire_err (list value) :=
  match raw with
  | [] => Ok []
  | r :: rs =>
      match NativeValue_UnmarshalJSON r with
      | Err e => Err (ErrArg i e)
      | Ok v => let* vs := DecodeNativeArgs_from (S i) rs in Ok (v :: vs)
      end
  end.
Definition DecodeNativeArgs : list json -> result wire_err (list value) := DecodeNativeArgs_from 0.

(** *** The Hrana (tagged) codec *)

Definition HranaValue_MarshalJSON (v : value) : json :=
  match v with
  | VInt n => JObj [("type", marshal_string "integer"); ("value", marshal_string (format_int n))]%string
  | VFloat f =>
      if non_finite f then JObj [("type", JStr "null")]%string
      else JObj [("type", marshal_string "float"); ("value", JNum (format_json f))]%string
  | VText s => JObj [("type", marshal_string "text"); ("value", marshal_string s)]%string
  | VBlob b => JObj [("base64", marshal_string (b64_encode StdEncoding b)); ("type", marshal_string "blob")]%string
  | VNull => JObj [("type", JStr "null")]%string
  end.

(** Decoding into a struct: [encoding/json] matches keys exactly or by case folding
    (which also folds the long s and the Kelvin sign), and later keys override. *)
Fixpoint fold_key (s : string) : string :=
  match s with
  | EmptyString => EmptyString
  | String c r =>
      if Ascii.eqb c (ascii_of_nat 197) then
        match r with
        | String d r' => if Ascii.eqb d (ascii_of_nat 191) then String "s" (fold_key r')
                         else String c (fold_key r)
        | EmptyString => String c EmptyString
        end
      else if Ascii.eqb c (ascii_of_nat 226) then
        match r with
        | String d (String d' r') =>
            if Ascii.eqb d (ascii_of_nat 132) && Ascii.eqb d' (ascii_of_nat 170)
            then String "k" (fold_key r') else String c (fold_key r)
        | _ => String c (fold_key r)
        end
      else String (lower_ascii c) (fold_key r)
  end.
Definition key_matches (name k : string) : bool := String.eqb (fold_key k) name.

(** A [string] field: [null] leaves it alone, a non-string is an error. *)
Fixpoint string_field (name cur : string) (kvs : list (string * json)) : result wire_err string :=
  match kvs with
  | [] => Ok cur
  | (k, v) :: r =>
      if key_matches name k then
        match v with
        | JStr s => string_field name s r
        | JNull => string_field name cur r
        | _ => Err ErrJSON
        end
      else string_field name cur r
  end.
(** A [json.RawMessage] field: the last matching member. *)
Fixpoint raw_field (name : string) (cur : option json) (kvs : list (string * json)) : option json :=
  match kvs with
  | [] => cur
  | (k, v) :: r => raw_field name (if key_matches name k then Some v else cur) r
  end.

(** [json.Unmarshal(raw, &s)] into a [string] and into a [float64]. *)
Definition unmarshal_string (raw : option json) : result wire_err string :=
  match raw with
  | Some (JStr s) => Ok s
  | Some JNull => Ok EmptyString
  | _ => Err ErrJSON
  end.
Definition unmarshal_float (raw : option json) : result wire_err spec_float :=
  match raw with
  | Some (JNum lit) => of_opt ErrJSON (parse_float lit)
  | Some JNull => Ok (S754_zero false)
  | _ => Err ErrJSON
  end.

Definition HranaValue_UnmarshalJSON (b : json) : result wire_err value :=
  let* kvs := match b with JObj kvs => Ok kvs | JNull => Ok [] | _ => Err ErrJSON end in
  let* ty := string_field "type" "" kvs in
  let* b64 := string_field "base64" "" kvs in
  let raw := raw_field "value" None kvs in
  if String.eqb ty "null" || String.eqb ty "" then Ok VNull
  else if String.eqb ty "integer" then
    let* s := unmarshal_string raw in
    let* i := of_opt ErrBadInteger (parse_int64 s) in Ok (VInt i)
  else if String.eqb ty "float" then
    let* f := unmarshal_float raw in Ok (VFloat f)
  else if String.eqb ty "text" then
    let* s := unmarshal_string raw in Ok (VText s)
  else if String.eqb ty "blob" then
    let* data := of_opt ErrInvalidBase64 (b64_decode StdEncoding b64) in Ok (VBlob data)
  else Err (ErrUnknownType ty).

End Codec.

(** ** SQLite result codes ([codes.go]) *)

Definition primaryNames : list (Z * string) :=
  [(1, "SQLITE_ERROR"); (5, "SQLITE_BUSY"); (6, "SQLITE_LOCKED"); (8, "SQLITE_READONLY");
   (9, "SQLITE_INTERRUPT"); (11, "SQLITE_CORRUPT"); (19, "SQLITE_CONSTRAINT");
   (20, "SQLITE_MISMATCH"); (23, "SQLITE_AUTH")]%string.
Definition extendedNames : list (Z * string) :=
  [(2067, "SQLITE_CONSTRAINT_UNIQUE"); (1555, "SQLITE_CONSTRAINT_PRIMARYKEY");
   (787, "SQLITE_CONSTRAINT_FOREIGNKEY"); (1299, "SQLITE_CONSTRAINT_NOTNULL");
   (275, "SQLITE_CONSTRAINT_CHECK")]%string.

Fixpoint code_lookup (k : Z) (m : list (Z * string)) : option string :=
  match m with
  | [] => None
  | (c, n) :: r => if c =? k then Some n else code_lookup k r
  end.

(** The inverse table: primary names first, then the extended ones over them. *)
Definition nameToCode : gmap string Z :=
  fold_left (fun m cn => <[cn.2 := cn.1]> m) (primaryNames ++ extendedNames) ∅.

Definition CodeName (primary : Z) : string :=
  default "SQLITE_ERROR"%string (code_lookup primary primaryNames).
Definition ExtendedCodeName (extended : Z) : string :=
  match code_lookup extended extendedNames with
  | Some n => n
  | None => CodeName (Z.land extended 255)
  end.
Definition CodeForName (name : string) : Z := zget nameToCode name.

(** ** The keyring signing input ([keyring.go]) *)

Definition KeyringSigningInput (challenge method path rawQuery : string) : list byte :=
  bytes_of (challenge +:+ nl +:+ method +:+ nl +:+ path +:+ nl +:+ rawQuery).

(** ** UTF-8 lemmas *)

Lemma rune_width_ascii c r : (nat_of_ascii c <= 127)%nat -> rune_width (String c r) = 1%nat.
Proof. intros H. unfold rune_width, in_rng. by rewrite (proj2 (Nat.leb_le _ 127)). Qed.

Lemma utf8_coerce_ascii_fuel s n :
  is_ascii s = true -> (String.length s <= n)%nat -> utf8_coerce_fuel n s = s.
Proof.
  revert n. induction s as [|c r IH]; intros [|n] Ha Hn; simpl in *; try lia; try done.
  apply andb_true_iff in Ha as [Hc Hr]. apply Nat.leb_le in Hc.
  rewrite rune_width_ascii by done. cbn. change (String c ("" +:+ utf8_coerce_fuel n r) = String c r).
  rewrite IH; auto; lia.
Qed.

Lemma utf8_coerce_ascii s : is_ascii s = true -> utf8_coerce s = s.
Proof. intros. by apply utf8_coerce_ascii_fuel. Qed.

Lemma is_ascii_list l :
  Forall (fun c => (nat_of_ascii c <= 127)%nat) l -> is_ascii (string_of_list_ascii l) = true.
Proof.
  induction 1 as [|c l Hc _ IH]; [done|]. simpl. rewrite IH, andb_true_r. by apply Nat.leb_le.
Qed.

Lemma is_ascii_get s n c : is_ascii s = true -> String.get n s = Some c -> (nat_of_ascii c <= 127)%nat.
Proof.
  revert n. induction s as [|a s IH]; intros n Ha Hg; [by destruct n|].
  simpl in Ha. apply andb_true_iff in Ha as [Ha Hs]. apply Nat.leb_le in Ha.
  destruct n; simpl in Hg; [by injection Hg as ->|eauto].
Qed.

Lemma b64_char_ascii e n : (nat_of_ascii (b64_char e n) <= 127)%nat.
Proof.
  unfold b64_char. destruct (String.get _ _) as [c|] eqn:E; simpl.
  - eapply is_ascii_get; [|exact E]. by destruct e.
  - apply Nat.leb_le. reflexivity.
Qed.

Lemma b64_enc_ascii e l : Forall (fun c => (nat_of_ascii c <= 127)%nat) (b64_enc e l).
Proof.
  assert (Hp : (nat_of_ascii pad_char <= 127)%nat) by (apply Nat.leb_le; reflexivity).
  induction l as [|a|a b|a b c r IH] using list_ind3; cbn [b64_enc app];
    repeat (apply Forall_cons_2; [apply b64_char_ascii|]); auto;
    destruct (b64_padded e); auto.
Qed.

Lemma utf8_coerce_b64 e l : utf8_coerce (b64_encode e l) = b64_encode e l.
Proof. apply utf8_coerce_ascii, is_ascii_list, b64_enc_ascii. Qed.

Lemma utf8_coerce_format_int z : utf8_coerce (format_int z) = format_int z.
Proof.
  apply utf8_coerce_ascii. unfold format_int.
  assert (H : forall u, is_ascii (NilEmpty.string_of_uint u) = true) by (induction u; simpl; auto).
  assert (H' : forall u, is_ascii (NilZero.string_of_uint u) = true)
    by (intros u; destruct u; try apply H; done).
  destruct (Z.to_int z); cbn [NilZero.string_of_int]; [apply H'|]. simpl. apply H'.
Qed.

#[export] Hint Rewrite utf8_coerce_b64 utf8_coerce_format_int : quic_rw.

(** ** Both codecs carry the same value *)

Definition wf_value (v : value) : Prop :=
  match v with
  | VInt n => in_i64 n
  | VFloat f => valid_binary 53 1024 f = true
  | _ => True
  end.

(** What a value is after a trip through JSON: a non-finite float is null and the
    invalid bytes of a text are replaced. *)
Definition canon (v : value) : value :=
  match v with
  | VFloat f => if non_finite f then VNull else v
  | VText s => VText (utf8_coerce s)
  | _ => v
  end.

(** ** Widening a float32 is exact *)

Lemma digits_shift p m : digits2_pos (Pos.iter xO m p) = (p + digits2_pos m)%positive.
Proof.
  induction p as [|p IH] using Pos.peano_ind; [cbn; lia|]. rewrite Pos.iter_succ. cbn [digits2_pos]. rewrite IH. lia.
Qed.
Lemma shift_value p m : Z.pos (Pos.iter xO m p) = Z.pos m * 2 ^ Z.pos p.
Proof.
  induction p as [|p IH] using Pos.peano_ind; [cbn; lia|]. rewrite Pos.iter_succ, Pos2Z.inj_xO, IH, Pos2Z.inj_succ, Z.pow_succ_r by lia. lia.
Qed.

(** Rounding a mantissa that is already in place changes nothing. *)
Lemma round_fits s m e : e = fexp 53 1024 (Z.pos (digits2_pos m) + e) -> e <= 971 ->
  binary_round_aux 53 1024 s (Z.pos m) e loc_Exact = S754_finite s m e.
Proof.
  intros He Hle. assert (H : shr_fexp 53 1024 (Z.pos m) e loc_Exact = (Build_shr_record (Z.pos m) false false, e)).
  { unfold shr_fexp. cbn [Zdigits2 shr_record_of_loc]. by rewrite <- He, Z.sub_diag. }
  unfold binary_round_aux. rewrite H. cbn [shr_m loc_of_shr_record round_nearest_even]. rewrite H. cbn [shr_m].
  by rewrite (proj2 (Z.leb_le _ _)) by lia.
Qed.
(** A number of at most 53 bits is represented exactly, with 53 bits of mantissa. *)
Lemma round_exact s m e : Z.pos (digits2_pos m) <= 53 -> -1021 <= e -> e <= 971 ->
  exists k m', k = 53 - Z.pos (digits2_pos m) /\ binary_round 53 1024 s m e = S754_finite s m' (e - k) /\
    Z.pos m' = Z.pos m * 2 ^ k /\ bounded 53 1024 m' (e - k) = true.
Proof.
  intros Hd Hl Hu. set (d := Z.pos (digits2_pos m)) in *. assert (Hf : fexp 53 1024 (d + e) = e - (53 - d)) by (unfold fexp, emin; lia).
  assert (Hb : forall m', Z.pos (digits2_pos m') = 53 -> bounded 53 1024 m' (e - (53 - d)) = true).
  { intros m' Hm'. unfold bounded, canonical_mantissa. rewrite Hm'. apply andb_true_iff. split; [apply Z.eqb_eq; unfold fexp, emin; lia|apply Z.leb_le; lia]. }
  unfold binary_round, shl_align. fold d. rewrite Hf. replace (e - (53 - d) - e) with (d - 53) by lia. exists (53 - d).
  destruct (d - 53) as [|p|p] eqn:Ed; [|lia|].
  - exists m. split; [done|]. replace (53 - d) with 0 by lia. rewrite Z.sub_0_r. split; [|split; [lia|]].
    + apply round_fits; [|lia]. fold d. unfold fexp, emin. lia.
    + specialize (Hb m ltac:(unfold d in Ed; lia)). by replace (e - (53 - d)) with e in Hb by lia.
  - exists (Pos.iter xO m p). assert (Hp : Z.pos (digits2_pos (Pos.iter xO m p)) = 53) by (rewrite digits_shift, Pos2Z.inj_add; fold d; lia).
    split; [done|]. split; [|split; [rewrite shift_value; do 2 f_equal; lia|by apply Hb]].
    apply round_fits; [rewrite Hp; unfold fexp, emin; lia|lia].
Qed.

(** The same real number, or the same zero, infinity or NaN. *)
Definition same_number (f g : spec_float) : Prop :=
  match f, g with
  | S754_finite s m e, S754_finite s' m' e' => s' = s /\ exists k, 0 <= k /\ e' = e - k /\ Z.pos m' = Z.pos m * 2 ^ k
  | S754_finite _ _ _, _ | _, S754_finite _ _ _ => False
  | _, _ => f = g
  end.
Lemma binary32_bounds m e : bounded 24 128 m e = true -> fexp 24 128 (Z.pos (digits2_pos m) + e) = e /\ e <= 104.
Proof. unfold bounded, canonical_mantissa. intros [H1%Z.eqb_eq H2%Z.leb_le]%andb_true_iff. done. Qed.
Lemma widen_finite s m e : bounded 24 128 m e = true ->
  exists m', let k := 53 - Z.pos (digits2_pos m) in 0 <= k /\ widen (S754_finite s m e) = S754_finite s m' (e - k) /\
    Z.pos m' = Z.pos m * 2 ^ k /\ bounded 53 1024 m' (e - k) = true.
Proof.
  intros He%binary32_bounds. unfold fexp, emin in He. destruct (round_exact s m e) as (k & m' & -> & Hr & Hm & Hb); [lia..|].
  exists m'. cbv zeta. split; [lia|]. split; [|by split]. rewrite <- Hr. cbn [widen]. by destruct s.
Qed.
Lemma widen_exact f : valid_binary 24 128 f = true -> same_number f (widen f) /\ valid_binary 53 1024 (widen f) = true.
Proof.
  destruct f as [s|s| |s m e]; [done..|]. intros Hv. destruct (widen_finite s m e Hv) as (m' & Hk & -> & Hm & Hb).
  split; [|exact Hb]. split; [done|]. by exists (53 - Z.pos (digits2_pos m)).
Qed.
Lemma widen_inj f g : valid_binary 24 128 f = true -> valid_binary 24 128 g = true -> widen f = widen g -> f = g.
Proof.
  destruct f as [s|s| |s m e], g as [s'|s'| |s' m' e']; intros Hf Hg; try done;
    try (destruct (widen_finite s m e Hf) as (n & H1 & -> & H2 & _)); try (destruct (widen_finite s' m' e' Hg) as (n' & H1' & -> & H2' & _)); try done.
  apply binary32_bounds in Hf, Hg. unfold fexp, emin in *. intros [= -> -> He].
  assert (e = e') as -> by lia. assert (Z.pos (digits2_pos m) = Z.pos (digits2_pos m')) as Hd by lia. rewrite Hd in H2. rewrite H2 in H2'.
  apply Z.mul_reg_r in H2'; [by injection H2' as ->|]. apply Z.pow_nonzero; lia.
Qed.

Section CodecFacts.
Context `{FTL : FloatTextLaws}.

Lemma numberValue_int n : in_i64 n -> numberValue (format_int n) = VInt n.
Proof.
  intros Hn. unfold numberValue. rewrite format_int_no_point, parse_format_int by done. done.
Qed.

Lemma native_float f :
  finite_float f = true -> fromNativeAny (floatNativeJSON f) = Ok (VFloat f).
Proof.
  intros Hf. assert (non_finite f = false) as Hn
    by (unfold finite_float in Hf; by destruct (non_finite f)).
  unfold floatNativeJSON. rewrite Hn. cbn [fromNativeAny]. unfold numberValue.
  destruct (contains_any (format_g f) ".eE") eqn:Hc.
  - by rewrite Hc, parse_format_g.
  - rewrite contains_any_app, orb_true_r, parse_format_g_point by done. done.
Qed.

Lemma fromNative_blob s :
  fromNativeAny (JObj [("base64"%string, JStr s)]) =
  match b64_decode StdEncoding s with Some d => Ok (VBlob d) | None => Err ErrInvalidBase64 end.
Proof. reflexivity. Qed.

Lemma native_roundtrip v :
  wf_value v -> NativeValue_UnmarshalJSON (NativeValue_MarshalJSON v) = Ok (canon v).
Proof.
  unfold NativeValue_UnmarshalJSON, NativeValue_MarshalJSON, marshal_string.
  destruct v as [|n|f|s|b]; intros Hw; try done.
  - cbn [fromNativeAny canon]. f_equal. by apply numberValue_int.
  - cbn [canon]. destruct (non_finite f) eqn:E; [unfold floatNativeJSON; by rewrite E|].
    apply native_float. unfold finite_float. by rewrite E.
  - by rewrite utf8_coerce_b64, fromNative_blob, b64_decode_encode.
Qed.

Lemma hrana_int s :
  HranaValue_UnmarshalJSON (JObj [("type", JStr "integer"); ("value", JStr s)])%string =
  (let* i := of_opt ErrBadInteger (parse_int64 s) in Ok (VInt i)).
Proof. reflexivity. Qed.
Lemma hrana_float lit :
  HranaValue_UnmarshalJSON (JObj [("type", JStr "float"); ("value", JNum lit)])%string =
  (let* f := of_opt ErrJSON (parse_float lit) in Ok (VFloat f)).
Proof. reflexivity. Qed.
Lemma hrana_text s :
  HranaValue_UnmarshalJSON (JObj [("type", JStr "text"); ("value", JStr s)])%string = Ok (VText s).
Proof. reflexivity. Qed.
Lemma hrana_blob s :
  HranaValue_UnmarshalJSON (JObj [("base64", JStr s); ("type", JStr "blob")])%string =
  (let* d := of_opt ErrInvalidBase64 (b64_decode StdEncoding s) in Ok (VBlob d)).
Proof. reflexivity. Qed.

Lemma marshal_string_ascii s : is_ascii s = true -> marshal_string s = JStr s.
Proof. intros Hs. unfold marshal_string. by rewrite utf8_coerce_ascii. Qed.

Lemma hrana_roundtrip v :
  wf_value v -> HranaValue_UnmarshalJSON (HranaValue_MarshalJSON v) = Ok (canon v).
Proof.
  unfold HranaValue_MarshalJSON.
  destruct v as [|n|f|s|b]; intros Hw; cbn [canon]; rewrite ?marshal_string_ascii by reflexivity;
    unfold marshal_string.
  - done.
  - by rewrite utf8_coerce_format_int, hrana_int, parse_format_int.
  - destruct (non_finite f) eqn:E; [done|].
    rewrite hrana_float, parse_format_json by (unfold finite_float; by rewrite E). done.
  - by rewrite hrana_text.
  - by rewrite utf8_coerce_b64, hrana_blob, b64_decode_encode.
Qed.

(** C27: the native and the Hrana codec cannot drift: every well-formed value decodes,
    from either encoding, to the same value, namely itself except that a non-finite
    float becomes null and invalid UTF-8 in a text is replaced; in particular an
    integral float stays a float and an integer keeps all 64 bits on both paths. *)
Theorem codecs_agree v :
  wf_value v ->
  NativeValue_UnmarshalJSON (NativeValue_MarshalJSON v) = Ok (canon v) /\
  HranaValue_UnmarshalJSON (HranaValue_MarshalJSON v) = Ok (canon v).
Proof. eauto using native_roundtrip, hrana_roundtrip. Qed.

(** Inputs the Go compiler can produce. *)
Definition wf_go (x : goany) : Prop :=
  match x with
  | GInt n => in_i64 n
  | GUint n => in_u64 n
  | GFloat32 f => valid_binary 24 128 f = true
  | GFloat64 f => valid_binary 53 1024 f = true
  | _ => True
  end.

Lemma numberValue_wf s : wf_value (numberValue s).
Proof.
  unfold numberValue. repeat case_match; cbn; eauto using parse_float_valid, parse_int64_range.
Qed.

Lemma FromGo_wf x : wf_go x -> wf_value (FromGo x).
Proof.
  intros Hw. destruct x; cbn in *; try done.
  - destruct b; done.
  - unfold uintValue. case_match; bool_to_prop; cbn; [|done]. unfold in_u64, in_i64 in *. lia.
  - by apply widen_exact.
  - apply numberValue_wf.
Qed.

(** What the storage class and the content of a stored value owe to the Go value. *)
Definition stores (x : goany) (v : value) : Prop :=
  match x with
  | GNil => v = VNull
  | GBool b => v = VInt (Z.b2z b)
  | GInt n => v = VInt n
  | GUint n => if n <? two63 then v = VInt n else exists t, v = VText t /\ parse_uint64 t = Some n
  | GFloat32 f => exists g, v = VFloat g /\ same_number f g
  | GFloat64 f => v = VFloat f
  | GString s => v = VText s
  | GBytes b => v = VBlob b
  | GTime t => v = VText (format_time t)
  | GNumber lit =>
      let whole := negb (contains_any lit ".eE") && bool_decide (is_Some (parse_int64 lit)) in
      match v with
      | VInt n => whole = true /\ parse_int64 lit = Some n
      | VFloat f => whole = false /\ parse_float lit = Some f
      | VText s => whole = false /\ parse_float lit = None /\ s = lit
      | _ => False
      end
  | GOther t => v = VText t
  end.
(** The types a driver delivers and accepts. *)
Definition driver_type (x : goany) : bool :=
  match x with GNil | GInt _ | GFloat64 _ | GString _ | GBytes _ => true | _ => false end.
Definition same_type (x y : goany) : bool :=
  match x, y with
  | GNil, GNil | GBool _, GBool _ | GInt _, GInt _ | GUint _, GUint _ | GFloat32 _, GFloat32 _ | GFloat64 _, GFloat64 _
  | GString _, GString _ | GBytes _, GBytes _ => true
  | _, _ => false
  end.

Lemma FromGo_stores x : wf_go x -> stores x (FromGo x).
Proof.
  destruct x as [|[]|n|n|f|f|s|b|t|lit|t]; intros Hw; cbn; try done.
  - unfold uintValue. destruct (Z.ltb_spec n two63); [done|]. eexists. split; [done|]. by apply parse_format_uint.
  - eexists. split; [done|]. by apply widen_exact.
  - unfold numberValue. destruct (contains_any lit ".eE"); cbn [negb andb].
    + by destruct (parse_float lit) as [f|].
    + destruct (parse_int64 lit) as [n|]; [by rewrite bool_decide_true|]. rewrite bool_decide_false by (by intros []). by destruct (parse_float lit) as [f|].
Qed.
Lemma FromGo_inj x y : wf_go x -> wf_go y -> same_type x y = true -> FromGo x = FromGo y -> x = y.
Proof.
  destruct x, y; intros Hx Hy Ht; try discriminate Ht; cbn; try congruence.
  - by destruct b, b0.
  - unfold uintValue. destruct (Z.ltb_spec n two63), (Z.ltb_spec n0 two63); try congruence.
    intros [= E]. apply (f_equal parse_uint64) in E. rewrite !parse_format_uint in E by done. congruence.
  - intros [= E]. f_equal. by apply widen_inj.
Qed.

(** C40: the single normaliser [FromGo] yields a well-formed value for every Go input, of
    the storage class its type calls for and with nothing lost: booleans are 0 and 1; an
    integer keeps all its bits, a 64-bit unsigned that does not fit being kept as the text
    that reads back to it, never wrapped to a negative; widening a float32 is exact, and a
    float never becomes an integer; a JSON number is an integer exactly when its literal is
    a 64-bit integer, otherwise the float it parses to, otherwise its text.  A value of a
    driver type comes back unchanged from [Arg], so a result cell bound again stores the
    identical value; two different inputs of one of the lossless types never store the same value; and
    both protocols carry the stored value to the same decoded one. *)
Theorem FromGo_normalises x :
  wf_go x ->
  wf_value (FromGo x) /\ stores x (FromGo x) /\
  (driver_type x = true -> Arg (FromGo x) = x) /\ FromGo (Arg (FromGo x)) = FromGo x /\
  (forall y, wf_go y -> same_type x y = true -> FromGo x = FromGo y -> x = y) /\
  NativeValue_UnmarshalJSON (NativeValue_MarshalJSON (FromGo x)) = Ok (canon (FromGo x)) /\
  HranaValue_UnmarshalJSON (HranaValue_MarshalJSON (FromGo x)) = Ok (canon (FromGo x)).
Proof.
  intros Hw. split; [by apply FromGo_wf|]. split; [by apply FromGo_stores|]. split; [by destruct x|]. split; [by destruct (FromGo x)|].
  split; [intros y Hy; by apply FromGo_inj|]. split; [apply native_roundtrip|apply hrana_roundtrip]; by apply FromGo_wf.
Qed.

Lemma DecodeNativeArgs_from_ok i raw vs :
  DecodeNativeArgs_from i raw = Ok vs <->
  Forall2 (fun r v => NativeValue_UnmarshalJSON r = Ok v) raw vs.
Proof.
  revert i vs. induction raw as [|r rs IH]; intros i vs; cbn.
  - split; [intros [= <-]; constructor | by inversion 1].
  - split.
    + destruct (NativeValue_UnmarshalJSON r) as [v|e] eqn:E; [|done].
      intros (ws & Hws & [= <-])%rbind_ok. constructor; [done|]. by eapply IH.
    + inversion 1 as [|? v ? ws Hv Hws]; subst. rewrite Hv. cbn.
      apply (IH (S i)) in Hws. by rewrite Hws.
Qed.

Lemma DecodeNativeArgs_from_err i raw k e :
  DecodeNativeArgs_from i raw = Err (ErrArg k e) ->
  exists j r, k = (i + j)%nat /\ raw !! j = Some r /\ NativeValue_UnmarshalJSON r = Err e /\
    forall j' r', (j' < j)%nat -> raw !! j' = Some r' -> is_ok (NativeValue_UnmarshalJSON r') = true.
Proof.
  revert i. induction raw as [|r rs IH]; intros i; cbn; [done|].
  destruct (NativeValue_UnmarshalJSON r) as [v|e'] eqn:E.
  - destruct (DecodeNativeArgs_from (S i) rs) as [|e''] eqn:E2; cbn; [done|].
    intros [= ->]. destruct (IH _ E2) as (j & r0 & -> & Hj & He & Hb).
    exists (S j), r0. split; [lia|]. split; [done|]. split; [done|].
    intros [|j'] r' Hlt Hr'; [by injection Hr' as <-; rewrite E|].
    eapply Hb; [|exact Hr']. lia.
  - intros [= <- <-]. exists 0%nat, r. split; [lia|]. split; [done|]. split; [done|].
    intros j' r' Hlt. lia.
Qed.

(** decoding a native argument array succeeds exactly when every element decodes,
    preserving order and length, and an error names the first element that fails. *)
Theorem DecodeNativeArgs_spec raw :
  (forall vs, DecodeNativeArgs raw = Ok vs <->
     Forall2 (fun r v => NativeValue_UnmarshalJSON r = Ok v) raw vs) /\
  (forall k e, DecodeNativeArgs raw = Err (ErrArg k e) ->
     exists r, raw !! k = Some r /\ NativeValue_UnmarshalJSON r = Err e /\
       forall j r', (j < k)%nat -> raw !! j = Some r' -> is_ok (NativeValue_UnmarshalJSON r') = true).
Proof.
  split; [intros; apply DecodeNativeArgs_from_ok|].
  intros k e He0. destruct (DecodeNativeArgs_from_err _ _ _ _ He0) as (j & r & -> & Hr & He & Hb).
  exists r. eauto.
Qed.

End CodecFacts.

(** ** Result codes *)

Lemma code_lookup_in k m n : code_lookup k m = Some n -> In (k, n) m.
Proof.
  induction m as [|[c n'] r IH]; cbn; [done|].
  destruct (Z.eqb_spec c k) as [->|]; [intros [= ->]; auto|auto].
Qed.

Lemma names_inverse c n : In (c, n) (primaryNames ++ extendedNames) -> CodeForName n = c.
Proof.
  intros Hin.
  assert (Hall : forallb (fun cn => CodeForName cn.2 =? cn.1) (primaryNames ++ extendedNames) = true)
    by (vm_compute; reflexivity).
  rewrite forallb_forall in Hall. specialize (Hall _ Hin). cbn in Hall. by bool_to_prop.
Qed.

(** the client recovers from a symbolic name the extended code when the name is a
    constraint subtype, otherwise the known primary code in its low byte, otherwise
    SQLITE_ERROR (1): the name table and its inverse agree on every code. *)
Theorem CodeForName_ExtendedCodeName e :
  CodeForName (ExtendedCodeName e) =
    if code_lookup e extendedNames then e
    else if code_lookup (Z.land e 255) primaryNames then Z.land e 255 else 1.
Proof.
  unfold ExtendedCodeName, CodeName.
  destruct (code_lookup e extendedNames) as [n|] eqn:E.
  { apply names_inverse, in_app_iff. right. by apply code_lookup_in. }
  destruct (code_lookup (Z.land e 255) primaryNames) as [n|] eqn:E2; [|vm_compute; reflexivity].
  apply names_inverse, in_app_iff. left. by apply code_lookup_in.
Qed.

(** ** The signing input determines the request *)


Lemma mem_char_app c a b : mem_char c (a +:+ b) = mem_char c a || mem_char c b.
Proof.
  induction a as [|x a IH]; [done|]. rewrite sapp_cons. cbn [mem_char]. by rewrite IH, orb_assoc.
Qed.

Definition newline : ascii := ascii_of_nat 10.

Lemma nl_app b : nl +:+ b = String newline b.
Proof. reflexivity. Qed.

Lemma app_nl_inj a b a' b' :
  mem_char newline a = false -> mem_char newline a' = false ->
  a +:+ nl +:+ b = a' +:+ nl +:+ b' -> a = a' /\ b = b'.
Proof.
  rewrite !nl_app. revert a'.
  induction a as [|x a IH]; intros [|x' a'] Ha Ha'; rewrite ?sapp_nil, ?sapp_cons.
  - intros [= ->]. done.
  - intros [= <- _]. done.
  - intros [= -> _]. done.
  - cbn [mem_char] in Ha, Ha'. bool_to_prop. intros [= <- Hrest].
    destruct (IH a') as [-> ->]; auto.
Qed.

Lemma app_nl_inj_last p q p' q' :
  mem_char newline q = false -> mem_char newline q' = false ->
  p +:+ nl +:+ q = p' +:+ nl +:+ q' -> p = p' /\ q = q'.
Proof.
  rewrite !nl_app. revert p'.
  induction p as [|x p IH]; intros [|x' p'] Hq Hq'; rewrite ?sapp_nil, ?sapp_cons.
  - intros [= ->]. done.
  - intros [= <- ->]. rewrite mem_char_app in Hq. cbn in Hq. by rewrite orb_true_r in Hq.
  - intros [= -> <-]. rewrite mem_char_app in Hq'. cbn in Hq'. by rewrite orb_true_r in Hq'.
  - intros [= <- Hrest]. destruct (IH p') as [-> ->]; auto.
Qed.

Lemma bytes_of_inj s t : bytes_of s = bytes_of t -> s = t.
Proof. intros H. rewrite <- (string_of_bytes_of s), <- (string_of_bytes_of t). by rewrite H. Qed.

(** the bytes a keyring client signs determine the challenge, method, path and raw
    query of the request, so a captured signature cannot be replayed onto another
    operation target; a challenge is base64, and a method and a raw query never contain
    a newline (a decoded path may). *)
Theorem KeyringSigningInput_injective c m p q c' m' p' q' :
  mem_char newline c = false -> mem_char newline c' = false ->
  mem_char newline m = false -> mem_char newline m' = false ->
  mem_char newline q = false -> mem_char newline q' = false ->
  KeyringSigningInput c m p q = KeyringSigningInput c' m' p' q' ->
  c = c' /\ m = m' /\ p = p' /\ q = q'.
Proof.
  intros Hc Hc' Hm Hm' Hq Hq' H%bytes_of_inj.
  apply app_nl_inj in H as [-> H]; auto.
  apply app_nl_inj in H as [-> H]; auto.
  apply app_nl_inj_last in H as [-> ->]; auto.
Qed.

Lemma KeyringSigningInput_injective_witness :
  KeyringSigningInput "c" "GET" ("/a" +:+ nl +:+ "b") "id=1" =
  KeyringSigningInput "c" "GET" ("/a" +:+ nl +:+ "b") "id=1" /\
  ("c" = "c" /\ "GET" = "GET" /\ "/a" +:+ nl +:+ "b" = "/a" +:+ nl +:+ "b" /\ "id=1" = "id=1")%string.
Proof.
  split; [reflexivity|]. by apply (KeyringSigningInput_injective "c" "GET" _ "id=1" "c" "GET" _ "id=1").
Defined.

(** ** A concrete float text, for the witnesses: sign, mantissa, "e", signed exponent *)

Module DemoFloat.

Definition sign_text (neg : bool) (n : Z) : string :=
  String (if neg then "-" else "+")%char (format_uint n).
Definition show (f : spec_float) : string :=
  match f with
  | S754_zero s => sign_text s 0 +:+ String "e" (sign_text false 0)
  | S754_finite s m e => sign_text s (Z.pos m) +:+ String "e" (sign_text (e <? 0) (Z.abs e))
  | _ => ""
  end.
Definition read_sign (s : string) : option (bool * Z) :=
  match s with
  | String c r => match digits_val 0 r with Some n => Some (Ascii.eqb c "-", n) | None => None end
  | EmptyString => None
  end.
Definition read_raw (s : string) : option spec_float :=
  let '(a, b, _) := cut_char "e" s in
  match read_sign a, read_sign b with
  | Some (sg, 0), Some _ => Some (S754_zero sg)
  | Some (sg, Z.pos m), Some (es, e) => Some (S754_finite sg m (if es then - e else e))
  | _, _ => None
  end.
Definition read (s : string) : option spec_float :=
  match read_raw s with
  | Some f => if valid_binary 53 1024 f then Some f else None
  | None => None
  end.

Lemma digits_val_format n : 0 <= n -> digits_val 0 (format_uint n) = Some n.
Proof.
  intros Hn. unfold format_uint, format_int. destruct n as [|p|p]; [done| |lia].
  cbn [Z.to_int NilZero.string_of_int]. rewrite digits_val_nilzero. f_equal.
  exact (DecimalZ.of_to (Z.pos p)).
Qed.

Lemma read_sign_text neg n : 0 <= n -> read_sign (sign_text neg n) = Some (neg, n).
Proof. intros Hn. unfold sign_text. cbn [read_sign]. rewrite digits_val_format by done. by destruct neg. Qed.

Lemma cut_char_app c s r : mem_char c s = false -> cut_char c (s +:+ String c r) = (s, r, true).
Proof.
  induction s as [|a s IH]; intros H; cbn in H.
  - change ("" +:+ String c r) with (String c r). cbn. by rewrite Ascii.eqb_refl.
  - apply orb_false_iff in H as [Ha Hs]. rewrite sapp_cons. cbn [cut_char].
    rewrite Ascii.eqb_sym, Ha, IH by done. done.
Qed.

Lemma no_e_uint u : mem_char "e" (NilEmpty.string_of_uint u) = false.
Proof. induction u; simpl; auto. Qed.

Lemma no_e neg n : 0 <= n -> mem_char "e" (sign_text neg n) = false.
Proof.
  intros Hn. unfold sign_text, format_uint, format_int.
  assert (H : forall u, mem_char "e" (NilZero.string_of_uint u) = false)
    by (intros u; destruct u; try apply no_e_uint; done).
  destruct n; [| |lia]; cbn [Z.to_int NilZero.string_of_int mem_char]; rewrite H; by destruct neg.
Qed.

Lemma read_show f : finite_float f = true -> read (show f) = Some f.
Proof.
  intros Hf. unfold read.
  assert (read_raw (show f) = Some f) as ->.
  { unfold finite_float in Hf. destruct f as [s|s| |s m e]; cbn [show] in *; try done.
    - unfold read_raw. rewrite cut_char_app by (by apply no_e). rewrite !read_sign_text by done. done.
    - unfold read_raw. rewrite cut_char_app by (by apply no_e). rewrite !read_sign_text by lia.
      do 2 f_equal. destruct (e <? 0) eqn:E; bool_to_prop; lia. }
  unfold finite_float in Hf. apply andb_true_iff in Hf as [_ ->]. done.
Qed.

Lemma show_has_e f : finite_float f = true -> contains_any (show f) ".eE" = true.
Proof.
  destruct f; cbn [show]; try done; intros _; rewrite contains_any_app;
    apply orb_true_iff; right; reflexivity.
Qed.

#[export] Instance text : FloatText :=
  {| format_g := show; format_json := show; parse_float := read; format_time := fun t => format_int t |}.
#[export] Instance laws : FloatTextLaws.
Proof.
  constructor; cbn.
  - apply read_show.
  - intros f Hf Hc. by rewrite show_has_e in Hc.
  - apply read_show.
  - intros s f. unfold read. destruct (read_raw s); [|done]. case_match eqn:E; [|done]. by intros [= <-].
Qed.

End DemoFloat.
Import DemoFloat.

(** 100.0 *)
Definition hundred : spec_float := S754_finite false 7036874417766400 (-46).

Lemma codecs_agree_witness :
  wf_value (VFloat hundred) /\
  NativeValue_UnmarshalJSON (NativeValue_MarshalJSON (VFloat hundred)) = Ok (VFloat hundred) /\
  HranaValue_UnmarshalJSON (HranaValue_MarshalJSON (VFloat hundred)) = Ok (VFloat hundred).
Proof. split; [reflexivity|]. apply (codecs_agree (VFloat hundred)). reflexivity. Defined.

(** The largest unsigned, and the float32 nearest to one third. *)
Definition third32 : spec_float := S754_finite false 11184811 (-25).
Lemma FromGo_normalises_witness :
  stores (GUint 18446744073709551615) (VText "18446744073709551615") /\
  wf_value (FromGo (GFloat32 third32)) /\ FromGo (GFloat32 third32) = VFloat (S754_finite false 6004799682117632 (-54)) /\
  stores (GFloat32 third32) (FromGo (GFloat32 third32)).
Proof.
  assert (H : wf_go (GUint 18446744073709551615)) by (split; reflexivity || discriminate).
  destruct (FromGo_normalises _ H) as (_ & A & _). destruct (FromGo_normalises (GFloat32 third32) eq_refl) as (B & C & _).
  split; [exact A|]. split; [exact B|]. split; [vm_compute; reflexivity|exact C].
Defined.
