(* ===== verification/Authz.v ===== *)
(** * authz: capability levels, the grant policy, and the assurance gate

    [src/authz/authz.go] and [src/authz/assurance.go].  The policy's mutex makes each
    method one atomic step, so a [policy] is passed through the operations. *)
From S2P Require Import Prelude GoStd.

(** ** Levels *)

Inductive level : Type := LNone | ReadOnly | ReadWrite | Admin.

Definition level_int (l : level) : Z :=
  match l with LNone => 0 | ReadOnly => 1 | ReadWrite => 2 | Admin => 3 end.

#[export] Instance level_eq_dec : EqDecision level.
Proof. solve_decision. Defined.

Definition ParseLevel (s : string) : level * bool :=
  if String.eqb s "none" then (LNone, true)
  else if String.eqb s "read-only" || String.eqb s "readonly" || String.eqb s "ro" then (ReadOnly, true)
  else if String.eqb s "read-write" || String.eqb s "readwrite" || String.eqb s "rw" then (ReadWrite, true)
  else if String.eqb s "admin" then (Admin, true)
  else (LNone, false).

Definition Level_String (l : level) : string :=
  match l with
  | ReadOnly => "read-only" | ReadWrite => "read-write" | Admin => "admin" | LNone => "none"
  end.

Definition CanRead (l : level) : bool := level_int l >=? level_int ReadOnly.
Definition CanWrite (l : level) : bool := level_int l >=? level_int ReadWrite.
Definition CanAdmin (l : level) : bool := level_int l >=? level_int Admin.

(** ** Assurance *)

Definition TierDataOnly : Z := 0.
Definition TierOwner : Z := 1.

Definition FactorPassword : Z := 1.
Definition FactorOTP : Z := 2.
Definition FactorWebAuthn : Z := 4.
Definition FactorDeviceKey : Z := 8.
Definition FactorRecovery : Z := 16.
Definition StrictFactors : Z := Z.lor (Z.lor FactorWebAuthn FactorDeviceKey) FactorRecovery.

Definition ScopeFull : Z := 0.
Definition ScopeReduced : Z := 1.

Record assurance := MkAssurance {
  Tier : Z;
  Factors : Z;
  AuthTime : Z;
  CredID : string;
  Scope : Z;
  NotBeforeDestructive : Z
}.

Definition Tier_String (t : Z) : string := if t >=? TierOwner then "owner" else "data-only".
Definition Scope_String (s : Z) : string := if s =? ScopeReduced then "reduced" else "full".

Definition factor_table : list (Z * string) :=
  [(FactorWebAuthn, "webauthn"); (FactorDeviceKey, "device_key"); (FactorRecovery, "recovery");
   (FactorPassword, "password"); (FactorOTP, "otp")]%string.
Definition Factor_Names (f : Z) : list string :=
  map snd (List.filter (fun m => negb (Z.land f m.1 =? 0)) factor_table).

Inductive action_class : Type := DataWrite | CredentialMgmt | Destructive | RecoveryRoot.

Record assurance_policy := MkPolicy {
  pol_CredentialMgmt : Z;
  pol_Destructive : Z;
  StepUpWindow : Z
}.

Definition withDefaults (p : assurance_policy) : assurance_policy :=
  {| pol_CredentialMgmt := if pol_CredentialMgmt p =? 0 then StrictFactors else pol_CredentialMgmt p;
     pol_Destructive := if pol_Destructive p =? 0 then StrictFactors else pol_Destructive p;
     StepUpWindow := if StepUpWindow p =? 0 then 10 * 60 * second else StepUpWindow p |}.

Inductive assurance_err : Type := ErrOwnerRequired | ErrStepUpRequired | ErrScopeReduced.

Definition RequireAssurance (a : option assurance) (action : action_class)
    (pol : assurance_policy) (now : Z) : result assurance_err unit :=
  match action with
  | DataWrite => Ok tt
  | _ =>
    match a with
    | None => Err ErrOwnerRequired
    | Some a =>
      let pol := withDefaults pol in
      match action with
      | CredentialMgmt | Destructive =>
          if Tier a <? TierOwner then Err ErrOwnerRequired
          else if (Scope a =? ScopeReduced) && (now <? NotBeforeDestructive a) then Err ErrScopeReduced
          else
            let need := match action with Destructive => pol_Destructive pol | _ => pol_CredentialMgmt pol end in
            if (Z.land (Factors a) need =? 0) || (time_sub now (AuthTime a) >? StepUpWindow pol)
            then Err ErrStepUpRequired
            else Ok tt
      | RecoveryRoot =>
          if (Z.land (Factors a) FactorRecovery =? 0) || (Scope a =? ScopeReduced)
          then Err ErrStepUpRequired
          else if time_sub now (AuthTime a) >? StepUpWindow pol then Err ErrStepUpRequired
          else Ok tt
      | DataWrite => Ok tt
      end
    end
  end.

(** ** Principals *)

Record principal := MkPrincipal {
  Name : string;
  Method : string;
  Assurance : option assurance
}.
Definition Anonymous : principal := MkPrincipal "" "none" None.
Definition IsAnonymous (p : option principal) : bool :=
  match p with None => true | Some p => String.eqb (Name p) "" end.

(** [NewContext] and [FromContext]: a request context holds at most one principal. *)
Definition NewContext (p : option principal) : option principal := p.
Definition FromContext (ctx : option principal) : principal :=
  match ctx with Some p => p | None => Anonymous end.

(** ** The policy *)

Definition Wildcard : string := "*".

Record policy := Pol {
  grants : gmap string (gmap string level);
  open_mode : bool
}.

Definition NewPolicy (o : bool) : policy := Pol ∅ o.
Definition Open (p : policy) : bool := open_mode p.

Definition Grant (p : policy) (db pr : string) (l : level) : policy :=
  let m := default ∅ (grants p !! db) in
  let m' := match m !! pr with
            | Some cur => if level_int l >? level_int cur then <[pr := l]> m else m
            | None => <[pr := l]> m
            end in
  Pol (<[db := m']> (grants p)) (open_mode p).

Definition Revoke (p : policy) (db : string) : policy :=
  Pol (delete db (grants p)) (open_mode p).

Definition RevokePrincipal (p : policy) (pr : string) : policy :=
  Pol (delete pr <$> grants p) (open_mode p).

Definition Level (p : policy) (pr : option principal) (db : string) : level :=
  if open_mode p then ReadWrite else
  match grants p !! db with
  | None => LNone
  | Some m =>
      let lvl := default LNone (m !! Wildcard) in
      match pr with
      | Some q =>
          if negb (String.eqb (Name q) "") then
            match m !! Name q with
            | Some l => if level_int l >? level_int lvl then l else lvl
            | None => lvl
            end
          else lvl
      | None => lvl
      end
  end.

(** ** The policy refines a history of grants and revocations *)

Inductive policy_op : Type :=
| OpGrant (db pr : string) (l : level)
| OpRevoke (db : string)
| OpRevokePrincipal (pr : string).

Definition policy_step (p : policy) (o : policy_op) : policy :=
  match o with
  | OpGrant db pr l => Grant p db pr l
  | OpRevoke db => Revoke p db
  | OpRevokePrincipal pr => RevokePrincipal p pr
  end.

Definition run_policy (o : bool) (ops : list policy_op) : policy :=
  fold_left policy_step ops (NewPolicy o).

Definition max_level (a b : level) : level := if level_int a >? level_int b then a else b.

(** The abstract account of a subject's capability: the highest level granted to it on
    [db] since [db] or the subject was last revoked ([ops] newest first). *)
Fixpoint granted (ops : list policy_op) (db subj : string) : level :=
  match ops with
  | [] => LNone
  | OpGrant db' pr l :: r =>
      if String.eqb db db' && String.eqb subj pr then max_level l (granted r db subj)
      else granted r db subj
  | OpRevoke db' :: r => if String.eqb db db' then LNone else granted r db subj
  | OpRevokePrincipal pr :: r => if String.eqb subj pr then LNone else granted r db subj
  end.

Definition stored (p : policy) (db subj : string) : level :=
  default LNone (default ∅ (grants p !! db) !! subj).

Lemma level_int_nonneg l : 0 <= level_int l.
Proof. destruct l; cbn; lia. Qed.

Lemma max_level_none l : max_level l LNone = l.
Proof. by destruct l. Qed.
Lemma max_level_comm a b : max_level a b = max_level b a.
Proof. by destruct a, b. Qed.

Lemma stored_step p o db subj :
  stored (policy_step p o) db subj =
  match o with
  | OpGrant db' pr l =>
      if String.eqb db db' && String.eqb subj pr then max_level l (stored p db subj)
      else stored p db subj
  | OpRevoke db' => if String.eqb db db' then LNone else stored p db subj
  | OpRevokePrincipal pr => if String.eqb subj pr then LNone else stored p db subj
  end.
Proof.
  unfold stored. destruct o as [db' pr l|db'|pr]; cbn [policy_step Grant Revoke RevokePrincipal grants].
  - rewrite lookup_insert. destruct (String.eqb_spec db db') as [->|Hne]; cbn.
    + rewrite decide_True by done. cbn.
      set (m := default ∅ (grants p !! db')).
      destruct (String.eqb_spec subj pr) as [->|Hs].
      * destruct (m !! pr) as [cur|] eqn:E; cbn; [|rewrite lookup_insert_eq; by rewrite max_level_none].
        unfold max_level. destruct (_ >? _) eqn:G; [by rewrite lookup_insert_eq|by rewrite E].
      * destruct (m !! pr) as [cur|]; [destruct (_ >? _)|]; by rewrite ?lookup_insert_ne.
    + by rewrite decide_False by congruence.
  - rewrite lookup_delete. destruct (String.eqb_spec db db') as [->|Hne].
    + by rewrite decide_True.
    + by rewrite decide_False by congruence.
  - rewrite lookup_fmap. destruct (grants p !! db) as [m|]; cbn.
    + rewrite lookup_delete. destruct (String.eqb_spec subj pr) as [->|Hne].
      * by rewrite decide_True.
      * by rewrite decide_False by congruence.
    + by destruct (String.eqb subj pr).
Qed.

Lemma stored_run o ops db subj : stored (run_policy o ops) db subj = granted (rev ops) db subj.
Proof.
  unfold run_policy. rewrite <- fold_left_rev_right.
  induction (rev ops) as [|op r IH]; [done|].
  cbn [fold_right]. rewrite stored_step, IH. by destruct op.
Qed.

Lemma open_run o ops : open_mode (run_policy o ops) = o.
Proof.
  unfold run_policy. rewrite <- fold_left_rev_right.
  induction (rev ops) as [|[] r IH]; [done|..]; cbn; by rewrite IH.
Qed.

(** after any history of grants and revocations the effective level of a principal
    on a database is read-write in open mode, and otherwise the higher of the levels
    granted since the last revocation to the wildcard and (for a named principal) to its
    own name: an unset or revoked grant fails closed, re-granting keeps the highest, and
    the anonymous principal only ever receives wildcard grants. *)
Theorem Level_refines_history o ops pr db :
  Level (run_policy o ops) pr db =
    if o then ReadWrite
    else max_level (granted (rev ops) db Wildcard)
           (if IsAnonymous pr then LNone
            else granted (rev ops) db (Name (default Anonymous pr))).
Proof.
  unfold Level. rewrite (open_run o ops). destruct o; [done|].
  rewrite <- !(stored_run false). unfold stored.
  destruct (grants (run_policy false ops) !! db) as [m|]; cbn.
  - rewrite max_level_comm.
    destruct pr as [q|]; cbn; [|by rewrite max_level_comm, max_level_none].
    destruct (String.eqb (Name q) ""); cbn; [by rewrite max_level_comm, max_level_none|].
    destruct (m !! Name q) as [l|]; cbn; [done|].
    by destruct (m !! Wildcard) as [[]|].
  - rewrite !lookup_empty. cbn. by destruct (IsAnonymous pr).
Qed.

(** ** The assurance gate *)

(** [b] is at least as strong a session as [a]. *)
Record stronger (a b : assurance) : Prop := {
  st_tier : Tier a <= Tier b;
  st_factors : Z.land (Factors a) (Factors b) = Factors a;
  st_time : AuthTime a <= AuthTime b;
  st_scope : Scope b = ScopeReduced -> Scope a = ScopeReduced;
  st_hold : NotBeforeDestructive b <= NotBeforeDestructive a
}.

Lemma land_nonzero_mono f g need :
  Z.land f g = f -> Z.land f need <> 0 -> Z.land g need <> 0.
Proof.
  intros Hfg Hne Hg. apply Hne. rewrite <- Hfg, <- Z.land_assoc, Hg. apply Z.land_0_r.
Qed.

Lemma time_sub_mono n a b : a <= b -> time_sub n b <= time_sub n a.
Proof. unfold time_sub. lia. Qed.

(** The factors an action may be authorised by, under a policy. *)
Definition need_of (act : action_class) (pol : assurance_policy) : Z :=
  match act with
  | CredentialMgmt => pol_CredentialMgmt (withDefaults pol)
  | Destructive => pol_Destructive (withDefaults pol)
  | RecoveryRoot => FactorRecovery
  | DataWrite => 0
  end.

Lemma check3_ok {E} (a b c : bool) (e1 e2 e3 : E) :
  (if a then Err e1 else if b then Err e2 else if c then Err e3 else Ok tt) = Ok tt <->
  a = false /\ b = false /\ c = false.
Proof. destruct a, b, c; naive_solver. Qed.
Lemma check2_ok {E} (a b : bool) (e1 e2 : E) :
  (if a then Err e1 else if b then Err e2 else Ok tt) = Ok tt <-> a = false /\ b = false.
Proof. destruct a, b; naive_solver. Qed.

Lemma gate_ok_iff a act pol now :
  RequireAssurance a act pol now = Ok tt <->
  act = DataWrite \/
  exists s, a = Some s /\ Z.land (Factors s) (need_of act pol) <> 0 /\
    time_sub now (AuthTime s) <= StepUpWindow (withDefaults pol) /\
    match act with
    | RecoveryRoot => Scope s <> ScopeReduced
    | _ => TierOwner <= Tier s /\ (Scope s = ScopeReduced -> NotBeforeDestructive s <= now)
    end.
Proof.
  assert (Hfresh : forall s w, (time_sub now (AuthTime s) >? w) = false <-> time_sub now (AuthTime s) <= w)
    by (intros; rewrite Z.gtb_ltb; apply Z.ltb_ge).
  assert (Hhold : forall s, (Scope s =? ScopeReduced) && (now <? NotBeforeDestructive s) = false <->
            (Scope s = ScopeReduced -> NotBeforeDestructive s <= now)).
  { intros s. destruct (Z.eqb_spec (Scope s) ScopeReduced), (Z.ltb_spec now (NotBeforeDestructive s));
      cbn; split; intros; try done; try lia; exfalso; auto; lia. }
  destruct act; [naive_solver|..];
    (destruct a as [s|];
      [|split; [discriminate|intros [?|(? & ? & _)]; discriminate]]);
    unfold RequireAssurance, need_of;
    rewrite ?check3_ok, ?check2_ok, ?orb_false_iff, ?Hfresh, ?Hhold, ?Z.eqb_neq, ?Z.ltb_ge;
    (split; [intros ?; right; exists s; tauto|
             intros [?|(s' & Hs & ?)]; [discriminate|injection Hs as <-; tauto]]).
Qed.

(** the step-up gate is monotone (a session with a higher tier, more factors, a more
    recent authentication, a wider scope and an earlier hold keeps every permission),
    a session without assurance context is permitted data writes only, and a session
    whose factors miss the required set is never permitted, whatever its tier; with the
    default policy that set is the strict (phishing-resistant) one. *)
Theorem RequireAssurance_monotone a b act pol now :
  stronger a b ->
  (RequireAssurance (Some a) act pol now = Ok tt -> RequireAssurance (Some b) act pol now = Ok tt) /\
  (RequireAssurance None act pol now = Ok tt <-> act = DataWrite) /\
  (act <> DataWrite -> Z.land (Factors a) (need_of act pol) = 0 ->
     is_ok (RequireAssurance (Some a) act pol now) = false) /\
  need_of CredentialMgmt (MkPolicy 0 0 0) = StrictFactors /\
  need_of Destructive (MkPolicy 0 0 0) = StrictFactors.
Proof.
  intros [Ht Hf Htm Hs Hh]. repeat split.
  - rewrite !gate_ok_iff. intros [?|(s & [= <-] & Hn & Hw & Hm)]; [by left|]. right.
    exists b. split; [done|]. split; [by eapply land_nonzero_mono|].
    split; [pose proof (time_sub_mono now _ _ Htm); lia|].
    destruct act; try (destruct Hm as [Hm1 Hm2]; split; [lia|]; intros Hr; specialize (Hm2 (Hs Hr)); lia).
    intros Hr. by apply Hm, Hs.
  - rewrite gate_ok_iff. intros [?|(s & ? & _)]; done.
  - intros ->. done.
  - intros Hact Hz. destruct (RequireAssurance (Some a) act pol now) as [[]|e] eqn:E; [|done].
    apply gate_ok_iff in E as [?|(s & [= <-] & Hn & _)]; done.
Qed.

Lemma RequireAssurance_monotone_witness :
  stronger (MkAssurance 1 8 100 "" 0 0) (MkAssurance 1 12 200 "" 0 0) /\
  RequireAssurance (Some (MkAssurance 1 8 100 "" 0 0)) CredentialMgmt (MkPolicy 0 0 0) 300 = Ok tt /\
  RequireAssurance (Some (MkAssurance 1 12 200 "" 0 0)) CredentialMgmt (MkPolicy 0 0 0) 300 = Ok tt.
Proof.
  assert (H : stronger (MkAssurance 1 8 100 "" 0 0) (MkAssurance 1 12 200 "" 0 0))
    by (constructor; cbn; try reflexivity; try discriminate; try lia).
  split; [exact H|]. split; [reflexivity|].
  apply (RequireAssurance_monotone _ _ CredentialMgmt (MkPolicy 0 0 0) 300 H). reflexivity.
Defined.

(** ** Canonical names *)

Lemma Factor_Names_in f n :
  In n (Factor_Names f) <-> exists b, In (b, n) factor_table /\ Z.land f b <> 0.
Proof.
  unfold Factor_Names. rewrite in_map_iff. split.
  - intros ([b m] & <- & [Hin Hb]%filter_In). exists b. split; [done|]. cbn in Hb. by bool_to_prop.
  - intros (b & Hin & Hb). exists (b, n). split; [done|]. apply filter_In. split; [done|].
    cbn. by rewrite (proj2 (Z.eqb_neq _ _)).
Qed.

(** the canonical names round trip: a printed level parses back to itself and every
    accepted spelling has that level; the factor names of a session list exactly the
    bits it holds, so two sessions with the same names hold the same known factors. *)
Theorem names_roundtrip l f g :
  ParseLevel (Level_String l) = (l, true) /\
  (forall s, snd (ParseLevel s) = true -> ParseLevel (Level_String (fst (ParseLevel s))) = ParseLevel s) /\
  (Factor_Names f = Factor_Names g -> forall b n, In (b, n) factor_table ->
     (Z.land f b <> 0 <-> Z.land g b <> 0)).
Proof.
  split; [by destruct l|]. split.
  - intros s. unfold ParseLevel at 1 3 4. repeat case_match; cbn; done.
  - intros Heq b n Hin.
    assert (Hu : forall b', In (b', n) factor_table -> b' = b).
    { intros b' Hin'. cbn in Hin, Hin'.
      repeat match goal with H : _ \/ _ |- _ => destruct H | H : (_, _) = (_, _) |- _ => inversion H; clear H end;
        subst; done. }
    split; intros Hb.
    + assert (Hx : In n (Factor_Names g)) by (rewrite <- Heq; apply Factor_Names_in; eauto).
      apply Factor_Names_in in Hx as (b' & Hin' & Hb'). by rewrite <- (Hu _ Hin').
    + assert (Hx : In n (Factor_Names f)) by (rewrite Heq; apply Factor_Names_in; eauto).
      apply Factor_Names_in in Hx as (b' & Hin' & Hb'). by rewrite <- (Hu _ Hin').
Qed.
