(* ===== verification/Limits.v ===== *)
(** * limits: admission control

    [src/limits/limits.go]: the per-principal token bucket and the per-database
    concurrency cap.  [float64] arithmetic is IEEE binary64 ([SpecFloat] with precision
    53 and emax 1024); the mutex makes [Allow] and the release closure atomic. *)
From S2P Require Import Prelude GoStd.
From Stdlib Require Import Floats.SpecFloat.

Definition f64_of_Z (z : Z) : spec_float := binary_normalize 53 1024 z 0 false.
Definition f_add := SFadd 53 1024.
Definition f_sub := SFsub 53 1024.
Definition f_mul := SFmul 53 1024.
Definition f_div := SFdiv 53 1024.
Definition f_one : spec_float := f64_of_Z 1.

(** [Duration.Seconds]. *)
Definition Seconds (d : Z) : spec_float :=
  f_add (f64_of_Z (Z.quot d second)) (f_div (f64_of_Z (Z.rem d second)) (f64_of_Z second)).

Record bucket := Bucket { tokens : spec_float; last : Z }.

Record limiter := Limiter {
  rps : spec_float;
  burst : spec_float;
  perDBMax : Z;
  buckets : gmap string bucket;
  inflight : gmap string Z
}.

Definition New (perPrincipalRPS : spec_float) (maxConcurrentPerDB : Z) : limiter :=
  let b := if SFltb perPrincipalRPS f_one then f_one else perPrincipalRPS in
  Limiter perPrincipalRPS b maxConcurrentPerDB ∅ ∅.

Definition set_bucket (l : limiter) (principal : string) (b : bucket) : limiter :=
  Limiter (rps l) (burst l) (perDBMax l) (<[principal := b]> (buckets l)) (inflight l).
Definition set_inflight (l : limiter) (db : string) (n : Z) : limiter :=
  Limiter (rps l) (burst l) (perDBMax l) (buckets l) (<[db := n]> (inflight l)).

(** Refill, capped at the burst. *)
Definition refill (l : limiter) (b : bucket) (now : Z) : spec_float :=
  let t := f_add (tokens b) (f_mul (Seconds (time_sub now (last b))) (rps l)) in
  if SFltb (burst l) t then burst l else t.

Definition takeToken (l : limiter) (principal : string) (now : Z) : bool * limiter :=
  if SFleb (rps l) (S754_zero false) then (true, l) else
  let b := default (Bucket (burst l) now) (buckets l !! principal) in
  let t := refill l b now in
  if SFltb t f_one then (false, set_bucket l principal (Bucket t now))
  else (true, set_bucket l principal (Bucket (f_sub t f_one) now)).

Inductive verdict : Type := Admitted_ | RateLimited | Busy.

Definition Allow (l : limiter) (principal db : string) (now : Z) : verdict * limiter :=
  let '(ok, l1) := takeToken l principal now in
  if negb ok then (RateLimited, l1)
  else if (0 <? perDBMax l1) && (zget (inflight l1) db >=? perDBMax l1) then (Busy, l1)
  else (Admitted_, set_inflight l1 db (zget (inflight l1) db + 1)).

(** The body of the returned release func (run at most once, by its [sync.Once]). *)
Definition release (l : limiter) (db : string) : limiter :=
  if 0 <? zget (inflight l) db then set_inflight l db (zget (inflight l) db - 1) else l.

Definition InFlight (l : limiter) (db : string) : Z := zget (inflight l) db.

(** ** The limiter under concurrent requests

    Every admitted request holds one release closure: the database it is for and whether
    its [sync.Once] has fired.  A caller may call a closure again. *)
Record system := Sys { lim : limiter; closures : list (string * bool) }.

Inductive op : Type :=
| OAllow (principal db : string) (now : Z)
| ORelease (i : nat).

Definition step (s : system) (o : op) : system :=
  match o with
  | OAllow p db now =>
      match Allow (lim s) p db now with
      | (Admitted_, l) => Sys l (closures s ++ [(db, false)])
      | (_, l) => Sys l (closures s)
      end
  | ORelease i =>
      match closures s !! i with
      | Some (db, false) => Sys (release (lim s) db) (<[i := (db, true)]> (closures s))
      | _ => s
      end
  end.

Definition run (l : limiter) (ops : list op) : system := fold_left step ops (Sys l []).

(** Requests of [db] in progress: admitted and not yet released. *)
Definition is_open (db : string) (c : string * bool) : bool :=
  String.eqb c.1 db && negb c.2.
Definition outstanding (db : string) (cs : list (string * bool)) : Z :=
  Z.of_nat (length (List.filter (is_open db) cs)).

Lemma outstanding_app db cs cs' : outstanding db (cs ++ cs') = outstanding db cs + outstanding db cs'.
Proof. unfold outstanding. rewrite List.filter_app, length_app. lia. Qed.

Lemma outstanding_single db c : outstanding db [c] = Z.b2z (is_open db c).
Proof. unfold outstanding. cbn [List.filter]. by destruct (is_open db c). Qed.

Lemma is_open_eqb db db' b : is_open db (db', b) = bool_decide (db' = db) && negb b.
Proof.
  unfold is_open. cbn. case_bool_decide as Hd; [subst; by rewrite String.eqb_refl|].
  by rewrite (proj2 (String.eqb_neq _ _)).
Qed.

Lemma outstanding_insert db cs i c c' :
  cs !! i = Some c ->
  outstanding db (<[i := c']> cs) =
    outstanding db cs - Z.b2z (is_open db c) + Z.b2z (is_open db c').
Proof.
  revert i. induction cs as [|x cs IH]; intros [|i] Hi; cbn in Hi; try done.
  - injection Hi as ->. unfold outstanding. change (<[0%nat:=c']> (c :: cs)) with (c' :: cs).
    cbn [List.filter].
    destruct (is_open db c), (is_open db c'); cbn [length Z.b2z]; lia.
  - specialize (IH _ Hi). unfold outstanding in *.
    change (<[S i:=c']> (x :: cs)) with (x :: <[i:=c']> cs). cbn [List.filter].
    destruct (is_open db x); cbn [length]; rewrite ?Nat2Z.inj_succ; lia.
Qed.

Lemma takeToken_frame l p now ok l' :
  takeToken l p now = (ok, l') ->
  inflight l' = inflight l /\ perDBMax l' = perDBMax l /\
  (forall q, q <> p -> buckets l' !! q = buckets l !! q).
Proof.
  unfold takeToken. destruct (SFleb _ _); [intros [= <- <-]; done|].
  destruct (SFltb _ _); intros [= <- <-]; cbn; repeat split; intros q Hq;
    by rewrite lookup_insert_ne by congruence.
Qed.

Record inv (s : system) : Prop := {
  inv_count : forall db, InFlight (lim s) db = outstanding db (closures s);
  inv_cap : 0 < perDBMax (lim s) -> forall db, InFlight (lim s) db <= perDBMax (lim s)
}.

Lemma step_inv s o : inv s -> inv (step s o).
Proof.
  intros [Hc Hcap]. unfold InFlight in *. destruct o as [p db now|i]; cbn.
  - unfold Allow. destruct (takeToken (lim s) p now) as [ok l1] eqn:E.
    apply takeToken_frame in E as (Hi & Hm & _).
    destruct ok; cbn [negb].
    + destruct (_ && _) eqn:Ecap.
      * constructor; cbn; unfold InFlight; rewrite ?Hi, ?Hm; auto.
      * constructor; cbn; unfold InFlight, set_inflight; cbn; rewrite ?Hi, ?Hm.
        -- intros db'. rewrite zget_insert, outstanding_app, outstanding_single, is_open_eqb, !Hc.
           case_bool_decide; destruct (decide _); subst; cbn [negb andb Z.b2z]; done || lia.
        -- intros Hpos db'. rewrite zget_insert. rewrite Hi, Hm in Ecap.
           destruct (decide _) as [->|]; [|by apply Hcap].
           rewrite (proj2 (Z.ltb_lt _ _)) in Ecap by done. cbn in Ecap. bool_to_prop. lia.
    + constructor; cbn; unfold InFlight; rewrite ?Hi, ?Hm; auto.
  - destruct (closures s !! i) as [[db []]|] eqn:E; [by constructor| |by constructor].
    assert (Hpos : 0 < zget (inflight (lim s)) db).
    { rewrite Hc. unfold outstanding.
      assert (Hin : In (db, false) (List.filter (is_open db) (closures s))).
      { apply filter_In. split; [|by rewrite is_open_eqb, bool_decide_true].
        apply list_elem_of_In, list_elem_of_lookup. eauto. }
      destruct (List.filter _ _); [done|cbn; lia]. }
    unfold release. rewrite (proj2 (Z.ltb_lt _ _)) by done.
    constructor; cbn; unfold InFlight, set_inflight; cbn.
    + intros db'. rewrite zget_insert, (outstanding_insert _ _ _ _ _ E), !is_open_eqb, <- !Hc.
      case_bool_decide; destruct (decide _); subst; cbn [negb andb Z.b2z]; done || lia.
    + intros Hp db'. rewrite zget_insert. specialize (Hcap Hp). destruct (decide _) as [->|]; [|by apply Hcap].
      specialize (Hcap db'). lia.
Qed.

Lemma run_inv l ops : inflight l = ∅ -> inv (run l ops).
Proof.
  intros Hl. unfold run. rewrite <- fold_left_rev_right.
  induction (rev ops) as [|o r IH]; cbn; [|by apply step_inv].
  constructor; cbn; unfold InFlight; rewrite Hl; intros; unfold zget; rewrite lookup_empty; cbn;
    try done; lia.
Qed.

Lemma release_frame l db : perDBMax (release l db) = perDBMax l /\ rps (release l db) = rps l /\ burst (release l db) = burst l /\ buckets (release l db) = buckets l.
Proof. unfold release. by case_match. Qed.
Lemma Allow_frame l p db now : let l' := (Allow l p db now).2 in
  perDBMax l' = perDBMax l /\ rps l' = rps l /\ burst l' = burst l /\ buckets l' = buckets (takeToken l p now).2.
Proof.
  cbv zeta. unfold Allow, takeToken. destruct (SFleb _ _); [|destruct (SFltb _ _)]; cbn [negb]; try (destruct (_ && _)); done.
Qed.
Lemma step_lim s o : lim (step s o) = match o with
  | OAllow p db now => (Allow (lim s) p db now).2
  | ORelease i => match closures s !! i with Some (db, false) => release (lim s) db | _ => lim s end
  end.
Proof. destruct o as [p db now|i]; cbn; [by destruct (Allow _ _ _ _) as [[] l]|by destruct (closures s !! i) as [[? []]|]]. Qed.

(** ** The token bucket as a function of one principal's calls

    What a principal may spend, from the times of its own earlier calls alone: the capacity
    is one second's worth and at least one request; it fills at the rate from the previous
    call on, up to the capacity; a call that finds one whole token spends it. *)
Definition capacity (r : spec_float) : spec_float := if SFltb r f_one then f_one else r.
Definition filled (r held : spec_float) (elapsed : Z) : spec_float :=
  let t := f_add held (f_mul (Seconds elapsed) r) in if SFltb (capacity r) t then capacity r else t.
Definition available (r : spec_float) (b : option (spec_float * Z)) (now : Z) : spec_float :=
  match b with None => filled r (capacity r) 0 | Some (held, at_) => filled r held (time_sub now at_) end.
Definition spend (r : spec_float) (b : option (spec_float * Z)) (now : Z) : option (spec_float * Z) :=
  let t := available r b now in Some (if SFltb t f_one then t else f_sub t f_one, now).
Definition balance (r : spec_float) (times : list Z) : option (spec_float * Z) := fold_left (spend r) times None.
(** The times at which [p] called. *)
Definition calls (p : string) (ops : list op) : list Z :=
  omap (fun o => match o with OAllow q _ now => if String.eqb q p then Some now else None | ORelease _ => None end) ops.
(** The verdict a principal is due. *)
Definition rate_limited (r : spec_float) (times : list Z) (now : Z) : bool :=
  negb (SFleb r (S754_zero false)) && SFltb (available r (balance r times) now) f_one.

(** No time passes between a time and itself. *)
Lemma time_sub_self t : time_sub t t = 0.
Proof. unfold time_sub. rewrite Z.sub_diag. reflexivity. Qed.

Lemma run_params r m ops : let l := lim (run (New r m) ops) in perDBMax l = m /\ rps l = r /\ burst l = capacity r.
Proof.
  cbv zeta. induction ops as [|o ops IH] using rev_ind; [done|]. unfold run in *. rewrite fold_left_app. cbn [fold_left]. rewrite step_lim.
  destruct o as [p db now|i]; [destruct (Allow_frame (lim (fold_left step ops (Sys (New r m) []))) p db now) as (-> & -> & -> & _); done|].
  destruct (closures _ !! i) as [[db []]|]; try exact IH. by destruct (release_frame (lim (fold_left step ops (Sys (New r m) []))) db) as (-> & -> & -> & _).
Qed.

(** One call against the bucket is one [spend]. *)
Lemma takeToken_spec l p now b : burst l = capacity (rps l) -> SFleb (rps l) (S754_zero false) = false ->
  buckets l !! p = (fun b => Bucket b.1 b.2) <$> b ->
  (takeToken l p now).1 = negb (SFltb (available (rps l) b now) f_one) /\
  buckets (takeToken l p now).2 !! p = (fun b => Bucket b.1 b.2) <$> spend (rps l) b now.
Proof.
  intros Hb Hr Hp. unfold takeToken. rewrite Hr, Hp. unfold spend.
  assert (refill l (default (Bucket (burst l) now) ((fun b => Bucket b.1 b.2) <$> b)) now = available (rps l) b now) as E.
  { unfold refill, available, filled. rewrite Hb. destruct b as [[t a]|]; cbn; [done|]. by rewrite time_sub_self. }
  rewrite E. destruct (SFltb _ _); cbn; by rewrite lookup_insert_eq.
Qed.

Lemma run_buckets r m ops p : SFleb r (S754_zero false) = false ->
  buckets (lim (run (New r m) ops)) !! p = (fun b => Bucket b.1 b.2) <$> balance r (calls p ops).
Proof.
  intros Hr. induction ops as [|o ops IH] using rev_ind; [done|]. destruct (run_params r m ops) as (_ & Hps & Hbu). unfold run in *. rewrite fold_left_app. cbn [fold_left].
  rewrite step_lim. unfold calls. rewrite omap_app. unfold balance. rewrite fold_left_app. fold (calls p ops). fold (balance r (calls p ops)). destruct o as [q db now|i]; cbn.
  - set (l := lim _) in *. destruct (Allow_frame l q db now) as (_ & _ & _ & ->). destruct (String.eqb_spec q p) as [->|Hne]; cbn.
    + rewrite <- Hps in *. by apply takeToken_spec.
    + destruct (takeToken l q now) as [ok l1] eqn:E. apply takeToken_frame in E as (_ & _ & E). cbn. by rewrite E.
  - destruct (closures _ !! i) as [[db []]|]; try exact IH. by destruct (release_frame (lim (fold_left step ops (Sys (New r m) []))) db) as (_ & _ & _ & ->).
Qed.

(** C30: after any interleaving of admissions and (possibly repeated) releases from a
    fresh limiter, a request is refused for its rate exactly when a rate is set and the
    principal's bucket, which depends on the times of its own calls alone, holds less than
    one token; otherwise it is refused as busy exactly when a cap is set and that many
    admitted requests of the database are not yet released; otherwise it is admitted.  The
    in-flight counter of every database is exactly the number of admitted requests not yet
    released, it never exceeds a positive concurrency cap, a rejected request holds no
    slot, and one principal's traffic never touches another's bucket. *)
Theorem limiter_accounting r m ops p db now :
  let s := run (New r m) ops in
  (Allow (lim s) p db now).1 =
    (if rate_limited r (calls p ops) now then RateLimited
     else if (0 <? m) && (m <=? outstanding db (closures s)) then Busy else Admitted_) /\
  (forall d, InFlight (lim s) d = outstanding d (closures s)) /\
  (0 < m -> forall d, InFlight (lim s) d <= m) /\
  (forall v l', Allow (lim s) p db now = (v, l') -> v <> Admitted_ -> inflight l' = inflight (lim s)) /\
  (forall v l' q, Allow (lim s) p db now = (v, l') -> q <> p -> buckets l' !! q = buckets (lim s) !! q).
Proof.
  intros s. destruct (run_inv (New r m) ops eq_refl) as [Hc Hcap]. fold s in Hc, Hcap.
  destruct (run_params r m ops) as (Hm & Hps & Hbu). fold s in Hm, Hps, Hbu.
  split.
  { unfold Allow. rewrite <- Hc. unfold InFlight. destruct (takeToken (lim s) p now) as [ok l1] eqn:E.
    assert (Hok : ok = negb (rate_limited r (calls p ops) now)).
    { unfold rate_limited. destruct (SFleb r (S754_zero false)) eqn:Er; [unfold takeToken in E; rewrite Hps, Er in E; by injection E as <- _|].
      pose proof (run_buckets r m ops p Er) as Hbk. fold s in Hbk. rewrite <- Hps in *.
      pose proof (takeToken_spec (lim s) p now _ Hbu Er Hbk) as [H _]. rewrite E in H. exact H. }
    apply takeToken_frame in E as (Hi & Hmx & _). rewrite Hi, Hmx, Hm, Hok. rewrite Z.geb_leb. destruct (rate_limited _ _ _); cbn [negb]; [done|]. by destruct (_ && _). }
  split; [done|]. split; [by rewrite <- Hm|].
  split; intros v l'; unfold Allow; destruct (takeToken (lim s) p now) as [ok l1] eqn:E;
    apply takeToken_frame in E as (Hi & _ & Hb).
  - destruct ok; cbn [negb]; [destruct (_ && _)|]; intros [= <- <-]; done.
  - intros q. destruct ok; cbn [negb]; [destruct (_ && _)|]; intros [= <- <-] Hq; cbn; auto.
Qed.

(** With a cap of one, the second request is refused until the first is released. *)
Example limiter_ex :
  let s := run (New (S754_zero false) 1) [OAllow "a" "d" 0; OAllow "b" "d" 0; ORelease 0; ORelease 0; OAllow "b" "d" 1]%string in
  closures s = [("d", true); ("d", false)]%string /\ InFlight (lim s) "d" = 1.
Proof. split; reflexivity. Qed.
(** A burst of one request per second. *)
Example bucket_ex :
  fst (takeToken (snd (takeToken (New f_one 0) "a" 0)) "a" 500000000) = false /\
  fst (takeToken (snd (takeToken (New f_one 0) "a" 0)) "a" 1000000000) = true.
Proof. split; vm_compute; reflexivity. Qed.
