(* ===== verification/Engine.v ===== *)
(** * engine: statement classification, bounded queries, all-or-nothing batches

    [src/engine/classify.go], [engine.go], [errors.go], [result.go].  The database/sql
    surface the engine calls ([Queryer], [TxBeginner]) is a record of operations on a
    state type of the caller's choice: the driver behind it is third-party code. *)
From S2P Require Import Prelude GoStd Wire.

(** ** Statements, results, errors *)

Record statement := Stmt {
  SQL : string;
  Args : list value;
  Named : list (string * value);
  AllowAttach : bool
}.

Record qresult := Result_ {
  Columns : list string;
  Rows : list (list value);
  RowsAffected : Z;
  LastInsertID : Z;
  Truncated : bool
}.

(** [ErrSqlite] is the driver's error type, [ErrEngine] the server's typed error;
    [ErrBatch] wraps, like Go's [Unwrap]. *)
Inductive err : Type :=
| ErrSqlite (code ext : Z) (msg : string)
| ErrEngine (code ext : Z) (msg : string)
| ErrDenied
| ErrBatch (index : nat) (e : err)
| ErrDeadline
| ErrCanceled
| ErrOther (msg : string).

(** [errors.AsType[*Error]]: the first engine error along the unwrap chain. *)
Fixpoint as_engine (e : err) : option (Z * Z * string) :=
  match e with
  | ErrEngine c x m => Some (c, x, m)
  | ErrBatch _ e' => as_engine e'
  | _ => None
  end.
Fixpoint is_denied (e : err) : bool :=
  match e with ErrDenied => true | ErrBatch _ e' => is_denied e' | _ => false end.
(** [err.Error()] of a denial, through the batch wrappers. *)
Fixpoint denied_text (e : err) : string :=
  match e with
  | ErrBatch i e' => "batch statement " +:+ format_int (Z.of_nat i) +:+ ": " +:+ denied_text e'
  | _ => "statement not permitted by server policy: ATTACH/DETACH is disabled"
  end.
Fixpoint is_ctx (e : err) : bool :=
  match e with ErrDeadline | ErrCanceled => true | ErrBatch _ e' => is_ctx e' | _ => false end.
Definition as_batch (e : err) : option nat :=
  match e with ErrBatch i _ => Some i | _ => None end.

Definition sqliteAuth : Z := 23.
Definition IsNotAuthorized (e : err) : bool :=
  match as_engine e with Some (c, _, _) => c =? sqliteAuth | None => false end.

(** [errors.AsType[*sqlite.Error]] then the conversion. *)
Definition wrap (e : err) : err :=
  match e with ErrSqlite c x m => ErrEngine c x m | _ => e end.

(** ** Classification *)

Definition bom : string := chr 239 +:+ chr 187 +:+ chr 191.
Definition ws_cut : string := " " +:+ tab +:+ cr +:+ nl +:+ ff.

(** The keyword: up to white space or an opening parenthesis. *)
Definition is_delim (c : ascii) : bool := mem_char c ws_cut || Ascii.eqb c "(".
Fixpoint take_token (s : string) : string :=
  match s with
  | EmptyString => EmptyString
  | String c r => if is_delim c then EmptyString else String c (take_token r)
  end.

(** The skipping loop of [firstToken]; [None] means the fuel ran out. *)
Fixpoint skip_loop (fuel : nat) (sql : string) : option string :=
  match fuel with
  | O => None
  | S n =>
      let sql := trim_left ws_cut sql in
      if has_prefix "--" sql then skip_loop n (default EmptyString (after_char newline sql))
      else if has_prefix "/*" sql then skip_loop n (default EmptyString (after_str "*/" sql))
      else Some (take_token sql)
  end.
Definition firstToken (sql : string) : string :=
  let sql := default sql (cut_prefix bom sql) in
  default EmptyString (skip_loop (S (String.length sql)) sql).

Definition isReadOnly (sql : string) : bool :=
  let t := to_upper (firstToken sql) in
  existsb (String.eqb t) ["SELECT"; "WITH"; "EXPLAIN"; "VALUES"; "PRAGMA"]%string.

(** The regular expression [(?i)\bRETURNING\b]. *)
Definition word_char (c : ascii) : bool :=
  let n := nat_of_ascii c in
  ((48 <=? n) && (n <=? 57) || (65 <=? n) && (n <=? 90) || (97 <=? n) && (n <=? 122))%nat
  || Ascii.eqb c "_".
Definition starts_with_word (s : string) : bool :=
  match s with EmptyString => false | String c _ => word_char c end.
Fixpoint hasReturning_at (prev_word : bool) (s : string) : bool :=
  (negb prev_word &&
     match cut_prefix "RETURNING" (to_upper s) with
     | Some r => negb (starts_with_word r)
     | None => false
     end) ||
  match s with EmptyString => false | String c r => hasReturning_at (word_char c) r end.
Definition hasReturning (sql : string) : bool := hasReturning_at false sql.

Definition IsReadOnly (sql : string) : bool := isReadOnly sql && negb (hasReturning sql).
Definition IsExplain (sql : string) : bool := String.eqb (to_lower (firstToken sql)) "explain".

(** ** The database/sql surface *)

(** The rows of a query as the driver delivers them: their columns (or the error of
    [rows.Columns()]), each row scanned or failing to scan, and what [rows.Err()] reports
    once they are exhausted ([rows_err]) or when the loop is left before ([break_err]: the
    context ended meanwhile). *)
Record rows := Rows_ {
  row_cols : result err (list string);
  row_data : list (result err (list goany));
  rows_err : option err;
  break_err : option err
}.
Definition RowSet (cols : list string) (data : list (result err (list goany))) (fin : option err) : rows :=
  Rows_ (Ok cols) data fin None.

Inductive bind : Type := BPos (a : goany) | BNamed (n : string) (a : goany).

Record Queryer (S : Type) := {
  QueryContext : S -> string -> list bind -> S * result err rows;
  ExecContext : S -> string -> list bind -> S * result err (Z * Z)
}.
Arguments QueryContext {S}. Arguments ExecContext {S}.

Record TxBeginner (S : Type) := {
  BeginTx : S -> S * result err unit;
  TxQueryer : Queryer S;
  Commit : S -> S * result err unit;
  Rollback : S -> S
}.
Arguments BeginTx {S}. Arguments TxQueryer {S}. Arguments Commit {S}. Arguments Rollback {S}.

(** ** The engine *)

Record engine := Eng { maxRows : Z; maxBytes : Z }.
Definition DefaultMaxRows : Z := 100000.
Definition DefaultMaxResultBytes : Z := 64 * 2 ^ 20.
Definition NewEngine (mr mb : Z) : engine :=
  Eng (if mr <=? 0 then DefaultMaxRows else mr) (if mb <=? 0 then DefaultMaxResultBytes else mb).

Definition bindArgs (s : statement) : list bind :=
  match Named s with
  | [] => map (fun v => BPos (Arg v)) (Args s)
  | named => map (fun nv => BNamed nv.1 (Arg nv.2)) named
  end.

Section Engine.
Context `{FT : FloatText}.
Variable e : engine.

(** One row: the cells, the running byte count, and whether the cap tripped. *)
Fixpoint scan_cells (bytes : Z) (trunc : bool) (cells : list goany) : list value * Z * bool :=
  match cells with
  | [] => ([], bytes, trunc)
  | v :: r =>
      let x := FromGo v in
      let bytes := bytes + Size x in
      let '(xs, b, t) := scan_cells bytes (trunc || (bytes >=? maxBytes e)) r in
      (x :: xs, b, t)
  end.

(** The loop, and the [rows.Err()] after it. *)
Definition ended {A} (x : option err) (a : A) : result err A :=
  match x with Some x => Err (wrap x) | None => Ok a end.
Fixpoint scan_rows (n : Z) (bytes : Z) (rs : list (result err (list goany))) (fin brk : option err)
  : result err (list (list value) * bool) :=
  match rs with
  | [] => ended fin ([], false)
  | r :: rest =>
      if n >=? maxRows e then ended brk ([], true)
      else match r with
           | Err x => Err (wrap x)
           | Ok cells =>
               let '(row, bytes, trunc) := scan_cells bytes false cells in
               if trunc then ended brk ([row], true)
               else let* tl := scan_rows (n + 1) bytes rest fin brk in Ok (row :: fst tl, snd tl)
           end
  end.

Definition Query {S} (q : Queryer S) (st : S) (s : statement) : S * result err qresult :=
  match QueryContext q st (SQL s) (bindArgs s) with
  | (st', Err x) => (st', Err (wrap x))
  | (st', Ok rs) =>
      (st', match row_cols rs with
            | Err x => Err (wrap x)
            | Ok cols =>
                let* rt := scan_rows 0 0 (row_data rs) (rows_err rs) (break_err rs) in
                Ok (Result_ cols (fst rt) 0 0 (snd rt))
            end)
  end.

Definition Exec {S} (q : Queryer S) (st : S) (s : statement) : S * result err qresult :=
  match ExecContext q st (SQL s) (bindArgs s) with
  | (st', Err x) => (st', Err (wrap x))
  | (st', Ok (aff, lid)) => (st', Ok (Result_ [] [] aff lid false))
  end.

Definition attach_denied (s : statement) : bool :=
  let t := to_upper (firstToken (SQL s)) in
  (String.eqb t "ATTACH" || String.eqb t "DETACH") && negb (AllowAttach s).

Definition Run {S} (q : Queryer S) (st : S) (s : statement) : S * result err qresult :=
  if attach_denied s then (st, Err ErrDenied)
  else if isReadOnly (SQL s) || hasReturning (SQL s) then Query q st s
  else Exec q st s.

Fixpoint run_all {S} (q : Queryer S) (st : S) (i : nat) (stmts : list statement)
  : S * result err (list qresult) :=
  match stmts with
  | [] => (st, Ok [])
  | s :: r =>
      match Run q st s with
      | (st', Err x) => (st', Err (ErrBatch i x))
      | (st', Ok res) =>
          match run_all q st' (i + 1) r with
          | (st'', Ok rs) => (st'', Ok (res :: rs))
          | (st'', Err x) => (st'', Err x)
          end
      end
  end.

Definition Batch {S} (b : TxBeginner S) (st : S) (stmts : list statement)
  : S * result err (list qresult) :=
  match BeginTx b st with
  | (st1, Err x) => (st1, Err (wrap x))
  | (st1, Ok _) =>
      match run_all (TxQueryer b) st1 0 stmts with
      | (st2, Err x) => (Rollback b st2, Err x)
      | (st2, Ok out) =>
          match Commit b st2 with
          | (st3, Err x) => (st3, Err (wrap x))
          | (st3, Ok _) => (st3, Ok out)
          end
      end
  end.

End Engine.

(** ** The skipping loop always ends *)

Lemma trim_left_length cut s : (String.length (trim_left cut s) <= String.length s)%nat.
Proof. induction s as [|c r IH]; cbn [trim_left]; [done|]. destruct (mem_char c cut); cbn; lia. Qed.

Lemma after_char_length c s r : after_char c s = Some r -> (String.length r < String.length s)%nat.
Proof.
  induction s as [|a s IH]; cbn [after_char]; [done|].
  destruct (Ascii.eqb a c); [intros [= ->]; cbn; lia|]. intros H%IH. cbn. lia.
Qed.

Lemma cut_prefix_length p s r :
  cut_prefix p s = Some r -> String.length s = (String.length p + String.length r)%nat.
Proof.
  intros ->%cut_prefix_some. induction p as [|a p IH]; [done|]. rewrite sapp_cons. cbn. lia.
Qed.

Lemma after_str_length p s r :
  p <> EmptyString -> after_str p s = Some r -> (String.length r < String.length s)%nat.
Proof.
  intros Hp. induction s as [|a s IH]; cbn [after_str]; destruct (cut_prefix p _) as [t|] eqn:E; try done.
  - intros [= ->]. apply cut_prefix_length in E. destruct p; cbn in *; [done|lia].
  - intros [= ->]. apply cut_prefix_length in E. destruct p; cbn in *; [done|lia].
  - intros H%IH. cbn. lia.
Qed.

Lemma has_prefix_nonempty p s :
  p <> EmptyString -> has_prefix p s = true -> (0 < String.length s)%nat.
Proof.
  unfold has_prefix. destruct (cut_prefix p s) eqn:E; [|done]. intros Hp _.
  apply cut_prefix_length in E. destruct p; cbn in *; [done|lia].
Qed.

Lemma skip_loop_total n s : (String.length s < n)%nat -> is_Some (skip_loop n s).
Proof.
  revert s. induction n as [|n IH]; intros s Hn; [lia|]. cbn [skip_loop].
  pose proof (trim_left_length ws_cut s) as Ht. set (t := trim_left ws_cut s) in *.
  destruct (has_prefix "--" t) eqn:E1; [|destruct (has_prefix "/*" t) eqn:E2; [|eauto]];
    apply IH.
  - apply has_prefix_nonempty in E1; [|done].
    destruct (after_char newline t) as [r|] eqn:E; cbn; [apply after_char_length in E; lia|lia].
  - apply has_prefix_nonempty in E2; [|done].
    destruct (after_str "*/" t) as [r|] eqn:E; cbn; [apply after_str_length in E; [lia|done]|lia].
Qed.

Lemma skip_loop_mono n m s t : skip_loop n s = Some t -> (n <= m)%nat -> skip_loop m s = Some t.
Proof.
  revert m s. induction n as [|n IH]; intros [|m] s; cbn [skip_loop]; try done; [lia|].
  intros H Hm. repeat case_match; try done; (eapply IH; [exact H|lia]).
Qed.

(** ** What [firstToken] skips *)

(** Leading white space, line comments and block comments.  A block comment is closed by
    the first star-slash after its opening slash, as [strings.Index] finds it. *)
Inductive leading : string -> Prop :=
| lead_nil : leading EmptyString
| lead_ws c p : mem_char c ws_cut = true -> leading p -> leading (String c p)
| lead_line t p : mem_char newline t = false -> leading p -> leading ("--" +:+ t +:+ nl +:+ p)
| lead_block t p :
    contains ("/*" +:+ t +:+ "*") "*/" = false -> leading p -> leading ("/*" +:+ t +:+ "*/" +:+ p).

Lemma after_char_app c a r : mem_char c a = false -> after_char c (a +:+ String c r) = Some r.
Proof.
  induction a as [|x a IH]; [rewrite sapp_nil; cbn; by rewrite Ascii.eqb_refl|].
  rewrite sapp_cons. cbn [mem_char after_char]. intros H%orb_false_iff. destruct H as [H1 H2].
  rewrite Ascii.eqb_sym, H1. auto.
Qed.

Lemma after_str_cons p c s :
  after_str p (String c s) =
  match cut_prefix p (String c s) with Some r => Some r | None => after_str p s end.
Proof. reflexivity. Qed.

Lemma after_close_app a x :
  contains (a +:+ "*") "*/" = false -> after_str "*/" (a +:+ "*/" +:+ x) = Some x.
Proof.
  unfold contains. induction a as [|c a IH]; [rewrite !sapp_nil; done|].
  rewrite !(sapp_cons c a), !(after_str_cons _ c). intros H.
  assert (Hc : cut_prefix "*/" (String c (a +:+ "*/" +:+ x)) = None).
  { destruct (cut_prefix "*/" (String c (a +:+ "*"))) eqn:E in H; [done|]. clear H IH.
    cbn [cut_prefix] in *. destruct (Ascii.eqb "*" c); [|done].
    destruct a as [|d a]; [done|]. rewrite !(sapp_cons d a) in *.
    cbn [cut_prefix] in *. destruct (Ascii.eqb "/" d); [by destruct (a +:+ "*")|done]. }
  rewrite Hc. apply IH. by destruct (cut_prefix "*/" (String c (a +:+ "*"))).
Qed.

Lemma skip_step_line n t s : mem_char newline t = false ->
  skip_loop (S n) ("--" +:+ t +:+ nl +:+ s) = skip_loop n s.
Proof.
  intros Ht. cbn [skip_loop]. change (trim_left ws_cut ("--" +:+ t +:+ nl +:+ s)) with ("--" +:+ t +:+ nl +:+ s).
  rewrite has_prefix_app, nl_app. rewrite <- sapp_assoc, after_char_app by done. done.
Qed.

Lemma skip_step_block n t s : contains ("/*" +:+ t +:+ "*") "*/" = false ->
  skip_loop (S n) ("/*" +:+ t +:+ "*/" +:+ s) = skip_loop n s.
Proof.
  intros Ht. cbn [skip_loop].
  change (trim_left ws_cut ("/*" +:+ t +:+ "*/" +:+ s)) with ("/*" +:+ t +:+ "*/" +:+ s).
  assert (has_prefix "--" ("/*" +:+ t +:+ "*/" +:+ s) = false) as -> by reflexivity.
  rewrite has_prefix_app, <- sapp_assoc, after_close_app by (by rewrite sapp_assoc). done.
Qed.

Lemma skip_step_ws n c s : mem_char c ws_cut = true ->
  skip_loop (S n) (String c s) = skip_loop (S n) s.
Proof. intros H. cbn [skip_loop]. cbn [trim_left]. by rewrite H. Qed.

(** A keyword the loop stops at. *)
Definition plain_keyword (k : string) : Prop :=
  k <> EmptyString /\ take_token k = k /\
  forall r, has_prefix "--" (k +:+ r) = false /\ has_prefix "/*" (k +:+ r) = false.
Definition delimited (r : string) : Prop :=
  match r with EmptyString => True | String c _ => is_delim c = true end.

Lemma take_token_app k r : take_token k = k -> delimited r -> take_token (k +:+ r) = k.
Proof.
  intros Hk Hr. induction k as [|c k IH].
  - rewrite sapp_nil. destruct r as [|c r]; [done|]. cbn in *. by rewrite Hr.
  - rewrite sapp_cons. cbn [take_token] in *. destruct (is_delim c); [done|].
    injection Hk as Hk. by rewrite IH.
Qed.

Lemma keyword_stops n k r : plain_keyword k -> delimited r -> skip_loop (S n) (k +:+ r) = Some k.
Proof.
  intros (Hne & Hk & Hp) Hr. cbn [skip_loop].
  assert (trim_left ws_cut (k +:+ r) = k +:+ r) as ->.
  { destruct k as [|c k]; [done|]. rewrite sapp_cons. cbn [trim_left take_token] in *.
    unfold is_delim in Hk. destruct (mem_char c ws_cut); done. }
  destruct (Hp r) as [-> ->]. by rewrite take_token_app.
Qed.

Lemma skip_leading p k r :
  leading p -> plain_keyword k -> delimited r -> exists n, skip_loop n (p +:+ k +:+ r) = Some k.
Proof.
  intros Hp Hk Hr. induction Hp as [|c p Hc _ [n IH]|t p Ht _ [n IH]|t p Ht _ [n IH]].
  - exists 1%nat. rewrite sapp_nil. by apply keyword_stops.
  - exists (S n). rewrite sapp_cons, skip_step_ws by done. eapply skip_loop_mono; [exact IH|lia].
  - exists (S n). rewrite !sapp_assoc. by rewrite skip_step_line.
  - exists (S n). rewrite !sapp_assoc. by rewrite skip_step_block.
Qed.

Lemma cut_prefix_trim p s r : default s (cut_prefix p s) = r -> (String.length r <= String.length s)%nat.
Proof.
  destruct (cut_prefix p s) eqn:E; cbn; intros <-; [|done].
  apply cut_prefix_length in E. lia.
Qed.

Lemma firstToken_leading b p k r :
  b = EmptyString \/ b = bom ->
  leading p -> (b = EmptyString -> cut_prefix bom (p +:+ k +:+ r) = None) ->
  plain_keyword k -> delimited r -> firstToken (b +:+ p +:+ k +:+ r) = k.
Proof.
  intros Hb Hp Hnb Hk Hr. unfold firstToken.
  assert (default (b +:+ p +:+ k +:+ r) (cut_prefix bom (b +:+ p +:+ k +:+ r)) = p +:+ k +:+ r) as ->.
  { destruct Hb as [->| ->]; [rewrite sapp_nil, Hnb by done; done|by rewrite cut_prefix_app]. }
  set (s := p +:+ k +:+ r).
  destruct (skip_leading p k r Hp Hk Hr) as [n Hn].
  destruct (skip_loop_total (S (String.length s)) s) as [t Ht]; [lia|].
  rewrite Ht. cbn. fold s in Hn.
  assert (Hm1 := skip_loop_mono _ (max n (S (String.length s))) _ _ Hn ltac:(lia)).
  assert (Hm2 := skip_loop_mono _ (max n (S (String.length s))) _ _ Ht ltac:(lia)).
  congruence.
Qed.

(** ** The textual ATTACH/DETACH denial *)

Fixpoint all_word (s : string) : bool :=
  match s with EmptyString => true | String c r => word_char c && all_word r end.

Lemma upper_word c :
  word_char (upper_ascii c) = true ->
  is_delim c = false /\ Ascii.eqb "-" c = false /\ Ascii.eqb "/" c = false /\
  Ascii.eqb "239" c = false.
Proof. destruct c as [[] [] [] [] [] [] [] []]; vm_compute; intros H; repeat split; try done; discriminate H. Qed.

Lemma ws_not_bom c : mem_char c ws_cut = true -> Ascii.eqb "239" c = false.
Proof. destruct c as [[] [] [] [] [] [] [] []]; vm_compute; intros H; try done; discriminate H. Qed.

Lemma word_plain k : k <> EmptyString -> all_word (to_upper k) = true -> plain_keyword k.
Proof.
  intros Hne Hw. split; [done|]. split.
  - clear Hne. induction k as [|c k IH]; [done|]. cbn in Hw. bool_to_prop.
    cbn [take_token]. destruct (upper_word c) as [-> _]; [done|]. by rewrite IH.
  - destruct k as [|c k]; [done|]. cbn in Hw. bool_to_prop.
    intros r. rewrite sapp_cons. unfold has_prefix. cbn [cut_prefix].
    destruct (upper_word c) as (_ & -> & -> & _); done.
Qed.

Lemma no_bom p k r : leading p -> k <> EmptyString -> all_word (to_upper k) = true ->
  cut_prefix bom (p +:+ k +:+ r) = None.
Proof.
  intros Hp Hne Hw. destruct Hp as [|c p Hc _| |]; try done.
  - destruct k as [|c k]; [done|]. cbn in Hw. bool_to_prop. rewrite sapp_nil, sapp_cons.
    change bom with (String "239" (chr 187 +:+ chr 191)).
    cbn [cut_prefix]. destruct (upper_word c) as (_ & _ & _ & ->); done.
  - rewrite sapp_cons. change bom with (String "239" (chr 187 +:+ chr 191)).
    cbn [cut_prefix]. by rewrite (ws_not_bom _ Hc).
Qed.

Section Denial.
Context `{FT : FloatText} {S : Type}.

(** a statement whose first keyword is ATTACH or DETACH, in any letter case and
    behind a byte-order mark, white space, line comments and block comments, is denied
    by [Run] without reaching the driver, whatever follows the keyword, unless the
    session explicitly allows it. *)
Theorem Run_denies_attach (e : engine) (q : Queryer S) st b p k r args named :
  b = EmptyString \/ b = bom -> leading p -> delimited r ->
  to_upper k = "ATTACH"%string \/ to_upper k = "DETACH"%string ->
  Run e q st (Stmt (b +:+ p +:+ k +:+ r) args named false) = (st, Err ErrDenied).
Proof.
  intros Hb Hp Hr Hk.
  assert (Hw : all_word (to_upper k) = true) by (by destruct Hk as [-> | ->]).
  assert (Hne : k <> EmptyString) by (intros ->; destruct Hk; discriminate).
  unfold Run, attach_denied. cbn [SQL AllowAttach].
  rewrite firstToken_leading by eauto using no_bom, word_plain.
  by destruct Hk as [-> | ->].
Qed.

End Denial.

(** ** Bounded results *)

Definition row_size (row : list value) : Z := foldr (fun v n => Size v + n) 0 row.
Definition rows_size (rs : list (list value)) : Z := foldr (fun r n => row_size r + n) 0 rs.

Section Bounds.
Context `{FT : FloatText}.
Variable e : engine.

Lemma Size_nonneg v : 0 <= Size v.
Proof. destruct v; cbn; lia. Qed.

Lemma row_size_cons v r : row_size (v :: r) = Size v + row_size r.
Proof. reflexivity. Qed.
Lemma rows_size_cons r rs : rows_size (r :: rs) = row_size r + rows_size rs.
Proof. reflexivity. Qed.

Lemma scan_cells_spec cells : forall b t xs b' t',
  scan_cells e b t cells = (xs, b', t') ->
  xs = map FromGo cells /\ b' = b + row_size xs /\
  (t' = false -> t = false /\ (b < maxBytes e -> b' < maxBytes e)).
Proof.
  induction cells as [|v r IH]; cbn [scan_cells]; intros b t xs b' t'.
  - intros [= <- <- <-]. cbn. repeat split; auto; lia.
  - destruct (scan_cells e _ _ r) as [[ys b1] t1] eqn:E. intros [= <- <- <-].
    apply IH in E as (-> & -> & Ht). cbn [map]. rewrite row_size_cons.
    split; [done|]. split; [lia|]. intros H. destruct (Ht H) as [Ho Hb].
    apply orb_false_iff in Ho as [Ho Hlt]. bool_to_prop. split; [done|].
    intros _. by apply Hb in Hlt.
Qed.

Lemma scan_rows_spec rs fin brk : forall n b rows t,
  scan_rows e n b rs fin brk = Ok (rows, t) -> b < maxBytes e ->
  Forall2 (fun row r => exists cells, r = Ok cells /\ row = map FromGo cells) rows (take (length rows) rs) /\
  n + Z.of_nat (length rows) <= Z.max n (maxRows e) /\
  b + rows_size (removelast rows) < maxBytes e /\
  (if t then brk = None else length rows = length rs /\ fin = None).
Proof.
  induction rs as [|r rest IH]; cbn [scan_rows]; intros n b rows t.
  - destruct fin; [done|]. intros [= <- <-] Hb. cbn.
    split; [constructor|]. split; [lia|]. split; [unfold rows_size; cbn; lia|done].
  - destruct (n >=? maxRows e) eqn:En.
    { destruct brk; [done|]. intros [= <- <-] Hb. cbn.
      split; [constructor|]. split; [lia|]. split; [unfold rows_size; cbn; lia|done]. }
    bool_to_prop.
    destruct r as [cells|x]; [|done].
    destruct (scan_cells e b false cells) as [[row b1] tr] eqn:E.
    apply scan_cells_spec in E as (-> & -> & Ht).
    destruct tr.
    { destruct brk; [done|]. intros [= <- <-] Hb. split; [|split; [|split; [|done]]].
      - cbn. constructor; [eauto|constructor].
      - cbn [length]. lia.
      - cbn [removelast]. unfold rows_size. cbn. lia. }
    intros ([tl t0] & Htl & [= <- <-])%rbind_ok Hb.
    destruct (Ht eq_refl) as [_ Hb1]. specialize (Hb1 Hb).
    destruct (IH _ _ _ _ Htl Hb1) as (Hf & Hn & Hs & Hfin). cbn [fst snd] in *.
    split; [|split; [|split]].
    + cbn. constructor; [eauto|done].
    + cbn [length]. lia.
    + destruct tl as [|y ys]; [cbn; lia|].
      change (removelast (map FromGo cells :: y :: ys)) with (map FromGo cells :: removelast (y :: ys)).
      rewrite rows_size_cons. lia.
    + destruct t0; [done|]. destruct Hfin as [Hl ?]. split; [|done]. cbn. by f_equal.
Qed.

End Bounds.

Section Query.
Context `{FT : FloatText} {S : Type}.

(** C29: a result is always bounded: with any configured limits (non-positive ones fall
    back to the defaults) at most [maxRows] rows are returned, the rows before the last
    total less than [maxBytes], they are the driver's rows in order under the driver's
    columns, unless the result says it was truncated it is complete and the iteration ended
    without error, and a truncated one is returned only if no error was pending. *)
Theorem Query_bounded mr mb (q : Queryer S) st s st' r :
  Query (NewEngine mr mb) q st s = (st', Ok r) ->
  exists rs, QueryContext q st (SQL s) (bindArgs s) = (st', Ok rs) /\
    row_cols rs = Ok (Columns r) /\
    Forall2 (fun row d => exists cells, d = Ok cells /\ row = map FromGo cells)
      (Rows r) (take (length (Rows r)) (row_data rs)) /\
    Z.of_nat (length (Rows r)) <= (if mr <=? 0 then DefaultMaxRows else mr) /\
    rows_size (removelast (Rows r)) < (if mb <=? 0 then DefaultMaxResultBytes else mb) /\
    (Truncated r = false -> length (Rows r) = length (row_data rs) /\ rows_err rs = None) /\
    (Truncated r = true -> break_err rs = None).
Proof.
  unfold Query. destruct (QueryContext q st (SQL s) (bindArgs s)) as [st1 [rs|x]] eqn:E; [|done].
  destruct (row_cols rs) as [cols|] eqn:Ec; [|done].
  destruct (scan_rows _ 0 0 (row_data rs) (rows_err rs) _) as [[rows t]|] eqn:Es; [|done].
  intros [= <- <-]. cbn [Columns Rows Truncated fst snd].
  assert (Hb : 0 < maxBytes (NewEngine mr mb)) by (cbn; case_match; bool_to_prop; [reflexivity|lia]).
  assert (Hr : 0 < maxRows (NewEngine mr mb)) by (cbn; case_match; bool_to_prop; [reflexivity|lia]).
  destruct (scan_rows_spec _ _ _ _ _ _ _ _ Es Hb) as (Hf & Hn & Hsz & Hfin).
  exists rs. cbn [NewEngine maxRows] in Hn, Hr. split; [done|]. split; [done|]. split; [done|]. split; [lia|]. split; [done|].
  by destruct t.
Qed.

End Query.

(** ** Invariants of a queryer *)

(** [P] of the store's state survives every statement. *)
Record queryer_keeps {S} (q : Queryer S) (P : S -> Prop) : Prop := {
  qk_query : forall st sql a, P st -> P (QueryContext q st sql a).1;
  qk_exec : forall st sql a, P st -> P (ExecContext q st sql a).1
}.

Section Kept.
Context `{FT : FloatText} {S : Type} (e : engine) (q : Queryer S) (P : S -> Prop).
Hypothesis keeps : queryer_keeps q P.

Lemma Run_keeps st s : P st -> P (Run e q st s).1.
Proof using keeps.
  intros Hp. unfold Run. destruct (attach_denied s); [done|]. unfold Query, Exec. destruct (_ || _).
  - pose proof (qk_query _ _ keeps st (SQL s) (bindArgs s) Hp) as H. by destruct (QueryContext q st _ _) as [y []].
  - pose proof (qk_exec _ _ keeps st (SQL s) (bindArgs s) Hp) as H. by destruct (ExecContext q st _ _) as [y [[]|]].
Qed.

Lemma run_all_keeps sts : forall st i, P st -> P (run_all e q st i sts).1.
Proof using keeps.
  induction sts as [|s sts IH]; intros st i Hp; cbn [run_all]; [done|].
  pose proof (Run_keeps st s Hp) as Hr. destruct (Run e q st s) as [y [res|x]]; [|done].
  specialize (IH y (i + 1)%nat Hr). by destruct (run_all e q y (i + 1) sts) as [z []].
Qed.
End Kept.

(** ** All-or-nothing batches *)

(** The transaction contract of the store the batch runs on.  [durable] is the committed
    state, [seen] what a transaction sees of it with its own changes, [in_tx] whether the
    [sql.Tx] is open and holds its connection.  A statement that does not end the transaction itself ([ends_tx]) only changes
    what is seen; a rollback drops that and closes the transaction; a commit makes it
    durable, or fails and keeps what was. *)
Record tx_store {S D : Type} (b : TxBeginner S) (durable seen : S -> D) (in_tx : S -> bool) (ends_tx : string -> bool) : Prop := {
  tx_begin : forall st, let '(st', r) := BeginTx b st in
    durable st' = durable st /\ match r with Ok _ => in_tx st' = true /\ seen st' = durable st | Err _ => in_tx st' = in_tx st end;
  tx_query : forall st sql a, ends_tx sql = false -> in_tx st = true ->
    let st' := (QueryContext (TxQueryer b) st sql a).1 in durable st' = durable st /\ in_tx st' = true;
  tx_exec : forall st sql a, ends_tx sql = false -> in_tx st = true ->
    let st' := (ExecContext (TxQueryer b) st sql a).1 in durable st' = durable st /\ in_tx st' = true;
  tx_rollback : forall st, in_tx st = true -> durable (Rollback b st) = durable st /\ in_tx (Rollback b st) = false;
  tx_commit : forall st, in_tx st = true -> let '(st', r) := Commit b st in
    match r with Ok _ => durable st' = seen st /\ in_tx st' = false | Err _ => durable st' = durable st end
}.

Section Atomic.
Context `{FT : FloatText} {S D : Type} (e : engine) (b : TxBeginner S)
  (durable seen : S -> D) (in_tx : S -> bool) (ends_tx : string -> bool).

(** The statements run one after the other, each with its result. *)
Inductive runs : S -> list statement -> list qresult -> S -> Prop :=
| runs_nil st : runs st [] [] st
| runs_cons st s st1 res rest out st2 :
    Run e (TxQueryer b) st s = (st1, Ok res) -> runs st1 rest out st2 -> runs st (s :: rest) (res :: out) st2.

(** [run_all] stops at the first statement that fails, and says which. *)
Lemma run_all_spec stmts : forall st i st' r,
  run_all e (TxQueryer b) st i stmts = (st', r) ->
  match r with
  | Ok out => runs st stmts out st'
  | Err x => exists k s y out stk, x = ErrBatch (i + k) y /\ stmts !! k = Some s /\ runs st (take k stmts) out stk /\
      Run e (TxQueryer b) stk s = (st', Err y)
  end.
Proof.
  induction stmts as [|s rest IH]; cbn [run_all]; intros st i st' r.
  - intros [= <- <-]. constructor.
  - destruct (Run e _ st s) as [st1 [res|x]] eqn:E.
    + destruct (run_all e _ st1 (i + 1) rest) as [st2 [rs|x]] eqn:E2; intros [= <- <-]; apply IH in E2; [by econstructor|].
      destruct E2 as (k & s' & y & out & stk & -> & Hk & Hr & Hf). exists (Datatypes.S k), s', y, (res :: out), stk.
      split; [f_equal; lia|]. split; [done|]. split; [|done]. cbn [take]. by econstructor.
    + intros [= <- <-]. exists 0%nat, s, x, [], st. split; [f_equal; lia|]. split; [done|]. split; [constructor|done].
Qed.

Section Contract.
Hypothesis law : tx_store b durable seen in_tx ends_tx.

Definition inside (d : D) (st : S) : Prop := durable st = d /\ in_tx st = true.

Lemma Run_inside d st s : ends_tx (SQL s) = false -> inside d st -> inside d (Run e (TxQueryer b) st s).1.
Proof using law.
  intros Hs [Hd Ht]. unfold Run, Query, Exec, inside. destruct (attach_denied s); [done|]. rewrite <- Hd.
  pose proof (tx_query _ _ _ _ _ law st (SQL s) (bindArgs s) Hs Ht) as Hq.
  pose proof (tx_exec _ _ _ _ _ law st (SQL s) (bindArgs s) Hs Ht) as Hx. cbv zeta in *.
  destruct (_ || _).
  - by destruct (QueryContext _ _ _ _) as [st1 [rs|x]].
  - by destruct (ExecContext _ _ _ _) as [st1 [[aff lid]|x]].
Qed.
Lemma run_all_inside d stmts : Forall (fun s => ends_tx (SQL s) = false) stmts -> forall st i,
  inside d st -> inside d (run_all e (TxQueryer b) st i stmts).1.
Proof using law.
  induction 1 as [|s rest Hs _ IH]; cbn [run_all]; intros st i Hi; [done|].
  pose proof (Run_inside d st s Hs Hi) as Hd. destruct (Run e (TxQueryer b) st s) as [st1 [res|x]]; cbn in *; [|done].
  specialize (IH st1 (i + 1)%nat Hd). by destruct (run_all e (TxQueryer b) st1 (i + 1) rest) as [st2 [rs|x]].
Qed.
End Contract.

(** C17: a batch of statements none of which ends the transaction itself (a COMMIT inside
    it does: [batch_with_commit_is_not_atomic]) is all-or-nothing.  When it succeeds there
    is one result per statement, each ran on what the one before left, and what they left
    is committed.  When it fails the committed state is the one before it: at begin, at
    commit, or because of a statement, and then the index it reports is that of the first
    statement that failed, all before it having run, and the transaction is closed. *)
Theorem Batch_all_or_nothing st stmts st' r :
  tx_store b durable seen in_tx ends_tx ->
  Forall (fun s => ends_tx (SQL s) = false) stmts ->
  Batch e b st stmts = (st', r) ->
  match r with
  | Ok out => exists st1 st2 u v, BeginTx b st = (st1, Ok u) /\ runs st1 stmts out st2 /\ Commit b st2 = (st', Ok v) /\
      durable st' = seen st2 /\ in_tx st' = false
  | Err x => durable st' = durable st /\
      ((exists y, x = wrap y /\ BeginTx b st = (st', Err y)) \/
       (exists st1 u k s y out stk st2, BeginTx b st = (st1, Ok u) /\ x = ErrBatch k y /\ stmts !! k = Some s /\
          runs st1 (take k stmts) out stk /\ Run e (TxQueryer b) stk s = (st2, Err y) /\ in_tx st' = false) \/
       (exists st1 u out st2 y, BeginTx b st = (st1, Ok u) /\ runs st1 stmts out st2 /\ x = wrap y /\ Commit b st2 = (st', Err y)))
  end.
Proof.
  intros law Hs. unfold Batch. pose proof (tx_begin _ _ _ _ _ law st) as Hb.
  destruct (BeginTx b st) as [st1 [u|x]] eqn:Eb.
  - destruct Hb as (Hd1 & Ht1 & _).
    pose proof (run_all_inside law (durable st) stmts Hs st1 0 (conj Hd1 Ht1)) as [Hd Ht].
    destruct (run_all e (TxQueryer b) st1 0 stmts) as [st2 [out|x]] eqn:Er; apply run_all_spec in Er; cbn [fst] in *.
    + pose proof (tx_commit _ _ _ _ _ law st2 Ht) as Hc.
      destruct (Commit b st2) as [st3 [v|x]] eqn:Ec; intros [= <- <-].
      * destruct Hc. by exists st1, st2, u, v.
      * split; [by rewrite Hc|]. right. right. by exists st1, u, out, st2, x.
    + intros [= <- <-]. destruct Er as (k & s & y & out & stk & -> & Hk & Hr & Hf).
      destruct (tx_rollback _ _ _ _ _ law st2 Ht) as [Hrd Hrt]. split; [by rewrite Hrd|].
      right. left. by exists st1, u, k, s, y, out, stk, st2.
  - destruct Hb as [Hd _]. intros [= <- <-]. split; [done|]. left. by exists x.
Qed.

End Atomic.

(** ** Concrete stores for the witnesses *)

Import DemoFloat.

(** A store that only remembers what reached it. *)
Definition log_queryer : Queryer (list string) :=
  {| QueryContext := fun st s _ => (st ++ [s], Ok (RowSet [] [] None));
     ExecContext := fun st s _ => (st ++ [s], Ok (1, 0)) |}.

Lemma Run_denies_attach_witness :
  leading ("/* x */" +:+ " " +:+ "-- y" +:+ nl) /\
  Run (NewEngine 0 0) log_queryer []
    (Stmt (bom +:+ ("/* x */" +:+ " " +:+ "-- y" +:+ nl) +:+ "attach" +:+ " 'f' AS g") [] [] false)
  = ([], Err ErrDenied).
Proof.
  assert (H : leading ("/* x */" +:+ " " +:+ "-- y" +:+ nl)).
  { change ("/* x */" +:+ " " +:+ "-- y" +:+ nl) with
      ("/*" +:+ " x " +:+ "*/" +:+ String " " ("--" +:+ " y" +:+ nl +:+ EmptyString)).
    apply lead_block; [reflexivity|]. apply lead_ws; [reflexivity|].
    apply lead_line; [reflexivity|]. apply lead_nil. }
  split; [exact H|].
  apply (Run_denies_attach (NewEngine 0 0) log_queryer [] bom _ "attach" " 'f' AS g" [] []);
    [right; reflexivity|exact H|reflexivity|left; reflexivity].
Defined.

(** The denial is textual, and [strings.Index] closes a block comment at a star-slash
    that overlaps its own opening, which SQLite's tokenizer does not: after [/*/] the
    loop sees a keyword where SQLite still sees the comment, so this ATTACH is passed to
    the driver (the connection's authorizer is then the only guard). *)
Lemma attach_behind_overlapping_comment :
  Run (NewEngine 0 0) log_queryer [] (Stmt "/*/ SELECT */ ATTACH DATABASE 'f' AS g" [] [] false)
  = (["/*/ SELECT */ ATTACH DATABASE 'f' AS g"]%string, Ok (Result_ [] [] 0 0 false)).
Proof. reflexivity. Qed.

Definition two_rows : Queryer unit :=
  {| QueryContext := fun st _ _ => (st, Ok (RowSet ["a"%string] [Ok [GInt 1]; Ok [GInt 2]] None));
     ExecContext := fun st _ _ => (st, Ok (0, 0)) |}.

Lemma Query_bounded_witness :
  Query (NewEngine 1 0) two_rows tt (Stmt "SELECT a" [] [] false)
    = (tt, Ok (Result_ ["a"%string] [[VInt 1]] 0 0 true)) /\
  Z.of_nat (length [[VInt 1]]) <= 1.
Proof.
  assert (H : Query (NewEngine 1 0) two_rows tt (Stmt "SELECT a" [] [] false)
    = (tt, Ok (Result_ ["a"%string] [[VInt 1]] 0 0 true))) by reflexivity.
  split; [exact H|].
  destruct (Query_bounded 1 0 two_rows tt _ _ _ H) as (rs & _ & _ & _ & Hn & _). exact Hn.
Defined.

(** A store of committed lines with a pending transaction; "bad" fails. *)
Record demo_store := Demo { committed : list string; pending : option (list string) }.
Definition demo_seen (st : demo_store) : list string := committed st ++ default [] (pending st).
Definition demo_in_tx (st : demo_store) : bool := match pending st with Some _ => true | None => false end.
Definition demo_tx : TxBeginner demo_store :=
  {| BeginTx := fun st => (Demo (committed st) (Some []), Ok tt);
     TxQueryer :=
       {| QueryContext := fun st _ _ => (st, Ok (RowSet [] [] None));
          ExecContext := fun st s _ =>
            if String.eqb s "bad" then (st, Err (ErrSqlite 1 1 "no"))
            else if String.eqb s "COMMIT" then (Demo (demo_seen st) None, Ok (0, 0))
            else match pending st with
                 | Some l => (Demo (committed st) (Some (l ++ [s])), Ok (1, 0))
                 | None => (Demo (committed st ++ [s]) None, Ok (1, 0))
                 end |};
     Commit := fun st => (Demo (demo_seen st) None, Ok tt);
     Rollback := fun st => Demo (committed st) None |}.

Definition ends_demo (s : string) : bool := String.eqb s "COMMIT".

Lemma demo_tx_store : tx_store demo_tx committed demo_seen demo_in_tx ends_demo.
Proof.
  constructor; try done.
  - intros st. cbn. by rewrite app_nil_r.
  - intros st sql a Hs Ht. cbn. unfold ends_demo in Hs. rewrite Hs. destruct (String.eqb sql "bad"); [done|].
    unfold demo_in_tx in *. by destruct (pending st).
Qed.

Definition plain (s : string) : statement := Stmt s [] [] false.

Lemma Batch_all_or_nothing_witness :
  Batch (NewEngine 0 0) demo_tx (Demo ["a"] None) [plain "b"; plain "bad"; plain "c"]%string
    = (Demo ["a"%string] None, Err (ErrBatch 1 (ErrEngine 1 1 "no"))) /\
  committed (Demo ["a"%string] None) = ["a"%string].
Proof.
  assert (H : Batch (NewEngine 0 0) demo_tx (Demo ["a"] None) [plain "b"; plain "bad"; plain "c"]%string
    = (Demo ["a"%string] None, Err (ErrBatch 1 (ErrEngine 1 1 "no")))) by reflexivity.
  split; [exact H|].
  destruct (Batch_all_or_nothing (NewEngine 0 0) demo_tx committed demo_seen demo_in_tx ends_demo _
    [plain "b"; plain "bad"; plain "c"]%string _ _
    demo_tx_store ltac:(repeat constructor) H) as [Hd _]. exact Hd.
Defined.

(** The side condition matters: [Run] lets a COMMIT through, and a batch that contains
    one keeps the statements before it although it reports a rollback. *)
Lemma batch_with_commit_is_not_atomic :
  Batch (NewEngine 0 0) demo_tx (Demo [] None) [plain "b"; plain "COMMIT"; plain "bad"]%string
  = (Demo ["b"%string] None, Err (ErrBatch 2 (ErrEngine 1 1 "no"))).
Proof. reflexivity. Qed.
