(* ===== verification/Feed.v ===== *)
(** * feed: the committed-change broker

    [src/feed/feed.go].  A database's feed keeps the last [cap] events in a ring, a
    monotonic sequence number and the attached subscribers, each with a bounded channel;
    per-connection hooks buffer a transaction's row events and publish them at COMMIT.
    The feed's mutex makes [publish], [subscribe] and [unsubscribe] atomic with respect to
    each other; a subscriber receives from its channel without the mutex, so receives
    interleave with the sends of one [publish]. *)
From S2P Require Import Prelude GoStd.

(** ** Events and feeds *)

Record event := Event { Seq : Z; Table : string; Op : string; Rowid : Z; IsReset : bool }.
Definition zero_event : event := Event 0 "" "" 0 false.
Definition with_seq (e : event) (s : Z) : event := Event s (Table e) (Op e) (Rowid e) (IsReset e).

Definition subscriberBuf : nat := 256.

(** A Go channel of capacity [subscriberBuf]: buffered values and whether it is closed. *)
Record chan := Chan { buf : list event; closed : bool }.

(** [subs] are the attached subscribers; [chans] every subscriber's channel, which a
    consumer can still drain after it was closed. *)
Record dbFeed := Feed {
  cap : Z;
  seqno : Z;
  ring : list event;
  subs : gset nat;
  chans : gmap nat chan
}.

Definition new_feed (buffer : Z) : dbFeed :=
  Feed buffer 0 (repeat zero_event (Z.to_nat buffer)) ∅ ∅.

Definition slot (f : dbFeed) (s : Z) : nat := Z.to_nat ((s - 1) mod cap f).

Definition retained (f : dbFeed) : Z := if seqno f <? cap f then seqno f else cap f.

(** The non-blocking send of [publish]: a full channel is closed and detached. *)
Definition send (e : event) (c : chan) : chan * bool :=
  if (length (buf c) <? subscriberBuf)%nat then (Chan (buf c ++ [e]) (closed c), true)
  else (Chan (buf c) true, false).

Definition has_room (f : dbFeed) (e : event) (k : nat) : bool :=
  match chans f !! k with Some c => snd (send e c) | None => false end.

Definition publish_one (f : dbFeed) (e : event) : dbFeed :=
  let s := u64 (seqno f + 1) in
  let e := with_seq e s in
  let keep := filter (fun k => has_room f e k = true) (subs f) in
  let ch := map_imap (fun k c => Some (if decide (k ∈ subs f) then fst (send e c) else c)) (chans f) in
  Feed (cap f) s (<[Z.to_nat ((s - 1) mod cap f) := e]> (ring f)) keep ch.

Definition publish (f : dbFeed) (events : list event) : dbFeed := fold_left publish_one events f.

Record sub_result := SubResult {
  sr_sub : option nat;
  sr_replay : list event;
  sr_reset : bool;
  sr_ok : bool;
  sr_full : bool;
  sr_seq : Z
}.

(** The replay loop: sequences [since+1 .. seq]. *)
Definition replay_from (f : dbFeed) (since : Z) : list event :=
  map (fun k => nth (slot f (since + 1 + Z.of_nat k)) (ring f) zero_event)
      (seq 0 (Z.to_nat (seqno f - since))).

(** [id] is the address of the new subscriber. *)
Definition subscribe (f : dbFeed) (id : nat) (since maxSubs : Z) : dbFeed * sub_result :=
  if (0 <? maxSubs) && (Z.of_nat (size (subs f)) >=? maxSubs)
  then (f, SubResult None [] false true true (seqno f))
  else
    let '(replay, reset) :=
      if since >? seqno f then ([], true)
      else if (since >? 0) && (since <? seqno f) then
        let oldest := seqno f - retained f + 1 in
        if since + 1 <? oldest then ([], true) else (replay_from f since, false)
      else ([], false) in
    (Feed (cap f) (seqno f) (ring f) ({[id]} ∪ subs f) (<[id := Chan [] false]> (chans f)),
     SubResult (Some id) replay reset true false (seqno f)).

Definition close_chan (c : chan) : chan := Chan (buf c) true.

Definition unsubscribe (f : dbFeed) (id : nat) : dbFeed :=
  if decide (id ∈ subs f)
  then Feed (cap f) (seqno f) (ring f) (subs f ∖ {[id]}) (alter close_chan id (chans f))
  else f.

Definition closeAll (f : dbFeed) : dbFeed :=
  Feed (cap f) (seqno f) (ring f) ∅
       (map_imap (fun k c => Some (if decide (k ∈ subs f) then close_chan c else c)) (chans f)).

(** The consumer's receive ([e, live := <-sub.C]): [None] when nothing is buffered. *)
Definition receive (f : dbFeed) (id : nat) : dbFeed * option event :=
  match chans f !! id with
  | Some (Chan (e :: r) cl) =>
      (Feed (cap f) (seqno f) (ring f) (subs f) (<[id := Chan r cl]> (chans f)), Some e)
  | _ => (f, None)
  end.

(** ** The connection hooks *)

Definition opInsert : Z := 18.
Definition opUpdate : Z := 23.
Definition opDelete : Z := 9.
Definition maxPending : nat := 8192.

Record conn := Conn { pending : list event; overflow : bool }.
Definition new_conn : conn := Conn [] false.

Record preupdate := PreUpdate { d_op : Z; d_table : string; d_old : Z; d_new : Z }.

(** The event of a preupdate callback; [None] for an opcode it ignores. *)
Definition row_event (d : preupdate) : option event :=
  if d_op d =? opInsert then Some (Event 0 (d_table d) "insert" (d_new d) false)
  else if d_op d =? opUpdate then Some (Event 0 (d_table d) "update" (d_new d) false)
  else if d_op d =? opDelete then Some (Event 0 (d_table d) "delete" (d_old d) false)
  else None.

Definition preupdate_hook (c : conn) (d : preupdate) : conn :=
  if overflow c then c else
  match row_event d with
  | None => c
  | Some e => if (maxPending <=? length (pending c))%nat then Conn [] true
              else Conn (pending c ++ [e]) (overflow c)
  end.

Definition reset_event : event := Event 0 "" "" 0 true.

(** The events it hands to [publish] (nothing is published for the empty list). *)
Definition commit_hook (c : conn) : conn * list event := (new_conn, if overflow c then [reset_event] else pending c).

Definition rollback_hook (c : conn) : conn := new_conn.

(** ** The broker *)

Section Broker.

(** [filepath.Abs], [EvalSymlinks] and [Clean] over the host's file system. *)
Variable canonicalPath : string -> string.

Record broker := Broker {
  buffer : Z;
  maxSubs : Z;
  byPath : gmap string nat;
  byName : gmap string nat;
  feeds : gmap nat dbFeed   (* the heap of feeds, by address *)
}.

Definition New (buf max : Z) : broker := Broker (if buf <? 1 then 1 else buf) max ∅ ∅ ∅.

Definition Register (b : broker) (name path : string) (addr : nat) : broker :=
  if String.eqb path "" then b
  else Broker (buffer b) (maxSubs b) (<[canonicalPath path := addr]> (byPath b))
              (<[name := addr]> (byName b)) (<[addr := new_feed (buffer b)]> (feeds b)).

Definition Forget (b : broker) (name : string) : broker :=
  let f := byName b !! name in
  Broker (buffer b) (maxSubs b)
         (match f with
          | Some a => filter (fun pf => pf.2 <> a) (byPath b)
          | None => byPath b
          end)
         (delete name (byName b))
         (match f with Some a => alter closeAll a (feeds b) | None => feeds b end).

(** Which feed a newly opened connection reports to. *)
Definition connect_hook (b : broker) (filename : string) : option nat :=
  if String.eqb filename "" then None else byPath b !! canonicalPath filename.

Definition Subscribe (b : broker) (db : string) (id : nat) (since : Z) : broker * sub_result :=
  match byName b !! db with
  | Some a =>
      match feeds b !! a with
      | Some f =>
          let '(f', r) := subscribe f id since (maxSubs b) in
          (Broker (buffer b) (maxSubs b) (byPath b) (byName b) (<[a := f']> (feeds b)), r)
      | None => (b, SubResult None [] false false false 0)
      end
  | None => (b, SubResult None [] false false false 0)
  end.

Definition Observed (b : broker) (db : string) : bool :=
  match byName b !! db with Some _ => true | None => false end.

End Broker.

(** ** What the feed promises

    The abstract feed is a log: the committed transactions' events in commit order,
    numbered from 1.  A transaction that recorded more than [maxPending] row events is
    summarised by one reset marker. *)

Definition row_events (ds : list preupdate) : list event := omap row_event ds.
Definition summary (ds : list preupdate) : list event :=
  let es := row_events ds in
  if (length es <=? maxPending)%nat then es else [reset_event].

Definition append_event (L : list event) (e : event) : list event :=
  L ++ [with_seq e (Z.of_nat (length L) + 1)].
Definition append_log (L : list event) (es : list event) : list event := fold_left append_event es L.

(** One database with its writing connections and its clients.  A client's record is
    what it observes: the sequence it asked to resume from, the answer to its
    subscription and the events it received since. *)
Record client := Client { since_ : Z; answer : sub_result; got : list event }.

Record world := World {
  fd : dbFeed;
  conns : gmap nat conn;
  clients : gmap nat client;
  next_id : nat
}.

Inductive act : Type :=
| APreUpdate (c : nat) (d : preupdate)
| ACommit (c : nat) (meanwhile : list (list nat))   (* who receives before each of its events is sent *)
| ARollback (c : nat)
| ASubscribe (since : Z)
| AReceive (id : nat)
| AUnsubscribe (id : nat)
| ACloseAll.

Definition get_conn (w : world) (c : nat) : conn := default new_conn (conns w !! c).

Definition recv_step (w : world) (id : nat) : world :=
  match clients w !! id, receive (fd w) id with
  | Some cl, (f', Some e) =>
      World f' (conns w) (<[id := Client (since_ cl) (answer cl) (got cl ++ [e])]> (clients w)) (next_id w)
  | _, _ => w
  end.
(** [publish] with the receives that run between its events: a receive touches one channel,
    so one that falls between the sends of one event is a receive before or after it. *)
Fixpoint publish_among (meanwhile : list (list nat)) (es : list event) (w : world) : world :=
  match es with
  | [] => w
  | e :: es =>
      let w1 := fold_left recv_step (default [] (head meanwhile)) w in
      publish_among (tail meanwhile) es (World (publish_one (fd w1) e) (conns w1) (clients w1) (next_id w1))
  end.

Definition act_step (maxSubs : Z) (w : world) (a : act) : world :=
  match a with
  | APreUpdate c d =>
      World (fd w) (<[c := preupdate_hook (get_conn w c) d]> (conns w)) (clients w) (next_id w)
  | ACommit c meanwhile =>
      let '(c', es) := commit_hook (get_conn w c) in
      publish_among meanwhile es (World (fd w) (<[c := c']> (conns w)) (clients w) (next_id w))
  | ARollback c =>
      World (fd w) (<[c := rollback_hook (get_conn w c)]> (conns w)) (clients w) (next_id w)
  | ASubscribe since =>
      let '(f', r) := subscribe (fd w) (next_id w) since maxSubs in
      match sr_sub r with
      | Some id => World f' (conns w) (<[id := Client since r []]> (clients w)) (S (next_id w))
      | None => World f' (conns w) (clients w) (next_id w)
      end
  | AReceive id => recv_step w id
  | AUnsubscribe id => World (unsubscribe (fd w) id) (conns w) (clients w) (next_id w)
  | ACloseAll => World (closeAll (fd w)) (conns w) (clients w) (next_id w)
  end.

(** The abstract side: the log and the row callbacks of each open transaction. *)
Record spec := Spec { slog : list event; stx : gmap nat (list preupdate) }.
Definition open_tx (s : spec) (c : nat) : list preupdate := default [] (stx s !! c).

Definition spec_step (s : spec) (a : act) : spec :=
  match a with
  | APreUpdate c d => Spec (slog s) (<[c := open_tx s c ++ [d]]> (stx s))
  | ACommit c _ => Spec (append_log (slog s) (summary (open_tx s c))) (<[c := []]> (stx s))
  | ARollback c => Spec (slog s) (<[c := []]> (stx s))
  | _ => s
  end.

Definition run_world (buf maxSubs : Z) (acts : list act) : world :=
  fold_left (act_step maxSubs) acts
    (World (new_feed (if buf <? 1 then 1 else buf)) ∅ ∅ 0).
Definition run_spec (acts : list act) : spec := fold_left spec_step acts (Spec [] ∅).

(** *** The hooks *)

Definition conn_of (ds : list preupdate) : conn :=
  if (length (row_events ds) <=? maxPending)%nat then Conn (row_events ds) false else Conn [] true.

Lemma preupdate_hook_spec ds d : preupdate_hook (conn_of ds) d = conn_of (ds ++ [d]).
Proof.
  unfold conn_of, row_events, preupdate_hook. rewrite omap_app. cbn [omap list_omap].
  destruct (Nat.leb_spec (length (omap row_event ds)) maxPending) as [Hle|Hgt]; cbn [overflow pending];
    destruct (row_event d) as [e|]; rewrite ?app_nil_r, ?length_app; cbn [length];
    try (rewrite (proj2 (Nat.leb_le _ _)) by lia; done);
    try (rewrite (proj2 (Nat.leb_gt _ _)) by lia; done).
  destruct (Nat.leb_spec maxPending (length (omap row_event ds))).
  - by rewrite (proj2 (Nat.leb_gt _ _)) by lia.
  - by rewrite (proj2 (Nat.leb_le _ _)) by lia.
Qed.

Lemma commit_hook_spec ds : commit_hook (conn_of ds) = (new_conn, summary ds).
Proof. unfold conn_of, commit_hook, summary. by destruct (_ <=? _)%nat. Qed.
(** Without receives in between it is the feed's [publish]. *)
Lemma publish_among_alone es : forall w, publish_among [] es w = World (publish (fd w) es) (conns w) (clients w) (next_id w).
Proof. induction es as [|e es IH]; intros [f cs cl n]; [done|]. cbn [publish_among head tail fold_left default]. by rewrite IH. Qed.

(** *** The ring *)

Record ring_inv (f : dbFeed) (L : list event) : Prop := {
  ri_cap : 0 < cap f;
  ri_len : Z.of_nat (length (ring f)) = cap f;
  ri_seq : seqno f = Z.of_nat (length L);
  ri_slots : forall i, (i < length L)%nat -> Z.of_nat (length L) <= Z.of_nat i + cap f ->
    nth (slot f (Z.of_nat i + 1)) (ring f) zero_event = nth i L zero_event
}.

Lemma mod_eq_close a b c : 0 < c -> a mod c = b mod c -> 0 <= a - b < c -> a = b.
Proof.
  intros Hc Hm Hr. pose proof (Z.div_mod a c ltac:(lia)). pose proof (Z.div_mod b c ltac:(lia)).
  assert (a / c = b / c) by nia. congruence.
Qed.

Lemma nth_insert_eq {A} (l : list A) i x d : (i < length l)%nat -> nth i (<[i := x]> l) d = x.
Proof. intros H. rewrite nth_lookup, list_lookup_insert_eq by done. done. Qed.
Lemma nth_insert_ne {A} (l : list A) i j x d : i <> j -> nth j (<[i := x]> l) d = nth j l d.
Proof. intros H. by rewrite !nth_lookup, list_lookup_insert_ne. Qed.

Lemma ring_inv_publish f L e :
  ring_inv f L -> Z.of_nat (length L) + 1 < two64 -> ring_inv (publish_one f e) (append_event L e).
Proof.
  intros [Hc Hl Hs Hr] Hb. unfold publish_one.
  assert (Hu : u64 (seqno f + 1) = Z.of_nat (length L) + 1) by (rewrite Hs; apply u64_id; split; lia).
  rewrite Hu. unfold append_event.
  assert (Hslot : (Z.to_nat ((Z.of_nat (length L) + 1 - 1) mod cap f) < length (ring f))%nat).
  { pose proof (Z.mod_pos_bound (Z.of_nat (length L) + 1 - 1) (cap f) Hc). lia. }
  constructor; cbn [cap ring seqno]; [done|by rewrite length_insert|rewrite length_app; cbn; lia|].
  intros i Hi Hret. rewrite length_app in *. cbn [length] in *. unfold slot in *. cbn [cap].
  destruct (decide (i = length L)) as [->|Hne].
  - rewrite nth_insert_eq by done. rewrite app_nth2, Nat.sub_diag by lia. done.
  - rewrite (app_nth1 L) by lia. rewrite nth_insert_ne; [apply Hr; lia|].
    intros Heq. apply Hne. pose proof (Z.mod_pos_bound (Z.of_nat (length L) + 1 - 1) (cap f) Hc).
    pose proof (Z.mod_pos_bound (Z.of_nat i + 1 - 1) (cap f) Hc).
    assert ((Z.of_nat (length L) + 1 - 1) mod cap f = (Z.of_nat i + 1 - 1) mod cap f) as Hm by lia.
    apply mod_eq_close in Hm; lia.
Qed.

(** The replay loop reads the missing segment of the log off the ring. *)
Lemma replay_from_spec f L since :
  ring_inv f L -> 0 <= since -> since + cap f >= seqno f ->
  replay_from f since = drop (Z.to_nat since) L.
Proof.
  intros [Hc Hl Hs Hr] H0 Hret. unfold replay_from. rewrite Hs in *.
  apply (list_eq _ _). intros k. rewrite lookup_drop.
  change (map ?g (seq 0 ?n)) with (g <$> seq 0 n). rewrite list_lookup_fmap.
  destruct (decide (k < Z.to_nat (Z.of_nat (length L) - since))%nat) as [Hk|Hk].
  - rewrite lookup_seq_lt by lia. cbn.
    replace (since + 1 + Z.of_nat k) with (Z.of_nat (Z.to_nat since + k) + 1) by lia.
    rewrite Hr by lia.
    destruct (nth_lookup_or_length L (Z.to_nat since + k) zero_event) as [->|]; [done|lia].
  - rewrite lookup_seq_ge by lia. cbn. symmetry. apply lookup_ge_None. lia.
Qed.

(** *** Clients *)

(** What a client with answer [answer cl] and channel [ch] has been given of the log. *)
Record client_ok (capacity : Z) (L : list event) (attached : Prop) (cl : client) (ch : chan) : Prop := {
  co_seq : 0 <= sr_seq (answer cl) <= Z.of_nat (length L);
  co_prefix : got cl ++ buf ch `prefix_of` drop (Z.to_nat (sr_seq (answer cl))) L;
  co_live : attached -> got cl ++ buf ch = drop (Z.to_nat (sr_seq (answer cl))) L /\ closed ch = false;
  co_bound : (length (buf ch) <= subscriberBuf)%nat;
  co_reset : sr_reset (answer cl) = true <->
    since_ cl > sr_seq (answer cl) \/ (0 < since_ cl /\ since_ cl + capacity < sr_seq (answer cl));
  co_replay : sr_replay (answer cl) =
    if sr_reset (answer cl) || (since_ cl =? 0) then []
    else drop (Z.to_nat (since_ cl)) (take (Z.to_nat (sr_seq (answer cl))) L)
}.

Record feed_inv (f : dbFeed) (L : list event) (cls : gmap nat client) : Prop := {
  fi_ring : ring_inv f L;
  fi_subs : forall id, id ∈ subs f -> is_Some (cls !! id);
  fi_clients : forall id cl, cls !! id = Some cl ->
    exists ch, chans f !! id = Some ch /\ client_ok (cap f) L (id ∈ subs f) cl ch
}.

Lemma client_ok_detach c L P Q cl ch : (Q -> P) -> client_ok c L P cl ch -> client_ok c L Q cl ch.
Proof. intros HQ []; constructor; auto. Qed.

Lemma client_ok_close c L P Q cl ch : ~ Q -> client_ok c L P cl ch -> client_ok c L Q cl (close_chan ch).
Proof. intros HQ []; constructor; cbn [buf close_chan]; tauto. Qed.

Lemma client_ok_grow c L x P cl ch :
  ~ P -> client_ok c L P cl ch -> client_ok c (L ++ [x]) P cl ch.
Proof.
  intros HP [Hs Hp _ Hb Hr Hy]. constructor; try tauto.
  - rewrite length_app. cbn. lia.
  - rewrite drop_app_le by lia. by apply prefix_app_r.
  - rewrite take_app_le by lia. done.
Qed.

Lemma client_ok_publish c L x cl ch P :
  P -> client_ok c L P cl ch ->
  client_ok c (L ++ [x]) (P /\ snd (send x ch) = true) cl (fst (send x ch)).
Proof.
  intros HP Hok. pose proof Hok as [Hs Hp Hl Hb Hr Hy]. destruct (Hl HP) as [Heq Hcl].
  unfold send. destruct (Nat.ltb_spec (length (buf ch)) subscriberBuf) as [Hlt|Hge]; cbn [fst snd].
  - constructor; cbn [buf closed]; try done.
    + rewrite length_app. cbn. lia.
    + rewrite drop_app_le, app_assoc, Heq by lia. done.
    + intros _. rewrite drop_app_le, app_assoc, Heq by lia. done.
    + rewrite length_app. cbn. lia.
    + rewrite take_app_le by lia. done.
  - apply (client_ok_close _ _ False); [intros [_ [=]]|].
    apply client_ok_grow; [tauto|]. by apply (client_ok_detach _ _ P).
Qed.

Lemma feed_inv_publish_one f L cls e :
  Z.of_nat (length L) + 1 < two64 -> feed_inv f L cls ->
  feed_inv (publish_one f e) (append_event L e) cls.
Proof.
  intros Hb [Hring Hsubs Hcl]. constructor; [by apply ring_inv_publish|..].
  - intros id Hid. apply Hsubs. cbn in Hid. set_solver.
  - intros id cl Hid. destruct (Hcl id cl Hid) as (ch & Hch & Hok).
    assert (Hu : u64 (seqno f + 1) = Z.of_nat (length L) + 1)
      by (rewrite (ri_seq _ _ Hring); apply u64_id; split; lia).
    unfold publish_one, append_event. cbn [chans subs cap]. rewrite Hu, map_lookup_imap, Hch. cbn.
    eexists; split; [reflexivity|]. set (x := with_seq e _).
    destruct (decide (id ∈ subs f)) as [Hin|Hout].
    + eapply client_ok_detach, client_ok_publish; [|apply Hin|done].
      intros [Hroom _]%elem_of_filter. unfold has_room in Hroom. by rewrite Hch in Hroom.
    + apply (client_ok_detach _ _ (id ∈ subs f)); [set_solver|]. by apply client_ok_grow.
Qed.

Lemma append_log_app L es : append_log L es = L ++ imap (fun i e => with_seq e (Z.of_nat (length L) + 1 + Z.of_nat i)) es.
Proof.
  revert L. induction es as [|e es IH]; intros L; cbn [append_log fold_left imap]; [by rewrite app_nil_r|].
  change (fold_left append_event es ?l) with (append_log l es). rewrite IH. unfold append_event.
  rewrite <- app_assoc. cbn [app]. do 2 f_equal; [f_equal; lia|].
  apply imap_ext. intros i x _. rewrite length_app. cbn. f_equal. lia.
Qed.

Lemma length_append_log L es : length (append_log L es) = (length L + length es)%nat.
Proof. by rewrite append_log_app, length_app, length_imap. Qed.

(** Attaching a client: the answer is exact for the log at that instant. *)
Lemma feed_inv_subscribe f L cls id since max :
  0 <= since -> cls !! id = None -> feed_inv f L cls ->
  let '(f', r) := subscribe f id since max in
  cap f' = cap f /\
  match sr_sub r with
  | Some i => i = id /\ feed_inv f' L (<[id := Client since r []]> cls)
  | None => feed_inv f' L cls
  end.
Proof.
  intros Hs Hid Hi. unfold subscribe.
  destruct ((0 <? max) && _); [by split|].
  destruct Hi as [Hr Hsub Hcl]. pose proof (ri_seq _ _ Hr) as Hq. pose proof (ri_cap _ _ Hr) as Hc.
  set (rr := if since >? seqno f then _ else _).
  assert (Hrr : (rr.2 = true <-> since > seqno f \/ (0 < since /\ since + cap f < seqno f)) /\
                rr.1 = if rr.2 || (since =? 0) then [] else drop (Z.to_nat since) L).
  { subst rr. destruct (since >? seqno f) eqn:E1; [bool_to_prop; cbn; split; [split; [lia|done]|done]|].
    destruct ((since >? 0) && (since <? seqno f)) eqn:E2; bool_to_prop.
    - assert (Hret : retained f = Z.min (seqno f) (cap f)) by (unfold retained; destruct (seqno f <? cap f) eqn:?; bool_to_prop; lia).
      destruct (since + 1 <? _) eqn:E3; bool_to_prop; cbn [fst snd orb].
      + split; [split; [lia|done]|done].
      + split; [split; [done|lia]|]. rewrite (proj2 (Z.eqb_neq _ _)) by lia.
        apply replay_from_spec; [done|lia|lia].
    - cbn [fst snd orb]. apply andb_false_iff in E2. split; [split; [done|destruct E2; bool_to_prop; lia]|].
      destruct (since =? 0) eqn:E0; [done|]. bool_to_prop. rewrite drop_ge; [done|].
      destruct E2; bool_to_prop; lia. }
  destruct rr as [replay reset]. cbn [fst snd] in Hrr. destruct Hrr as [Hreset Hreplay].
  cbn [sr_sub cap]. split; [done|]. split; [done|]. constructor; cbn [subs chans cap].
  - destruct Hr; by constructor.
  - intros i [->%elem_of_singleton|Hin]%elem_of_union; [by rewrite lookup_insert_eq|].
    destruct (decide (id = i)) as [->|]; [by rewrite lookup_insert_eq|]. rewrite lookup_insert_ne by done. by apply Hsub.
  - intros i cl. destruct (decide (id = i)) as [<-|Hne].
    + rewrite !lookup_insert_eq. intros [= <-]. eexists; split; [done|].
      constructor; cbn [since_ answer got sr_seq sr_reset sr_replay buf closed app length].
      * lia.
      * apply prefix_nil.
      * intros _. split; [|done]. rewrite drop_ge; [done|lia].
      * unfold subscriberBuf. lia.
      * done.
      * rewrite Hreplay, take_ge by lia. done.
    + rewrite !lookup_insert_ne by done. intros Hl. destruct (Hcl i cl Hl) as (ch & Hch & Hok).
      exists ch; split; [done|]. eapply client_ok_detach, Hok. set_solver.
Qed.

Lemma feed_inv_receive f L cls id cl :
  cls !! id = Some cl -> feed_inv f L cls ->
  match receive f id with
  | (f', Some e) => cap f' = cap f /\ feed_inv f' L (<[id := Client (since_ cl) (answer cl) (got cl ++ [e])]> cls)
  | (f', None) => f' = f
  end.
Proof.
  intros Hid [Hr Hsub Hcl]. unfold receive. destruct (Hcl id cl Hid) as (ch & Hch & Hok).
  rewrite Hch. destruct ch as [[|e r] c]; [done|]. split; [done|]. constructor; cbn [subs chans cap].
  - destruct Hr; by constructor.
  - intros i Hi. destruct (decide (id = i)) as [->|]; [by rewrite lookup_insert_eq|].
    rewrite lookup_insert_ne by done. by apply Hsub.
  - intros i cl'. destruct (decide (id = i)) as [<-|Hne].
    + rewrite !lookup_insert_eq. intros [= <-]. eexists; split; [done|].
      destruct Hok as [H1 H2 H3 H4 H5 H6]. constructor; cbn [since_ answer got buf closed] in *; try done.
      * by rewrite <- app_assoc.
      * by rewrite <- app_assoc.
      * cbn [length] in H4. lia.
    + rewrite !lookup_insert_ne by done. apply Hcl.
Qed.

Lemma feed_inv_unsubscribe f L cls id : feed_inv f L cls -> feed_inv (unsubscribe f id) L cls.
Proof.
  intros [Hr Hsub Hcl]. unfold unsubscribe. destruct (decide (id ∈ subs f)) as [Hin|]; [|by constructor].
  constructor; cbn [subs chans cap].
  - destruct Hr; by constructor.
  - intros i Hi. apply Hsub. set_solver.
  - intros i cl Hl. destruct (Hcl i cl Hl) as (ch & Hch & Hok).
    destruct (decide (id = i)) as [<-|Hne].
    + rewrite lookup_alter_eq, Hch. eexists; split; [done|]. eapply client_ok_close, Hok. set_solver.
    + rewrite lookup_alter_ne by done. exists ch; split; [done|]. eapply client_ok_detach, Hok. set_solver.
Qed.

Lemma feed_inv_closeAll f L cls : feed_inv f L cls -> feed_inv (closeAll f) L cls.
Proof.
  intros [Hr Hsub Hcl]. constructor; cbn [subs chans cap closeAll].
  - destruct Hr; by constructor.
  - set_solver.
  - intros i cl Hl. destruct (Hcl i cl Hl) as (ch & Hch & Hok). rewrite map_lookup_imap, Hch. cbn.
    eexists; split; [done|]. destruct (decide _); [eapply client_ok_close|eapply client_ok_detach]; try apply Hok; set_solver.
Qed.

(** *** The run *)

Record world_inv (capacity : Z) (w : world) (s : spec) : Prop := {
  wi_cap : cap (fd w) = capacity;
  wi_feed : feed_inv (fd w) (slog s) (clients w);
  wi_conns : forall c, get_conn w c = conn_of (open_tx s c);
  wi_fresh : forall id, (next_id w <= id)%nat -> clients w !! id = None
}.

(** The invariant without the writers. *)
Definition readers_inv (capacity : Z) (w : world) (L : list event) : Prop :=
  cap (fd w) = capacity /\ feed_inv (fd w) L (clients w) /\ forall id, (next_id w <= id)%nat -> clients w !! id = None.
Lemma recv_step_inv capacity w L id : readers_inv capacity w L ->
  readers_inv capacity (recv_step w id) L /\ conns (recv_step w id) = conns w.
Proof.
  intros (Hc & Hf & Hn). unfold recv_step. destruct (clients w !! id) as [cl|] eqn:Hid; [|by split].
  pose proof (feed_inv_receive _ _ _ _ _ Hid Hf) as Hrec. destruct (receive _ _) as [f' [e|]]; [|by split].
  destruct Hrec as [Hcap Hrec]. split; [|done]. split; [cbn; congruence|]. split; [done|].
  cbn. intros i Hi. rewrite lookup_insert_ne; [by apply Hn|]. intros ->. rewrite (Hn i Hi) in Hid. done.
Qed.
Lemma recv_steps_inv capacity L ids : forall w, readers_inv capacity w L ->
  readers_inv capacity (fold_left recv_step ids w) L /\ conns (fold_left recv_step ids w) = conns w.
Proof.
  induction ids as [|id ids IH]; intros w Hw; [by split|]. cbn [fold_left].
  destruct (recv_step_inv capacity w L id Hw) as [H1 H2]. destruct (IH _ H1) as [H3 H4]. split; [done|congruence].
Qed.
Lemma publish_among_inv capacity es : forall meanwhile w L, Z.of_nat (length (append_log L es)) < two64 ->
  readers_inv capacity w L -> readers_inv capacity (publish_among meanwhile es w) (append_log L es) /\
  conns (publish_among meanwhile es w) = conns w.
Proof.
  induction es as [|e es IH]; intros meanwhile w L Hb Hw; [by split|]. cbn [publish_among].
  destruct (recv_steps_inv capacity L (default [] (head meanwhile)) w Hw) as [(H1 & H2 & H3) H4]. set (w1 := fold_left recv_step _ w) in *.
  rewrite length_append_log in Hb. cbn [length] in Hb.
  destruct (IH (tail meanwhile) (World (publish_one (fd w1) e) (conns w1) (clients w1) (next_id w1)) (append_event L e)) as [H5 H6].
  - rewrite length_append_log. unfold append_event. rewrite length_app. cbn. lia.
  - split; [exact H1|]. split; [|exact H3]. apply feed_inv_publish_one; [lia|done].
  - split; [exact H5|]. rewrite H6. exact H4.
Qed.

Definition act_ok (a : act) : Prop := match a with ASubscribe since => in_u64 since | _ => True end.

Lemma conns_insert (cs : gmap nat conn) (stx : gmap nat (list preupdate)) c (x : conn) ds c' :
  (forall k, default new_conn (cs !! k) = conn_of (default [] (stx !! k))) -> x = conn_of ds ->
  default new_conn (<[c := x]> cs !! c') = conn_of (default [] (<[c := ds]> stx !! c')).
Proof. intros H ->. rewrite !lookup_insert. by destruct (decide (c = c')); [|apply H]. Qed.

Lemma world_inv_step capacity max w s a :
  act_ok a -> Z.of_nat (length (slog (spec_step s a))) < two64 ->
  world_inv capacity w s -> world_inv capacity (act_step max w a) (spec_step s a).
Proof.
  intros Ha Hb Hw. pose proof Hw as [Hc Hf Hcs Hn].
  destruct a as [c d|c ms|c|since|id|id|]; cbn [act_step spec_step] in *.
  - constructor; cbn [fd clients next_id slog]; try done. intros c'. apply conns_insert; [apply Hcs|].
    rewrite Hcs. apply preupdate_hook_spec.
  - rewrite Hcs, commit_hook_spec.
    destruct (publish_among_inv capacity (summary (open_tx s c)) ms (World (fd w) (<[c:=new_conn]> (conns w)) (clients w) (next_id w)) (slog s)) as [(H1 & H2 & H3) H4];
      [done|by split|]. constructor; [done|done| |done]. intros c'. unfold get_conn. rewrite H4. by apply conns_insert; [apply Hcs|].
  - constructor; cbn [fd clients next_id slog]; try done. intros c'. by apply conns_insert; [apply Hcs|].
  - pose proof (feed_inv_subscribe (fd w) (slog s) (clients w) (next_id w) since max) as Hsub.
    destruct (subscribe _ _ _ _) as [f' r]. destruct Hsub as [Hcap Hsub]; [apply Ha|by apply Hn|done|].
    destruct (sr_sub r); [destruct Hsub as [-> Hsub]|]; constructor; cbn [fd clients next_id slog]; try done; try congruence.
    intros i Hi. rewrite lookup_insert_ne by lia. apply Hn. lia.
  - destruct (recv_step_inv capacity w (slog s) id (conj Hc (conj Hf Hn))) as [(H1 & H2 & H3) H4]. constructor; [done|done| |done].
    intros c'. unfold get_conn. rewrite H4. apply Hcs.
  - constructor; cbn [fd clients next_id slog]; try done.
    + unfold unsubscribe. by destruct (decide _).
    + by apply feed_inv_unsubscribe.
  - constructor; cbn [fd clients next_id slog]; try done. by apply feed_inv_closeAll.
Qed.

Lemma slog_mono s a : (length (slog s) <= length (slog (spec_step s a)))%nat.
Proof. destruct a; cbn [spec_step slog]; try done. rewrite length_append_log. lia. Qed.

Lemma slog_mono_run acts s : (length (slog s) <= length (slog (fold_left spec_step acts s)))%nat.
Proof.
  revert s. induction acts as [|a acts IH]; intros s; cbn; [done|].
  pose proof (slog_mono s a). specialize (IH (spec_step s a)). lia.
Qed.

Lemma world_inv_run capacity max acts w s :
  Forall act_ok acts -> Z.of_nat (length (slog (fold_left spec_step acts s))) < two64 ->
  world_inv capacity w s -> world_inv capacity (fold_left (act_step max) acts w) (fold_left spec_step acts s).
Proof.
  revert w s. induction acts as [|a acts IH]; intros w s Hok Hb Hi; [done|].
  inversion Hok; subst. cbn [fold_left] in *. apply IH; [done|done|]. apply world_inv_step; [done| |done].
  pose proof (slog_mono_run acts (spec_step s a)). lia.
Qed.

Lemma world_inv_init capacity : 0 < capacity -> world_inv capacity (World (new_feed capacity) ∅ ∅ 0) (Spec [] ∅).
Proof.
  intros Hc. constructor; cbn [fd clients next_id slog]; try done.
  constructor; [|set_solver|intros id cl; by rewrite lookup_empty].
  constructor; cbn; [done|rewrite repeat_length; lia|done|lia].
Qed.

(** What a client of the broker holds, after any run. *)
Lemma client_view buf maxSubs acts id cl :
  Forall act_ok acts ->
  Z.of_nat (length (slog (run_spec acts))) < two64 ->
  clients (run_world buf maxSubs acts) !! id = Some cl ->
  exists ch, chans (fd (run_world buf maxSubs acts)) !! id = Some ch /\
    client_ok (Z.max 1 buf) (slog (run_spec acts)) (id ∈ subs (fd (run_world buf maxSubs acts))) cl ch.
Proof.
  intros Hok Hb Hid. unfold run_world, run_spec in *.
  set (capacity := if buf <? 1 then 1 else buf) in *.
  assert (Hcap : capacity = Z.max 1 buf) by (subst capacity; destruct (buf <? 1) eqn:E; bool_to_prop; lia).
  destruct (world_inv_run capacity maxSubs acts _ (Spec [] ∅) Hok Hb (world_inv_init capacity ltac:(lia)))
    as [Hc Hf _ _].
  destruct (fi_clients _ _ _ Hf id cl Hid) as (ch & Hch & Hcl).
  exists ch; split; [done|]. rewrite <- Hcap, <- Hc at 1. done.
Qed.

(** C4: (feed delivery) After any interleaving of row callbacks, commits, rollbacks,
    subscriptions, receives (also those that run between the events one commit publishes),
    unsubscriptions and shutdown, with [L] the log of the
    committed transactions' events in commit order, numbered from 1 (a transaction of more
    than [maxPending] row events contributes one reset marker, a rolled-back one nothing):
    each client attached at sequence [n] has received or has buffered a gap-free,
    duplicate-free segment of [L] starting right after [n], all of it while it stays
    attached, with at most [subscriberBuf] events buffered; its replay is exactly the
    committed segment it missed, or it was told to reset, precisely when it resumes from
    the future or from before the ring's retention. *)
Theorem feed_exactly_once buf maxSubs acts id cl :
  Forall act_ok acts ->
  Z.of_nat (length (slog (run_spec acts))) < two64 ->
  clients (run_world buf maxSubs acts) !! id = Some cl ->
  exists ch, chans (fd (run_world buf maxSubs acts)) !! id = Some ch /\
    client_ok (Z.max 1 buf) (slog (run_spec acts)) (id ∈ subs (fd (run_world buf maxSubs acts))) cl ch.
Proof. apply client_view. Qed.

(** (routing) A registered database's connections, by whatever path they report it, and
    its subscribers meet in one and the same fresh feed; a database whose backend has no path
    is not observed. After [Forget] the name has no feed, no connection is attached to the
    forgotten feed any more, each of its subscribers is closed, and every other database's
    subscribers and connections keep their feed. *)
Theorem broker_routing cp b n path addr filename id since :
  (path <> ""%string -> filename <> ""%string -> cp filename = cp path ->
     connect_hook cp (Register cp b n path addr) filename = Some addr /\
     Observed (Register cp b n path addr) n = true /\
     exists f, feeds (fst (Subscribe (Register cp b n path addr) n id since)) !! addr = Some f /\
       (f, snd (Subscribe (Register cp b n path addr) n id since)) =
         subscribe (new_feed (buffer b)) id since (maxSubs b)) /\
  Register cp b n "" addr = b /\
  (Observed (Forget b n) n = false /\ sr_ok (snd (Subscribe (Forget b n) n id since)) = false /\
   (forall a f, byName b !! n = Some a -> feeds b !! a = Some f ->
      (forall fn, connect_hook cp (Forget b n) fn <> Some a) /\
      exists f', feeds (Forget b n) !! a = Some f' /\ subs f' = ∅ /\
        forall k c, k ∈ subs f -> chans f' !! k = Some c -> closed c = true) /\
   (forall m, m <> n -> byName (Forget b n) !! m = byName b !! m) /\
   (forall fn a, byName b !! n <> Some a -> connect_hook cp b fn = Some a -> connect_hook cp (Forget b n) fn = Some a)).
Proof.
  split; [|split; [done|]].
  - intros Hp Hf Hc. unfold Register, connect_hook, Observed, Subscribe.
    rewrite !(proj2 (String.eqb_neq _ _)) by done. cbn [byPath byName feeds buffer maxSubs]. rewrite Hc, !lookup_insert_eq.
    split; [done|]. split; [done|]. destruct (subscribe _ _ _ _) as [f r]. cbn [fst snd feeds].
    rewrite lookup_insert_eq. eauto.
  - unfold Observed, Subscribe, Forget. cbn [byName]. rewrite lookup_delete_eq. split; [done|]. split; [done|].
    split; [|split].
    + intros a f Ha Hf. cbn [byPath feeds]. rewrite Ha. split.
      * intros fn. unfold connect_hook. cbn [byPath]. destruct (String.eqb fn ""); [done|].
        intros [_ H]%map_lookup_filter_Some. done.
      * rewrite lookup_alter_eq, Hf. eexists; split; [done|]. split; [done|]. intros k c Hk.
        cbn [closeAll chans]. rewrite map_lookup_imap. destruct (chans f !! k) as [c0|]; [|done]. cbn.
        rewrite decide_True by done. by intros [= <-].
    + intros m Hm. by rewrite lookup_delete_ne.
    + intros fn a Ha. unfold connect_hook. cbn [byPath]. destruct (String.eqb fn ""); [done|]. intros Hl.
      destruct (byName b !! n) as [x|] eqn:Hx; [|done]. apply map_lookup_filter_Some. split; [done|].
      cbn. intros ->. done.
Qed.

Lemma broker_routing_witness :
  Observed (Register (fun p => p) (New 4 2) "db" "/d/x" 0) "db" = true.
Proof.
  refine (proj1 (proj2 (proj1 (broker_routing (fun p => p) (New 4 2) "db" "/d/x" 0 "/d/x" 0 0) _ _ _)));
    [discriminate|discriminate|reflexivity].
Defined.

(** The last commit publishes two events, and the client receives the first of them before
    the second is sent. *)
Definition demo_acts : list act :=
  [APreUpdate 0 (PreUpdate 18 "t" 0 1); ACommit 0 []; APreUpdate 0 (PreUpdate 18 "t" 0 2); ARollback 0;
   APreUpdate 1 (PreUpdate 9 "t" 1 0); ACommit 1 []; ASubscribe 1; APreUpdate 0 (PreUpdate 23 "t" 1 7);
   APreUpdate 0 (PreUpdate 9 "t" 7 0); ACommit 0 [[]; [0%nat]]].

Lemma feed_exactly_once_witness : exists cl ch,
  clients (run_world 4 8 demo_acts) !! 0%nat = Some cl /\
  got cl = [Event 3 "t" "update" 7 false] /\ sr_replay (answer cl) = [Event 2 "t" "delete" 1 false] /\
  client_ok 4 (slog (run_spec demo_acts)) (0%nat ∈ subs (fd (run_world 4 8 demo_acts))) cl ch.
Proof.
  destruct (feed_exactly_once 4 8 demo_acts 0
    (Client 1 (SubResult (Some 0%nat) [Event 2 "t" "delete" 1 false] false true false 2) [Event 3 "t" "update" 7 false]))
    as (ch & _ & Hok).
  - repeat (apply Forall_cons; split; [first [exact I | by split]|]). by apply Forall_nil.
  - vm_compute. reflexivity.
  - vm_compute. reflexivity.
  - eexists _, ch. split; [vm_compute; reflexivity|]. split; [reflexivity|]. split; [reflexivity|]. exact Hok.
Defined.
