(* ===== verification/Backend.v ===== *)
(** * backend: the connection authorizers and modes

    [src/backend/backend.go].  A pooled SQLite connection carries an authorizer (asked
    about every action of a statement when it is compiled) and the [query_only] flag;
    [SetConnMode], [SetConnAttach] and [ClearAttach] move it between the base, the
    read-only and the attach-enabled mode. *)
From S2P Require Import Prelude GoStd.

(** ** Authorizers *)

(** SQLite's action codes and authorizer answers (its documented constants). *)
Definition SQLITE_OK : Z := 0.
Definition SQLITE_DENY : Z := 1.
Definition SQLITE_PRAGMA : Z := 19.
Definition SQLITE_READ : Z := 20.
Definition SQLITE_SELECT : Z := 21.
Definition SQLITE_TRANSACTION : Z := 22.
Definition SQLITE_ATTACH : Z := 24.
Definition SQLITE_DETACH : Z := 25.
Definition SQLITE_FUNCTION : Z := 31.
Definition SQLITE_SAVEPOINT : Z := 32.
Definition SQLITE_RECURSIVE : Z := 33.

Definition memZ (x : Z) (l : list Z) : bool := existsb (Z.eqb x) l.

(** INSERT, UPDATE, DELETE; CREATE INDEX, TABLE, TRIGGER, VIEW, VTABLE; their TEMP
    forms; the DROP forms; ALTER TABLE, REINDEX, ANALYZE. *)
Definition writeActions (op : Z) : bool :=
  memZ op [18; 23; 9; 1; 2; 7; 8; 29; 3; 4; 5; 6; 10; 11; 16; 17; 30; 12; 13; 14; 15; 26; 27; 28].

Definition setterWritePragmas (name : string) : bool :=
  mem_string name ["user_version"; "application_id"; "schema_version"; "journal_mode";
                   "auto_vacuum"; "secure_delete"; "wal_autocheckpoint"]%string.

Definition mutatingPragmas (name : string) : bool :=
  mem_string name ["wal_checkpoint"; "incremental_vacuum"; "optimize"]%string.

Definition falsyPragmaArg (v : string) : bool :=
  mem_string (to_lower (trim_space v)) ["0"; "no"; "false"; "off"]%string.

Definition denyAttachDetach (op : Z) (arg1 arg2 : string) : Z :=
  if (op =? SQLITE_ATTACH) || (op =? SQLITE_DETACH) then SQLITE_DENY else SQLITE_OK.

Definition denyWrites (op : Z) (arg1 arg2 : string) : Z :=
  if (op =? SQLITE_ATTACH) || (op =? SQLITE_DETACH) then SQLITE_DENY
  else if writeActions op then SQLITE_DENY
  else if op =? SQLITE_PRAGMA then
    let name := to_lower arg1 in
    if String.eqb name "query_only" then
      if falsyPragmaArg arg2 then SQLITE_DENY else SQLITE_OK
    else if mutatingPragmas name || (setterWritePragmas name && negb (String.eqb arg2 "")) then SQLITE_DENY
    else SQLITE_OK
  else SQLITE_OK.

Definition permitAttach (op : Z) (arg1 arg2 : string) : Z := SQLITE_OK.

(** ** A pooled connection *)

Inductive authorizer : Type := ADenyAttach | ADenyWrites | APermit.
#[export] Instance authorizer_eq_dec : EqDecision authorizer.
Proof. solve_decision. Defined.

Definition authorize (a : authorizer) : Z -> string -> string -> Z :=
  match a with ADenyAttach => denyAttachDetach | ADenyWrites => denyWrites | APermit => permitAttach end.

Record pconn := PConn { auth : authorizer; query_only : bool; attached : list string }.
#[export] Instance pconn_eq_dec : EqDecision pconn.
Proof. solve_decision. Defined.

(** Every connection the driver opens gets the base authorizer ([installSecurity]). *)
Definition base_conn : pconn := PConn ADenyAttach false [].
(** A connection whose every statement is compiled under the write-denying authorizer. *)
Definition guarded (c : pconn) : Prop := auth c = ADenyWrites /\ attached c = [].

Inductive dberr : Type := ErrAuth | ErrDriver.

Section Conn.

(** How SQLite reads a boolean pragma argument. *)
Variable pragma_on : string -> bool.

(** An action a statement performs, as it is announced to the authorizer. *)
Record action := Action { op : Z; arg1 : string; arg2 : string }.

Definition run_action (c : pconn) (a : action) : pconn :=
  if (op a =? SQLITE_PRAGMA) && String.eqb (to_lower (arg1 a)) "query_only" && negb (String.eqb (arg2 a) "")
  then PConn (auth c) (pragma_on (arg2 a)) (attached c)
  else if op a =? SQLITE_ATTACH then PConn (auth c) (query_only c) (attached c ++ [arg1 a])
  else if op a =? SQLITE_DETACH
    then PConn (auth c) (query_only c) (List.filter (fun n => negb (String.eqb n (arg1 a))) (attached c))
  else c.

(** Compile (ask the authorizer about every action), then run. *)
Definition exec (c : pconn) (stmt : list action) : pconn * result dberr unit :=
  if forallb (fun a => authorize (auth c) (op a) (arg1 a) (arg2 a) =? SQLITE_OK) stmt
  then (fold_left run_action stmt c, Ok tt) else (c, Err ErrAuth).

(** An [ExecContext] of the server's own: [up] is whether the driver runs it at all
    (it does not when the context is done or the connection is broken). *)
Definition exec_ctx (up : bool) (c : pconn) (stmt : list action) : pconn * result dberr unit :=
  if up then exec c stmt else (c, Err ErrDriver).

Definition setAuthorizer (up : bool) (c : pconn) (a : authorizer) : pconn * result dberr unit :=
  if up then (PConn a (query_only c) (attached c), Ok tt) else (c, Err ErrDriver).

Definition pragma_query_only (v : string) : list action := [Action SQLITE_PRAGMA "query_only" v].

(** [up1], [up2]: whether the driver performs the first and the second operation. *)
Definition SetConnMode (up1 up2 : bool) (c : pconn) (readOnly : bool) : pconn * result dberr unit :=
  if readOnly then
    match exec_ctx up1 c (pragma_query_only "ON") with
    | (c1, Err e) => (c1, Err e)
    | (c1, Ok _) => setAuthorizer up2 c1 ADenyWrites
    end
  else
    match setAuthorizer up1 c ADenyAttach with
    | (c1, Err e) => (c1, Err e)
    | (c1, Ok _) => exec_ctx up2 c1 (pragma_query_only "OFF")
    end.

Definition SetConnAttach (up : bool) (c : pconn) : pconn * result dberr unit := setAuthorizer up c APermit.

(** Every name is tried; the first error is kept.  [detach_ok] is the driver's answer per
    database (a stuck or locked attachment refuses). *)
Fixpoint detach_each (detach_ok : string -> bool) (c : pconn) (names : list string) : pconn * result dberr unit :=
  match names with
  | [] => (c, Ok tt)
  | n :: rest =>
      let '(c1, r) := exec_ctx (detach_ok n) c [Action SQLITE_DETACH n ""] in
      let '(c2, rs) := detach_each detach_ok c1 rest in
      (c2, match r with Ok _ => rs | Err e => Err e end)
  end.

Definition detachAll (up : bool) (detach_ok : string -> bool) (c : pconn) : pconn * result dberr unit :=
  if up then
    detach_each detach_ok c (List.filter (fun n => negb (String.eqb n "main") && negb (String.eqb n "temp")) (attached c))
  else (c, Err ErrDriver).

Definition ClearAttach (up1 up2 : bool) (detach_ok : string -> bool) (c : pconn) : pconn * result dberr unit :=
  let '(c1, r) := detachAll up1 detach_ok c in
  match setAuthorizer up2 c1 ADenyAttach with
  | (c2, Err e) => (c2, Err e)
  | (c2, Ok _) => (c2, r)
  end.

(** The statements of a client, in order, each with its outcome. *)
Fixpoint exec_all (c : pconn) (stmts : list (list action)) : pconn * list (result dberr unit) :=
  match stmts with
  | [] => (c, [])
  | s :: rest =>
      let '(c1, r) := exec c s in
      let '(c2, rs) := exec_all c1 rest in (c2, r :: rs)
  end.

(** *** Read-only mode

    What SQLite documents of its actions, apart from the lists of the code: the codes run
    from 1 to 33; of these six never write, and a PRAGMA writes the database file when it
    is one of those named here (the last five only when given a value). *)
Definition documented (a : action) : bool := (1 <=? op a) && (op a <=? 33).
Definition pragma_writes (name arg : string) : bool :=
  mem_string name ["wal_checkpoint"; "optimize"; "incremental_vacuum"]%string ||
  mem_string name ["journal_mode"; "auto_vacuum"; "schema_version"; "user_version"; "application_id"]%string &&
    negb (String.eqb arg "").
Definition only_reads (a : action) : bool :=
  memZ (op a) [SQLITE_READ; SQLITE_SELECT; SQLITE_TRANSACTION; SQLITE_FUNCTION; SQLITE_SAVEPOINT; SQLITE_RECURSIVE] ||
  (op a =? SQLITE_PRAGMA) && negb (pragma_writes (to_lower (arg1 a)) (arg2 a)).

(** SQLite reads the value as off, but it is not one of the four spellings of the code. *)
Definition odd_off (a : action) : Prop :=
  op a = SQLITE_PRAGMA /\ to_lower (arg1 a) = "query_only"%string /\
  pragma_on (arg2 a) = false /\ falsyPragmaArg (arg2 a) = false.

Lemma setter_covers name arg : pragma_writes name arg = true ->
  mutatingPragmas name || (setterWritePragmas name && negb (String.eqb arg "")) = true.
Proof.
  unfold pragma_writes. destruct (negb (String.eqb arg "")); rewrite ?andb_false_r, ?andb_true_r;
    rewrite ?orb_true_iff, ?mem_string_elem; unfold mutatingPragmas, setterWritePragmas; set_solver.
Qed.

Lemma documented_cases a : documented a = true -> Z.of_nat (Z.to_nat (op a)) = op a /\ (Z.to_nat (op a) < 34)%nat /\ op a <> 0.
Proof. unfold documented. intros [H1 H2]%andb_true_iff. lia. Qed.

Lemma denyWrites_pragma name arg : denyWrites SQLITE_PRAGMA name arg =
  if String.eqb (to_lower name) "query_only" then if falsyPragmaArg arg then SQLITE_DENY else SQLITE_OK
  else if mutatingPragmas (to_lower name) || (setterWritePragmas (to_lower name) && negb (String.eqb arg "")) then SQLITE_DENY
  else SQLITE_OK.
Proof. reflexivity. Qed.

(** The authorizer's lists leave no documented action that writes. *)
Lemma denyWrites_ok_reads a :
  documented a = true -> (denyWrites (op a) (arg1 a) (arg2 a) =? SQLITE_OK) = true -> only_reads a = true.
Proof.
  intros (Hz & Hlt & Hne)%documented_cases. unfold only_reads.
  destruct (Z.eqb_spec (op a) SQLITE_PRAGMA) as [Hp|Hp].
  - rewrite Hp, denyWrites_pragma. destruct (pragma_writes (to_lower (arg1 a)) (arg2 a)) eqn:Hw; [|done].
    rewrite (setter_covers _ _ Hw). destruct (String.eqb_spec (to_lower (arg1 a)) "query_only") as [E|]; [|done].
    rewrite E in Hw. by destruct (arg2 a).
  - unfold denyWrites. rewrite (proj2 (Z.eqb_neq _ _) Hp). rewrite <- Hz in *.
    remember (Z.to_nat (op a)) as n eqn:En. clear Hz En. cbn [andb].
    do 34 (destruct n as [|n]; [first [by destruct (Hne eq_refl)|by destruct (Hp eq_refl)|by vm_compute]|]). lia.
Qed.

Lemma run_action_guarded c a :
  guarded c -> (denyWrites (op a) (arg1 a) (arg2 a) =? SQLITE_OK) = true ->
  guarded (run_action c a) /\ (query_only c = true -> query_only (run_action c a) = true \/ odd_off a).
Proof.
  intros (Ha & Hl). unfold run_action, guarded, denyWrites, odd_off.
  destruct (op a =? SQLITE_ATTACH) eqn:Hat; [done|]. destruct (op a =? SQLITE_DETACH) eqn:Hd; [done|]. cbn [orb].
  destruct (writeActions (op a)); [done|].
  destruct (Z.eqb_spec (op a) SQLITE_PRAGMA) as [Hp|]; cbn [andb]; [|by auto].
  destruct (String.eqb_spec (to_lower (arg1 a)) "query_only") as [Hn|]; cbn [andb]; [|by auto].
  destruct (falsyPragmaArg (arg2 a)) eqn:Hf; [done|]. intros _.
  destruct (String.eqb (arg2 a) ""); cbn [negb auth query_only attached]; [by auto|]. split; [done|].
  intros _. destruct (pragma_on (arg2 a)); [by left|by right].
Qed.

Lemma run_actions_guarded stmt : forall c,
  guarded c -> forallb (fun a => denyWrites (op a) (arg1 a) (arg2 a) =? SQLITE_OK) stmt = true ->
  guarded (fold_left run_action stmt c) /\
  (query_only c = true -> query_only (fold_left run_action stmt c) = true \/ exists a, a ∈ stmt /\ odd_off a).
Proof.
  induction stmt as [|a rest IH]; intros c Hc Hok; [by auto|]. cbn in *.
  apply andb_true_iff in Hok as [Ha Hrest]. destruct (run_action_guarded c a Hc Ha) as [Hg Hq].
  destruct (IH (run_action c a) Hg Hrest) as [H1 H2]. split; [done|]. intros Hon.
  destruct (Hq Hon) as [Hq'|Ho]; [|right; exists a; split; [by constructor|done]].
  destruct (H2 Hq') as [?|(b & Hb & Ho)]; [by left|right]. exists b. split; [by constructor|done].
Qed.

(** One statement on a guarded connection. *)
Lemma exec_guarded c s c1 r : guarded c -> exec c s = (c1, r) ->
  guarded c1 /\ (r = Ok tt -> forallb documented s = true -> forallb only_reads s = true) /\
  (query_only c = true -> query_only c1 = true \/ r = Ok tt /\ exists a, a ∈ s /\ odd_off a).
Proof.
  intros Hg. unfold exec. rewrite (proj1 Hg). cbn [authorize].
  destruct (forallb _ s) eqn:Hf; intros [= <- <-]; [|split; [done|split; [done|by left]]].
  destruct (run_actions_guarded s c Hg Hf) as [H1 H2]. split; [done|]. split.
  - intros _ Hd. rewrite forallb_forall in *. intros a Ha. apply denyWrites_ok_reads; auto.
  - intros Hq. destruct (H2 Hq) as [?|?]; auto.
Qed.

Lemma exec_all_guarded stmts : forall c c' rs, guarded c -> exec_all c stmts = (c', rs) ->
  guarded c' /\
  Forall2 (fun s r => r = Ok tt -> forallb documented s = true -> forallb only_reads s = true) stmts rs /\
  (query_only c = true -> query_only c' = true \/ exists i s a, stmts !! i = Some s /\ rs !! i = Some (Ok tt) /\ a ∈ s /\ odd_off a).
Proof.
  induction stmts as [|s rest IH]; cbn [exec_all]; intros c c' rs Hg; [intros [= <- <-]; by auto|].
  destruct (exec c s) as [c1 r] eqn:E. destruct (exec_all c1 rest) as [c2 rs'] eqn:E2. intros [= <- <-].
  destruct (exec_guarded _ _ _ _ Hg E) as (H1 & H2 & H3). destruct (IH _ _ _ H1 E2) as (H4 & H5 & H6).
  split; [done|]. split; [by constructor|]. intros Hq.
  destruct (H3 Hq) as [Hq1|(-> & a & Ha & Ho)]; [|by right; exists 0%nat, s, a].
  destruct (H6 Hq1) as [?|(i & s' & a & Hi)]; [by left|right]. by exists (Datatypes.S i), s', a.
Qed.

Lemma SetConnMode_readonly up1 up2 c c' : attached c = [] -> pragma_on "ON" = true ->
  auth c <> ADenyWrites -> SetConnMode up1 up2 c true = (c', Ok tt) -> guarded c' /\ query_only c' = true.
Proof.
  intros Hl Hon Ha. unfold SetConnMode, exec_ctx. destruct up1; [|done]. unfold exec, guarded.
  assert (Hok : forallb (fun a => authorize (auth c) (op a) (arg1 a) (arg2 a) =? SQLITE_OK) (pragma_query_only "ON") = true)
    by (by destruct (auth c)).
  rewrite Hok. cbn -[forallb]. destruct up2; [|done]. cbn. intros [= <-]. cbn. by rewrite Hon.
Qed.


(** *** Returning to the pool *)

Lemma exec_permitted c a : auth c = APermit -> exec c [a] = (run_action c a, Ok tt).
Proof. intros Ha. unfold exec. by rewrite Ha. Qed.

Lemma detach_each_mode detach_ok names : forall c,
  auth c = APermit ->
  auth (detach_each detach_ok c names).1 = APermit /\
  query_only (detach_each detach_ok c names).1 = query_only c.
Proof.
  induction names as [|n rest IH]; cbn [detach_each]; intros c Ha; [done|].
  unfold exec_ctx. rewrite exec_permitted by done. destruct (detach_ok n).
  - specialize (IH (run_action c (Action SQLITE_DETACH n ""))). destruct (detach_each _ _ rest). by apply IH.
  - specialize (IH c Ha). by destruct (detach_each _ _ rest).
Qed.

Lemma detach_each_clean detach_ok names : forall c,
  auth c = APermit -> (forall n, n ∈ attached c -> n ∈ names) ->
  (detach_each detach_ok c names).2 = Ok tt -> attached (detach_each detach_ok c names).1 = [].
Proof.
  induction names as [|n rest IH]; cbn [detach_each]; intros c Ha Hin.
  - cbn [fst snd]. intros _. destruct (attached c) as [|x l]; [done|]. exfalso. specialize (Hin x). set_solver.
  - unfold exec_ctx. rewrite exec_permitted by done. destruct (detach_ok n).
    + specialize (IH (run_action c (Action SQLITE_DETACH n ""))).
      destruct (detach_each _ _ rest) as [c2 rs]. cbn [fst snd] in *. apply IH; [done|].
      intros m Hm. cbn in Hm. apply list_elem_of_In, filter_In in Hm as [Hm Hne].
      apply list_elem_of_In, Hin in Hm. apply negb_true_iff, String.eqb_neq in Hne. set_solver.
    + by destruct (detach_each _ _ rest).
Qed.

Lemma restore_readonly up1 up2 c :
  guarded c -> pragma_on "OFF" = false ->
  let '(c', r) := SetConnMode up1 up2 c false in
  (up1 = true -> up2 = true -> c' = base_conn) /\ (r = Ok tt -> c' = base_conn).
Proof.
  intros (Ha & Hl) Hoff. destruct c as [a q l]; cbn in Ha, Hl; subst.
  destruct up1; [|by split]. destruct up2; [|by split].
  change (SetConnMode true true _ false) with (PConn ADenyAttach (pragma_on "OFF") [], Ok (E := dberr) tt).
  by rewrite Hoff.
Qed.

Lemma clear_attach_clean up1 up2 detach_ok c :
  auth c = APermit -> query_only c = false -> Forall (fun n => n <> "main" /\ n <> "temp")%string (attached c) ->
  let '(c', r) := ClearAttach up1 up2 detach_ok c in
  r = Ok tt -> c' = base_conn.
Proof.
  intros Ha Hq Hn. unfold ClearAttach, detachAll, setAuthorizer. destruct up1.
  - pose proof (detach_each_clean detach_ok
      (List.filter (fun n => negb (String.eqb n "main") && negb (String.eqb n "temp")) (attached c)) c Ha) as H.
    pose proof (detach_each_mode detach_ok
      (List.filter (fun n => negb (String.eqb n "main") && negb (String.eqb n "temp")) (attached c)) c Ha) as [_ Hm].
    destruct (detach_each _ _ _) as [c1 r]. cbn [fst snd] in *. destruct up2; [|done].
    intros ->. unfold base_conn. rewrite Hm, Hq, H; [done| |done].
    intros n Hin. apply list_elem_of_In, filter_In. split; [by apply list_elem_of_In|].
    rewrite Forall_forall in Hn. destruct (Hn n Hin) as [? ?].
    by rewrite !(proj2 (String.eqb_neq _ _)) by done.
  - by destruct up2.
Qed.

End Conn.

(** A reading of boolean arguments: the documented false tokens and any spelling of zero. *)
Definition documented_bool (v : string) : bool :=
  negb (falsyPragmaArg v || forallb (Ascii.eqb "0") (String.list_ascii_of_string v)).

Definition demo_client : list (list action) :=
  [[Action 18 "t" ""]; [Action SQLITE_PRAGMA "query_only" "Off"]; [Action SQLITE_PRAGMA "query_only" ""];
   [Action 20 "t" "c"; Action 9 "t" ""]; [Action 20 "t" "c"]].


(** The guard enumerates four spellings of false; SQLite reads any other argument it does
    not know, and a number with leading zeros, as false too, and those pass: the flag goes
    off, and the authorizer is the only net left. *)
Lemma query_only_guard_is_textual :
  denyWrites SQLITE_PRAGMA "query_only" "00" = SQLITE_OK /\
  denyWrites SQLITE_PRAGMA "query_only" "0" = SQLITE_DENY /\
  exec documented_bool (PConn ADenyWrites true []) [Action SQLITE_PRAGMA "query_only" "00"] = (PConn ADenyWrites false [], Ok tt).
Proof. by repeat split. Qed.
