(* ===== verification/Session.v ===== *)
(** * session: interactive streams and their batons

    [src/session/session.go].  The store's mutex makes every operation below atomic;
    [Open] has two critical sections with the blocking pin of a connection between them,
    so it is two operations here.  Session ids are drawn by crypto/rand (arguments). *)
From S2P Require Import Prelude GoStd Crypto Backend.

Definition idLen : nat := 16.

Record session := Session {
  id : list byte;
  gen : Z;
  conn : nat;
  release : bool;           (* a registry reference is owned *)
  dbName : string;
  principal : string;
  readOnly : bool;
  attach : bool;
  created : Z;
  lastUsed : Z;
  busy : bool;
  sql : gmap Z string;
  capture : option nat
}.

Definition set_use (s : session) (g : Z) (b : bool) (now : Z) : session :=
  Session (id s) g (conn s) (release s) (dbName s) (principal s) (readOnly s) (attach s)
          (created s) now b (sql s) (capture s).
Definition set_sql (s : session) (m : gmap Z string) : session :=
  Session (id s) (gen s) (conn s) (release s) (dbName s) (principal s) (readOnly s) (attach s)
          (created s) (lastUsed s) (busy s) m (capture s).
Definition SetCapture (s : session) (c : option nat) : session :=
  Session (id s) (gen s) (conn s) (release s) (dbName s) (principal s) (readOnly s) (attach s)
          (created s) (lastUsed s) (busy s) (sql s) c.
Definition TakeCapture (s : session) : session * option nat := (SetCapture s None, capture s).

Definition StoreSQL (s : session) (i : Z) (q : string) : session := set_sql s (<[i := q]> (sql s)).
Definition LookupSQL (s : session) (i : Z) : option string := sql s !! i.
Definition DropSQL (s : session) (i : Z) : session := set_sql s (delete i (sql s)).

Record store := Store {
  sessions : gmap (list byte) session;
  perDB : gmap string Z;
  key : list byte;
  ttl : Z;
  maxLife : Z;
  max : Z
}.
Definition with_sessions (st : store) (m : gmap (list byte) session) : store :=
  Store m (perDB st) (key st) (ttl st) (maxLife st) (max st).
Definition with_perDB (st : store) (m : gmap string Z) : store :=
  Store (sessions st) m (key st) (ttl st) (maxLife st) (max st).

Definition NewStore (key : list byte) (ttl maxLife max : Z) : store :=
  Store ∅ ∅ key (if ttl <=? 0 then 60 * second else ttl)
        (if maxLife <=? 0 then 300 * second else maxLife) (if max <=? 0 then 64 else max).

Inductive serr : Type := ErrBadBaton | ErrTooMany | ErrPrincipalMismatch.

(** ** Batons *)

Definition mint (st : store) (id : list byte) (gen : Z) : string :=
  let payload := id ++ put_be 8 gen in
  b64_encode RawURLEncoding (payload ++ hmac_sha256 (key st) payload).

Definition verify (st : store) (baton : string) : option (list byte * Z) :=
  match b64_decode RawURLEncoding baton with
  | None => None
  | Some tok =>
      if negb (length tok =? idLen + 8 + 32)%nat then None else
      let payload := take (idLen + 8) tok in
      let sig := drop (idLen + 8) tok in
      if negb (bytes_eqb sig (hmac_sha256 (key st) payload)) then None
      else Some (take idLen payload, get_be (drop idLen payload))
  end.

(** ** Teardown *)

(** What the teardown goroutine of a closed session is handed. *)
Record teardown := Teardown {
  td_conn : nat; td_release : bool; td_readOnly : bool; td_attach : bool; td_capture : option nat
}.

Definition closeLocked (st : store) (i : list byte) : store * list teardown :=
  match sessions st !! i with
  | None => (st, [])
  | Some s =>
      let st := with_sessions st (delete i (sessions st)) in
      let n := zget (perDB st) (dbName s) in
      let st := if n >? 0 then with_perDB st (<[dbName s := n - 1]> (perDB st)) else st in
      (st, [Teardown (conn s) (release s) (readOnly s) (attach s) (snd (TakeCapture s))])
  end.

(** The steps of the goroutine, and the connection the pool gets back ([None]: discarded).
    [up] are the driver's answers to the operations of the restore. *)
Inductive tstep : Type := TCaptureClose (c : nat) | TRollback | TRestore | TConnClose | TRelease.

Definition teardown_steps (t : teardown) : list tstep :=
  match td_capture t with Some c => [TCaptureClose c] | None => [] end ++ [TRollback] ++
  (if td_readOnly t || td_attach t then [TRestore] else []) ++ [TConnClose] ++
  (if td_release t then [TRelease] else []).

Definition teardown_conn (pragma_on : string -> bool) (up1 up2 : bool) (detach_ok : string -> bool)
    (t : teardown) (c : pconn) : option pconn :=
  if td_readOnly t then Some (fst (SetConnMode pragma_on up1 up2 c false))
  else if td_attach t then
    match ClearAttach pragma_on up1 up2 detach_ok c with
    | (c', Ok _) => Some c'
    | (_, Err _) => None
    end
  else Some c.

(** ** Operations *)

Definition reapable (st : store) (now : Z) (s : session) : bool :=
  if busy s then false
  else (time_sub now (lastUsed s) >? ttl st) || (time_sub now (created s) >? maxLife st).

Definition Open_reserve (st : store) (db : string) : result serr store :=
  if zget (perDB st) db >=? max st then Err ErrTooMany
  else Ok (with_perDB st (<[db := zget (perDB st) db + 1]> (perDB st))).

Definition releaseSlot (st : store) (db : string) : store :=
  if zget (perDB st) db >? 0 then with_perDB st (<[db := zget (perDB st) db - 1]> (perDB st)) else st.

(** The pinned connection's mode, set between the two critical sections. *)
Definition Open_attach (readOnly allowAttach : bool) : bool := allowAttach && negb readOnly.
Definition Open_mode (pragma_on : string -> bool) (up1 up2 : bool) (readOnly allowAttach : bool) (c : pconn)
    : pconn * result dberr unit :=
  if readOnly then SetConnMode pragma_on up1 up2 c true
  else if Open_attach readOnly allowAttach then SetConnAttach up1 c
  else (c, Ok tt).

Definition Open_insert (st : store) (db : string) (c : nat) (release : bool) (p : string)
    (readOnly allowAttach : bool) (i : list byte) (now : Z) : store * session :=
  let s := Session i 1 c release db p readOnly (Open_attach readOnly allowAttach) now now true ∅ None in
  (with_sessions st (<[i := s]> (sessions st)), s).

Definition Resume (st : store) (now : Z) (baton db p : string) : store * list teardown * result serr session :=
  match verify st baton with
  | None => (st, [], Err ErrBadBaton)
  | Some (i, g) =>
      match sessions st !! i with
      | None => (st, [], Err ErrBadBaton)
      | Some s =>
          if negb (gen s =? g) then (st, [], Err ErrBadBaton)
          else if busy s then (st, [], Err ErrBadBaton)
          else if reapable st now s then
            let '(st', t) := closeLocked st i in (st', t, Err ErrBadBaton)
          else if negb (String.eqb (dbName s) db) then (st, [], Err ErrBadBaton)
          else if negb (String.eqb (principal s) p) then (st, [], Err ErrPrincipalMismatch)
          else
            let s' := set_use s (u64 (gen s + 1)) true now in
            (with_sessions st (<[i := s']> (sessions st)), [], Ok s')
      end
  end.

(** [s] is the in-flight request's session; the store's entry is the same object. *)
Definition Baton (st : store) (now : Z) (s : session) : store * string :=
  (with_sessions st (alter (fun x => set_use x (gen x) false now) (id s) (sessions st)),
   mint st (id s) (gen s)).
Definition PeekBaton (st : store) (s : session) : string := mint st (id s) (gen s).
Definition Close (st : store) (s : session) : store * list teardown := closeLocked st (id s).

Record info := Info {
  ID : string; DBName : string; Principal : string; ReadOnly : bool; Busy : bool; Age : Z; IdleFor : Z
}.
Definition List_ (st : store) (now : Z) (dbFilter : option (string -> bool)) : list info :=
  omap (fun '(i, s) =>
          match dbFilter with
          | Some f => if f (dbName s) then Some s else None
          | None => Some s
          end ≫= fun s =>
          Some (Info (b64_encode RawURLEncoding i) (dbName s) (principal s) (readOnly s) (busy s)
                     (time_sub now (created s)) (time_sub now (lastUsed s))))
       (map_to_list (sessions st)).
Definition Count (st : store) : Z := Z.of_nat (size (sessions st)).

Inductive KillResult : Type := KillNotFound | KillBusy | Killed.

Definition Kill (st : store) (idStr : string) : store * list teardown * KillResult :=
  match b64_decode RawURLEncoding idStr with
  | None => (st, [], KillNotFound)
  | Some raw =>
      if negb (length raw =? idLen)%nat then (st, [], KillNotFound) else
      match sessions st !! raw with
      | None => (st, [], KillNotFound)
      | Some s => if busy s then (st, [], KillBusy)
                  else let '(st', t) := closeLocked st raw in (st', t, Killed)
      end
  end.

(** Go's [for id, s := range st.sessions { ... closeLocked(id) }]. *)
Definition close_one (p : session -> bool) (acc : store * list teardown) (kv : list byte * session) :
    store * list teardown :=
  let '(st, ts) := acc in let '(i, s) := kv in
  if p s then let '(st', t) := closeLocked st i in (st', ts ++ t) else (st, ts).
Definition close_where (p : session -> bool) (st : store) : store * list teardown :=
  fold_left (close_one p) (map_to_list (sessions st)) (st, []).
Definition CloseAll (st : store) : store * list teardown := close_where (fun s => negb (busy s)) st.
Definition reap (st : store) (now : Z) : store * list teardown := close_where (reapable st now) st.

(** [StartReaper]'s loop, with the sessions handed to teardown so far; [now]: the time of a tick. *)
Definition hand_over (acc : store * list teardown) (r : store * list teardown) : store * list teardown := (r.1, acc.2 ++ r.2).
Definition StartReaper (acc : store * list teardown) (ss : list (signal Z)) : (store * list teardown) * bool :=
  ticker (fun acc now => hand_over acc (reap acc.1 now)) (fun acc => hand_over acc (CloseAll acc.1)) acc ss.

(** ** Baton authenticity *)

Lemma length_mint_payload i g : length i = idLen -> length (i ++ put_be 8 g) = (idLen + 8)%nat.
Proof. intros H. autorewrite with quic_rw. by rewrite H. Qed.
#[export] Hint Resolve length_mint_payload : quic.

Lemma verify_mint st i g : length i = idLen -> in_u64 g -> verify st (mint st i g) = Some (i, g).
Proof.
  intros Hi Hg. unfold verify, mint. autorewrite with quic_rw. rewrite Hi. cbn [negb Nat.eqb Nat.add idLen].
  pose proof (length_mint_payload i g Hi) as Hl. cbn [Nat.add idLen] in Hl.
  rewrite take_app_exact, drop_app_exact by done. unfold bytes_eqb. rewrite bool_decide_true by done. cbn [negb].
  rewrite take_app_exact, drop_app_exact, get_put_be by done. do 2 f_equal.
  apply Z.mod_small. unfold in_u64, two64 in Hg. lia.
Qed.
#[export] Hint Resolve verify_mint : quic.


(** A baton that verifies carries the store's own signature of its id and generation. *)
Lemma verify_authentic st b i g :
  verify st b = Some (i, g) ->
  exists gb, length i = idLen /\ length gb = 8%nat /\ g = get_be gb /\ in_u64 g /\
    b64_decode RawURLEncoding b = Some ((i ++ gb) ++ hmac_sha256 (key st) (i ++ gb)).
Proof.
  unfold verify. destruct (b64_decode _ b) as [tok|]; [|done].
  destruct (Nat.eqb_spec (length tok) (idLen + 8 + 32)) as [Hl|]; [|done]. cbn [negb].
  destruct (bytes_eqb _ _) eqn:Hs; [|done]. cbn [negb]. intros [= <- <-].
  apply bool_decide_eq_true in Hs. exists (drop idLen (take (idLen + 8) tok)).
  assert (Hp : length (take (idLen + 8) tok) = (idLen + 8)%nat) by (rewrite length_take; lia).
  assert (Hg : length (drop idLen (take (idLen + 8) tok)) = 8%nat) by (rewrite length_drop, Hp; lia).
  assert (Hi : length (take idLen (take (idLen + 8) tok)) = idLen) by (rewrite length_take; lia).
  split; [done|]. split; [done|]. split; [done|]. split.
  - pose proof (get_be_range (drop idLen (take (idLen + 8) tok))) as Hr. rewrite Hg in Hr. apply Hr.
  - rewrite take_drop, <- Hs, take_drop. done.
Qed.

(** ** Runs

    The store with the history a run leaves: the opens between their two critical
    sections, the requests in flight, every id and connection ever used, the connections
    handed to teardown, and the (id, generation) pairs whose baton was consumed. *)

Record world := World {
  st_ : store;
  pend : list string;
  hold : list (list byte);
  seen : list (list byte);
  pinned : list nat;
  torn : list nat;
  consumed : list (list byte * Z)
}.

Definition remove_id (i : list byte) (l : list (list byte)) : list (list byte) :=
  filter (fun j => j <> i) l.

Inductive step : world -> world -> Prop :=
| S_reserve st st' p h n pi t c db :
    Open_reserve st db = Ok st' ->
    step (World st p h n pi t c) (World st' (db :: p) h n pi t c)
| S_open_failed st p1 p2 h n pi t c db :
    step (World st (p1 ++ db :: p2) h n pi t c) (World (releaseSlot st db) (p1 ++ p2) h n pi t c)
| S_insert st p1 p2 h n pi t c db co rel pr ro aa i now :
    length i = idLen -> i ∉ n -> co ∉ pi ->
    step (World st (p1 ++ db :: p2) h n pi t c)
         (World (fst (Open_insert st db co rel pr ro aa i now)) (p1 ++ p2) (i :: h) (i :: n) (co :: pi) t c)
| S_resume st st' p h n pi t c b db pr now ts s :
    Resume st now b db pr = (st', ts, Ok s) ->
    step (World st p h n pi t c)
         (World st' p (id s :: h) n pi (map td_conn ts ++ t) ((id s, u64 (gen s - 1)) :: c))
| S_resume_failed st st' p h n pi t c b db pr now ts e :
    Resume st now b db pr = (st', ts, Err e) ->
    step (World st p h n pi t c) (World st' p h n pi (map td_conn ts ++ t) c)
| S_baton st p h n pi t c s now :
    id s ∈ h -> sessions st !! id s = Some s ->
    step (World st p h n pi t c) (World (fst (Baton st now s)) p (remove_id (id s) h) n pi t c)
| S_close st st' p h n pi t c s ts :
    id s ∈ h -> sessions st !! id s = Some s -> Close st s = (st', ts) ->
    step (World st p h n pi t c) (World st' p (remove_id (id s) h) n pi (map td_conn ts ++ t) c)
| S_kill st st' p h n pi t c x ts r :
    Kill st x = (st', ts, r) ->
    step (World st p h n pi t c) (World st' p h n pi (map td_conn ts ++ t) c)
| S_close_all st st' p h n pi t c ts :
    CloseAll st = (st', ts) ->
    step (World st p h n pi t c) (World st' p h n pi (map td_conn ts ++ t) c)
| S_reap st st' p h n pi t c ts now :
    reap st now = (st', ts) ->
    step (World st p h n pi t c) (World st' p h n pi (map td_conn ts ++ t) c).

Definition init_world (key : list byte) (ttl maxLife max : Z) : world :=
  World (NewStore key ttl maxLife max) [] [] [] [] [] [].

Definition on_db (db : string) (m : gmap (list byte) session) : Z := occurrences db (dbName <$> vals m).
Definition live_conns (m : gmap (list byte) session) : list nat := conn <$> vals m.

Record winv (w : world) : Prop := {
  wi_perDB : forall db, zget (perDB (st_ w)) db = on_db db (sessions (st_ w)) + occurrences db (pend w);
  wi_max : forall db, zget (perDB (st_ w)) db <= max (st_ w);
  wi_maxpos : 0 <= max (st_ w);
  wi_sess : forall i s, sessions (st_ w) !! i = Some s ->
    id s = i /\ i ∈ seen w /\ length i = idLen /\ 1 <= gen s <= 1 + Z.of_nat (length (consumed w));
  wi_hold : NoDup (hold w) /\
    forall i, i ∈ hold w <-> exists s, sessions (st_ w) !! i = Some s /\ busy s = true;
  wi_conns : NoDup (pinned w) /\ pinned w ≡ₚ live_conns (sessions (st_ w)) ++ torn w;
  wi_consumed : NoDup (consumed w) /\
    forall i g, (i, g) ∈ consumed w ->
      i ∈ seen w /\ forall s, sessions (st_ w) !! i = Some s -> g < gen s
}.

Lemma on_db_insert db m i s : m !! i = None ->
  on_db db (<[i := s]> m) = (if decide (db = dbName s) then 1 else 0) + on_db db m.
Proof.
  intros Hi. unfold on_db. rewrite (occurrences_perm _ _ (dbName s :: (dbName <$> vals m))).
  - apply occurrences_cons.
  - by rewrite vals_insert.
Qed.

Lemma on_db_delete db m i s : m !! i = Some s ->
  on_db db m = (if decide (db = dbName s) then 1 else 0) + on_db db (delete i m).
Proof.
  intros Hi. unfold on_db. rewrite (occurrences_perm _ _ (dbName s :: (dbName <$> vals (delete i m)))).
  - apply occurrences_cons.
  - by rewrite (vals_delete m i s Hi).
Qed.

Lemma on_db_update db m i s s' : m !! i = Some s -> dbName s' = dbName s ->
  on_db db (<[i := s']> m) = on_db db m.
Proof. intros Hi Hd. unfold on_db. apply occurrences_perm. by eapply vals_update. Qed.

(** Closing one live session keeps every invariant, whatever happens to its holder. *)
Lemma winv_close st p h h' n pi t c i s :
  winv (World st p h n pi t c) -> sessions st !! i = Some s ->
  NoDup h' -> (forall j, j ∈ h' <-> j ∈ h /\ j <> i) ->
  winv (World (fst (closeLocked st i)) p h' n pi (map td_conn (snd (closeLocked st i)) ++ t) c).
Proof.
  intros [H1 H2 H3 H4 H5 H6 H7] Hi Hnd Hh. unfold closeLocked. rewrite Hi. cbn [st_ pend hold seen pinned torn consumed] in *.
  assert (Hpos : zget (perDB st) (dbName s) >? 0 = true).
  { apply Z.gtb_lt. rewrite H1, (on_db_delete _ _ _ _ Hi), decide_True by done.
    pose proof (occurrences_nonneg (dbName s) p).
    pose proof (occurrences_nonneg (dbName s) (dbName <$> vals (delete i (sessions st)))). unfold on_db. lia. }
  cbn [perDB with_sessions]. rewrite Hpos. unfold with_perDB, with_sessions.
  cbn [fst snd map td_conn app]. constructor; cbn [st_ pend hold seen pinned torn consumed sessions perDB max].
  - intros db. rewrite zget_insert, H1.
    pose proof (on_db_delete db (sessions st) i s Hi) as Hd.
    pose proof (on_db_delete (dbName s) (sessions st) i s Hi) as Hd'. rewrite decide_True in Hd' by done.
    destruct (decide (dbName s = db)) as [<-|]; [lia|]. rewrite decide_False in Hd by done. rewrite H1. lia.
  - intros db. rewrite zget_insert. pose proof (H2 (dbName s)). destruct (decide _); [lia|done].
  - done.
  - intros j s' [Hne Hj]%lookup_delete_Some. by apply H4.
  - split; [done|]. intros j. rewrite Hh. destruct H5 as [_ H5]. rewrite H5. split.
    + intros [(s' & Hs' & Hb) Hne]. exists s'. by rewrite lookup_delete_ne.
    + intros (s' & [Hne Hs']%lookup_delete_Some & Hb). split; [by eauto|done].
  - destruct H6 as [? H6]. split; [done|]. rewrite H6. unfold live_conns.
    rewrite (vals_delete _ _ _ Hi). cbn [fmap list_fmap app]. by rewrite Permutation_middle.
  - destruct H7 as [? H7]. split; [done|]. intros j g Hjg. destruct (H7 j g Hjg) as [? Hg].
    split; [done|]. intros s' [_ Hj]%lookup_delete_Some. by apply Hg.
Qed.

Lemma winv_torn st p h n pi t t' c : t ≡ₚ t' -> winv (World st p h n pi t c) -> winv (World st p h n pi t' c).
Proof. intros Ht []. constructor; cbn in *; try done. by rewrite <- Ht. Qed.

Lemma winv_not_held st p h n pi t c i s :
  winv (World st p h n pi t c) -> sessions st !! i = Some s -> busy s = false -> i ∉ h.
Proof. intros Hw Hi Hb Hin. apply (wi_hold _ Hw) in Hin as (s' & Hs' & Hb'). cbn in Hs'. congruence. Qed.

Lemma winv_close_idle st p h n pi t c i s :
  winv (World st p h n pi t c) -> sessions st !! i = Some s -> busy s = false ->
  winv (World (fst (closeLocked st i)) p h n pi (map td_conn (snd (closeLocked st i)) ++ t) c).
Proof.
  intros Hw Hi Hb. pose proof (winv_not_held _ _ _ _ _ _ _ _ _ Hw Hi Hb).
  apply (winv_close _ _ h _ _ _ _ _ _ s Hw Hi); [apply (wi_hold _ Hw)|]. intros j. split; [|by intros []].
  intros Hj. split; [done|]. by intros ->.
Qed.

Lemma sessions_closeLocked st i : sessions (fst (closeLocked st i)) = delete i (sessions st).
Proof.
  unfold closeLocked. destruct (sessions st !! i) eqn:Hi; [by destruct (_ >? 0)|].
  symmetry. by apply delete_id.
Qed.

Lemma sessions_close_fold pr l : forall st ts, NoDup l.*1 -> forall j,
  sessions (fst (fold_left (close_one pr) l (st, ts))) !! j =
  match (list_to_map l : gmap (list byte) session) !! j with
  | Some s => if pr s then None else sessions st !! j
  | None => sessions st !! j
  end.
Proof.
  induction l as [|[i s] l IH]; intros st ts Hnd j; [done|].
  apply NoDup_cons in Hnd as [Hni Hnd]. cbn [fold_left close_one list_to_map foldr].
  pose proof (sessions_closeLocked st i) as Hdel.
  destruct (pr s) eqn:Hp; [destruct (closeLocked st i) as [st1 t1]; cbn [fst] in Hdel|];
    rewrite IH by done; rewrite ?Hdel; destruct (decide (i = j)) as [<-|Hne].
  - rewrite lookup_insert_eq. cbn. rewrite Hp, lookup_delete_eq. by rewrite not_elem_of_list_to_map_1.
  - by rewrite lookup_insert_ne, lookup_delete_ne.
  - rewrite lookup_insert_eq. cbn. rewrite Hp. by rewrite not_elem_of_list_to_map_1.
  - by rewrite lookup_insert_ne.
Qed.

Lemma winv_close_fold pr l : forall st ts p h n pi t c,
  (forall s, pr s = true -> busy s = false) -> NoDup l.*1 ->
  (forall i s, (i, s) ∈ l -> sessions st !! i = Some s) ->
  winv (World st p h n pi (map td_conn ts ++ t) c) ->
  let r := fold_left (close_one pr) l (st, ts) in
  winv (World (fst r) p h n pi (map td_conn (snd r) ++ t) c).
Proof.
  induction l as [|[i s] l IH]; intros st ts p h n pi t c Hpr Hnd Hl Hw r; [done|].
  apply NoDup_cons in Hnd as [Hni Hnd]. subst r. cbn [fold_left close_one].
  assert (Hi : sessions st !! i = Some s) by (apply Hl; constructor).
  destruct (pr s) eqn:Hp.
  - pose proof (winv_close_idle _ _ _ _ _ _ _ _ _ Hw Hi (Hpr s Hp)) as Hw'.
    pose proof (sessions_closeLocked st i) as Hdel.
    destruct (closeLocked st i) as [st' t']. cbn [fst snd] in *. apply IH; [done|done| |].
    + intros j s' Hj. rewrite Hdel, lookup_delete_ne.
      * apply Hl. by constructor.
      * intros <-. apply Hni. apply list_elem_of_fmap. by exists (i, s').
    + eapply winv_torn, Hw'. rewrite map_app, !app_assoc. by rewrite (Permutation_app_comm (map td_conn t')).
  - apply IH; [done|done| |done]. intros j s' Hj. apply Hl. by constructor.
Qed.

Lemma winv_close_where pr st p h n pi t c :
  (forall s, pr s = true -> busy s = false) -> winv (World st p h n pi t c) ->
  winv (World (fst (close_where pr st)) p h n pi (map td_conn (snd (close_where pr st)) ++ t) c).
Proof.
  intros Hpr Hw. apply (winv_close_fold pr _ st [] p h n pi t c Hpr); [apply NoDup_fst_map_to_list| |done].
  intros i s. by rewrite elem_of_map_to_list.
Qed.

Lemma elem_remove_id i l j : j ∈ remove_id i l <-> j ∈ l /\ j <> i.
Proof. unfold remove_id. rewrite list_elem_of_filter. tauto. Qed.

(** [Resume] field by field. *)
Lemma Resume_ok st now b db pr st' ts s' :
  Resume st now b db pr = (st', ts, Ok s') ->
  exists i s, verify st b = Some (i, gen s) /\ sessions st !! i = Some s /\ busy s = false /\
    reapable st now s = false /\ dbName s = db /\ principal s = pr /\ ts = [] /\
    s' = set_use s (u64 (gen s + 1)) true now /\ st' = with_sessions st (<[i := s']> (sessions st)).
Proof.
  unfold Resume. destruct (verify st b) as [[i g]|]; [|done]. destruct (sessions st !! i) as [s|] eqn:Hi; [|done].
  destruct (gen s =? g) eqn:Hg; [|done]. destruct (busy s) eqn:Hb; [done|]. cbn [negb].
  destruct (reapable st now s) eqn:Hr; [by destruct (closeLocked st i)|].
  destruct (String.eqb (dbName s) db) eqn:Hd; [|done]. destruct (String.eqb (principal s) pr) eqn:Hp; [|done].
  bool_to_prop. cbn [negb]. intros [= <- <- <-]. exists i, s. subst. repeat split; try done.
Qed.

(** A refused [Resume] changes nothing, except that an idle session past its time is closed. *)
Lemma Resume_err st now b db pr st' ts e :
  Resume st now b db pr = (st', ts, Err e) ->
  (st' = st /\ ts = []) \/
  exists i s, sessions st !! i = Some s /\ busy s = false /\ reapable st now s = true /\
    (st', ts) = closeLocked st i.
Proof.
  unfold Resume. destruct (verify st b) as [[i g]|]; [|intros [= <- <- <-]; by left].
  destruct (sessions st !! i) as [s|] eqn:Hi; [|intros [= <- <- <-]; by left].
  destruct (gen s =? g); [|intros [= <- <- <-]; by left]. destruct (busy s) eqn:Hb; [intros [= <- <- <-]; by left|].
  cbn [negb]. destruct (reapable st now s) eqn:Hr.
  - destruct (closeLocked st i) eqn:Hc. intros [= <- <- <-]. right. exists i, s. by rewrite Hc.
  - destruct (negb _); [intros [= <- <- <-]; by left|]. destruct (negb _); [intros [= <- <- <-]; by left|done].
Qed.

Lemma winv_use st p h h' n pi t c c' i s g b now :
  winv (World st p h n pi t c) -> sessions st !! i = Some s ->
  gen s <= g <= 1 + Z.of_nat (length c') -> (length c <= length c')%nat ->
  NoDup h' -> (forall j, j ∈ h' <-> if decide (j = i) then b = true else j ∈ h) ->
  NoDup c' -> (forall j k, (j, k) ∈ c' -> (j, k) ∈ c \/ (j = i /\ k < g)) ->
  winv (World (with_sessions st (<[i := set_use s g b now]> (sessions st))) p h' n pi t c').
Proof.
  intros [H1 H2 H3 H4 H5 H6 H7] Hi Hg Hlen Hnd Hh Hc Hcc.
  constructor; cbn [st_ pend hold seen pinned torn consumed sessions perDB max with_sessions] in *.
  - intros db. by rewrite (on_db_update db _ _ s) by done.
  - done.
  - done.
  - intros j s'. rewrite lookup_insert. destruct (decide (i = j)) as [<-|].
    + intros [= <-]. destruct (H4 i s Hi) as (? & ? & ? & ?). cbn. repeat split; try done; lia.
    + intros Hj. destruct (H4 j s' Hj) as (? & ? & ? & ?). repeat split; try done; lia.
  - split; [done|]. intros j. rewrite Hh, lookup_insert. destruct (decide (j = i)) as [->|Hne].
    + rewrite decide_True by done. split; [intros ->; eexists; by split|]. by intros (s' & [= <-] & Hb).
    + rewrite decide_False by done. apply H5.
  - destruct H6 as [? H6]. split; [done|]. rewrite H6. unfold live_conns. by rewrite (vals_update conn _ _ s).
  - split; [done|]. intros j k Hjk. destruct H7 as [_ H7].
    destruct (Hcc j k Hjk) as [Hin|[-> Hk]].
    + destruct (H7 j k Hin) as [? Hs]. split; [done|]. intros s'. rewrite lookup_insert.
      destruct (decide (i = j)) as [<-|]; [|apply Hs]. intros [= <-]. cbn. specialize (Hs s Hi). lia.
    + destruct (H4 i s Hi) as (? & ? & ? & ?). split; [done|]. intros s'. rewrite lookup_insert_eq. by intros [= <-].
Qed.

Lemma winv_reserve st st' p h n pi t c db :
  Open_reserve st db = Ok st' -> winv (World st p h n pi t c) -> winv (World st' (db :: p) h n pi t c).
Proof.
  unfold Open_reserve. destruct (_ >=? _) eqn:E; [done|]. bool_to_prop. intros [= <-] [H1 H2 H3 H4 H5 H6 H7].
  constructor; cbn [st_ pend hold seen pinned torn consumed sessions perDB max with_perDB] in *; try done.
  - intros d. rewrite zget_insert, occurrences_cons. destruct (decide (db = d)) as [<-|].
    + rewrite decide_True by done. rewrite H1. lia.
    + rewrite decide_False by done. rewrite H1. lia.
  - intros d. rewrite zget_insert. destruct (decide _); [lia|apply H2].
Qed.

Lemma winv_release st p1 p2 h n pi t c db :
  winv (World st (p1 ++ db :: p2) h n pi t c) -> winv (World (releaseSlot st db) (p1 ++ p2) h n pi t c).
Proof.
  intros [H1 H2 H3 H4 H5 H6 H7]. cbn [st_ pend] in *.
  assert (Hp : forall d, zget (perDB st) d = on_db d (sessions st) + (if decide (d = db) then 1 else 0) + occurrences d (p1 ++ p2)).
  { intros d. rewrite H1, <- Permutation_middle, occurrences_cons. lia. }
  unfold releaseSlot. destruct (_ >? 0) eqn:E; bool_to_prop.
  - constructor; cbn [st_ pend hold seen pinned torn consumed sessions perDB max with_perDB] in *; try done.
    + intros d. rewrite zget_insert. destruct (decide (db = d)) as [<-|].
      * rewrite Hp, decide_True by done. lia.
      * rewrite Hp, decide_False by done. lia.
    + intros d. rewrite zget_insert. pose proof (H2 db). destruct (decide _); [lia|apply H2].
  - exfalso. rewrite Hp, decide_True in E by done.
    pose proof (occurrences_nonneg db (p1 ++ p2)).
    pose proof (occurrences_nonneg db (dbName <$> vals (sessions st))). unfold on_db in E. lia.
Qed.

Lemma winv_insert st p1 p2 h n pi t c db co rel pr ro aa i now :
  length i = idLen -> i ∉ n -> co ∉ pi -> winv (World st (p1 ++ db :: p2) h n pi t c) ->
  winv (World (fst (Open_insert st db co rel pr ro aa i now)) (p1 ++ p2) (i :: h) (i :: n) (co :: pi) t c).
Proof.
  intros Hl Hi Hco [H1 H2 H3 H4 H5 H6 H7]. cbn [st_ pend hold seen pinned torn consumed] in *.
  assert (Hn : sessions st !! i = None).
  { destruct (sessions st !! i) as [s|] eqn:E; [|done]. by destruct (H4 i s E) as (_ & ? & _). }
  unfold Open_insert. set (s := Session _ _ _ _ _ _ _ _ _ _ _ _ _).
  constructor; cbn [fst st_ pend hold seen pinned torn consumed sessions perDB max with_sessions]; try done.
  - intros d. rewrite H1, (on_db_insert _ _ _ s Hn), <- Permutation_middle, occurrences_cons. subst s. cbn. lia.
  - intros j s'. rewrite lookup_insert. destruct (decide (i = j)) as [<-|].
    + intros [= <-]. cbn. repeat split; [by constructor|done|lia..].
    + intros Hj. destruct (H4 j s' Hj) as (? & ? & ? & ?). repeat split; try done; [by constructor|lia..].
  - destruct H5 as [H5 H5']. split.
    + constructor; [|done]. rewrite H5'. intros (s' & Hs' & _). congruence.
    + intros j. rewrite elem_of_cons, H5', lookup_insert. destruct (decide (i = j)) as [<-|].
      * split; [|by left]. intros _. by exists s.
      * split; [intros [->|]; done|by right].
  - destruct H6 as [Hnd Hp]. split; [by constructor|]. unfold live_conns. rewrite (vals_insert _ _ _ Hn).
    cbn. by rewrite Hp.
  - destruct H7 as [Hnd H7]. split; [done|]. intros j g Hj. destruct (H7 j g Hj) as [? Hg]. split; [by constructor|].
    intros s'. rewrite lookup_insert_ne; [apply Hg|]. by intros ->.
Qed.

Lemma winv_step w w' : step w w' -> Z.of_nat (length (consumed w)) + 2 < two64 -> winv w -> winv w'.
Proof.
  intros Hstep Hb Hw. destruct Hstep; cbn [consumed] in Hb.
  - by eapply winv_reserve.
  - by apply winv_release.
  - by apply winv_insert.
  - apply Resume_ok in H as (i & s0 & Hv & Hi & Hbusy & _ & _ & _ & -> & -> & ->). cbn [map app].
    pose proof (wi_sess _ Hw i s0 Hi) as (Hid & _ & Hli & Hgen). cbn [consumed] in Hgen.
    assert (Hu : u64 (gen s0 + 1) = gen s0 + 1) by (apply u64_id; split; lia). rewrite Hu.
    cbn [id gen set_use]. rewrite Hid. replace (u64 (gen s0 + 1 - 1)) with (gen s0)
      by (replace (gen s0 + 1 - 1) with (gen s0) by lia; symmetry; apply u64_id; split; lia).
    assert (Hnh : i ∉ h) by (eapply winv_not_held; eauto).
    eapply (winv_use _ _ _ _ _ _ _ _ _ _ _ _ _ _ Hw Hi).
    + cbn [length]. lia.
    + cbn. lia.
    + constructor; [done|apply (wi_hold _ Hw)].
    + intros j. rewrite elem_of_cons. destruct (decide (j = i)); [by split; auto|tauto].
    + constructor; [|apply (wi_consumed _ Hw)]. intros Hin.
      apply (wi_consumed _ Hw) in Hin as [_ Hlt]. specialize (Hlt s0 Hi). lia.
    + intros j k [[= -> ->]|Hin]%elem_of_cons; [right; split; [done|lia]|by left].
  - apply Resume_err in H as [[-> ->]|(i & s & Hi & Hbusy & _ & Hc)]; [done|].
    pose proof (winv_close_idle _ _ _ _ _ _ _ _ _ Hw Hi Hbusy) as H. by rewrite <- Hc in H.
  - unfold Baton. cbn [fst]. rewrite (alter_some _ _ s) by done.
    pose proof (wi_sess _ Hw _ _ H0) as (_ & _ & _ & Hgen).
    eapply (winv_use _ _ _ _ _ _ _ _ _ _ _ _ _ _ Hw H0).
    + cbn [consumed] in Hgen. lia.
    + done.
    + apply NoDup_filter, (wi_hold _ Hw).
    + intros j. rewrite elem_remove_id. destruct (decide (j = id s)); [by split; intros; destruct_and?|tauto].
    + apply (wi_consumed _ Hw).
    + by left.
  - pose proof (winv_close _ _ _ (remove_id (id s) h) _ _ _ _ _ _ Hw H0) as Hc. unfold Close in H1. rewrite H1 in Hc.
    apply Hc; [apply NoDup_filter, (wi_hold _ Hw)|]. intros j. apply elem_remove_id.
  - unfold Kill in H. destruct (b64_decode _ x) as [raw|]; [|by injection H as <- <- <-].
    destruct (negb _); [by injection H as <- <- <-|].
    destruct (sessions st !! raw) as [s|] eqn:Hi; [|by injection H as <- <- <-].
    destruct (busy s) eqn:Hbusy; [by injection H as <- <- <-|].
    pose proof (winv_close_idle _ _ _ _ _ _ _ _ _ Hw Hi Hbusy) as Hc.
    destruct (closeLocked st raw). by injection H as <- <- <-.
  - pose proof (winv_close_where (fun s => negb (busy s)) _ _ _ _ _ _ _ (fun s => proj1 (negb_true_iff _)) Hw) as Hc.
    unfold CloseAll in H. by rewrite H in Hc.
  - pose proof (winv_close_where (reapable st now) st p h n pi t c) as Hc.
    unfold reap in H. rewrite H in Hc. apply Hc; [|done]. intros s. unfold reapable. by destruct (busy s).
Qed.

Lemma winv_init k tl ml mx : winv (init_world k tl ml mx).
Proof.
  unfold init_world, NewStore. constructor; cbn [st_ pend hold seen pinned torn consumed sessions perDB max].
  - done.
  - intros db. unfold zget. rewrite lookup_empty. cbn. destruct (mx <=? 0) eqn:?; bool_to_prop; lia.
  - destruct (mx <=? 0) eqn:?; bool_to_prop; lia.
  - intros i s. by rewrite lookup_empty.
  - split; [constructor|]. intros i. split; [set_solver|]. intros (s & Hs & _). by rewrite lookup_empty in Hs.
  - split; [constructor|done].
  - split; [constructor|]. intros i g. set_solver.
Qed.

Lemma consumed_mono w w' : step w w' -> (length (consumed w) <= length (consumed w'))%nat.
Proof. destruct 1; cbn; lia. Qed.

Lemma winv_reachable k tl ml mx w :
  rtc step (init_world k tl ml mx) w -> Z.of_nat (length (consumed w)) + 2 < two64 -> winv w.
Proof.
  revert w. apply (rtc_ind_r (fun w => Z.of_nat (length (consumed w)) + 2 < two64 -> winv w)).
  - intros _. apply winv_init.
  - intros w1 w2 _ Hs IH Hb. pose proof (consumed_mono _ _ Hs). eapply winv_step; [done|lia|apply IH; lia].
Qed.

(** *** The store's guarantees over any run *)

(** C2: (serial use) In every reachable state of the store, whatever interleaving of opens,
    resumes, batons handed back, closes, kills, reaper ticks and shutdowns led to it: no
    session has two requests in flight; a session with a request in flight is live and
    marked busy, so its connection has not been torn down under it; and every connection
    ever pinned is either a live session's or was handed to teardown exactly once. *)
Theorem inflight_sessions_are_safe k tl ml mx w :
  rtc step (init_world k tl ml mx) w -> Z.of_nat (length (consumed w)) + 2 < two64 ->
  NoDup (hold w) /\
  (forall i, i ∈ hold w ->
     exists s, sessions (st_ w) !! i = Some s /\ busy s = true /\ conn s ∉ torn w) /\
  NoDup (live_conns (sessions (st_ w)) ++ torn w) /\
  pinned w ≡ₚ live_conns (sessions (st_ w)) ++ torn w.
Proof.
  intros Hr Hb. destruct (winv_reachable _ _ _ _ _ Hr Hb) as [_ _ _ _ [Hnd Hh] [Hp Hpp] _].
  assert (Hndl : NoDup (live_conns (sessions (st_ w)) ++ torn w)) by (by rewrite <- Hpp).
  split; [done|]. split; [|by split]. intros i Hi. apply Hh in Hi as (s & Hs & Hbusy). exists s.
  repeat split; try done. apply NoDup_app in Hndl as (_ & Hd & _). apply Hd.
  apply list_elem_of_fmap. exists s. split; [done|]. apply elem_of_vals. eauto.
Qed.

(** C9: (single-use batons) In every run, each (session, generation) pair is consumed at
    most once: a baton that was resumed once, in any spelling that verifies to the same
    pair, is refused for ever after, whoever presents it for whichever database. *)
Theorem baton_single_use k tl ml mx w now b db p i g :
  rtc step (init_world k tl ml mx) w -> Z.of_nat (length (consumed w)) + 2 < two64 ->
  (i, g) ∈ consumed w -> verify (st_ w) b = Some (i, g) ->
  NoDup (consumed w) /\ Resume (st_ w) now b db p = (st_ w, [], Err ErrBadBaton).
Proof.
  intros Hr Hb Hin Hv. destruct (winv_reachable _ _ _ _ _ Hr Hb) as [_ _ _ _ _ _ [Hnd Hc]].
  split; [done|]. unfold Resume. rewrite Hv. destruct (sessions (st_ w) !! i) as [s|] eqn:Hs; [|done].
  destruct (Hc i g Hin) as [_ Hlt]. specialize (Hlt s Hs). by rewrite (proj2 (Z.eqb_neq (gen s) g)) by lia.
Qed.

(** (per-database cap) In every reachable state each database's counter is exactly the
    number of its live sessions plus the opens still pinning a connection, and never
    exceeds the configured cap; so [Open] refuses exactly when the cap is in use. *)
Theorem sessions_capped k tl ml mx w db :
  rtc step (init_world k tl ml mx) w -> Z.of_nat (length (consumed w)) + 2 < two64 ->
  let n := on_db db (sessions (st_ w)) + occurrences db (pend w) in
  n <= max (st_ w) /\ (Open_reserve (st_ w) db = Err ErrTooMany <-> n = max (st_ w)).
Proof.
  intros Hr Hb. destruct (winv_reachable _ _ _ _ _ Hr Hb) as [H1 H2 _ _ _ _ _]. specialize (H1 db). specialize (H2 db).
  cbn zeta. rewrite <- H1. split; [done|]. unfold Open_reserve. destruct (_ >=? _) eqn:E; bool_to_prop; split; try done; lia.
Qed.

(** (resuming) [Resume] succeeds exactly for a baton that carries the store's own
    signature of a live, idle, unexpired session's id and current generation, presented
    for that session's database by the principal that opened it; it then makes the
    session busy at the next generation and changes nothing else.  A refusal consumes
    nothing: the store is untouched unless the session was due for reaping.  And the baton
    handed back by [Baton] is such a baton, the one [PeekBaton] announced early and which is
    refused, unconsumed, as long as the request is in flight. *)
Theorem Resume_spec st now b db p :
  (forall st' ts s', Resume st now b db p = (st', ts, Ok s') <->
     exists i s, verify st b = Some (i, gen s) /\ sessions st !! i = Some s /\ busy s = false /\
       reapable st now s = false /\ dbName s = db /\ principal s = p /\ ts = [] /\
       s' = set_use s (u64 (gen s + 1)) true now /\ st' = with_sessions st (<[i := s']> (sessions st))) /\
  (forall st' ts e, Resume st now b db p = (st', ts, Err e) ->
     (st' = st /\ ts = []) \/ exists i s, sessions st !! i = Some s /\ reapable st now s = true /\
       (st', ts) = closeLocked st i) /\
  (forall i g, verify st b = Some (i, g) ->
     exists gb, g = get_be gb /\
       b64_decode RawURLEncoding b = Some ((i ++ gb) ++ hmac_sha256 (key st) (i ++ gb))) /\
  (forall s, length (id s) = idLen -> in_u64 (gen s) ->
     let '(st', b') := Baton st now s in verify st' b' = Some (id s, gen s)) /\
  (forall s now', length (id s) = idLen -> in_u64 (gen s) -> sessions st !! id s = Some s -> busy s = true ->
     Resume st now (PeekBaton st s) db p = (st, [], Err ErrBadBaton) /\
     PeekBaton st s = snd (Baton st now' s)).
Proof.
  split; [|split; [|split; [|split]]].
  - intros st' ts s'. split; [apply Resume_ok|]. intros (i & s & Hv & Hi & Hb & Hr & <- & <- & -> & -> & ->).
    unfold Resume. by rewrite Hv, Hi, Z.eqb_refl, Hb, Hr, !String.eqb_refl.
  - intros st' ts e H. apply Resume_err in H as [?|(i & s & ? & _ & ? & ?)]; [by left|right; eauto].
  - intros i g (gb & _ & _ & Hg & _ & Hb)%verify_authentic. eauto.
  - intros s Hl Hg. cbn. exact (verify_mint st (id s) (gen s) Hl Hg).
  - intros s now' Hl Hg Hs Hb. split; [|done]. unfold Resume, PeekBaton. rewrite verify_mint by auto with quic.
    by rewrite Hs, Z.eqb_refl, Hb.
Qed.

(** (reaping) A reaper tick closes exactly the sessions that have no request in flight
    and are idle past [ttl] or older than [maxLife]; the others are untouched. *)
Theorem reap_exact st now i :
  sessions (fst (reap st now)) !! i =
  match sessions st !! i with
  | Some s =>
      if negb (busy s) && ((time_sub now (lastUsed s) >? ttl st) || (time_sub now (created s) >? maxLife st))
      then None else Some s
  | None => None
  end.
Proof.
  unfold reap, close_where.
  rewrite sessions_close_fold, list_to_map_to_list by apply NoDup_fst_map_to_list.
  destruct (sessions st !! i) as [s|]; [|done]. unfold reapable. by destruct (busy s).
Qed.

(** (background loop) Whatever ticks it got, the loop has closed every session that had no
    request in flight once it has been cancelled. *)
Theorem reaper_leaves_only_busy acc ss i s : (StartReaper acc ss).2 = false ->
  sessions (StartReaper acc ss).1.1 !! i = Some s -> busy s = true.
Proof.
  intros Hd. revert i s. apply (ticker_done _ _ (fun acc => forall i s, sessions acc.1 !! i = Some s -> busy s = true)); [|exact Hd].
  intros [st ts] i s. unfold hand_over, CloseAll, close_where. cbn [fst].
  rewrite sessions_close_fold, list_to_map_to_list by apply NoDup_fst_map_to_list.
  destruct (sessions st !! i) as [s0|]; [|done]. destruct (busy s0) eqn:Hb; [by intros [= <-]|done].
Qed.

(** *** The connection goes back to the pool as it was *)

Lemma exec_all_auth pragma_on stmts : forall c, auth (fst (exec_all pragma_on c stmts)) = auth c.
Proof.
  assert (Hf : forall l c, auth (fold_left (run_action pragma_on) l c) = auth c).
  { induction l as [|a l IH]; intros c; [done|]. cbn. rewrite IH. unfold run_action. by repeat case_match. }
  induction stmts as [|s rest IH]; intros c; [done|]. cbn. unfold exec.
  destruct (forallb _ s); [specialize (IH (fold_left (run_action pragma_on) s c))|specialize (IH c)];
    destruct (exec_all _ _ rest); cbn in *; by rewrite IH, ?Hf.
Qed.

Lemma exec_base_attached pragma_on c s :
  auth c = ADenyAttach -> attached (fst (exec pragma_on c s)) = attached c.
Proof.
  intros Ha. unfold exec. rewrite Ha. cbn [authorize]. destruct (forallb _ s) eqn:E; [|done]. cbn [fst].
  clear Ha. revert c. induction s as [|a s IH]; intros c; [done|]. cbn in *.
  apply andb_true_iff in E as [Ea Es]. rewrite IH by done. unfold denyAttachDetach, run_action in *.
  destruct (op a =? SQLITE_ATTACH); [done|]. destruct (op a =? SQLITE_DETACH); [done|]. by destruct (_ && _).
Qed.

Lemma exec_all_base_attached pragma_on stmts : forall c,
  auth c = ADenyAttach -> attached (fst (exec_all pragma_on c stmts)) = attached c.
Proof.
  induction stmts as [|s rest IH]; intros c Ha; [done|]. cbn.
  pose proof (exec_base_attached pragma_on c s Ha) as He.
  pose proof (exec_all_auth pragma_on [s] c) as Hau. cbn in Hau.
  destruct (exec pragma_on c s) as [c1 r]. cbn in *.
  specialize (IH c1 ltac:(congruence)). destruct (exec_all _ c1 rest). cbn in *. congruence.
Qed.

(** (pool hygiene) A pooled connection pinned by a session, put in the session's mode,
    used by any client statements, and torn down, reaches the pool again exactly in the
    base mode: with the ATTACH-denying authorizer, [query_only] off and nothing attached;
    or, for an attach-enabled session whose cleanup failed at any point, it is discarded.
    The registry reference is released after everything else. *)
Theorem session_conn_returns_clean pragma_on upa upb up1 up2 dok ro aa c1 stmts c2 rs t :
  pragma_on "ON" = true -> pragma_on "OFF" = false ->
  Open_mode pragma_on upa upb ro aa base_conn = (c1, Ok tt) ->
  exec_all pragma_on c1 stmts = (c2, rs) ->
  Forall (fun n => n <> "main" /\ n <> "temp")%string (attached c2) ->
  (ro = false -> query_only c2 = false) ->
  td_readOnly t = ro -> td_attach t = Open_attach ro aa ->
  (ro = true -> up1 = true /\ up2 = true) ->
  (teardown_conn pragma_on up1 up2 dok t c2 = Some base_conn \/
   (td_attach t = true /\ teardown_conn pragma_on up1 up2 dok t c2 = None)) /\
  (td_release t = true -> last (teardown_steps t) = Some TRelease).
Proof.
  intros Hon Hoff Hopen Hex Hn Hq Hro Hat Hup. split.
  2: { intros Hr. unfold teardown_steps. rewrite Hr, !app_assoc, last_snoc. done. }
  unfold teardown_conn. rewrite Hro, Hat. unfold Open_mode in Hopen.
  pose proof (exec_all_auth pragma_on stmts c1) as Hau. rewrite Hex in Hau. cbn in Hau.
  destruct ro.
  - left. destruct (SetConnMode_readonly pragma_on _ _ base_conn c1 eq_refl Hon ltac:(done) Hopen) as [Hg1 _].
    destruct (exec_all_guarded pragma_on stmts c1 c2 rs Hg1 Hex) as [Hg _].
    destruct (Hup eq_refl) as [-> ->]. pose proof (restore_readonly pragma_on true true c2 Hg Hoff) as Hr.
    destruct (SetConnMode _ _ _ c2 false). cbn. by rewrite (proj1 Hr eq_refl eq_refl).
  - specialize (Hq eq_refl). destruct (Open_attach false aa).
    + unfold SetConnAttach, setAuthorizer in Hopen. destruct upa; [|done]. injection Hopen as <-. cbn in Hau.
      pose proof (clear_attach_clean pragma_on up1 up2 dok c2 Hau Hq Hn) as Hc.
      destruct (ClearAttach _ _ _ _ c2) as [c3 [[]|e]]; [left; by rewrite Hc|by right].
    + injection Hopen as <-. left. pose proof (exec_all_base_attached pragma_on stmts base_conn eq_refl) as Hl.
      rewrite Hex in Hl. cbn in Hl. destruct c2 as [a q l]; cbn in *; subst. done.
Qed.

(** What the restore does not undo: the base authorizer lets a client turn [query_only] on,
    and a plain session's teardown hands the connection back as it is. *)
Lemma client_query_only_survives_teardown pragma_on : pragma_on "ON" = true ->
  exec pragma_on base_conn (pragma_query_only "ON") = (PConn ADenyAttach true [], Ok tt) /\
  teardown_conn pragma_on true true (fun _ => true) (Teardown 0 true false false None)
    (PConn ADenyAttach true []) = Some (PConn ADenyAttach true []).
Proof.
  intros H. split; [|done].
  change (exec pragma_on base_conn (pragma_query_only "ON")) with
    (PConn ADenyAttach (pragma_on "ON") [], Ok (E := dberr) tt). by rewrite H.
Qed.

(** ** A concrete run *)

Definition demo_id : list byte := repeat (zb 7) 16.
Definition demo_st1 : store := with_perDB (NewStore [] 0 0 1) {[ "a"%string := 1 ]}.
Definition demo_st2 : store := fst (Open_insert demo_st1 "a" 7 true "alice" false false demo_id 0).
Definition demo_s2 : session := snd (Open_insert demo_st1 "a" 7 true "alice" false false demo_id 0).
Definition demo_st3 : store := fst (Baton demo_st2 5 demo_s2).
Definition demo_baton : string := snd (Baton demo_st2 5 demo_s2).
Definition demo_s4 : session := set_use demo_s2 2 true 10.
Definition demo_st4 : store := with_sessions demo_st3 (<[demo_id := demo_s4]> (sessions demo_st3)).
Definition demo_w : world := World demo_st4 [] [demo_id] [demo_id] [7%nat] [] [(demo_id, 1)].

Lemma demo_reachable : rtc step (init_world [] 0 0 1) demo_w.
Proof.
  eapply rtc_l; [eapply (S_reserve _ demo_st1 _ _ _ _ _ _ "a"); reflexivity|].
  eapply rtc_l; [eapply (S_insert demo_st1 [] [] _ _ _ _ _ "a" 7 true "alice" false false demo_id 0);
    [reflexivity|apply not_elem_of_nil|apply not_elem_of_nil]|].
  eapply rtc_l; [eapply (S_baton demo_st2 _ _ _ _ _ _ demo_s2 5); [apply list_elem_of_here|reflexivity]|].
  eapply rtc_l; [|apply rtc_refl].
  refine (S_resume demo_st3 demo_st4 [] [] [demo_id] [7%nat] [] [] demo_baton "a" "alice" 10 [] demo_s4 _).
  vm_compute. reflexivity.
Qed.

Lemma inflight_sessions_are_safe_witness :
  [demo_id] = hold demo_w /\ NoDup (live_conns (sessions demo_st4) ++ []).
Proof.
  split; [reflexivity|].
  destruct (inflight_sessions_are_safe [] 0 0 1 demo_w demo_reachable) as (_ & _ & H & _);
    [vm_compute; reflexivity|exact H].
Defined.

Lemma baton_single_use_witness :
  Resume demo_st4 11 demo_baton "a" "alice" = (demo_st4, [], Err ErrBadBaton).
Proof.
  refine (proj2 (baton_single_use [] 0 0 1 demo_w 11 demo_baton "a" "alice" demo_id 1 demo_reachable _ _ _)).
  - vm_compute. reflexivity.
  - apply list_elem_of_here.
  - vm_compute. reflexivity.
Defined.

Lemma sessions_capped_witness : Open_reserve demo_st4 "a" = Err ErrTooMany.
Proof.
  refine (proj2 (proj2 (sessions_capped [] 0 0 1 demo_w "a" demo_reachable _)) _); vm_compute; reflexivity.
Defined.

Definition demo_attach : list (list action) := [[Action SQLITE_ATTACH "x" ""]; [Action 18 "t" ""]].
Lemma session_conn_returns_clean_witness :
  exec_all documented_bool (PConn APermit false []) demo_attach = (PConn APermit false ["x"%string], [Ok tt; Ok tt]) /\
  teardown_conn documented_bool true true (fun _ => true) (Teardown 0 true false true None)
    (PConn APermit false ["x"%string]) = Some base_conn.
Proof.
  split; [reflexivity|].
  destruct (session_conn_returns_clean documented_bool true true true true (fun _ => true) false true
    (PConn APermit false []) demo_attach (PConn APermit false ["x"%string]) [Ok tt; Ok tt]
    (Teardown 0 true false true None)) as [[H|[_ H]] _].
  - reflexivity.
  - reflexivity.
  - reflexivity.
  - reflexivity.
  - apply Forall_cons. split; [split; discriminate|apply Forall_nil; exact I].
  - reflexivity.
  - reflexivity.
  - reflexivity.
  - discriminate.
  - exact H.
  - vm_compute in H. discriminate H.
Defined.
