(* ===== verification/Registry.v ===== *)
(** * registry: one shared handle per logical database

    [src/registry/registry.go].  Every critical section under [r.mu] is one operation;
    the blocking [backend.Open] and the closing of a detached handle run outside the
    mutex, so [Get] is split at its lock releases and closing is a step of its own.
    Entries and handles have addresses, because goroutines keep pointers to them across
    lock releases.  Backends are opaque: what [Open] answers is an argument. *)
From S2P Require Import Prelude GoStd.
From stdpp Require Import sorting.
#[local] Open Scope Z_scope.

(** What the registry reads of a backend; [BPath] is the path of an on-disk one. *)
Record backend := Backend_ { Kind : string; ReadOnly : bool; BPath : option string }.

Record entry := Entry {
  name : string;
  opening : bool;         (* [ready] is closed when this turns false *)
  db : option nat;        (* the handle *)
  err : option string;
  refs : Z;
  last : Z;
  reserved : bool
}.

Record registry := Registry {
  entries : gmap string nat;
  heap : gmap nat entry;
  backends : gmap string backend
}.
Definition New (bs : gmap string backend) : registry := Registry ∅ ∅ bs.

Definition put (r : registry) (a : nat) (e : entry) : registry :=
  Registry (entries r) (<[a := e]> (heap r)) (backends r).
Definition set_entries (r : registry) (t : gmap string nat) : registry :=
  Registry t (heap r) (backends r).

Inductive rerr : Type := ErrUnknownDB | ErrReserved | ErrBusy | ErrExists | ErrOpen (msg : string).

(** ** Get *)

(** The first critical section; [a] is the address of a new entry. *)
Inductive get_first : Type := GUnknown | GOpener (r : registry) | GWait (e : nat).

Definition Get_lookup (r : registry) (n : string) (a : nat) : get_first :=
  match entries r !! n with
  | Some e => GWait e
  | None =>
      match backends r !! n with
      | None => GUnknown
      | Some _ => GOpener (put (set_entries r (<[n := a]> (entries r))) a (Entry n true None None 1 0 false))
      end
  end.

(** The opener's second critical section. *)
Definition Get_opened (r : registry) (a : nat) (res : result string nat) (now : Z) : registry * result rerr nat :=
  match heap r !! a with
  | None => (r, Err ErrUnknownDB)   (* not reached: the opener's entry exists *)
  | Some e =>
      match res with
      | Err m =>
          (set_entries (put r a (Entry (name e) false (db e) (Some m) 0 (last e) (reserved e)))
             (delete (name e) (entries r)), Err (ErrOpen m))
      | Ok h => (put r a (Entry (name e) false (Some h) (err e) (refs e) now (reserved e)), Ok h)
      end
  end.

(** A waiter's second critical section, once the captured entry [a] is ready. *)
Inductive get_second : Type :=
| GRetry | GErr (e : rerr) | GOk (r : registry) (h : option nat).

Definition Get_recheck (r : registry) (n : string) (a : nat) (now : Z) : get_second :=
  if negb (bool_decide (entries r !! n = Some a)) then GRetry else
  match heap r !! a with
  | None => GRetry
  | Some e =>
      match err e with
      | Some m => GErr (ErrOpen m)
      | None =>
          if reserved e then GErr ErrReserved
          else GOk (put r a (Entry (name e) (opening e) (db e) (err e) (refs e + 1) now (reserved e))) (db e)
      end
  end.

(** The body of a release function; [sync.Once] runs it at most once per [Get]. *)
Definition release (r : registry) (a : nat) (now : Z) : registry :=
  match heap r !! a with
  | Some e => put r a (Entry (name e) (opening e) (db e) (err e) (refs e - 1) now (reserved e))
  | None => r
  end.

(** [Get] when no other goroutine runs: the lookup, then the open or the recheck; [res] is
    what the open answers.  The entry whose release function the caller gets is returned. *)
Definition Get (r : registry) (n : string) (a : nat) (res : result string nat) (now : Z) : registry * result rerr nat :=
  match Get_lookup r n a with
  | GUnknown => (r, Err ErrUnknownDB)
  | GOpener r1 => match Get_opened r1 a res now with (r2, Ok _) => (r2, Ok a) | (r2, Err e) => (r2, Err e) end
  | GWait e => match Get_recheck r n e now with
               | GOk r' _ => (r', Ok e)
               | GErr x => (r, Err x)
               | GRetry => (r, Err ErrUnknownDB)   (* not reached: nobody replaces the entry *)
               end
  end.

(** [Registry.Backend]. *)
Definition Backend (r : registry) (n : string) : option backend := backends r !! n.

(** ** Exclusive operations *)

Definition busy_entry (e : entry) : bool := opening e || (refs e >? 0) || reserved e.

Definition detachIdleLocked (r : registry) (n : string) : result rerr (registry * option nat) :=
  match entries r !! n ≫= fun a => heap r !! a with
  | None => Ok (r, None)
  | Some e => if busy_entry e then Err ErrBusy
              else Ok (set_entries r (delete n (entries r)), db e)
  end.

(** The handle returned is the one the caller still has to close. *)
Definition Reserve (r : registry) (n : string) (ph : nat) : result rerr (registry * option nat) :=
  match backends r !! n with
  | None => Err ErrUnknownDB
  | Some _ =>
      let* (r1, h) := detachIdleLocked r n in
      Ok (put (set_entries r1 (<[n := ph]> (entries r1))) ph (Entry n false None None 0 0 true), h)
  end.
Definition Reserve_release (r : registry) (n : string) : registry := set_entries r (delete n (entries r)).

Definition Add (r : registry) (n : string) (be : backend) : result rerr registry :=
  match backends r !! n with
  | Some _ => Err ErrExists
  | None => Ok (Registry (entries r) (heap r) (<[n := be]> (backends r)))
  end.

Definition Remove (r : registry) (n : string) : result rerr (registry * option nat) :=
  match backends r !! n with
  | None => Err ErrUnknownDB
  | Some _ =>
      let* (r1, h) := detachIdleLocked r n in
      Ok (Registry (entries r1) (heap r1) (delete n (backends r1)), h)
  end.

Definition reap_skip (now idleTTL : Z) (e : entry) : bool :=
  opening e || (refs e >? 0) || reserved e || bool_decide (db e = None) || (time_sub now (last e) <? idleTTL).

(** The handles it returns are closed after the lock is released. *)
Definition reap_one (now idleTTL : Z) (acc : registry * list nat) (na : string * nat) : registry * list nat :=
  let '(r, hs) := acc in let '(n, a) := na in
  match heap r !! a with
  | Some e =>
      if reap_skip now idleTTL e then (r, hs)
      else match db e with
           | Some h => (set_entries r (delete n (entries r)), hs ++ [h])
           | None => (r, hs)
           end
  | None => (r, hs)
  end.
Definition ReapIdle (r : registry) (now idleTTL : Z) : registry * list nat :=
  if idleTTL <=? 0 then (r, [])
  else fold_left (reap_one now idleTTL) (map_to_list (entries r)) (r, []).

(** [StartIdleReaper]'s loop, with the handles closed so far; a tick brings the time.  It
    does not start without a time to live or an interval. *)
Definition StartIdleReaper (interval idleTTL : Z) (acc : registry * list nat) (ss : list (signal Z)) : (registry * list nat) * bool :=
  if (idleTTL <=? 0) || (interval <=? 0) then (acc, false) else
  ticker (fun acc now => let '(r, hs) := ReapIdle acc.1 now idleTTL in (r, acc.2 ++ hs)) (fun acc => acc) acc ss.

Record dbinfo := DBInfo { i_name : string; i_kind : string; i_open : bool; i_refs : Z }.
Definition List_ (r : registry) : list dbinfo :=
  map (fun '(n, be) =>
         match entries r !! n ≫= fun a => heap r !! a with
         | Some e => DBInfo n (Kind be) (bool_decide (db e <> None)) (refs e)
         | None => DBInfo n (Kind be) false 0
         end) (map_to_list (backends r)).

(** ** Start-up and shutdown *)

(** [Warm] opens the seeds in byte order and keeps them open at no reference; [open] is what
    each backend's open answers, entries take addresses from [a] on. *)
Definition name_le (x y : string) : Prop := String.leb x y = true.
#[export] Instance name_le_dec x y : Decision (name_le x y) := decide (String.leb x y = true).
Fixpoint warm_loop (open : string -> result string nat) (now : Z) (names : list string) (a : nat) (r : registry)
    : registry * result (string * rerr) unit :=
  match names with
  | [] => (r, Ok tt)
  | n :: rest => match Get r n a (open n) now with
                 | (r1, Err e) => (r1, Err (n, e))
                 | (r1, Ok e) => warm_loop open now rest (S a) (release r1 e now)
                 end
  end.
Definition Warm (r : registry) (open : string -> result string nat) (now : Z) (names : list string) (a : nat) :=
  warm_loop open now (merge_sort name_le names) a r.

(** [Close] takes the table, waits for the opens in flight, then closes the handles. *)
Definition Close_swap (r : registry) : registry * list nat := (set_entries r ∅, vals (entries r)).
Definition Close_drain (r : registry) (pending : list nat) : list nat := omap (fun a => heap r !! a ≫= db) pending.

(** [closeHandle]: the hook runs on the handle before it is closed. *)
Definition closeHandle {A} (hook : option (nat -> A -> A)) (close : nat -> A -> A) (o : option nat) (x : A) : A :=
  match o with
  | None => x
  | Some h => close h (match hook with Some f => f h x | None => x end)
  end.

(** ** A name nobody else uses *)

Lemma Get_new r n a res now b : entries r !! n = None -> backends r !! n = Some b ->
  Get r n a res now =
  match res with
  | Ok h => (Registry (<[n := a]> (entries r)) (<[a := Entry n false (Some h) None 1 now false]> (heap r)) (backends r), Ok a)
  | Err m => (Registry (entries r) (<[a := Entry n false None (Some m) 0 0 false]> (heap r)) (backends r), Err (ErrOpen m))
  end.
Proof.
  intros Hn Hb. unfold Get, Get_lookup. rewrite Hn, Hb. unfold Get_opened, put, set_entries.
  cbn [heap entries backends]. rewrite lookup_insert_eq. cbn [name db err refs reserved last].
  destruct res as [h|m]; rewrite insert_insert_eq; [done|]. by rewrite delete_insert_eq, delete_id.
Qed.

Lemma release_one r n a h now : heap r !! a = Some (Entry n false (Some h) None 1 now false) ->
  release r a now = Registry (entries r) (<[a := Entry n false (Some h) None 0 now false]> (heap r)) (backends r).
Proof. intros Ha. unfold release, put. by rewrite Ha. Qed.

Lemma Remove_absent r n b : entries r !! n = None -> backends r !! n = Some b ->
  Remove r n = Ok (Registry (entries r) (heap r) (delete n (backends r)), None).
Proof. intros Hn Hb. unfold Remove, detachIdleLocked. rewrite Hb, Hn. by destruct r. Qed.

Lemma Remove_idle r n b a e : entries r !! n = Some a -> heap r !! a = Some e -> busy_entry e = false -> backends r !! n = Some b ->
  Remove r n = Ok (Registry (delete n (entries r)) (heap r) (delete n (backends r)), db e).
Proof. intros Hn Ha He Hb. unfold Remove, detachIdleLocked. rewrite Hb, Hn. cbn. rewrite Ha, He. done. Qed.

(** ** Runs

    The registry with the users of its handles: the entry behind each release function
    still to be called, the reservations in force, the detached handles still to be
    closed, the closed ones, and the database each handle was ever opened for. *)

Record world := World {
  reg : registry;
  holders : list nat;
  resv : list string;
  closing : list nat;
  closed : list nat;
  hname : gmap nat string
}.

Definition opt_list {A} (o : option A) : list A := match o with Some x => [x] | None => [] end.

Inductive step : world -> world -> Prop :=
| S_lookup r r' ho rs cg cd hn n a :
    heap r !! a = None -> Get_lookup r n a = GOpener r' ->
    step (World r ho rs cg cd hn) (World r' ho rs cg cd hn)
| S_opened r r' ho rs cg cd hn a e h now :
    heap r !! a = Some e -> opening e = true -> hn !! h = None -> Get_opened r a (Ok h) now = (r', Ok h) ->
    step (World r ho rs cg cd hn) (World r' (a :: ho) rs cg cd (<[h := name e]> hn))
| S_open_failed r r' ho rs cg cd hn a e m now x :
    heap r !! a = Some e -> opening e = true -> Get_opened r a (Err m) now = (r', Err x) ->
    step (World r ho rs cg cd hn) (World r' ho rs cg cd hn)
| S_recheck r r' ho rs cg cd hn n a e h now :
    heap r !! a = Some e -> opening e = false -> Get_recheck r n a now = GOk r' h ->
    step (World r ho rs cg cd hn) (World r' (a :: ho) rs cg cd hn)
| S_release r h1 h2 rs cg cd hn a now :
    step (World r (h1 ++ a :: h2) rs cg cd hn) (World (release r a now) (h1 ++ h2) rs cg cd hn)
| S_reserve r r' ho rs cg cd hn n ph o :
    heap r !! ph = None -> Reserve r n ph = Ok (r', o) ->
    step (World r ho rs cg cd hn) (World r' ho (n :: rs) (opt_list o ++ cg) cd hn)
| S_unreserve r ho r1 r2 cg cd hn n :
    step (World r ho (r1 ++ n :: r2) cg cd hn) (World (Reserve_release r n) ho (r1 ++ r2) cg cd hn)
| S_add r r' ho rs cg cd hn n be :
    Add r n be = Ok r' -> step (World r ho rs cg cd hn) (World r' ho rs cg cd hn)
| S_remove r r' ho rs cg cd hn n o :
    Remove r n = Ok (r', o) ->
    step (World r ho rs cg cd hn) (World r' ho rs (opt_list o ++ cg) cd hn)
| S_reap r r' ho rs cg cd hn now ttl hs :
    ReapIdle r now ttl = (r', hs) ->
    step (World r ho rs cg cd hn) (World r' ho rs (hs ++ cg) cd hn)
| S_closed r ho rs c1 c2 cd hn h :
    step (World r ho rs (c1 ++ h :: c2) cd hn) (World r ho rs (c1 ++ c2) (h :: cd) hn).

Definition init_world (bs : gmap string backend) : world := World (New bs) [] [] [] [] ∅.

(** An entry of the table: a reservation, an open in flight, or a published handle. *)
Definition entry_ok (e : entry) : Prop :=
  err e = None /\
  (if reserved e then opening e = false /\ db e = None
   else if opening e then db e = None else exists h, db e = Some h).

Record rinv (w : world) : Prop := {
  v_refs : forall a e, heap (reg w) !! a = Some e ->
    refs e = (if opening e then 1 else 0) + occurrences a (holders w);
  v_tbl : forall n a, entries (reg w) !! n = Some a ->
    exists e, heap (reg w) !! a = Some e /\ name e = n /\ entry_ok e /\ (reserved e = true <-> n ∈ resv w);
  v_use : forall a e, heap (reg w) !! a = Some e -> opening e = true \/ refs e > 0 ->
    entries (reg w) !! name e = Some a;
  v_hold : forall a, a ∈ holders w -> exists e, heap (reg w) !! a = Some e /\ reserved e = false /\ opening e = false;
  v_resv : NoDup (resv w) /\ forall n, n ∈ resv w -> is_Some (entries (reg w) !! n);
  v_handle : forall n a e h, entries (reg w) !! n = Some a -> heap (reg w) !! a = Some e -> db e = Some h ->
    hname w !! h = Some n /\ h ∉ closing w ++ closed w;
  v_gone : NoDup (closing w ++ closed w) /\ forall h, h ∈ closing w ++ closed w -> is_Some (hname w !! h);
  v_all : forall h n, hname w !! h = Some n ->
    h ∈ closing w ++ closed w \/
    exists a e, entries (reg w) !! n = Some a /\ heap (reg w) !! a = Some e /\ db e = Some h
}.

(** Detaching an idle entry hands its handle over to be closed. *)
Lemma rinv_detach r ho rs cg cd hn n a e :
  rinv (World r ho rs cg cd hn) -> entries r !! n = Some a -> heap r !! a = Some e -> busy_entry e = false ->
  exists h, db e = Some h /\
    rinv (World (set_entries r (delete n (entries r))) ho rs (h :: cg) cd hn) /\ n ∉ rs.
Proof.
  intros [H1 H2 H3 H4 H5 H6 H7 H8] Hn Ha Hb. cbn [reg holders resv closing closed hname] in *.
  destruct (H2 n a Hn) as (e' & He' & Hname & [Herr Hok] & Hres). simplify_eq.
  unfold busy_entry in Hb. apply orb_false_iff in Hb as [Hb Hr]. apply orb_false_iff in Hb as [Ho Href].
  rewrite Hr, Ho in Hok. destruct Hok as [h Hh]. exists h. split; [done|].
  assert (Hnr : name e ∉ rs) by (intros Hin; apply Hres in Hin; congruence).
  split; [|done]. destruct (H6 _ _ _ _ Hn Ha Hh) as [Hhn Hng].
  constructor; cbn [reg holders resv closing closed hname set_entries entries heap].
  - done.
  - intros m b [Hne Hm]%lookup_delete_Some. destruct (H2 m b Hm) as (x & ?). by exists x.
  - intros b x Hb Hu. rewrite lookup_delete_ne; [by apply H3|]. intros Heq.
    pose proof (H3 b x Hb Hu) as Hx. rewrite <- Heq in Hx. simplify_eq.
    destruct Hu as [Hu|Hu]; [congruence|]. bool_to_prop. lia.
  - done.
  - destruct H5 as [? H5]. split; [done|]. intros m Hm. rewrite lookup_delete_ne; [by apply H5|]. by intros <-.
  - intros m b x g [Hne Hm]%lookup_delete_Some Hb Hg. destruct (H6 m b x g Hm Hb Hg) as [? Hgg]. split; [done|].
    cbn [app]. rewrite elem_of_cons. intros [->|]; [|done]. congruence.
  - destruct H7 as [? H7]. split; [by constructor|]. intros g [->|]%elem_of_cons; [by eexists|by apply H7].
  - intros g m Hg. destruct (H8 g m Hg) as [|(b & x & Hb & Hx & Hd)]; [left; by right|].
    destruct (decide (name e = m)) as [<-|].
    + left. simplify_eq. by left.
    + right. exists b, x. by rewrite lookup_delete_ne.
Qed.

(** A new entry under a free name: an opener's or a reservation's placeholder. *)
Lemma rinv_new r ho rs cg cd hn n a e rs' :
  rinv (World r ho rs cg cd hn) -> entries r !! n = None -> heap r !! a = None ->
  name e = n -> entry_ok e -> db e = None -> refs e = (if opening e then 1 else 0) ->
  rs' = (if reserved e then n :: rs else rs) ->
  rinv (World (put (set_entries r (<[n := a]> (entries r))) a e) ho rs' cg cd hn).
Proof.
  intros [H1 H2 H3 H4 H5 H6 H7 H8] Hn Ha Hname Hok Hdb Href ->. cbn [reg holders resv closing closed hname] in *.
  assert (Hnr : n ∉ rs) by (intros Hin; apply H5 in Hin; rewrite Hn in Hin; by destruct Hin).
  assert (Hfree : forall m b, entries r !! m = Some b -> b <> a /\ m <> n).
  { intros m b Hm. split; intros ->; [destruct (H2 m a Hm) as (x & Hx & _)|]; congruence. }
  assert (Hho : occurrences a ho = 0).
  { apply occurrences_not_in. intros Hin. destruct (H4 a Hin) as (x & Hx & _). congruence. }
  constructor; cbn [reg holders resv closing closed hname put set_entries entries heap].
  - intros b x. rewrite lookup_insert. destruct (decide (a = b)) as [<-|]; [|apply H1]. intros [= <-]. lia.
  - intros m b. rewrite lookup_insert. destruct (decide (n = m)) as [<-|Hne].
    + intros [= <-]. exists e. rewrite lookup_insert_eq. split; [done|]. split; [done|]. split; [done|]. split.
      * intros ->. by left.
      * destruct (reserved e); [done|]. by intros ?%Hnr.
    + intros Hm. destruct (H2 m b Hm) as (x & Hx & ? & ? & Hr). exists x.
      rewrite lookup_insert_ne by (intros <-; by destruct (Hfree m a Hm)).
      split; [done|]. split; [done|]. split; [done|]. split.
      * intros Hx'. apply Hr in Hx'. destruct (reserved e); [by right|done].
      * destruct (reserved e); [|by apply Hr]. intros [->|]%elem_of_cons; [done|by apply Hr].
  - intros b x. rewrite lookup_insert. destruct (decide (a = b)) as [<-|].
    + intros [= <-] _. by rewrite Hname, lookup_insert_eq.
    + intros Hb Hu. pose proof (H3 b x Hb Hu) as Hx. rewrite lookup_insert_ne; [done|]. intros ->. congruence.
  - intros b Hb. destruct (H4 b Hb) as (x & Hx & ?). exists x. rewrite lookup_insert_ne; [done|]. intros <-. congruence.
  - destruct H5 as [Hnd H5]. split; [destruct (reserved e); [by constructor|done]|]. intros m Hm.
    destruct (decide (n = m)) as [<-|]; [by rewrite lookup_insert_eq|]. rewrite lookup_insert_ne by done. apply H5.
    destruct (reserved e); [|done]. apply elem_of_cons in Hm as [->|]; done.
  - intros m b x g. rewrite lookup_insert. destruct (decide (n = m)) as [<-|].
    + intros [= <-]. rewrite lookup_insert_eq. intros [= <-]. congruence.
    + intros Hm. rewrite lookup_insert_ne by (intros <-; by destruct (Hfree m a Hm)). by apply H6.
  - done.
  - intros g m Hg. destruct (H8 g m Hg) as [|(b & x & Hb & Hx & Hd)]; [by left|right]. exists b, x.
    destruct (Hfree m b Hb). by rewrite !lookup_insert_ne.
Qed.

Definition with_refs (e : entry) (k now : Z) : entry :=
  Entry (name e) (opening e) (db e) (err e) k now (reserved e).

(** A user comes or goes. *)
Lemma rinv_count r ho ho' rs cg cd hn a e k now :
  rinv (World r ho rs cg cd hn) -> heap r !! a = Some e ->
  (forall b, occurrences b ho' = occurrences b ho + (if decide (b = a) then k - refs e else 0)) ->
  (forall b, b ∈ ho' -> b ∈ ho \/ (b = a /\ reserved e = false /\ opening e = false)) ->
  (k > 0 -> entries r !! name e = Some a) ->
  rinv (World (put r a (with_refs e k now)) ho' rs cg cd hn).
Proof.
  intros [H1 H2 H3 H4 H5 H6 H7 H8] Ha Hocc Hin Huse. cbn [reg holders resv closing closed hname] in *.
  assert (Hlk : forall b x, <[a := with_refs e k now]> (heap r) !! b = Some x ->
    exists y, heap r !! b = Some y /\ name x = name y /\ opening x = opening y /\ db x = db y /\ err x = err y /\
      reserved x = reserved y /\ refs x = if decide (b = a) then k else refs y).
  { intros b x. rewrite lookup_insert. destruct (decide (a = b)) as [<-|Hne].
    - intros [= <-]. exists e. by rewrite decide_True.
    - intros Hb. exists x. by rewrite decide_False. }
  assert (Hlk' : forall b y, heap r !! b = Some y -> exists x, <[a := with_refs e k now]> (heap r) !! b = Some x /\
    name x = name y /\ opening x = opening y /\ db x = db y /\ err x = err y /\ reserved x = reserved y).
  { intros b y Hb. rewrite lookup_insert. destruct (decide (a = b)) as [<-|]; [|by exists y]. simplify_eq. by eexists. }
  constructor; cbn [reg holders resv closing closed hname put entries heap].
  - intros b x (y & Hy & _ & Ho & _ & _ & _ & Hr)%Hlk. rewrite Hr, Ho, Hocc. pose proof (H1 b y Hy).
    destruct (decide (b = a)) as [->|]; [|lia]. simplify_eq. lia.
  - intros n b Hb. destruct (H2 n b Hb) as (y & Hy & ? & Hok & ?).
    destruct (Hlk' b y Hy) as (x & Hx & Hn & Ho & Hd & He & Hr). exists x.
    split; [done|]. split; [congruence|]. split; [unfold entry_ok in *; by rewrite He, Hr, Ho, Hd|by rewrite Hr].
  - intros b x (y & Hy & Hn & Ho & _ & _ & _ & Hr)%Hlk Hu. rewrite Hn. rewrite Ho, Hr in Hu.
    destruct (decide (b = a)) as [->|]; [|by apply H3]. simplify_eq. destruct Hu as [Hu|Hu]; [|by apply Huse].
    apply H3; auto.
  - intros b [Hb|(-> & Hr & Ho)]%Hin.
    + destruct (H4 b Hb) as (y & Hy & ? & ?). destruct (Hlk' b y Hy) as (x & Hx & _ & Hox & _ & _ & Hrx).
      exists x. split; [done|]. split; congruence.
    + destruct (Hlk' a e Ha) as (x & Hx & _ & Hox & _ & _ & Hrx). exists x. split; [done|]. split; congruence.
  - done.
  - intros n b x h Hb (y & Hy & _ & _ & Hd & _)%Hlk Hh. apply (H6 n b y h Hb Hy). congruence.
  - done.
  - intros h n Hh. destruct (H8 h n Hh) as [|(b & y & Hb & Hy & Hd)]; [by left|right].
    destruct (Hlk' b y Hy) as (x & Hx & _ & _ & Hdx & _). exists b, x. split; [done|]. split; congruence.
Qed.

Lemma rinv_opened r ho rs cg cd hn a e h now :
  rinv (World r ho rs cg cd hn) -> heap r !! a = Some e -> opening e = true -> hn !! h = None ->
  rinv (World (put r a (Entry (name e) false (Some h) (err e) (refs e) now (reserved e))) (a :: ho) rs cg cd
              (<[h := name e]> hn)).
Proof.
  intros [H1 H2 H3 H4 H5 H6 H7 H8] Ha Ho Hh. cbn [reg holders resv closing closed hname] in *.
  pose proof (H3 a e Ha (or_introl Ho)) as Hta.
  destruct (H2 _ _ Hta) as (e' & ? & _ & [Herr Hok] & Hres). simplify_eq.
  assert (Hr : reserved e = false) by (destruct (reserved e); [by destruct Hok; congruence|done]).
  rewrite Hr, Ho in Hok.
  assert (Hhg : h ∉ cg ++ cd).
  { intros Hin. destruct H7 as [_ H7]. apply H7 in Hin. rewrite Hh in Hin. by destruct Hin. }
  assert (Hinj : forall n b, entries r !! n = Some b -> b = a -> n = name e).
  { intros n b Hn ->. destruct (H2 n a Hn) as (x & ? & <- & _). congruence. }
  constructor; cbn [reg holders resv closing closed hname put entries heap].
  - intros b x. rewrite lookup_insert, occurrences_cons. destruct (decide (a = b)) as [<-|Hne].
    + intros [= <-]. rewrite decide_True by done. pose proof (H1 a e Ha) as Hx. rewrite Ho in Hx. cbn. lia.
    + intros Hb. rewrite decide_False by done. by apply H1.
  - intros n b Hb. destruct (H2 n b Hb) as (y & Hy & ? & ? & ?). rewrite lookup_insert.
    destruct (decide (a = b)) as [<-|]; [|by exists y]. simplify_eq. eexists. split; [done|].
    cbn. split; [done|]. split; [|done]. split; [done|]. cbn. rewrite Hr. by eexists.
  - intros b x. rewrite lookup_insert. destruct (decide (a = b)) as [<-|]; [|apply H3]. by intros [= <-].
  - intros b. rewrite elem_of_cons, lookup_insert. intros [->|Hb].
    + rewrite decide_True by done. eexists. by split.
    + destruct (decide (a = b)) as [<-|]; [eexists; by split|by apply H4].
  - done.
  - intros n b x g Hb. rewrite lookup_insert. destruct (decide (a = b)) as [<-|].
    + intros [= <-] [= <-]. rewrite lookup_insert_eq. by rewrite (Hinj n a Hb).
    + intros Hx Hg. destruct (H6 n b x g Hb Hx Hg) as [Hng Hgg]. split; [|done].
      rewrite lookup_insert_ne; [done|]. intros <-. congruence.
  - destruct H7 as [? H7]. split; [done|]. intros g Hg. rewrite lookup_insert. destruct (decide _); [by eexists|by apply H7].
  - intros g n. rewrite lookup_insert. destruct (decide (h = g)) as [<-|].
    + intros [= <-]. right. exists a. eexists. by rewrite lookup_insert_eq.
    + intros Hg. destruct (H8 g n Hg) as [|(b & y & Hb & Hy & Hd)]; [by left|right]. exists b, y.
      rewrite lookup_insert_ne; [done|]. intros <-. congruence.
Qed.

Lemma rinv_open_failed r ho rs cg cd hn a e m :
  rinv (World r ho rs cg cd hn) -> heap r !! a = Some e -> opening e = true ->
  rinv (World (set_entries (put r a (Entry (name e) false (db e) (Some m) 0 (last e) (reserved e)))
                 (delete (name e) (entries r))) ho rs cg cd hn).
Proof.
  intros [H1 H2 H3 H4 H5 H6 H7 H8] Ha Ho. cbn [reg holders resv closing closed hname] in *.
  pose proof (H3 a e Ha (or_introl Ho)) as Hta.
  destruct (H2 _ _ Hta) as (e' & ? & _ & [Herr Hok] & Hres). simplify_eq.
  assert (Hr : reserved e = false) by (destruct (reserved e); [by destruct Hok; congruence|done]).
  rewrite Hr, Ho in Hok.
  assert (Hna : a ∉ ho) by (intros Hin; destruct (H4 a Hin) as (x & ? & _ & ?); congruence).
  assert (Hne : forall n b, delete (name e) (entries r) !! n = Some b -> entries r !! n = Some b /\ b <> a).
  { intros n b [Hd Hn]%lookup_delete_Some. split; [done|]. intros ->. apply Hd.
    destruct (H2 n a Hn) as (x & ? & ? & _). congruence. }
  constructor; cbn [reg holders resv closing closed hname put set_entries entries heap].
  - intros b x. rewrite lookup_insert. destruct (decide (a = b)) as [<-|]; [|apply H1].
    intros [= <-]. cbn. by rewrite occurrences_not_in.
  - intros n b [Hb Hba]%Hne. rewrite lookup_insert_ne by done. by apply H2.
  - intros b x. rewrite lookup_insert. destruct (decide (a = b)) as [<-|Hab].
    + intros [= <-]. cbn. intros [?|?]; [done|lia].
    + intros Hb Hu. rewrite lookup_delete_ne; [by apply H3|]. intros Heq. pose proof (H3 b x Hb Hu). congruence.
  - intros b Hb. rewrite lookup_insert_ne by (intros <-; done). by apply H4.
  - destruct H5 as [? H5]. split; [done|]. intros n Hn. rewrite lookup_delete_ne; [by apply H5|].
    intros <-. apply Hres in Hn. congruence.
  - intros n b x g [Hb Hba]%Hne. rewrite lookup_insert_ne by done. by apply H6.
  - done.
  - intros g n Hg. destruct (H8 g n Hg) as [|(b & y & Hb & Hy & Hd)]; [by left|right]. exists b, y.
    assert (b <> a) by (intros ->; congruence). rewrite lookup_insert_ne by done.
    rewrite lookup_delete_ne; [done|]. intros <-. congruence.
Qed.

Lemma rinv_unreserve r ho r1 r2 cg cd hn n :
  rinv (World r ho (r1 ++ n :: r2) cg cd hn) -> rinv (World (Reserve_release r n) ho (r1 ++ r2) cg cd hn).
Proof.
  intros [H1 H2 H3 H4 H5 H6 H7 H8]. cbn [reg holders resv closing closed hname] in *.
  destruct H5 as [Hnd H5]. rewrite <- Permutation_middle in Hnd. apply NoDup_cons in Hnd as [Hni Hnd].
  assert (Hin : forall m, m ∈ r1 ++ n :: r2 <-> m = n \/ m ∈ r1 ++ r2).
  { intros m. by rewrite <- Permutation_middle, elem_of_cons. }
  destruct (H5 n) as [a Hta]; [apply Hin; by left|].
  destruct (H2 n a Hta) as (e & Ha & Hname & [Herr Hok] & Hres).
  assert (Hr : reserved e = true) by (apply Hres, Hin; by left). rewrite Hr in Hok. destruct Hok as [Ho Hdb].
  constructor; cbn [reg holders resv closing closed hname Reserve_release set_entries entries heap].
  - done.
  - intros m b [Hne Hm]%lookup_delete_Some. destruct (H2 m b Hm) as (x & Hx & ? & ? & Hrx). exists x.
    split; [done|]. split; [done|]. split; [done|]. rewrite Hrx, Hin. split; [|by right]. by intros [->|].
  - intros b x Hb Hu. rewrite lookup_delete_ne; [by apply H3|]. intros Heq.
    pose proof (H3 b x Hb Hu) as Hx. rewrite <- Heq in Hx. simplify_eq. destruct Hu as [Hu|Hu]; [congruence|].
    pose proof (H1 a e Ha) as Hc. rewrite Ho in Hc.
    assert (a ∈ ho) by (apply occurrences_pos; lia). destruct (H4 a) as (y & ? & ? & ?); [done|congruence].
  - done.
  - split; [done|]. intros m Hm. rewrite lookup_delete_ne; [apply H5, Hin; by right|]. by intros <-.
  - intros m b x g [Hne Hm]%lookup_delete_Some. by apply H6.
  - done.
  - intros g m Hg. destruct (H8 g m Hg) as [|(b & x & Hb & Hx & Hd)]; [by left|right]. exists b, x.
    rewrite lookup_delete_ne; [done|]. intros <-. simplify_eq.
Qed.

Lemma rinv_perm r ho rs cg cg' cd hn : cg ≡ₚ cg' -> rinv (World r ho rs cg cd hn) -> rinv (World r ho rs cg' cd hn).
Proof.
  intros Hp [H1 H2 H3 H4 H5 H6 H7 H8]. constructor; cbn [reg holders resv closing closed hname] in *; try done.
  - intros n a e h. rewrite <- Hp. by apply H6.
  - destruct H7 as [? H7]. split; [by rewrite <- Hp|]. intros h. rewrite <- Hp. apply H7.
  - intros h n. rewrite <- Hp. apply H8.
Qed.

Lemma rinv_reap_fold now ttl l : forall r hs ho rs cg cd hn,
  NoDup l.*1 -> (forall n a, (n, a) ∈ l -> entries r !! n = Some a) ->
  rinv (World r ho rs (hs ++ cg) cd hn) ->
  let x := fold_left (reap_one now ttl) l (r, hs) in rinv (World x.1 ho rs (x.2 ++ cg) cd hn).
Proof.
  induction l as [|[n a] l IH]; intros r hs ho rs cg cd hn Hnd Hl Hr x; [done|].
  apply NoDup_cons in Hnd as [Hni Hnd]. subst x. cbn [fold_left reap_one].
  assert (Hta : entries r !! n = Some a) by (apply Hl; constructor).
  assert (Hl' : forall m b, (m, b) ∈ l -> entries r !! m = Some b) by (intros m b Hm; apply Hl; by right).
  destruct (heap r !! a) as [e|] eqn:Ha; [|by apply IH].
  destruct (reap_skip now ttl e) eqn:Hs; [by apply IH|].
  unfold reap_skip in Hs. repeat (apply orb_false_iff in Hs as [Hs ?]). 
  assert (Hb : busy_entry e = false) by (unfold busy_entry; by repeat (apply orb_false_iff; split)).
  destruct (rinv_detach _ _ _ _ _ _ _ _ _ Hr Hta Ha Hb) as (h & -> & Hd & _).
  apply IH; [done| |].
  - intros m b Hm. cbn. rewrite lookup_delete_ne; [by apply Hl'|]. intros <-. apply Hni. apply list_elem_of_fmap.
    by exists (n, b).
  - eapply rinv_perm, Hd. rewrite <- app_assoc. cbn. by rewrite <- Permutation_middle.
Qed.

Lemma detachIdleLocked_ok r n r1 o :
  detachIdleLocked r n = Ok (r1, o) ->
  (entries r !! n ≫= (fun a => heap r !! a) = None /\ r1 = r /\ o = None) \/
  exists a e, entries r !! n = Some a /\ heap r !! a = Some e /\ busy_entry e = false /\
    r1 = set_entries r (delete n (entries r)) /\ o = db e.
Proof.
  unfold detachIdleLocked. destruct (entries r !! n) as [a|] eqn:Hn; cbn; [|intros [= <- <-]; by left].
  destruct (heap r !! a) as [e|] eqn:Ha; [|intros [= <- <-]; by left].
  destruct (busy_entry e) eqn:Hb; [done|]. intros [= <- <-]. right. by exists a, e.
Qed.

Lemma rinv_detach_name r ho rs cg cd hn n r1 o :
  detachIdleLocked r n = Ok (r1, o) -> rinv (World r ho rs cg cd hn) ->
  rinv (World r1 ho rs (opt_list o ++ cg) cd hn) /\ entries r1 !! n = None /\ heap r1 = heap r /\ backends r1 = backends r.
Proof.
  intros H Hr. apply detachIdleLocked_ok in H as [(Hn & -> & ->)|(a & e & Hn & Ha & Hb & -> & ->)].
  - split; [done|]. split; [|done]. destruct (entries r !! n) as [a|] eqn:E; [|done]. cbn in Hn.
    destruct (v_tbl _ Hr n a E) as (e & He & _). cbn in He. congruence.
  - destruct (rinv_detach _ _ _ _ _ _ _ _ _ Hr Hn Ha Hb) as (h & -> & Hd & _). split; [done|].
    cbn. by rewrite lookup_delete_eq.
Qed.

Lemma rinv_backends r ho rs cg cd hn bs :
  rinv (World r ho rs cg cd hn) -> rinv (World (Registry (entries r) (heap r) bs) ho rs cg cd hn).
Proof. by intros []. Qed.

Lemma rinv_closed r ho rs c1 c2 cd hn h :
  rinv (World r ho rs (c1 ++ h :: c2) cd hn) -> rinv (World r ho rs (c1 ++ c2) (h :: cd) hn).
Proof.
  intros [H1 H2 H3 H4 H5 H6 H7 H8]. cbn [reg holders resv closing closed hname] in *.
  assert (Hp : (c1 ++ h :: c2) ++ cd ≡ₚ (c1 ++ c2) ++ h :: cd).
  { rewrite <- !Permutation_middle. done. }
  constructor; cbn [reg holders resv closing closed hname]; try done.
  - intros n a e g. rewrite <- Hp. by apply H6.
  - destruct H7 as [? H7]. split; [by rewrite <- Hp|]. intros g. rewrite <- Hp. apply H7.
  - intros g n. rewrite <- Hp. apply H8.
Qed.

Lemma rinv_step w w' : step w w' -> rinv w -> rinv w'.
Proof.
  destruct 1; intros Hr.
  - unfold Get_lookup in H0. destruct (entries r !! n) eqn:Hn; [done|]. destruct (backends r !! n); [|done].
    injection H0 as <-. by eapply rinv_new.
  - unfold Get_opened in H2. rewrite H in H2. injection H2 as <-. by apply rinv_opened.
  - unfold Get_opened in H1. rewrite H in H1. injection H1 as <- _. by apply rinv_open_failed.
  - unfold Get_recheck in H1. destruct (bool_decide _) eqn:Hd; [|done]. cbn in H1. bool_to_prop. rewrite H in H1.
    destruct (err e) eqn:Herr; [done|]. destruct (reserved e) eqn:Hre; [done|]. injection H1 as <- <-.
    pose proof (v_tbl _ Hr _ _ Hd) as (e' & ? & <- & _). simplify_eq/=.
    rewrite <- Herr, <- Hre. eapply (rinv_count _ _ _ _ _ _ _ _ _ (refs e + 1) now Hr H).
    + intros b. rewrite occurrences_cons. destruct (decide (b = a)); lia.
    + intros b [->|Hb]%elem_of_cons; [by right|by left].
    + done.
  - pose proof (v_hold _ Hr a) as (e & He & Hre & Ho); [cbn; set_solver|]. cbn in He.
    unfold release. rewrite He. eapply (rinv_count _ _ _ _ _ _ _ _ _ (refs e - 1) now Hr He).
    + intros b. rewrite <- Permutation_middle, occurrences_cons. destruct (decide (b = a)); lia.
    + intros b Hb. left. set_solver.
    + intros Hk. apply (v_use _ Hr a e He). right. lia.
  - unfold Reserve in H0. destruct (backends r !! n); [|done]. apply rbind_ok in H0 as ([r1 o1] & Hd & H0).
    injection H0 as <- <-. destruct (rinv_detach_name _ _ _ _ _ _ _ _ _ Hd Hr) as (Hr1 & Hn & Hh & _).
    eapply rinv_new; try done. by rewrite Hh.
  - by apply rinv_unreserve.
  - unfold Add in H. destruct (backends r !! n); [done|]. injection H as <-. by apply rinv_backends.
  - unfold Remove in H. destruct (backends r !! n); [|done]. apply rbind_ok in H as ([r1 o1] & Hd & H).
    injection H as <- <-. destruct (rinv_detach_name _ _ _ _ _ _ _ _ _ Hd Hr) as (Hr1 & _). by apply rinv_backends.
  - unfold ReapIdle in H. destruct (ttl <=? 0); [by injection H as <- <-|].
    pose proof (rinv_reap_fold now ttl (map_to_list (entries r)) r [] ho rs cg cd hn) as Hf. rewrite H in Hf.
    apply Hf; [apply NoDup_fst_map_to_list| |done]. intros n a. by rewrite elem_of_map_to_list.
  - by apply rinv_closed.
Qed.

Lemma rinv_init bs : rinv (init_world bs).
Proof.
  constructor; cbn; try (intros *; rewrite ?lookup_empty; done).
  - intros a. set_solver.
  - split; [constructor|]. set_solver.
  - split; [constructor|]. set_solver.
Qed.

Lemma rinv_reachable bs w : rtc step (init_world bs) w -> rinv w.
Proof.
  revert w. apply (rtc_ind_r rinv); [apply rinv_init|]. intros w1 w2 _ Hs Hr. by eapply rinv_step.
Qed.

Lemma holder_entry w a : rinv w -> a ∈ holders w ->
  exists e h, heap (reg w) !! a = Some e /\ entries (reg w) !! name e = Some a /\ reserved e = false /\
    db e = Some h /\ hname w !! h = Some (name e) /\ h ∉ closing w ++ closed w.
Proof.
  intros Hr Hin. destruct (v_hold _ Hr a Hin) as (e & He & Hre & Ho).
  assert (Hpos : refs e > 0).
  { rewrite (v_refs _ Hr a e He), Ho. apply occurrences_pos in Hin. lia. }
  pose proof (v_use _ Hr a e He (or_intror Hpos)) as Hta.
  destruct (v_tbl _ Hr _ _ Hta) as (e' & ? & _ & [_ Hok] & _). simplify_eq. rewrite Hre, Ho in Hok.
  destruct Hok as [h Hh]. destruct (v_handle _ Hr _ _ _ _ Hta He Hh) as [? ?]. by exists e, h.
Qed.

(** C3: (single owner) In every reachable state, whatever interleaving of lookups, opens
    that succeed or fail, waiters' re-checks, releases, reservations, removals, reaper
    ticks and deferred closes led to it: each user of a handle holds the handle published
    in the table under its database's name, opened for that database, not closed and not
    about to be; a database has at most one handle that is not closed or about to be;
    reference counts are exactly the outstanding users (plus the opener's own); and every
    handle ever opened is still published or was handed over to be closed exactly once. *)
Theorem registry_single_owner bs w :
  rtc step (init_world bs) w ->
  (forall a, a ∈ holders w -> exists e h,
     heap (reg w) !! a = Some e /\ entries (reg w) !! name e = Some a /\ db e = Some h /\
     hname w !! h = Some (name e) /\ h ∉ closing w ++ closed w) /\
  (forall n h1 h2, hname w !! h1 = Some n -> hname w !! h2 = Some n ->
     h1 ∉ closing w ++ closed w -> h2 ∉ closing w ++ closed w -> h1 = h2) /\
  (forall a e, heap (reg w) !! a = Some e ->
     refs e = (if opening e then 1 else 0) + occurrences a (holders w)) /\
  (forall i, i ∈ List_ (reg w) -> i_open i = true -> exists a e h,
     entries (reg w) !! i_name i = Some a /\ heap (reg w) !! a = Some e /\ db e = Some h /\
     i_refs i = occurrences a (holders w)) /\
  NoDup (closing w ++ closed w).
Proof.
  intros Hr%rinv_reachable. split; [|split; [|split; [|split]]].
  - intros a Ha. destruct (holder_entry w a Hr Ha) as (e & h & ? & ? & _ & ?). by exists e, h.
  - intros n h1 h2 H1 H2 Hn1 Hn2.
    destruct (v_all _ Hr h1 n H1) as [|(a1 & e1 & ? & ? & ?)]; [done|].
    destruct (v_all _ Hr h2 n H2) as [|(a2 & e2 & ? & ? & ?)]; [done|]. congruence.
  - apply (v_refs _ Hr).
  - intros i Hi Hop. apply list_elem_of_In, in_map_iff in Hi as ([n be] & <- & _).
    destruct (entries (reg w) !! n) as [a|] eqn:Ha; cbn in Hop |- *; [|done].
    destruct (v_tbl _ Hr n a Ha) as (e & He & <- & [_ Hok] & _). rewrite He in Hop |- *. cbn in Hop |- *. bool_to_prop.
    pose proof (v_refs _ Hr a e He) as Hc.
    destruct (reserved e); [by destruct Hok as [_ ?]|]. destruct (opening e) eqn:Ho; [done|]. destruct Hok as [h Hh].
    exists a, e, h. rewrite Ha. split; [done|]. split; [done|]. split; [done|]. lia.
  - apply (v_gone _ Hr).
Qed.

(** A database in use: reserved, being opened, or held. *)
Definition in_use (w : world) (n : string) : Prop :=
  n ∈ resv w \/ (exists a e, heap (reg w) !! a = Some e /\ name e = n /\ (opening e = true \/ a ∈ holders w)).

Lemma detach_refuses w n : rinv w -> detachIdleLocked (reg w) n = Err ErrBusy <-> in_use w n.
Proof.
  intros Hr. unfold detachIdleLocked, in_use. destruct (entries (reg w) !! n) as [b|] eqn:Hb; cbn.
  - destruct (v_tbl _ Hr n b Hb) as (x & Hx & Hxn & [Herr Hok] & Hres). rewrite Hx. unfold busy_entry. split.
    + destruct (opening x) eqn:Ho; [intros _; right; exists b, x; auto|].
      destruct (refs x >? 0) eqn:Hrf; bool_to_prop; [|destruct (reserved x) eqn:Hrs; [by left; apply Hres|done]].
      intros _. right. exists b, x. split; [done|]. split; [done|]. right. apply occurrences_pos.
      rewrite (v_refs _ Hr b x Hx), Ho in Hrf. lia.
    + assert (Hb' : forall a e, heap (reg w) !! a = Some e -> name e = n -> opening e = true \/ refs e > 0 -> a = b).
      { intros a e He <- Hu. pose proof (v_use _ Hr a e He Hu). congruence. }
      intros [Hn|(a & e & He & Hen & [Ho|Ha])].
      * apply Hres in Hn. by rewrite Hn, !orb_true_r.
      * rewrite (Hb' a e He Hen (or_introl Ho)) in He. simplify_eq. by rewrite Ho.
      * apply occurrences_pos in Ha. pose proof (v_refs _ Hr a e He) as Hc.
        assert (Hp : refs e > 0) by (destruct (opening e); lia).
        rewrite (Hb' a e He Hen (or_intror Hp)) in He. simplify_eq.
        rewrite (proj2 (Z.gtb_lt _ _)) by lia. by rewrite orb_true_r.
  - split; [done|]. intros [Hn|(a & e & He & <- & Hu)].
    + apply (v_resv _ Hr) in Hn as [? ?]. congruence.
    + assert (Hu' : opening e = true \/ refs e > 0).
      { destruct Hu as [|Ha]; [by left|right]. apply occurrences_pos in Ha. pose proof (v_refs _ Hr a e He).
        destruct (opening e); lia. }
      pose proof (v_use _ Hr a e He Hu'). congruence.
Qed.

(** C18: (exclusive reservation) In every reachable state, a reserved database has no user,
    no open in flight and no published handle (each handle it ever had was handed over
    to be closed); every [Get] of it ends in [ErrReserved] and every further [Reserve] and
    [Remove] in [ErrBusy].  And for a configured database [Reserve] refuses exactly when a
    user, an opener or another reservation has it. *)
Theorem reservation_exclusive bs w n be :
  rtc step (init_world bs) w ->
  (n ∈ resv w ->
     (forall a e, a ∈ holders w -> heap (reg w) !! a = Some e -> name e <> n) /\
     (forall a e, heap (reg w) !! a = Some e -> opening e = true -> name e <> n) /\
     (forall h, hname w !! h = Some n -> h ∈ closing w ++ closed w) /\
     (forall a now, exists b, Get_lookup (reg w) n a = GWait b /\ Get_recheck (reg w) n b now = GErr ErrReserved)) /\
  (backends (reg w) !! n = Some be ->
     (forall ph, Reserve (reg w) n ph = Err ErrBusy <-> in_use w n) /\
     (Remove (reg w) n = Err ErrBusy <-> in_use w n)).
Proof.
  intros Hr%rinv_reachable. split.
  - intros Hn. destruct (proj2 (v_resv _ Hr) n Hn) as [b Hb].
    destruct (v_tbl _ Hr n b Hb) as (x & Hx & Hxn & [Herr Hok] & Hres).
    rewrite (proj2 Hres Hn) in Hok. destruct Hok as [Ho Hdb]. split; [|split; [|split]].
    + intros a e Ha He Hne. destruct (holder_entry w a Hr Ha) as (e' & h & ? & Ht & ? & _). simplify_eq.
      apply Hres in Hn. congruence.
    + intros a e He Ho' Hne. pose proof (v_use _ Hr a e He (or_introl Ho')). congruence.
    + intros h Hh. destruct (v_all _ Hr h n Hh) as [|(a & e & ? & ? & ?)]; [done|congruence].
    + intros a now. exists b. unfold Get_lookup, Get_recheck. rewrite Hb, bool_decide_true, Hx, Herr by done.
      by rewrite (proj2 Hres Hn).
  - intros Hbe.
    pose proof (detach_refuses w n Hr) as Hbusy.
    unfold Reserve, Remove. rewrite Hbe. split; [intros ph|]; rewrite <- Hbusy;
      destruct (detachIdleLocked (reg w) n) as [[]|]; cbn; split; congruence.
Qed.

(** Shutdown: the handles [Close] closes, with those already on their way out, are all the
    handles there are, each once. *)
Lemma close_closes_every_handle bs w : rtc step (init_world bs) w ->
  let hs := Close_drain (reg w) (Close_swap (reg w)).2 in
  NoDup (hs ++ closing w ++ closed w) /\
  forall h n, hname w !! h = Some n -> h ∈ hs ++ closing w ++ closed w.
Proof.
  intros Hr%rinv_reachable hs. subst hs. unfold Close_swap, Close_drain, vals. cbn [snd]. split.
  - apply NoDup_app. split; [|split; [|apply (v_gone _ Hr)]].
    + assert (Hl : forall n a, (n, a) ∈ map_to_list (entries (reg w)) -> entries (reg w) !! n = Some a) by (intros n a; apply elem_of_map_to_list).
      assert (Hnd : NoDup (map_to_list (entries (reg w))).*1) by apply NoDup_fst_map_to_list.
      induction (map_to_list (entries (reg w))) as [|[n a] l IH]; [constructor|]. apply NoDup_cons in Hnd as [Hn Hnd]. cbn.
      specialize (IH ltac:(intros m b Hm; apply Hl; by right) Hnd). destruct (heap (reg w) !! a ≫= db) as [h|] eqn:Hh; [|done].
      apply bind_Some in Hh as (e & He & Hd). constructor; [|done]. intros (b & Hb & Hbh)%list_elem_of_omap.
      apply bind_Some in Hbh as (e' & He' & Hd'). apply list_elem_of_fmap in Hb as ([m b'] & -> & Hm).
      destruct (v_handle _ Hr n a e h (Hl n a ltac:(left)) He Hd) as [H1 _].
      destruct (v_handle _ Hr m b' e' h (Hl m b' ltac:(by right)) He' Hd') as [H2 _]. rewrite H1 in H2. injection H2 as ->.
      apply Hn, list_elem_of_fmap. by exists (m, b').
    + intros h (a & Ha & Hh)%list_elem_of_omap. apply bind_Some in Hh as (e & He & Hd).
      apply list_elem_of_fmap in Ha as ([n a'] & -> & Hm%elem_of_map_to_list). by eapply v_handle.
  - intros h n Hh. apply elem_of_app. destruct (v_all _ Hr h n Hh) as [|(a & e & Hn & He & Hd)]; [by right|left].
    apply list_elem_of_omap. exists a. split; [|by rewrite He]. apply list_elem_of_fmap. exists (n, a). by rewrite elem_of_map_to_list.
Qed.

(** Start-up: warming names nobody uses yet is a run of the registry that opens a handle for
    each, in order, until one fails, and leaves all of them idle. *)
Definition warm_result (open : string -> result string nat) (names : list string) (r r' : registry) (res : result (string * rerr) unit) : Prop :=
  match res with
  | Ok _ => forall n, n ∈ names -> exists x h t, open n = Ok h /\ entries r' !! n = Some x /\ heap r' !! x = Some (Entry n false (Some h) None 0 t false)
  | Err (n, e) => n ∈ names /\ (e = ErrUnknownDB /\ backends r !! n = None \/ exists m, e = ErrOpen m /\ open n = Err m)
  end.
Definition opened_entry (r : registry) (n : string) (a h : nat) (now : Z) : registry :=
  Registry (<[n := a]> (entries r)) (<[a := Entry n false (Some h) None 0 now false]> (heap r)) (backends r).
Lemma warm_one r a n h now hn b : entries r !! n = None -> backends r !! n = Some b -> heap r !! a = None -> hn !! h = None ->
  (exists e, Get r n a (Ok h) now = (e, Ok a) /\ release e a now = opened_entry r n a h now) /\
  rtc step (World r [] [] [] [] hn) (World (opened_entry r n a h now) [] [] [] [] (<[h := n]> hn)).
Proof.
  intros Hn Hb Ha Hh. split.
  - rewrite (Get_new _ _ _ _ _ b) by done. eexists. split; [done|]. rewrite (release_one _ n _ h) by apply lookup_insert_eq.
    cbn [entries heap backends]. by rewrite insert_insert_eq.
  - eapply rtc_l; [eapply (S_lookup _ _ _ _ _ _ _ n a); [done|]; unfold Get_lookup; by rewrite Hn, Hb|].
    eapply rtc_l; [eapply (S_opened _ _ _ _ _ _ _ a _ h now); [apply lookup_insert_eq|done|done|]; unfold Get_opened; cbn [heap put set_entries]; by rewrite lookup_insert_eq|].
    cbn [name]. eapply rtc_l; [apply (S_release _ [] [])|].
    match goal with |- rtc step (World ?x _ _ _ _ _) (World ?y _ _ _ _ _) => assert (x = y) as ->; [|apply rtc_refl] end.
    rewrite (release_one _ n _ h) by (cbn; apply lookup_insert_eq). unfold opened_entry. cbn. by rewrite !insert_insert_eq.
Qed.
Lemma warm_fail r a n m now hn b : entries r !! n = None -> backends r !! n = Some b -> heap r !! a = None ->
  let r' := Registry (entries r) (<[a := Entry n false None (Some m) 0 0 false]> (heap r)) (backends r) in
  Get r n a (Err m) now = (r', Err (ErrOpen m)) /\ rtc step (World r [] [] [] [] hn) (World r' [] [] [] [] hn).
Proof.
  intros Hn Hb Ha r'. split; [by rewrite (Get_new _ _ _ _ _ b)|].
  eapply rtc_l; [eapply (S_lookup _ _ _ _ _ _ _ n a); [done|]; unfold Get_lookup; by rewrite Hn, Hb|].
  eapply rtc_l; [eapply (S_open_failed _ _ _ _ _ _ _ a _ m now); [apply lookup_insert_eq|done|]; unfold Get_opened; cbn [heap put set_entries]; by rewrite lookup_insert_eq|].
  match goal with |- rtc step (World ?x _ _ _ _ _) _ => assert (x = r') as ->; [|apply rtc_refl] end.
  unfold r', put, set_entries. cbn. by rewrite insert_insert_eq, delete_insert_id.
Qed.
Lemma warm_run open now names : forall a r hn,
  NoDup names -> (forall n, n ∈ names -> entries r !! n = None) -> (forall b, (a <= b)%nat -> heap r !! b = None) ->
  (forall n x, entries r !! n = Some x -> (x < a)%nat) ->
  (forall n h, n ∈ names -> open n = Ok h -> hn !! h = None) -> (forall n m h, n ∈ names -> m ∈ names -> open n = Ok h -> open m = Ok h -> n = m) ->
  let '(r', res) := warm_loop open now names a r in
  exists hn', rtc step (World r [] [] [] [] hn) (World r' [] [] [] [] hn') /\ backends r' = backends r /\ warm_result open names r r' res /\
    (forall h n, hn' !! h = Some n -> hn !! h = Some n \/ n ∈ names /\ open n = Ok h) /\
    (forall n x, entries r !! n = Some x -> entries r' !! n = Some x /\ heap r' !! x = heap r !! x).
Proof.
  induction names as [|n names IH]; intros a r hn Hnd Hn Ha Hx Hh Hinj.
  { cbn. exists hn. split; [apply rtc_refl|]. split; [done|]. split; [by intros m Hm%not_elem_of_nil|]. split; [by left|done]. }
  apply NoDup_cons in Hnd as [Hnot Hnd]. pose proof (Hn n ltac:(left)) as Hnone. cbn [warm_loop].
  destruct (backends r !! n) as [b|] eqn:Hb.
  2:{ unfold Get, Get_lookup. rewrite Hnone, Hb. exists hn. split; [apply rtc_refl|]. split; [done|].
      split; [split; [left|by left]|]. by split; [left|]. }
  destruct (open n) as [h|m] eqn:Ho.
  2:{ destruct (warm_fail r a n m now hn b Hnone Hb (Ha a ltac:(lia))) as [-> Hrun]. exists hn. split; [exact Hrun|].
      split; [done|]. split; [split; [left|right; by exists m]|]. split; [by left|]. intros k x Hk. split; [done|].
      cbn. rewrite lookup_insert_ne; [done|]. apply Hx in Hk. lia. }
  destruct (warm_one r a n h now hn b Hnone Hb (Ha a ltac:(lia)) (Hh n h ltac:(left) Ho)) as [(e & -> & ->) Hrun].
  destruct (warm_loop open now names (S a) (opened_entry r n a h now)) as [r' res] eqn:E.
  specialize (IH (S a) (opened_entry r n a h now) (<[h := n]> hn) Hnd). rewrite E in IH. unfold opened_entry in IH. cbn [entries heap backends] in IH.
  destruct IH as (hn' & Hrun' & Hbe & Hres & Hhn & Hkeep).
  - intros k Hk. rewrite lookup_insert_ne by (by intros ->). apply Hn. by right.
  - intros x Hle. rewrite lookup_insert_ne by lia. apply Ha. lia.
  - intros k x. rewrite lookup_insert. case_decide; [intros [= <-]; lia|intros Hk%Hx; lia].
  - intros k g Hk Hg. rewrite lookup_insert_ne; [apply (Hh k); [by right|done]|]. intros ->.
    apply Hnot. by rewrite (Hinj n k g ltac:(left) ltac:(by right) Ho Hg).
  - intros k l g Hk Hl. apply Hinj; by right.
  - exists hn'. split; [by etrans|]. split; [done|]. split; [|split].
    + unfold warm_result in *. destruct res as [u|[k e']]; [|by destruct Hres as [Hk Hres]; split; [right|]]. intros k [->|Hk]%elem_of_cons; [|by apply Hres].
      destruct (Hkeep n a) as [H1 H2]; [apply lookup_insert_eq|]. exists a, h, now. split; [done|]. split; [done|].
      rewrite H2. apply lookup_insert_eq.
    + intros g k [Hg|[Hk Hg]]%Hhn; [|right; split; [by right|done]]. rewrite lookup_insert in Hg. case_decide; [|by left].
      injection Hg as <-. subst g. right. split; [left|done].
    + intros k x Hk. destruct (Hkeep k x) as [H1 H2]; [rewrite lookup_insert_ne; [done|by intros ->; congruence]|]. split; [done|].
      rewrite H2. cbn. rewrite lookup_insert_ne; [done|]. apply Hx in Hk. lia.
Qed.

(** ** A concrete run *)

Definition demo_be : backend := Backend_ "vault" false (Some "a.vault"%string).
Definition demo_r0 : registry := New {["a"%string := demo_be]}.
Definition demo_r1 : registry := put (set_entries demo_r0 {["a"%string := 0%nat]}) 0 (Entry "a" true None None 1 0 false).
Definition demo_r2 : registry := put demo_r1 0 (Entry "a" false (Some 9%nat) None 1 5 false).
Definition demo_r3 : registry := release demo_r2 0 6.
Definition demo_r4 : registry := fst (ReapIdle demo_r3 100 10).
Definition demo_r5 : registry := put (set_entries demo_r4 {["a"%string := 1%nat]}) 1 (Entry "a" false None None 0 0 true).
Definition demo_hn : gmap nat string := {[9%nat := "a"%string]}.

Lemma demo_open : rtc step (init_world {["a"%string := demo_be]}) (World demo_r2 [0%nat] [] [] [] demo_hn).
Proof.
  eapply rtc_l; [eapply (S_lookup demo_r0 demo_r1 [] [] [] [] ∅ "a" 0); reflexivity|].
  eapply rtc_l; [eapply (S_opened demo_r1 demo_r2 [] [] [] [] ∅ 0 (Entry "a" true None None 1 0 false) 9 5); reflexivity|].
  apply rtc_refl.
Qed.

Lemma demo_reap_then_reserve :
  rtc step (init_world {["a"%string := demo_be]}) (World demo_r5 [] ["a"%string] [9%nat] [] demo_hn).
Proof.
  etrans; [apply demo_open|].
  eapply rtc_l; [eapply (S_release demo_r2 [] [] [] [] [] demo_hn 0 6)|].
  eapply rtc_l; [eapply (S_reap demo_r3 demo_r4 [] [] [] [] demo_hn 100 10 [9%nat]); reflexivity|].
  eapply rtc_l; [eapply (S_reserve demo_r4 demo_r5 [] [] _ [] demo_hn "a" 1 None); reflexivity|].
  apply rtc_refl.
Qed.

Lemma registry_single_owner_witness :
  exists e h, heap demo_r2 !! 0%nat = Some e /\ db e = Some h /\ h = 9%nat.
Proof.
  destruct (registry_single_owner {["a"%string := demo_be]} _ demo_open) as (H & _).
  destruct (H 0%nat) as (e & h & He & _ & Hd & _); [apply list_elem_of_here|].
  exists e, h. split; [exact He|]. split; [exact Hd|]. vm_compute in He. injection He as <-. by injection Hd as <-.
Defined.

Lemma reservation_exclusive_witness : Reserve demo_r2 "a" 7 = Err ErrBusy /\ Remove demo_r5 "a" = Err ErrBusy.
Proof.
  split.
  - refine (proj2 (proj1 (proj2 (reservation_exclusive {["a"%string := demo_be]} _ "a" demo_be demo_open) eq_refl) 7%nat) _).
    right. exists 0%nat, (Entry "a" false (Some 9%nat) None 1 5 false). split; [reflexivity|]. split; [reflexivity|].
    right. apply list_elem_of_here.
  - refine (proj2 (proj2 (proj2 (reservation_exclusive {["a"%string := demo_be]} _ "a" demo_be demo_reap_then_reserve) eq_refl)) _).
    left. apply list_elem_of_here.
Defined.

(** The close of a reaped handle is deferred past the mutex with nothing left in the table,
    so [Reserve] can succeed while the handle is still open: the run below reserves "a",
    with no handle for it to close, while handle 9 of "a" waits to be closed. *)
Lemma reserve_before_reaped_handle_closes :
  exists w, rtc step (init_world {["a"%string := demo_be]}) w /\
    "a"%string ∈ resv w /\ hname w !! 9%nat = Some "a"%string /\ 9%nat ∈ closing w /\ 9%nat ∉ closed w.
Proof.
  eexists. split; [apply demo_reap_then_reserve|]. cbn. split; [apply list_elem_of_here|].
  split; [reflexivity|]. split; [apply list_elem_of_here|apply not_elem_of_nil].
Qed.
