(* ===== verification/Config.v ===== *)
(** * config: names, paths, defaults and validation

    [src/config/load.go] and the record types of [config.go].  The lexical path functions
    of [path/filepath] (on Unix) that [WithinDir] uses are defined here on the segments
    between slashes. *)
From S2P Require Import Prelude GoStd.
From Stdlib Require Import Floats.SpecFloat.

(** ** Names *)

Definition Reserved : list string := ["_server"; "_meta"; "_admin"; "_auth"; "_health"; "_metrics"]%string.
Definition EndpointTokens : list string :=
  ["query"; "v2"; "v3"; "export"; "backup"; "changeset"; "blob"; "changes"]%string.
Definition KnownBackends : list string := ["file"; "memory"; "memory-shared"; "mvcc"; "memdb"; "vault"]%string.
Definition pathBackends : list string := ["file"; "vault"]%string.
Definition UsesPath (backend : string) : bool := mem_string backend pathBackends.
Definition ListenerAuthMethods : list string :=
  ["none"; "peercred"; "bearer"; "password"; "mtls"; "keyring"; "session"]%string.
Definition KnownAuthMethods : list string := ["peercred"; "bearer"; "password"; "mtls"; "keyring"]%string.

Definition between (lo hi c : ascii) : bool :=
  ((nat_of_ascii lo <=? nat_of_ascii c) && (nat_of_ascii c <=? nat_of_ascii hi))%nat.
Definition alnum (c : ascii) : bool := between "a" "z" c || between "A" "Z" c || between "0" "9" c.

(** [for _, r := range s]: a byte of a multi-byte rune is outside ASCII, so the rune
    loop and the byte loop refuse the same strings. *)
Fixpoint all_chars (ok : ascii -> bool) (s : string) : bool :=
  match s with EmptyString => true | String c r => ok c && all_chars ok r end.

Definition db_char (c : ascii) : bool := alnum c || Ascii.eqb c "-" || Ascii.eqb c "." || Ascii.eqb c "_".

Definition ValidDBName (s : string) : bool :=
  if String.eqb s "" || String.eqb s "." || String.eqb s ".." then false
  else if has_prefix "_" s || mem_string s Reserved then false
  else if mem_string s EndpointTokens then false
  else all_chars db_char s.

(** ** Paths *)

Definition slash : ascii := "/".
Definition IsAbs (p : string) : bool := has_prefix "/" p.

(** [filepath.Clean]: the segments kept so far, the last one first. *)
Definition clean_step (rooted : bool) (stack : list string) (seg : string) : list string :=
  if String.eqb seg "" || String.eqb seg "." then stack
  else if String.eqb seg ".." then
    match stack with
    | [] => if rooted then [] else [".."%string]
    | top :: rest => if String.eqb top ".." then ".."%string :: stack else rest
    end
  else seg :: stack.
Definition clean_segs (p : string) : list string := rev (fold_left (clean_step (IsAbs p)) (split_char slash p) []).

(** A cleaned path as its root flag and segments. *)
Record cpath := CPath { rooted : bool; segs : list string }.
Definition Clean (p : string) : cpath := CPath (IsAbs p) (clean_segs p).
Definition path_string (p : cpath) : string :=
  if rooted p then "/" +:+ join "/" (segs p)
  else match segs p with [] => "." | l => join "/" l end.

(** [filepath.Join]: cleaned concatenation of the non-empty elements. *)
Definition Join (dir p : string) : cpath :=
  if String.eqb dir "" then Clean p else if String.eqb p "" then Clean dir else Clean (dir +:+ "/" +:+ p).

Fixpoint strip_common (b t : list string) : list string * list string :=
  match b, t with
  | x :: b', y :: t' => if String.eqb x y then strip_common b' t' else (b, t)
  | _, _ => (b, t)
  end.

(** [filepath.Rel] between cleaned paths: the segments of the relative path. *)
Definition Rel (base targ : cpath) : option (list string) :=
  if negb (Bool.eqb (rooted base) (rooted targ)) then None
  else let '(b, t) := strip_common (segs base) (segs targ) in
       match b with
       | ".."%string :: _ => None
       | _ => Some (map (fun _ => ".."%string) b ++ t)
       end.

Definition WithinDir (dir p : string) : option cpath :=
  if String.eqb dir "" || String.eqb p "" then None
  else
    let abs := if IsAbs p then Clean p else Join dir p in
    match Rel (Clean dir) abs with
    | Some (".."%string :: _) => None
    | Some _ => Some abs
    | None => None
    end.

(** ** The configuration

    The fields that defaults and validation read; the rest of a section only travels. *)

Record metaStore := MetaStore { ms_backend : string; ms_path : string }.
Record listener := Listener {
  l_name : string; l_transport : string; l_address : string; l_tls : string; l_auth : list string; l_advertise : bool;
  l_socket_mode : string
}.
Record tlsProfile := TLSProfile {
  t_mode : string; t_cert : string; t_key : string; t_min : string; t_subdomain : string;
  t_client_ca : string; t_refresh : Z
}.
Record anchor := Anchor { an_type : string; an_path : string }.
Record vaultCreate := VaultCreate {
  vc_recipients : list string; vc_masters : list string; vc_sign_with : string; vc_writers : list string;
  vc_page_size : Z; vc_block_size : Z; vc_dir_segment_pages : Z
}.
Record vaultConfig := VaultConfig {
  v_compression : string; v_cipher : string; v_key : string; v_identities : list string;
  v_write_as : string; v_masters : list string; v_authenticate : bool;
  v_anchor : option anchor; v_create : option vaultCreate
}.
Record pool := Pool { pl_max_open : Z; pl_txlock : string; pl_busy : Z }.
(** A pragma's [any] value: a string, a boolean, an integer (YAML), a float64 holding an
    integer (a JSON number), or any other value, carried as its [fmt.Sprint] text. *)
Inductive pval : Type := PStr (s : string) | PBool (b : bool) | PInt (z : Z) | PNum (z : Z) | POther (text : string).
Record grant := Grant { g_principal : string; g_level : string }.
Record database := Database {
  db_name : string; db_backend : string; db_path : string; db_mode : string; db_pool : pool; db_preset : string;
  db_pragmas : gmap string pval; db_vault : option vaultConfig; db_grants : list grant
}.
(** A principal and, per method entry, the method names it holds. *)
Record cprincipal := CPrincipal { p_name : string; p_methods : list (list string) }.
Record sessionTokens := SessionTokens { st_enabled : bool; st_idle : Z; st_max : Z }.
Record enrollGrant := EnrollGrant { eg_db : string; eg_level : string }.
Record provision := Provision {
  pv_enabled : bool; pv_template : string; pv_backend : string; pv_vault : option vaultConfig;
  pv_preset : string; pv_pragmas : gmap string pval; pv_level : string; pv_max_bytes : Z; pv_on_revoke : string
}.
Record enroll := Enroll {
  e_enabled : bool; e_policy : string; e_tokens : list string; e_max : Z; e_rate : spec_float;
  e_grants : list enrollGrant; e_idle : Z; e_provision : provision; e_codes : bool; e_codes_ttl : Z
}.
Record cors := CORS {
  c_enabled : bool; c_origins : list string; c_max_age : Z; c_allow_headers : list string; c_expose_headers : list string
}.
Record changeFeed := ChangeFeed { f_enabled : bool; f_buffer : Z; f_max_subscribers : Z }.
Record controlPlane := ControlPlane { cp_enabled : bool; cp_admins : list string }.

Record config := Config {
  c_meta : metaStore;
  c_tls : gmap string tlsProfile;
  c_listeners : list listener;
  c_principals : list cprincipal;
  c_session : sessionTokens;
  c_enroll : enroll;
  c_databases : list database;
  c_control : controlPlane;
  c_format : string;
  c_cors : cors;
  c_feed : changeFeed
}.

Definition AnyGrants (dbs : list database) : bool := existsb (fun d => negb (bool_decide (db_grants d = []))) dbs.
Definition AuthConfigured (c : config) : bool :=
  negb (bool_decide (c_principals c = [])) || AnyGrants (c_databases c).

(** ** Defaults *)

Definition or_str (s d : string) : string := if String.eqb s "" then d else s.
Definition or_Z (n d : Z) : Z := if n =? 0 then d else n.
(** The float64 0.1. *)
Definition f_tenth : spec_float := S754_finite false 7205759403792794 (-56).
Definition f_zero : spec_float := S754_zero false.

Definition default_provision (p : provision) : provision :=
  if pv_enabled p then
    Provision true (or_str (pv_template p) "{principal}") (or_str (pv_backend p) "vault") (pv_vault p)
              (pv_preset p) (pv_pragmas p) (or_str (pv_level p) "read-write") (pv_max_bytes p) (or_str (pv_on_revoke p) "keep")
  else p.

Definition default_enroll (e : enroll) : enroll :=
  if e_enabled e then
    Enroll true (or_str (e_policy e) "token") (e_tokens e) (or_Z (e_max e) 1000)
           (if SFeqb (e_rate e) f_zero then f_tenth else e_rate e) (e_grants e) (e_idle e)
           (default_provision (e_provision e)) (e_codes e)
           (if e_codes e then or_Z (e_codes_ttl e) (24 * 3600 * second) else e_codes_ttl e)
  else e.

Definition default_db (d : database) : database :=
  Database (db_name d) (db_backend d) (db_path d) (or_str (db_mode d) "rwc") (db_pool d) (db_preset d) (db_pragmas d)
    (db_vault d) (db_grants d).

Definition applyDefaults (c : config) : config :=
  Config (MetaStore (or_str (ms_backend (c_meta c)) "vault") (or_str (ms_path (c_meta c)) "_meta.vault"))
    (c_tls c) (c_listeners c) (c_principals c)
    (SessionTokens (st_enabled (c_session c))
       (if st_enabled (c_session c) then or_Z (st_idle (c_session c)) (15 * 60 * second) else st_idle (c_session c))
       (st_max (c_session c)))
    (default_enroll (c_enroll c))
    (map default_db (c_databases c))
    (c_control c) (c_format c)
    (if c_enabled (c_cors c) then
       CORS true (match c_origins (c_cors c) with [] => ["*"%string] | l => l end) (or_Z (c_max_age (c_cors c)) (2 * 3600 * second))
         (c_allow_headers (c_cors c)) (c_expose_headers (c_cors c))
     else c_cors c)
    (if f_enabled (c_feed c) then
       ChangeFeed true (or_Z (f_buffer (c_feed c)) 1024) (or_Z (f_max_subscribers (c_feed c)) 128)
     else c_feed c).

(** ** Validation

    [cerr] names what was refused.  Warnings are the messages of a run that succeeds. *)

Inductive cerr : Type := CErr (what : string).
Definition refuse {A} (what : string) : result cerr A := Err (CErr what).
Definition guard (ok : bool) (what : string) : result cerr unit := if ok then Ok tt else refuse what.

Fixpoint each {A} (f : A -> result cerr unit) (l : list A) : result cerr unit :=
  match l with [] => Ok tt | x :: r => let* _ := f x in each f r end.

Definition grantLevels : list string := ["none"; "read-only"; "read-write"; "admin"]%string.
Definition vaultCompression : list string := [""; "none"; "fastest"; "fast"; "default"; "better"; "best"]%string.
Definition vaultCiphers : list string := [""; "adiantum"; "aes-xts"]%string.
Definition vaultAnchors : list string := [""; "file"; "tpm"; "kms"]%string.

Definition validateVault (d : database) : result cerr unit :=
  match db_vault d with
  | None => Ok tt
  | Some v =>
      let* _ := guard (String.eqb (db_backend d) "vault") "vault block" in
      let* _ := guard (mem_string (v_compression v) vaultCompression) "vault.compression" in
      let* _ := guard (mem_string (v_cipher v) vaultCiphers) "vault.cipher" in
      let* _ := guard (match v_anchor v with Some a => mem_string (an_type a) vaultAnchors | None => true end) "vault.anchor" in
      guard (negb (negb (String.eqb (v_key v) "") && negb (bool_decide (v_identities v = [])))) "key and identities"
  end.

Definition ValidateDatabase (d : database) : result cerr unit :=
  let* _ := guard (negb (String.eqb (db_name d) "")) "empty name" in
  let* _ := guard (ValidDBName (db_name d)) "name" in
  let* _ := guard (negb (String.eqb (db_backend d) "")) "missing backend" in
  let* _ := guard (mem_string (db_backend d) KnownBackends) "backend" in
  let* _ := guard (mem_string (db_mode d) [""; "rw"; "ro"; "rwc"]%string) "mode" in
  let* _ := guard (mem_string (pl_txlock (db_pool d)) [""; "deferred"; "immediate"; "exclusive"]%string) "tx_lock" in
  let* _ := guard (mem_string (db_preset d) [""; "recommended"]%string) "pragmas_preset" in
  validateVault d.

(** The seeds in order, against the names seen so far. *)
Fixpoint validate_dbs (seen : list string) (dbs : list database) : result cerr unit :=
  match dbs with
  | [] => Ok tt
  | d :: r =>
      let* _ := ValidateDatabase d in
      let* _ := guard (negb (mem_string (db_name d) seen)) "duplicate database" in
      validate_dbs (db_name d :: seen) r
  end.

Definition transportFamily (t : string) : string :=
  if String.eqb t "h3" then "udp" else if String.eqb t "unix" then "unix" else "tcp".

Definition transports : list string := ["h1"; "h2"; "h2c"; "h3"; "unix"]%string.

Definition validQIPZone (zone : string) : bool :=
  all_chars (fun c => alnum c || Ascii.eqb c "." || Ascii.eqb c "-") zone.

(** [bound]: the (family, address) pairs taken so far. *)
Fixpoint validate_listeners (tls : gmap string tlsProfile) (bound : list (string * string)) (ls : list listener)
    : result cerr unit :=
  match ls with
  | [] => Ok tt
  | l :: r =>
      let* _ := guard (mem_string (l_transport l) transports) "transport" in
      let* _ := guard (negb ((String.eqb (l_transport l) "h2" || String.eqb (l_transport l) "h3") && String.eqb (l_tls l) ""))
                      "requires a tls profile" in
      let* _ := guard (String.eqb (l_tls l) "" || bool_decide (is_Some (tls !! l_tls l))) "unknown tls profile" in
      let* _ := guard (negb (l_advertise l && negb (String.eqb (l_transport l) "h3"))) "advertise" in
      if String.eqb (l_address l) "" then validate_listeners tls bound r
      else
        let k := (transportFamily (l_transport l), l_address l) in
        let* _ := guard (negb (bool_decide (k ∈ bound))) "both bind" in
        validate_listeners tls (k :: bound) r
  end.

Definition validate_profile (p : tlsProfile) : result cerr unit :=
  let* _ :=
    if String.eqb (t_mode p) "self_signed" then Ok tt
    else if String.eqb (t_mode p) "qip" then guard (validQIPZone (t_subdomain p)) "qip subdomain"
    else if String.eqb (t_mode p) "files"
      then guard (negb (String.eqb (t_cert p) "" || String.eqb (t_key p) "")) "needs cert and key"
    else refuse "mode" in
  guard (mem_string (t_min p) [""; "1.2"; "1.3"]%string) "min_version".

Definition validateTransports (c : config) : result cerr unit :=
  let* _ := validate_listeners (c_tls c) [] (c_listeners c) in
  each (fun np => validate_profile np.2) (map_to_list (c_tls c)).

Definition method_ok (c : config) (l : listener) (m : string) : result cerr unit :=
  let* _ := guard (mem_string m ListenerAuthMethods) "unknown auth method" in
  let* _ := guard (negb (String.eqb m "peercred" && negb (String.eqb (l_transport l) "unix"))) "peercred" in
  let* _ := guard (negb (String.eqb m "mtls" && String.eqb (l_tls l) "")) "mtls" in
  guard (negb (String.eqb m "session" && negb (st_enabled (c_session c)))) "session".

Definition ProvisionPageSize : Z := 4096.
Definition provisionVaultEncrypted (v : option vaultConfig) : bool :=
  match v with
  | None => false
  | Some v => negb (String.eqb (v_key v) "") ||
              match v_create v with Some cr => negb (bool_decide (vc_recipients cr = [])) | None => false end
  end.

Definition ValidateProvision (p : provision) : result cerr (list string) :=
  let* _ := guard (contains (or_str (pv_template p) "{principal}") "{principal}") "name_template" in
  let* _ := guard (String.eqb (pv_backend p) "" || mem_string (pv_backend p) KnownBackends) "backend" in
  let* _ := guard (mem_string (pv_level p) [""; "read-only"; "read-write"]%string) "level" in
  let* _ := guard (mem_string (pv_on_revoke p) [""; "keep"; "drop"]%string) "on_revoke" in
  let* _ := guard (0 <=? pv_max_bytes p) "max_bytes negative" in
  let* _ := guard (negb ((pv_max_bytes p >? 0) && (pv_max_bytes p <? ProvisionPageSize))) "max_bytes below a page" in
  let* _ := guard (negb (bool_decide (is_Some (pv_vault p)) && negb (String.eqb (pv_backend p) "") &&
                         negb (String.eqb (pv_backend p) "vault"))) "vault block" in
  Ok (if (String.eqb (pv_backend p) "" || String.eqb (pv_backend p) "vault") && negb (provisionVaultEncrypted (pv_vault p))
      then ["NOT encrypted at rest"%string] else []).

Definition validateEnroll (c : config) : result cerr (list string) :=
  let e := c_enroll c in
  if negb (e_enabled e) then Ok [] else
  let* _ := guard (AuthConfigured c) "requires explicit auth" in
  let* _ := guard (cp_enabled (c_control c)) "requires control_plane.enabled" in
  let* _ := guard (mem_string (e_policy e) ["open"; "token"]%string) "policy" in
  let* _ := guard (negb (String.eqb (e_policy e) "token" && bool_decide (e_tokens e = []) && negb (e_codes e))) "tokens" in
  let* _ := guard (negb ((e_max e <? 0) || SFltb (e_rate e) f_zero || (e_codes_ttl e <? 0) || (e_idle e <? 0))) "quotas" in
  let w := if bool_decide (e_grants e = []) then ["auth.enroll.grants is empty"%string] else [] in
  let* _ := each (fun g =>
              let* _ := guard (ValidDBName (eg_db g)) "grants database" in
              guard (mem_string (eg_level g) ["read-only"; "read-write"]%string) "grants level") (e_grants e) in
  if pv_enabled (e_provision e) then let* w' := ValidateProvision (e_provision e) in Ok (w ++ w') else Ok w.

(** The principals in order, against the names seen so far. *)
Fixpoint validate_principals (seen : list string) (ps : list cprincipal) : result cerr (list string) :=
  match ps with
  | [] => Ok seen
  | p :: r =>
      let* _ := guard (negb (String.eqb (p_name p) "")) "empty name" in
      let* _ := guard (negb (has_prefix "u_" (p_name p))) "reserved u_ prefix" in
      let* _ := guard (negb (mem_string (p_name p) seen)) "duplicate principal" in
      let* _ := each (fun m =>
                  let* _ := guard (length m =? 1)%nat "exactly one method" in
                  each (fun name => guard (mem_string name KnownAuthMethods) "credential method") m) (p_methods p) in
      validate_principals (p_name p :: seen) r
  end.

Definition validateAuth (c : config) : result cerr (list string) :=
  let* _ := each (fun l => each (method_ok c l) (l_auth l)) (c_listeners c) in
  let s := c_session c in
  let* _ := guard (negb ((st_idle s <? 0) || (st_max s <? 0))) "session ttl negative" in
  let* _ := guard (negb ((st_max s >? 0) && (st_max s <? st_idle s))) "max_ttl" in
  let w := if st_enabled s && (st_idle s >? 24 * 3600 * second) then ["idle_ttl exceeds 24h"%string] else [] in
  let* we := validateEnroll c in
  let* principals := validate_principals [] (c_principals c) in
  let* _ := each (fun d => each (fun g =>
              let* _ := guard (mem_string (g_level g) grantLevels) "grant level" in
              guard (String.eqb (g_principal g) "*" || mem_string (g_principal g) principals) "unknown principal")
              (db_grants d)) (c_databases c) in
  let* _ := guard (negb (cp_enabled (c_control c) && bool_decide (cp_admins (c_control c) = []))) "control_plane.admins" in
  let* _ := each (fun a => guard (mem_string a principals) "control_plane admin") (cp_admins (c_control c)) in
  Ok (w ++ we).

Definition origin_ok (o : string) : bool :=
  match (match cut_prefix "https://" o with Some r => Some r | None => cut_prefix "http://" o end) with
  | Some rest => negb (String.eqb rest "" || contains_any rest ("/ " +:+ tab +:+ "*"))
  | None => false
  end.

Definition validateCORS (c : config) : result cerr unit :=
  if negb (c_enabled (c_cors c)) then Ok tt else
  let* _ := each (fun o => guard (negb (String.eqb o "*" && negb (AuthConfigured c))) "wildcard without auth") (c_origins (c_cors c)) in
  let* _ := each (fun o => if String.eqb o "*" then Ok tt
                           else let* _ := guard (negb (String.eqb o "null")) "null" in guard (origin_ok o) "origin")
                 (c_origins (c_cors c)) in
  guard (0 <=? c_max_age (c_cors c)) "max_age".

Definition Validate (c : config) : result cerr (list string) :=
  let* _ := guard (mem_string (ms_backend (c_meta c)) [""; "vault"; "file"]%string) "meta_store backend" in
  let* _ := validate_dbs [] (c_databases c) in
  let* _ := validateTransports c in
  let* w := validateAuth c in
  let* _ := validateCORS c in
  let* _ := guard (negb ((f_buffer (c_feed c) <? 0) || (f_max_subscribers (c_feed c) <? 0))) "changefeed" in
  let* _ := guard (mem_string (c_format c) [""; "text"; "json"]%string) "logging.format" in
  Ok w.

(** What [Load] does with the decoded file. *)
Definition Load (c : config) : result cerr (config * list string) :=
  let c := applyDefaults c in let* w := Validate c in Ok (c, w).

(** ** Containment *)

Definition plain_seg (s : string) : Prop := s <> ""%string /\ s <> "."%string /\ s <> ".."%string.

(** A cleaned path is dot-dots (none when rooted) followed by plain names. *)
Definition clean_shape (r : bool) (l : list string) : Prop :=
  exists k names, l = replicate k ".."%string ++ names /\ Forall plain_seg names /\ (r = true -> k = 0%nat).

Lemma clean_step_shape r stack seg :
  clean_shape r (rev stack) -> clean_shape r (rev (clean_step r stack seg)).
Proof.
  intros (k & names & Heq & Hn & Hk). unfold clean_step.
  destruct (String.eqb_spec seg ""); [by exists k, names|].
  destruct (String.eqb_spec seg "."); [by exists k, names|]. cbn [orb].
  destruct (String.eqb_spec seg "..") as [->|].
  - destruct stack as [|top rest].
    + destruct r; [by exists 0%nat, []|]. by exists 1%nat, [].
    + cbn [rev] in Heq. destruct (String.eqb_spec top "..") as [->|Hne].
      * assert (names = []) as ->.
        { destruct names as [|x l _] using rev_ind; [done|]. rewrite app_assoc in Heq.
          apply app_inj_tail in Heq as [_ <-]. apply Forall_app in Hn as [_ Hn].
          inversion Hn as [|? ? Hp]; subst. by destruct Hp as (_ & _ & ?). }
        exists (Datatypes.S k), []. rewrite app_nil_r in *. cbn [rev]. rewrite Heq.
        split; [by rewrite <- replicate_S_end|]. split; [done|].
        intros Hr. specialize (Hk Hr). subst k. cbn in Heq. by destruct (rev rest).
      * destruct names as [|x l _] using rev_ind.
        -- rewrite app_nil_r in Heq. destruct k as [|k]; [by destruct (rev rest)|].
           rewrite replicate_S_end in Heq. apply app_inj_tail in Heq as [_ ?]. congruence.
        -- rewrite app_assoc in Heq. apply app_inj_tail in Heq as [Heq _].
           apply Forall_app in Hn as [Hn _]. by exists k, l.
  - exists k, (names ++ [seg]). cbn [rev]. rewrite Heq, app_assoc. split; [done|].
    split; [|done]. apply Forall_app. split; [done|]. by constructor.
Qed.

Lemma clean_fold_shape r l : forall stack,
  clean_shape r (rev stack) -> clean_shape r (rev (fold_left (clean_step r) l stack)).
Proof. induction l as [|s l IH]; intros stack H; [done|]. by apply IH, clean_step_shape. Qed.

Lemma Clean_shape p : clean_shape (rooted (Clean p)) (segs (Clean p)).
Proof. apply clean_fold_shape. by exists 0%nat, []. Qed.

Lemma strip_common_spec b : forall t, exists c,
  b = c ++ (strip_common b t).1 /\ t = c ++ (strip_common b t).2.
Proof.
  induction b as [|x b IH]; intros [|y t]; cbn [strip_common]; try by exists [].
  destruct (String.eqb_spec x y) as [->|]; [|by exists []].
  destruct (IH t) as (c & H1 & H2). exists (y :: c). cbn [app]. by rewrite <- H1, <- H2.
Qed.

Lemma strip_common_app b t : strip_common b (b ++ t) = ([], t).
Proof. induction b as [|x b IH]; [by destruct t|]. cbn [app strip_common]. by rewrite String.eqb_refl. Qed.

Lemma shape_after r k names c rest :
  replicate k ".."%string ++ names = c ++ rest -> Forall plain_seg names -> clean_shape r (c ++ rest) ->
  ".."%string ∉ rest \/ exists rest', rest = ".."%string :: rest'.
Proof.
  intros Heq Hn _. destruct rest as [|x rest]; [left; apply not_elem_of_nil|].
  destruct (decide (x = "..")%string) as [->|Hx]; [right; by eexists|]. left.
  assert (Hk : (k <= length c)%nat).
  { apply Nat.le_ngt. intros Hlt.
    assert (H : (replicate k ".."%string ++ names) !! length c = Some x).
    { rewrite Heq, lookup_app_r by lia. by rewrite Nat.sub_diag. }
    rewrite lookup_app_l in H by (rewrite length_replicate; lia).
    apply lookup_replicate in H as [? _]. congruence. }
  assert (Hin : forall s, s ∈ x :: rest -> s ∈ names).
  { intros s Hs. assert (Hd : x :: rest = drop (length c - k) names).
    { rewrite <- (drop_app_length' c (x :: rest) (length c)) by done. rewrite <- Heq, drop_app_ge by (rewrite length_replicate; lia).
      by rewrite length_replicate. }
    rewrite Hd in Hs. rewrite <- (take_drop (length c - k) names). set_solver. }
  intros H%Hin. rewrite Forall_forall in Hn. by destruct (Hn _ H) as (_ & _ & ?).
Qed.

(** The segments of a path joined below a directory. *)
Lemma split_app c a b : split_char c (a +:+ String c b) = split_char c a ++ split_char c b.
Proof.
  induction a as [|x a IH].
  - rewrite sapp_nil. cbn [split_char]. by rewrite Ascii.eqb_refl.
  - rewrite sapp_cons. cbn [split_char]. rewrite IH. destruct (Ascii.eqb x c); [done|].
    by destruct (split_char c a) as [|w ws] eqn:E; [destruct a as [|y a]; cbn in E; [done|];
      destruct (Ascii.eqb y c); [done|destruct (split_char c a)]|].
Qed.

Lemma clean_plain r ps stack : Forall plain_seg ps -> fold_left (clean_step r) ps stack = rev ps ++ stack.
Proof.
  intros H. revert stack. induction H as [|p ps (H1 & H2 & H3) _ IH]; intros stack; [done|].
  cbn [fold_left rev]. rewrite IH, <- app_assoc. unfold clean_step.
  by rewrite !(proj2 (String.eqb_neq _ _)) by done.
Qed.

Lemma IsAbs_app d p : d <> ""%string -> IsAbs (d +:+ p) = IsAbs d.
Proof. destruct d as [|c d]; [done|]. intros _. rewrite sapp_cons. unfold IsAbs, has_prefix. cbn [cut_prefix]. by destruct (Ascii.eqb _ c). Qed.

Lemma Join_plain dir p :
  dir <> ""%string -> p <> ""%string -> Forall plain_seg (split_char slash p) ->
  Join dir p = CPath (rooted (Clean dir)) (segs (Clean dir) ++ split_char slash p).
Proof.
  intros Hd Hp Hs. unfold Join. rewrite !(proj2 (String.eqb_neq _ _)) by done.
  change (dir +:+ "/" +:+ p) with (dir +:+ String slash p).
  unfold Clean, clean_segs. cbn [rooted segs]. rewrite IsAbs_app by done. f_equal.
  rewrite split_app, fold_left_app, clean_plain by done. by rewrite rev_app_distr, rev_involutive.
Qed.

Lemma WithinDir_contains_below dir p :
  dir <> ""%string -> p <> ""%string -> IsAbs p = false -> Forall plain_seg (split_char slash p) ->
  WithinDir dir p = Some (CPath (rooted (Clean dir)) (segs (Clean dir) ++ split_char slash p)).
Proof.
  intros Hd Hp Ha Hs. unfold WithinDir. rewrite !(proj2 (String.eqb_neq _ _)) by done. cbn [orb].
  rewrite Ha, Join_plain by done. unfold Rel. cbn [rooted segs]. rewrite Bool.eqb_reflx. cbn [negb].
  rewrite strip_common_app. cbn [map app].
  destruct (split_char slash p) as [|s l]; [done|]. inversion Hs as [|? ? (? & ? & H3)]; subst.
  repeat case_match; done.
Qed.

(** Below a directory: its cleaned segments, then names none of which climbs out. *)
Definition Below (dir : string) (abs : cpath) : Prop :=
  rooted abs = rooted (Clean dir) /\ exists below, segs abs = segs (Clean dir) ++ below /\ ".."%string ∉ below.

Lemma WithinDir_below dir p abs : WithinDir dir p = Some abs -> Below dir abs.
Proof.
  unfold WithinDir. destruct (_ || _); [done|].
  assert (Hc : exists q, (if IsAbs p then Clean p else Join dir p) = Clean q).
  { unfold Join. repeat case_match; by eexists. }
  destruct Hc as [q ->]. unfold Rel.
  destruct (Bool.eqb (rooted (Clean dir)) (rooted (Clean q))) eqn:Hr; [|done]. apply Bool.eqb_prop in Hr. cbn [negb].
  destruct (strip_common_spec (segs (Clean dir)) (segs (Clean q))) as (c & Hb & Ht).
  destruct (strip_common _ _) as [b t]. cbn [fst snd] in *. intros H.
  assert (b = [] /\ ".."%string ∉ t /\ abs = Clean q) as (-> & Hnd & ->).
  { destruct (Clean_shape q) as (k & names & Hs & Hn & _).
    destruct b as [|x b].
    - cbn [map app] in H. rewrite Ht in Hs. symmetry in Hs.
      destruct (shape_after (rooted (Clean q)) k names c t Hs Hn) as [Hnd|(rest & ->)].
      + rewrite <- Ht. apply Clean_shape.
      + split; [done|]. split; [done|]. repeat case_match; congruence.
      + done.
    - exfalso. cbn [map app] in H. repeat case_match; congruence. }
  rewrite app_nil_r in Hb. split; [done|]. exists t. rewrite Hb. by split.
Qed.

(** (path containment) [WithinDir dir p] only ever answers a cleaned path that is the
    cleaned directory followed by plain names: no dot-dot, absolute prefix or symbolic
    segment of [p] leads outside.  And it does not refuse what it should accept: a
    relative path made of plain names is exactly [dir/p]. *)
Theorem WithinDir_contains dir p :
  (forall abs, WithinDir dir p = Some abs ->
     rooted abs = rooted (Clean dir) /\
     exists below, segs abs = segs (Clean dir) ++ below /\ ".."%string ∉ below) /\
  (dir <> ""%string -> p <> ""%string -> IsAbs p = false -> Forall plain_seg (split_char slash p) ->
     WithinDir dir p = Some (CPath (rooted (Clean dir)) (segs (Clean dir) ++ split_char slash p))).
Proof.
  split; [exact (WithinDir_below dir p)|].
  apply WithinDir_contains_below.
Qed.

(** ** What a loaded configuration guarantees *)

Lemma guard_ok b w u : guard b w = Ok u <-> b = true.
Proof. destruct u. unfold guard. by destruct b. Qed.

Lemma each_ok {A} (f : A -> result cerr unit) l u : each f l = Ok u <-> Forall (fun x => f x = Ok tt) l.
Proof.
  destruct u. induction l as [|x l IH]; cbn [each]; [done|]. rewrite Forall_cons, <- IH.
  destruct (f x) as [[]|]; cbn [rbind]; naive_solver.
Qed.

(** Peel a chain of checks that succeeded. *)
Ltac peel H :=
  cbv beta in H;
  match type of H with
  | rbind _ _ = Ok _ =>
      let u := fresh "u" in let Hu := fresh "Hu" in
      apply rbind_ok in H as (u & Hu & H);
      first [apply guard_ok in Hu | apply each_ok in Hu | idtac]; peel H
  | guard _ _ = Ok _ => apply guard_ok in H
  | each _ _ = Ok _ => apply each_ok in H
  | _ => idtac
  end.

(** A listener's bind, when it names an address. *)
Definition bind_of (l : listener) : option (string * string) :=
  if String.eqb (l_address l) "" then None else Some (transportFamily (l_transport l), l_address l).

Record sound_config (c : config) : Prop := {
  so_names : NoDup (db_name <$> c_databases c);
  so_dbs : Forall (fun d => ValidDBName (db_name d) = true /\ db_backend d ∈ KnownBackends /\
    (is_Some (db_vault d) -> db_backend d = "vault"%string)) (c_databases c);
  so_grants : Forall (fun d => Forall (fun g => g_level g ∈ grantLevels /\
    (g_principal g = "*"%string \/ g_principal g ∈ (p_name <$> c_principals c))) (db_grants d)) (c_databases c);
  so_principals : NoDup (p_name <$> c_principals c) /\
    Forall (fun p => p_name p <> ""%string /\ has_prefix "u_" (p_name p) = false) (c_principals c);
  so_admins : Forall (fun a => a ∈ (p_name <$> c_principals c)) (cp_admins (c_control c)) /\
    (cp_enabled (c_control c) = true -> cp_admins (c_control c) <> []);
  so_enroll : e_enabled (c_enroll c) = true ->
    AuthConfigured c = true /\ cp_enabled (c_control c) = true /\
    Forall (fun g => eg_level g = "read-only" \/ eg_level g = "read-write")%string (e_grants (c_enroll c)) /\
    (pv_enabled (e_provision (c_enroll c)) = true ->
       pv_level (e_provision (c_enroll c)) ∈ [""; "read-only"; "read-write"]%string /\
       (pv_max_bytes (e_provision (c_enroll c)) = 0 \/ ProvisionPageSize <= pv_max_bytes (e_provision (c_enroll c))));
  so_cors : c_enabled (c_cors c) = true -> "*"%string ∈ c_origins (c_cors c) -> AuthConfigured c = true;
  so_listeners : Forall (fun l => Forall (fun m =>
      m ∈ ListenerAuthMethods /\ (m = "session"%string -> st_enabled (c_session c) = true) /\
      (m = "peercred"%string -> l_transport l = "unix"%string) /\ (m = "mtls"%string -> l_tls l <> ""%string))
    (l_auth l)) (c_listeners c);
  so_binds : NoDup (omap bind_of (c_listeners c))
}.

Lemma validate_dbs_ok dbs : forall seen u, validate_dbs seen dbs = Ok u ->
  NoDup (db_name <$> dbs) /\ (forall n, n ∈ seen -> n ∉ (db_name <$> dbs)) /\
  Forall (fun d => ValidateDatabase d = Ok tt) dbs.
Proof.
  induction dbs as [|d dbs IH]; intros seen u; cbn [validate_dbs fmap list_fmap].
  - intros _. split; [constructor|]. split; [set_solver|constructor].
  - intros H. peel H. destruct u0. apply IH in H as (H1 & H2 & H3).
    apply negb_true_iff in Hu0. assert (Hn : db_name d ∉ seen).
    { intros Hin%mem_string_elem. congruence. }
    split; [constructor; [apply H2; set_solver|done]|]. split; [|by constructor].
    intros n Hin [->|Hin']%elem_of_cons; [done|]. apply (H2 n); [set_solver|done].
Qed.

Lemma ValidateDatabase_ok d : ValidateDatabase d = Ok tt ->
  ValidDBName (db_name d) = true /\ db_backend d ∈ KnownBackends /\ (is_Some (db_vault d) -> db_backend d = "vault"%string).
Proof.
  unfold ValidateDatabase. intros H. peel H. split; [done|]. split; [by apply mem_string_elem|].
  intros [v Hv]. unfold validateVault in H. rewrite Hv in H. peel H. by apply String.eqb_eq.
Qed.

Lemma validate_principals_ok ps : forall seen out, validate_principals seen ps = Ok out ->
  (NoDup (p_name <$> ps) /\ (forall n, n ∈ seen -> n ∉ (p_name <$> ps))) /\
  (forall n, n ∈ out <-> n ∈ seen \/ n ∈ (p_name <$> ps)) /\
  Forall (fun p => p_name p <> ""%string /\ has_prefix "u_" (p_name p) = false) ps.
Proof.
  induction ps as [|p ps IH]; intros seen out; cbn [validate_principals fmap list_fmap].
  - intros [= <-]. split; [split; [constructor|set_solver]|]. split; [set_solver|constructor].
  - intros H. peel H. apply IH in H as ([H1 H1'] & H2 & H3).
    apply negb_true_iff in Hu, Hu0, Hu1. assert (Hn : p_name p ∉ seen).
    { intros Hin%mem_string_elem. congruence. }
    split; [split; [constructor; [apply H1'; set_solver|done]|]|].
    + intros n Hin [->|Hin']%elem_of_cons; [done|]. apply (H1' n); [set_solver|done].
    + split; [intros n; rewrite H2; set_solver|]. constructor; [|done]. split; [by apply String.eqb_neq|done].
Qed.

Lemma validate_listeners_ok tls ls : forall bound u, validate_listeners tls bound ls = Ok u ->
  NoDup (omap bind_of ls) /\ forall k, k ∈ bound -> k ∉ omap bind_of ls.
Proof.
  induction ls as [|l ls IH]; intros bound u; cbn [validate_listeners omap list_omap].
  - intros _. split; [constructor|set_solver].
  - intros H. peel H. clear Hu Hu0 Hu1 Hu2. destruct (bind_of l) as [k0|] eqn:Hk; unfold bind_of in Hk;
      destruct (String.eqb (l_address l) ""); try discriminate Hk; [|by eapply IH].
    injection Hk as <-. peel H. apply IH in H as [H1 H2]. apply negb_true_iff, bool_decide_eq_false in Hu.
    split; [constructor; [apply H2; set_solver|done]|].
    intros k Hin [->|Hin']%elem_of_cons; [done|]. apply (H2 k); [set_solver|done].
Qed.

Lemma guard_imp (a b : bool) : negb (a && negb b) = true -> a = true -> b = true.
Proof. by destruct a, b. Qed.

Lemma Forall_elem_iff {A} (P Q : A -> Prop) l : Forall P l -> (forall x, P x -> Q x) -> Forall Q l.
Proof. intros H HPQ. eapply Forall_impl; [exact H|done]. Qed.

Lemma validateEnroll_ok c w : validateEnroll c = Ok w -> e_enabled (c_enroll c) = true ->
  AuthConfigured c = true /\ cp_enabled (c_control c) = true /\
  Forall (fun g => eg_level g = "read-only" \/ eg_level g = "read-write")%string (e_grants (c_enroll c)) /\
  (pv_enabled (e_provision (c_enroll c)) = true ->
     pv_level (e_provision (c_enroll c)) ∈ [""; "read-only"; "read-write"]%string /\
     (pv_max_bytes (e_provision (c_enroll c)) = 0 \/ ProvisionPageSize <= pv_max_bytes (e_provision (c_enroll c)))).
Proof.
  unfold validateEnroll. intros H He. rewrite He in H. cbn [negb] in H. peel H.
  split; [done|]. split; [done|]. split.
  - eapply Forall_elem_iff; [exact Hu4|]. intros g Hg. peel Hg. apply mem_string_elem in Hg. set_solver.
  - intros Hp. rewrite Hp in H. peel H. unfold ValidateProvision in Hu5. peel Hu5.
    split; [by apply mem_string_elem|]. apply Z.leb_le in Hu10. apply negb_true_iff in Hu11.
    rewrite Z.gtb_ltb in Hu11. unfold ProvisionPageSize in *.
    destruct (Z.ltb_spec 0 (pv_max_bytes (e_provision (c_enroll c)))),
      (Z.ltb_spec (pv_max_bytes (e_provision (c_enroll c))) 4096); cbn in Hu11; (done || lia).
Qed.

(** The grants, the control plane's admins and the listeners' methods, against the
    configured principals. *)
Lemma validateAuth_ok c w : validateAuth c = Ok w ->
  (exists we, validateEnroll c = Ok we) /\
  (NoDup (p_name <$> c_principals c) /\
   Forall (fun p => p_name p <> ""%string /\ has_prefix "u_" (p_name p) = false) (c_principals c)) /\
  Forall (fun d => Forall (fun g => g_level g ∈ grantLevels /\
    (g_principal g = "*"%string \/ g_principal g ∈ (p_name <$> c_principals c))) (db_grants d)) (c_databases c) /\
  (Forall (fun a => a ∈ (p_name <$> c_principals c)) (cp_admins (c_control c)) /\
   (cp_enabled (c_control c) = true -> cp_admins (c_control c) <> [])) /\
  Forall (fun l => Forall (fun m => method_ok c l m = Ok tt) (l_auth l)) (c_listeners c).
Proof.
  unfold validateAuth. intros H.
  apply rbind_ok in H as (u1 & Hl & H). apply each_ok in Hl.
  apply rbind_ok in H as (u2 & _ & H). apply rbind_ok in H as (u3 & _ & H).
  apply rbind_ok in H as (we & He & H).
  apply rbind_ok in H as (ps & Hps & H). apply validate_principals_ok in Hps as ([Hp _] & Hps & Hpn).
  apply rbind_ok in H as (u4 & Hg & H). apply each_ok in Hg.
  apply rbind_ok in H as (u5 & Hne%guard_ok & H).
  apply rbind_ok in H as (u6 & Ha & _). apply each_ok in Ha.
  assert (Hmem : forall n, mem_string n ps = true -> n ∈ (p_name <$> c_principals c)).
  { intros n Hin%mem_string_elem. apply Hps in Hin. set_solver. }
  split; [by eexists|]. split; [done|]. split; [|split; [split|]].
  - eapply Forall_elem_iff; [exact Hg|]. intros d Hd. apply each_ok in Hd.
    eapply Forall_elem_iff; [exact Hd|]. intros g Hx. peel Hx. split; [by apply mem_string_elem|].
    apply orb_true_iff in Hx as [?%String.eqb_eq|Hx]; [by left|right]. by apply Hmem.
  - eapply Forall_elem_iff; [exact Ha|]. intros a Hin%guard_ok. by apply Hmem.
  - intros Hen Hnil. by rewrite Hen, bool_decide_true in Hne by done.
  - eapply Forall_elem_iff; [exact Hl|]. intros l Hx. by apply each_ok in Hx.
Qed.

Lemma method_ok_sound c l m : method_ok c l m = Ok tt ->
  m ∈ ListenerAuthMethods /\ (m = "session"%string -> st_enabled (c_session c) = true) /\
  (m = "peercred"%string -> l_transport l = "unix"%string) /\ (m = "mtls"%string -> l_tls l <> ""%string).
Proof.
  unfold method_ok. intros H.
  apply rbind_ok in H as (? & Hk%guard_ok & H). apply rbind_ok in H as (? & Hp%guard_ok & H).
  apply rbind_ok in H as (? & Hm%guard_ok & Hs%guard_ok).
  split; [by apply mem_string_elem|]. split; [|split].
  - intros ->. by apply (guard_imp _ _ Hs).
  - intros ->. by apply String.eqb_eq, (guard_imp _ _ Hp).
  - intros ->. apply String.eqb_neq. by destruct (String.eqb (l_tls l) "").
Qed.

Lemma validateCORS_ok c u : validateCORS c = Ok u ->
  c_enabled (c_cors c) = true -> "*"%string ∈ c_origins (c_cors c) -> AuthConfigured c = true.
Proof.
  unfold validateCORS. intros H Hc Hin. rewrite Hc in H. cbn [negb] in H.
  apply rbind_ok in H as (? & Ho%each_ok & _). rewrite Forall_forall in Ho.
  specialize (Ho _ Hin). apply guard_ok in Ho. by apply (guard_imp _ _ Ho).
Qed.

Lemma Validate_sound c w : Validate c = Ok w -> sound_config c.
Proof.
  unfold Validate. intros H.
  apply rbind_ok in H as (? & _ & H).
  apply rbind_ok in H as (? & (Hn & _ & Hd)%validate_dbs_ok & H).
  apply rbind_ok in H as (? & Ht & H). apply rbind_ok in Ht as (? & [Hb _]%validate_listeners_ok & _).
  apply rbind_ok in H as (? & ((we & He) & Hp & Hg & Ha & Hl)%validateAuth_ok & H).
  apply rbind_ok in H as (? & Hc & _).
  constructor; try done.
  - eapply Forall_elem_iff; [exact Hd|]. apply ValidateDatabase_ok.
  - by eapply validateEnroll_ok.
  - by eapply validateCORS_ok.
  - eapply Forall_elem_iff; [exact Hl|]. intros l Hx.
    eapply Forall_elem_iff; [exact Hx|]. apply method_ok_sound.
Qed.

(** ** Loading *)

Lemma or_str_idem s d : or_str (or_str s d) d = or_str s d.
Proof. unfold or_str. destruct (String.eqb s "") eqn:H; [by destruct (String.eqb d "")|by rewrite H]. Qed.
Lemma or_Z_idem n d : or_Z (or_Z n d) d = or_Z n d.
Proof. unfold or_Z. destruct (n =? 0) eqn:H; [by destruct (d =? 0)|by rewrite H]. Qed.

Lemma default_provision_idem p : default_provision (default_provision p) = default_provision p.
Proof.
  unfold default_provision. destruct (pv_enabled p) eqn:E; [|by rewrite E].
  cbn [pv_enabled pv_template pv_backend pv_vault pv_preset pv_pragmas pv_level pv_max_bytes pv_on_revoke]. by rewrite !or_str_idem.
Qed.

Lemma default_enroll_idem e : default_enroll (default_enroll e) = default_enroll e.
Proof.
  unfold default_enroll. destruct (e_enabled e) eqn:E; [|by rewrite E].
  cbn [e_enabled e_policy e_tokens e_max e_rate e_grants e_idle e_provision e_codes e_codes_ttl].
  rewrite or_str_idem, or_Z_idem, default_provision_idem. f_equal.
  - destruct (SFeqb (e_rate e) f_zero) eqn:H; [reflexivity|by rewrite H].
  - destruct (e_codes e); [apply or_Z_idem|done].
Qed.

Lemma applyDefaults_idem c : applyDefaults (applyDefaults c) = applyDefaults c.
Proof.
  unfold applyDefaults. cbn [c_meta c_tls c_listeners c_principals c_session c_enroll c_databases c_control c_format
    c_cors c_feed ms_backend ms_path st_enabled st_idle st_max].
  rewrite !or_str_idem, default_enroll_idem. f_equal.
  - f_equal. destruct (st_enabled (c_session c)); [apply or_Z_idem|done].
  - rewrite map_map. apply map_ext. intros d. unfold default_db.
    cbn [db_name db_backend db_path db_mode db_pool db_preset db_pragmas db_vault db_grants]. by rewrite or_str_idem.
  - destruct (c_enabled (c_cors c)) eqn:E; [|by rewrite E]. cbn [c_enabled c_origins c_max_age].
    rewrite or_Z_idem. f_equal. by destruct (c_origins (c_cors c)).
  - destruct (f_enabled (c_feed c)) eqn:E; [|by rewrite E]. cbn [f_enabled f_buffer f_max_subscribers].
    by rewrite !or_Z_idem.
Qed.

Lemma Load_sound c0 c w : Load c0 = Ok (c, w) -> sound_config c.
Proof. unfold Load. cbv zeta. intros (w' & Hv & [= <- <-])%rbind_ok. by eapply Validate_sound. Qed.

(** C35: (validation soundness) A configuration that loads has unique, routable database
    names on known backends; grants of known levels to configured principals or the
    wildcard; unique principals, none in the [u_] namespace; a control plane only with
    admins, all configured principals; enrollment only with authentication and the
    control plane on, and never an admin grant from its templates; no wildcard CORS
    origin on an open server; listener methods usable on their transport; and no two
    listeners on one address of one socket family.  Defaulting is settled: loading the
    loaded configuration changes nothing and passes again. *)
Theorem Load_is_safe c0 c w :
  Load c0 = Ok (c, w) -> sound_config c /\ Load c = Ok (c, w).
Proof.
  intros H. split; [by eapply Load_sound|]. revert H. unfold Load. cbv zeta. intros (w' & Hv & [= <- <-])%rbind_ok.
  by rewrite applyDefaults_idem, Hv.
Qed.

(** (names) A valid database name is a single plain path segment that cannot be taken
    for anything else: it holds no separator, is not a dot or dot-dot, does not start like
    a reserved path, is no endpoint, and joined below a directory stays below it. *)
Theorem ValidDBName_is_one_segment s dir :
  ValidDBName s = true -> dir <> ""%string ->
  split_char slash s = [s] /\ plain_seg s /\ has_prefix "_" s = false /\ s ∉ EndpointTokens /\ s ∉ Reserved /\
  WithinDir dir s = Some (CPath (rooted (Clean dir)) (segs (Clean dir) ++ [s])).
Proof.
  intros Hv Hd. unfold ValidDBName in Hv.
  destruct (_ || _ || _) eqn:H1; [done|]. destruct (has_prefix "_" s || _) eqn:H2; [done|].
  destruct (mem_string s EndpointTokens) eqn:H3; [done|].
  apply orb_false_iff in H1 as [[H1 H1']%orb_false_iff H1'']. apply orb_false_iff in H2 as [H2 H2'].
  apply String.eqb_neq in H1, H1', H1''.
  assert (Hs : split_char slash s = [s]).
  { clear -Hv. induction s as [|c s IH]; [done|]. cbn [all_chars] in Hv. apply andb_true_iff in Hv as [Hc Hr].
    cbn [split_char]. rewrite IH by done. destruct (Ascii.eqb_spec c slash) as [->|]; [by vm_compute in Hc|done]. }
  assert (Hp : plain_seg s) by done.
  assert (Hnot : forall l, mem_string s l = false -> s ∉ l).
  { intros l Hf Hin%mem_string_elem. congruence. }
  split; [done|]. split; [done|]. split; [done|]. split; [by apply Hnot|]. split; [by apply Hnot|].
  assert (Ha : IsAbs s = false).
  { destruct s as [|c s]; [done|]. cbn [all_chars] in Hv. apply andb_true_iff in Hv as [Hc _].
    unfold IsAbs, has_prefix. cbn [cut_prefix]. destruct (Ascii.eqb_spec "/" c) as [<-|]; [by vm_compute in Hc|done]. }
  rewrite <- Hs. apply WithinDir_contains_below; try done. rewrite Hs. by constructor.
Qed.

(** ** Witnesses *)

Definition demo_enroll : enroll :=
  Enroll true "" ["t"%string] 0 f_zero [EnrollGrant "shared" "read-only"] 0
    (Provision true "" "" None "" ∅ "" 8192 "") false 0.
Definition demo_config : config :=
  Config (MetaStore "" "") {[ "web"%string := TLSProfile "self_signed" "" "" "1.3" "" "" 0 ]}
    [Listener "tcp" "h2" ":443" "web" ["session"; "keyring"] false ""; Listener "quic" "h3" ":443" "web" ["mtls"] true ""]%string
    [CPrincipal "ops" [["keyring"]; ["mtls"]]]%string
    (SessionTokens true 0 0) demo_enroll
    [Database "app" "vault" "app.vault" "" (Pool 0 "immediate" 0) "recommended" ∅
       (Some (VaultConfig "fast" "adiantum" "env:k" [] "" [] false None None))
       [Grant "ops" "admin"; Grant "*" "read-only"]]%string
    (ControlPlane true ["ops"%string]) "json" (CORS true [] 0 [] []) (ChangeFeed true 0 0).

Lemma Load_is_safe_witness : exists c w, Load demo_config = Ok (c, w) /\ sound_config c /\ w = ["NOT encrypted at rest"%string].
Proof.
  destruct (Load demo_config) as [[c w]|] eqn:E; [|vm_compute in E; discriminate E].
  exists c, w. split; [reflexivity|]. split; [exact (proj1 (Load_is_safe demo_config c w E))|].
  vm_compute in E. injection E as _ <-. reflexivity.
Defined.

Lemma WithinDir_contains_witness :
  WithinDir "/var/lib/q" "a/../b.db" = Some (CPath true ["var"; "lib"; "q"; "b.db"]%string) /\
  ".."%string ∉ ["b.db"%string] /\
  WithinDir "/var/lib/q" "a/../../etc" = None /\ WithinDir "/var/lib/q" "/etc/passwd" = None /\
  WithinDir "data" "app.db" = Some (CPath false ["data"; "app.db"]%string).
Proof.
  assert (E : WithinDir "/var/lib/q" "a/../b.db" = Some (CPath true ["var"; "lib"; "q"; "b.db"]%string)) by reflexivity.
  split; [exact E|]. split.
  - destruct (proj1 (WithinDir_contains "/var/lib/q" "a/../b.db") _ E) as (_ & below & Hs & Hn).
    change (["var"; "lib"; "q"]%string ++ ["b.db"%string] = ["var"; "lib"; "q"]%string ++ below) in Hs.
    apply (inj (app _)) in Hs. rewrite Hs. exact Hn.
  - split; [reflexivity|]. split; reflexivity.
Defined.

Lemma ValidDBName_is_one_segment_witness :
  ValidDBName "users-2.v1" = true /\
  WithinDir "data" "users-2.v1" = Some (CPath false ["data"; "users-2.v1"]%string).
Proof.
  split; [reflexivity|].
  destruct (ValidDBName_is_one_segment "users-2.v1" "data" eq_refl ltac:(discriminate)) as (_ & _ & _ & _ & _ & H).
  exact H.
Defined.
