(* ===== verification/Secret.v ===== *)
(** * secret: references to key material

    [src/secret/secret.go].  A reference is ["source:name"]; the declared source says where
    the bytes come from: an environment variable, a file below the source's directory, or
    the output of an operator's command.  The environment, the file system and the commands
    are a [system]; the keyring constructors that read the bytes are parameters. *)
From S2P Require Import Prelude GoStd Config.

Record SecretSource := Source { s_name : string; s_type : string; s_dir : string; s_command : list string }.

(** [ErrRead]: every failure that is neither a malformed reference nor an unknown source. *)
Inductive secerr : Type := ErrMalformedRef | ErrUnknownSource | ErrRead.
#[export] Instance secerr_eq_dec : EqDecision secerr.
Proof. solve_decision. Defined.

(** A finished command: what it wrote to stdout, write by write, and whether it succeeded. *)
Record kms_run := KmsRun { k_writes : list string; k_ok : bool }.

Record system := System {
  sys_env : string -> option string;
  sys_file : cpath -> option string;
  sys_exec : list string -> string -> kms_run   (* argv, $QUICSQL_SECRET_NAME *)
}.

Record mapResolver := MapResolver { sources : gmap string SecretSource }.

Definition New (srcs : list SecretSource) : option mapResolver :=
  if existsb (fun s => String.eqb (s_name s) "") srcs then None
  else Some (MapResolver (fold_left (fun m s => <[s_name s := s]> m) srcs ∅)).

(** ** Commands *)

Definition maxKMSOutput : Z := 1048576.

(** [cappedBuffer.Write]: refuses to grow past the limit. *)
Definition cappedBuffer_Write (limit : Z) (buf p : string) : option string :=
  if Z.of_nat (String.length buf) + Z.of_nat (String.length p) >? limit then None else Some (buf +:+ p).

(** The copy of the command's output, up to the first refused write. *)
Fixpoint write_all (limit : Z) (buf : string) (ps : list string) : option string :=
  match ps with
  | [] => Some buf
  | p :: r => match cappedBuffer_Write limit buf p with Some b => write_all limit b r | None => None end
  end.

Definition runKMSCommand (sys : system) (src : SecretSource) (name : string) : result secerr string :=
  match s_command src with
  | [] => Err ErrRead
  | argv =>
      let r := sys_exec sys argv name in
      match write_all maxKMSOutput "" (k_writes r) with
      | None => Err ErrRead
      | Some out => if negb (k_ok r) || String.eqb out "" then Err ErrRead else Ok out
      end
  end.

(** ** References *)

Definition lookup_ref (m : mapResolver) (ref : string) : result secerr (SecretSource * string) :=
  let '(src, name, ok) := cut_char ":" ref in
  if negb ok then Err ErrMalformedRef
  else match sources m !! src with Some s => Ok (s, name) | None => Err ErrUnknownSource end.

Definition Bytes (sys : system) (m : mapResolver) (ref : string) : result secerr string :=
  let* (src, name) := lookup_ref m ref in
  if String.eqb (s_type src) "env" then of_opt ErrRead (sys_env sys name)
  else if String.eqb (s_type src) "file" then
    match WithinDir (s_dir src) name with
    | None => Err ErrRead
    | Some full => of_opt ErrRead (sys_file sys full)
    end
  else if String.eqb (s_type src) "kms" then runKMSCommand sys src name
  else Err ErrRead.

(** ** Keyring material, by the shape of the bytes *)

Definition isPrivateKeyPEM (b : string) : bool := has_prefix "-----BEGIN" (trim_space b).
Definition isAuthorizedKeyLine (b : string) : bool :=
  let t := trim_space b in has_prefix "ssh-" t || has_prefix "ecdsa-" t || has_prefix "sk-" t.

Section Keyring.
Context {K : Type}.
Variable SSHIdentity PassphraseIdentity SSHRecipient PassphraseRecipient SSHMasterIdentity SSHMasterRecipient
  : string -> option K.

(** The interface the backends and the authenticator resolve through. *)
Record Resolver := MkResolver {
  RBytes : string -> result secerr string;
  RIdentity : string -> result secerr K;
  RRecipient : string -> result secerr K;
  RMasterIdentity : string -> result secerr K;
  RMasterRecipient : string -> result secerr K
}.

Definition Identity (sys : system) (m : mapResolver) (ref : string) : result secerr K :=
  let* b := Bytes sys m ref in
  of_opt ErrRead (if isPrivateKeyPEM b then SSHIdentity b else PassphraseIdentity (trim_space b)).
Definition Recipient (sys : system) (m : mapResolver) (ref : string) : result secerr K :=
  let* b := Bytes sys m ref in
  of_opt ErrRead (if isAuthorizedKeyLine b then SSHRecipient b else PassphraseRecipient (trim_space b)).
Definition MasterIdentity (sys : system) (m : mapResolver) (ref : string) : result secerr K :=
  let* b := Bytes sys m ref in of_opt ErrRead (SSHMasterIdentity b).
Definition MasterRecipient (sys : system) (m : mapResolver) (ref : string) : result secerr K :=
  let* b := Bytes sys m ref in of_opt ErrRead (SSHMasterRecipient b).

Definition resolver (sys : system) (m : mapResolver) : Resolver :=
  MkResolver (Bytes sys m) (Identity sys m) (Recipient sys m) (MasterIdentity sys m) (MasterRecipient sys m).
End Keyring.
Arguments Resolver : clear implicits.
Arguments MkResolver {K}.

(** ** What a resolution depends on *)

(** Two systems a resolver cannot tell apart: same environment and commands, and the same
    files below the directories of its file sources. *)
Record same_view (m : mapResolver) (a b : system) : Prop := {
  sv_env : forall n, sys_env a n = sys_env b n;
  sv_exec : forall argv n, sys_exec a argv n = sys_exec b argv n;
  sv_file : forall k src p, sources m !! k = Some src -> s_type src = "file"%string -> Below (s_dir src) p ->
              sys_file a p = sys_file b p
}.

Lemma capped_writes_spec limit ps buf out : write_all limit buf ps = Some out ->
  Z.of_nat (String.length buf) <= limit ->
  out = buf +:+ join "" ps /\ Z.of_nat (String.length out) <= limit.
Proof.
  revert buf. induction ps as [|p ps IH]; intros buf H Hb; cbn [write_all] in H.
  - injection H as <-. split; [|done]. cbn [join]. by rewrite sapp_nil_r.
  - unfold cappedBuffer_Write in H. destruct (Z.gtb_spec (Z.of_nat (String.length buf) + Z.of_nat (String.length p)) limit) as [|Hle]; [done|].
    apply IH in H as [-> Hl]; [|rewrite slength_app; lia]. split; [|done].
    rewrite sapp_assoc. f_equal. destruct ps as [|q ps]; [|done]. cbn [join]. by rewrite sapp_nil_r.
Qed.

Lemma runKMSCommand_ok sys src name out : runKMSCommand sys src name = Ok out ->
  out <> ""%string /\ Z.of_nat (String.length out) <= maxKMSOutput /\
  k_ok (sys_exec sys (s_command src) name) = true /\ out = join "" (k_writes (sys_exec sys (s_command src) name)).
Proof.
  unfold runKMSCommand. destruct (s_command src) as [|c argv]; [done|].
  destruct (write_all _ _ _) as [o|] eqn:E; [|done]. apply capped_writes_spec in E as [E Hl]; [|done].
  destruct (k_ok _); [|done]. destruct (String.eqb_spec o "") as [|Hne]; cbn; [done|]. intros [= <-].
  split; [done|]. split; [done|]. by rewrite sapp_nil in E.
Qed.

(** (safety) A reference cannot reach outside what its source declares: resolving any
    reference depends on the environment, the commands, and the files below the directories
    of the declared file sources, and on nothing else of the file system.  No name in a
    reference (absolute, dotted, or nested) makes the server read another file. *)
Theorem secret_reads_stay_below m a b ref : same_view m a b -> Bytes a m ref = Bytes b m ref.
Proof.
  intros [He Hx Hf]. unfold Bytes, lookup_ref. destruct (cut_char ":" ref) as [[k name] ok].
  destruct (negb ok); [done|]. destruct (sources m !! k) as [src|] eqn:Hk; [|done]. cbn [rbind].
  destruct (String.eqb_spec (s_type src) "env"); [by rewrite He|].
  destruct (String.eqb_spec (s_type src) "file") as [Ht|].
  - destruct (WithinDir (s_dir src) name) as [p|] eqn:E; [|done].
    by rewrite (Hf _ _ _ Hk Ht (WithinDir_below _ _ _ E)).
  - destruct (String.eqb _ _); [|done]. unfold runKMSCommand. destruct (s_command src); [done|]. by rewrite !Hx.
Qed.

(** (errors) The two classified failures mean what the callers that fall back to a
    literal value rely on: a malformed reference is exactly one without a colon, an unknown
    source exactly one whose declared part names no source; a resolved command's output is
    its whole standard output, non-empty and at most one mebibyte, of a command that
    succeeded. *)
Theorem secret_failures_are_classified sys m ref :
  (Bytes sys m ref = Err ErrMalformedRef <-> mem_char ":" ref = false) /\
  (Bytes sys m ref = Err ErrUnknownSource <->
     mem_char ":" ref = true /\ sources m !! (cut_char ":" ref).1.1 = None) /\
  (forall src out, sources m !! (cut_char ":" ref).1.1 = Some src -> s_type src = "kms"%string -> mem_char ":" ref = true ->
     Bytes sys m ref = Ok out ->
     let r := sys_exec sys (s_command src) (cut_char ":" ref).1.2 in
     k_ok r = true /\ out = join "" (k_writes r) /\ out <> ""%string /\ Z.of_nat (String.length out) <= maxKMSOutput).
Proof.
  unfold Bytes, lookup_ref. pose proof (cut_char_found ":" ref) as Hc.
  destruct (cut_char ":" ref) as [[k name] ok]. cbn [fst snd] in *. subst ok.
  assert (forall src, (if String.eqb (s_type src) "env" then of_opt ErrRead (sys_env sys name)
    else if String.eqb (s_type src) "file" then
      match WithinDir (s_dir src) name with None => Err ErrRead | Some full => of_opt ErrRead (sys_file sys full) end
    else if String.eqb (s_type src) "kms" then runKMSCommand sys src name else Err ErrRead) <> Err ErrMalformedRef /\
    (if String.eqb (s_type src) "env" then of_opt ErrRead (sys_env sys name)
    else if String.eqb (s_type src) "file" then
      match WithinDir (s_dir src) name with None => Err ErrRead | Some full => of_opt ErrRead (sys_file sys full) end
    else if String.eqb (s_type src) "kms" then runKMSCommand sys src name else Err ErrRead) <> Err ErrUnknownSource) as Hread.
  { intros src. unfold of_opt, runKMSCommand. split; repeat case_match; discriminate. }
  destruct (mem_char ":" ref); cbn [negb rbind];
    [|split; [by split|split; [split; [done|by intros [? ?]]|by intros]]].
  destruct (sources m !! k) as [src|] eqn:Hk; cbn [rbind];
    [|split; [by split|split; [by split|by intros]]].
  destruct (Hread src) as [H1 H2]. split; [done|]. split; [split; [done|by intros []]|].
  intros src' out [= <-] Ht _. rewrite Ht. cbn [String.eqb Ascii.eqb Bool.eqb]. intros H.
  apply runKMSCommand_ok in H as (? & ? & ? & ?). auto.
Qed.

Lemma secret_reads_stay_below_witness :
  let m := MapResolver {[ "keys"%string := Source "keys" "file" "/etc/q" [] ]} in
  let a := System (fun _ => None) (fun p => if rooted p then Some (path_string p) else None) (fun _ _ => KmsRun [] true) in
  let b := System (fun _ => None) (fun p => Some (path_string p)) (fun _ _ => KmsRun [] true) in
  same_view m a b /\ Bytes a m "keys:../../x" = Bytes b m "keys:../../x" /\ Bytes a m "keys:sub/k" = Ok "/etc/q/sub/k"%string.
Proof.
  cbv zeta.
  match goal with |- same_view ?m ?a ?b /\ _ => assert (H : same_view m a b) end.
  { split; [reflexivity|reflexivity|]. intros k src p Hk _ [Hr _]. cbn in Hk.
    apply lookup_singleton_Some in Hk as [_ <-]. cbn. rewrite Hr. reflexivity. }
  split; [exact H|]. split; [exact (secret_reads_stay_below _ _ _ "keys:../../x" H)|]. vm_compute. reflexivity.
Defined.

Example shape_of_material : isPrivateKeyPEM " -----BEGIN OPENSSH" = true /\ isPrivateKeyPEM "my PRIVATE KEY" = false /\
  isAuthorizedKeyLine "ssh-ed25519 AAAA" = true /\ isAuthorizedKeyLine "passphrase" = false.
Proof. repeat split. Qed.
