(* ===== verification/Storage.v ===== *)
(** * backend: from a database specification to what the driver opens

    [For], [All], [baseConfig], [pragmas] of [src/backend/backend.go], and [file.go],
    [memory.go], [vfs.go], [vault.go].  A backend is built once from its specification,
    resolving every secret eagerly; [Open] then hands the driver one of the [opening]s.
    The driver, the vault container and the keyring are not part of this repository: the
    calls made to them are values. *)
From S2P Require Import Prelude GoStd Config Secret.

(** ** Pragmas *)

(** [fmt.Sprint] of a float64 that holds the integer [z], [|z| <= 2^53]: six digits or
    fewer are printed plainly, more in exponent form. *)
Definition trim_zeros (s : string) : string := trim_right "0" s.
Definition sprint_float (z : Z) : string :=
  if Z.abs z <? 1000000 then format_int z
  else
    let d := format_int (Z.abs z) in
    let e := Z.of_nat (String.length d) - 1 in
    let rest := trim_zeros (match d with String _ r => r | EmptyString => EmptyString end) in
    (if z <? 0 then "-" else "") +:+ match d with String c _ => String c EmptyString | EmptyString => EmptyString end +:+
    (if String.eqb rest "" then "" else "." +:+ rest) +:+ "e+" +:+ (if e <? 10 then "0" else "") +:+ format_int e.

Definition Sprint (v : pval) : string :=
  match v with
  | PStr s => s
  | PBool b => if b then "true" else "false"
  | PInt z => format_int z
  | PNum z => sprint_float z
  | POther t => t
  end.

Definition truthy (s : string) : bool := mem_string (to_lower s) ["1"; "true"; "on"; "yes"]%string.

Record pragma_set := Pragmas {
  JournalMode : string; Synchronous : string; AutoVacuum : string; TempStore : string;
  ForeignKeys : bool; CacheSize : Z; BusyTimeout : Z; Extra : gmap string string
}.
Definition no_pragmas : pragma_set := Pragmas "" "" "" "" false 0 0 ∅.
Definition millisecond : Z := 1000000.

Inductive dmode : Type := ModeReadOnly | ModeReadWrite | ModeReadWriteCreate.
#[export] Instance dmode_eq_dec : EqDecision dmode.
Proof. solve_decision. Defined.

Definition accessMode (mode : string) : dmode :=
  if String.eqb mode "ro" then ModeReadOnly
  else if String.eqb mode "rw" then ModeReadWrite else ModeReadWriteCreate.

Definition resolvePath (path dataDir : string) : string :=
  if String.eqb path "" || IsAbs path || String.eqb dataDir "" then path else path_string (Join dataDir path).

(** [sqlite.Config]; [vfs] is the kind of in-memory VFS registered for the handle. *)
Record dconfig := DConfig {
  d_path : string; d_mode : option dmode; d_max_open : Z; d_txlock : string; d_pragmas : pragma_set; d_vfs : option string
}.

Section Storage.
(** gosqlite's production preset, and the keyring's keys. *)
Variable RecommendedPragmas : pragma_set.
Context {K : Type}.

Definition presetPragmas (preset : string) : pragma_set :=
  if String.eqb preset "recommended" then RecommendedPragmas else no_pragmas.

Definition pragma_step (k : string) (v : pval) (p : pragma_set) : pragma_set :=
  let s := Sprint v in
  let 'Pragmas jm sy av ts fk cs bt ex := p in
  if String.eqb k "journal_mode" then Pragmas (to_upper s) sy av ts fk cs bt ex
  else if String.eqb k "synchronous" then Pragmas jm (to_upper s) av ts fk cs bt ex
  else if String.eqb k "auto_vacuum" then Pragmas jm sy (to_upper s) ts fk cs bt ex
  else if String.eqb k "temp_store" then Pragmas jm sy av (to_upper s) fk cs bt ex
  else if String.eqb k "foreign_keys" then Pragmas jm sy av ts (truthy s) cs bt ex
  else if String.eqb k "cache_size" then
    Pragmas jm sy av ts fk (default cs (parse_int64 s)) bt ex
  else if String.eqb k "busy_timeout" then
    Pragmas jm sy av ts fk cs (match parse_int64 s with Some ms => i64 (ms * millisecond) | None => bt end) ex
  else Pragmas jm sy av ts fk cs bt (<[k := s]> ex).

(** The loop ranges over a Go map, in any order. *)
Definition pragmas_in (order : list (string * pval)) (db : database) : pragma_set :=
  let 'Pragmas jm sy av ts fk cs bt ex :=
    fold_left (fun p kv => pragma_step kv.1 kv.2 p) order (presetPragmas (db_preset db)) in
  Pragmas jm sy av ts fk cs (if pl_busy (db_pool db) >? 0 then pl_busy (db_pool db) else bt) ex.
Definition pragmas (db : database) : pragma_set := pragmas_in (map_to_list (db_pragmas db)) db.

Definition baseConfig (db : database) (dataDir : string) : dconfig :=
  DConfig (resolvePath (db_path db) dataDir) (Some (accessMode (db_mode db))) (pl_max_open (db_pool db))
    (pl_txlock (db_pool db)) (pragmas db) None.

(** ** Vault options *)

Inductive compression : Type :=
| CompressionNone | CompressionFastest | CompressionFast | CompressionDefault | CompressionBetter | CompressionBest.
Inductive cipher_ : Type := Adiantum | AESXTS.

Definition compressionLevel (s : string) : option compression :=
  if String.eqb s "" || String.eqb s "none" then Some CompressionNone
  else if String.eqb s "fastest" then Some CompressionFastest
  else if String.eqb s "fast" then Some CompressionFast
  else if String.eqb s "default" then Some CompressionDefault
  else if String.eqb s "better" then Some CompressionBetter
  else if String.eqb s "best" then Some CompressionBest
  else None.
Definition cipher (s : string) : cipher_ := if String.eqb s "aes-xts" then AESXTS else Adiantum.

Record options := Options {
  o_level : compression; o_cipher : cipher_; o_authenticate : bool; o_anchor : option string; o_key : option string;
  o_identities : list K; o_masters : list K; o_write_as : option K;
  o_recipients : list K; o_writers : list K; o_sign_with : option K;
  o_page_size : Z; o_block_size : Z; o_dir_segment_pages : Z
}.
Definition zero_options : options :=
  Options CompressionNone Adiantum false None None [] [] None [] [] None 0 0 0.

Inductive berr : Type :=
| EUnknownBackend | ECompression | EAnchor | ESecret (e : secerr) | ENoMembership | ENoSigner | EVFS.

Definition sec_err {A} (r : result secerr A) : result berr A :=
  match r with Ok a => Ok a | Err e => Err (ESecret e) end.

(** The references of a list, in order, up to the first failure. *)
Fixpoint resolve_all (f : string -> result secerr K) (refs : list string) : result berr (list K) :=
  match refs with
  | [] => Ok []
  | r :: rs => let* k := sec_err (f r) in let* ks := resolve_all f rs in Ok (k :: ks)
  end.
Definition resolve_opt (f : string -> result secerr K) (ref : string) : result berr (option K) :=
  if String.eqb ref "" then Ok None else let* k := sec_err (f ref) in Ok (Some k).

Definition openVaultOptions (o : options) (vc : vaultConfig) (sec : Resolver K) : result berr options :=
  let* ids := resolve_all (RIdentity sec) (v_identities vc) in
  let* ms := resolve_all (RMasterRecipient sec) (v_masters vc) in
  let* w := resolve_opt (RMasterIdentity sec) (v_write_as vc) in
  Ok (Options (o_level o) (o_cipher o) (o_authenticate o) (o_anchor o) (o_key o)
        (o_identities o ++ ids) (o_masters o ++ ms) (match w with Some k => Some k | None => o_write_as o end)
        (o_recipients o) (o_writers o) (o_sign_with o) (o_page_size o) (o_block_size o) (o_dir_segment_pages o)).

Definition createVaultOptions (o : options) (vc : vaultConfig) (cr : vaultCreate) (sec : Resolver K) : result berr options :=
  let* rs := resolve_all (RRecipient sec) (vc_recipients cr) in
  let* ms := resolve_all (RMasterRecipient sec) (vc_masters cr) in
  let* ws := resolve_all (RMasterRecipient sec) (vc_writers cr) in
  let* s := resolve_opt (RMasterIdentity sec) (vc_sign_with cr) in
  let* w := resolve_opt (RMasterIdentity sec) (v_write_as vc) in
  Ok (Options (o_level o) (o_cipher o) (o_authenticate o) (o_anchor o) (o_key o) (o_identities o)
        (o_masters o ++ ms) (match w with Some k => Some k | None => o_write_as o end)
        (o_recipients o ++ rs) (o_writers o ++ ws) (match s with Some k => Some k | None => o_sign_with o end)
        (vc_page_size cr) (vc_block_size cr) (vc_dir_segment_pages cr)).

(** ** Backends *)

Inductive backend : Type :=
| fileBackend (cfg : dconfig) (ro : bool)
| memoryBackend (name : string) (shared : bool)
| vaultBackend (cfg : dconfig) (opts : options) (ro : bool) (vc : option vaultConfig) (name : string)
| vfsBackend (name kind : string) (pl : pool) (ps : pragma_set).

Definition vault_anchor (vc : vaultConfig) (dataDir : string) : result berr (option string) :=
  match v_anchor vc with
  | None => Ok None
  | Some a => if String.eqb (an_type a) "file" then Ok (Some (resolvePath (an_path a) dataDir)) else Err EAnchor
  end.

(** [exists_] is [fileExists]: whether the container is already there. *)
Definition newVault (exists_ : string -> bool) (db : database) (sec : Resolver K) (dataDir : string) : result berr backend :=
  let cfg := baseConfig db dataDir in
  let ro := String.eqb (db_mode db) "ro" in
  match db_vault db with
  | None => Ok (vaultBackend cfg zero_options ro None (db_name db))
  | Some vc =>
      let* lvl := of_opt ECompression (compressionLevel (v_compression vc)) in
      let* anc := vault_anchor vc dataDir in
      let* key := if String.eqb (v_key vc) "" then Ok None
                  else let* b := sec_err (RBytes sec (v_key vc)) in Ok (Some b) in
      let o := Options lvl (cipher (v_cipher vc)) (v_authenticate vc) anc key [] [] None [] [] None 0 0 0 in
      let* o' := if exists_ (d_path cfg) then openVaultOptions o vc sec
                 else match v_create vc with Some cr => createVaultOptions o vc cr sec | None => Ok o end in
      Ok (vaultBackend cfg o' ro (Some vc) (db_name db))
  end.

Definition newVFSBackend (db : database) : backend := vfsBackend (db_name db) (db_backend db) (db_pool db) (pragmas db).

Definition For (exists_ : string -> bool) (db : database) (sec : Resolver K) (dataDir : string) : result berr backend :=
  let b := db_backend db in
  if String.eqb b "file" || String.eqb b "" then Ok (fileBackend (baseConfig db dataDir) (String.eqb (db_mode db) "ro"))
  else if String.eqb b "memory" then Ok (memoryBackend (db_name db) false)
  else if String.eqb b "memory-shared" then Ok (memoryBackend (db_name db) true)
  else if String.eqb b "vault" then newVault exists_ db sec dataDir
  else if String.eqb b "mvcc" || String.eqb b "memdb" then Ok (newVFSBackend db)
  else Err EUnknownBackend.

Fixpoint All_from (exists_ : string -> bool) (m : gmap string backend) (dbs : list database) (sec : Resolver K) (dataDir : string)
    : result berr (gmap string backend) :=
  match dbs with
  | [] => Ok m
  | db :: r => let* be := For exists_ db sec dataDir in All_from exists_ (<[db_name db := be]> m) r sec dataDir
  end.
Definition All (exists_ : string -> bool) (dbs : list database) (sec : Resolver K) (dataDir : string) :=
  All_from exists_ ∅ dbs sec dataDir.

Definition memoryBackend_Kind (shared : bool) : string := if shared then "memory-shared" else "memory".
Definition Kind (b : backend) : string :=
  match b with
  | fileBackend _ _ => "file"
  | memoryBackend _ shared => memoryBackend_Kind shared
  | vaultBackend _ _ _ _ _ => "vault"
  | vfsBackend _ kind _ _ => kind
  end.
Definition ReadOnly (b : backend) : bool :=
  match b with
  | fileBackend _ ro | vaultBackend _ _ ro _ _ => ro
  | memoryBackend _ _ | vfsBackend _ _ _ _ => false
  end.
(** [backend.Pather]: only the on-disk backends have a path. *)
Definition Path (b : backend) : option string :=
  match b with
  | fileBackend cfg _ | vaultBackend cfg _ _ _ _ => Some (d_path cfg)
  | memoryBackend _ _ | vfsBackend _ _ _ _ => None
  end.

(** What [Open] asks of the driver. *)
Inductive opening : Type :=
| OpenPlain (cfg : dconfig) | OpenShared (name : string) | OpenVault (cfg : dconfig) (o : options).

Definition fileBackend_Open (cfg : dconfig) : result berr opening := Ok (OpenPlain cfg).
(** A private memory database lives in one connection, so the pool is pinned to one. *)
Definition memoryBackend_Open (name : string) (shared : bool) : result berr opening :=
  if shared then Ok (OpenShared name) else Ok (OpenPlain (DConfig ":memory:" None 1 "" no_pragmas None)).
Definition vaultBackend_Open (cfg : dconfig) (o : options) : result berr opening := Ok (OpenVault cfg o).
Definition vfsBackend_Open (name kind : string) (pl : pool) (ps : pragma_set) : result berr opening :=
  let '(Pragmas _ sy av ts fk cs bt ex) := ps in
  if String.eqb kind "mvcc" || String.eqb kind "memdb" then
    Ok (OpenPlain (DConfig ("/" +:+ name) None (pl_max_open pl) (pl_txlock pl) (Pragmas "" sy av ts fk cs bt ex) (Some kind)))
  else Err EVFS.
Definition Open (b : backend) : result berr opening :=
  match b with
  | fileBackend cfg _ => fileBackend_Open cfg
  | memoryBackend name shared => memoryBackend_Open name shared
  | vaultBackend cfg o _ _ _ => vaultBackend_Open cfg o
  | vfsBackend name kind pl ps => vfsBackend_Open name kind pl ps
  end.

(** ** The keyslot operations of a vault: the arguments handed to the vault library *)

Definition keyMgmtArgs (vc : option vaultConfig) (sec : Resolver K)
    : result berr (K * option K * (list K * list K * list K)) :=
  match vc with
  | Some v =>
      match v_create v with
      | None => Err ENoMembership
      | Some cr =>
          let* o := createVaultOptions zero_options v cr sec in
          match o_sign_with o with
          | None => Err ENoSigner
          | Some by_ => Ok (by_, o_write_as o, (o_masters o, o_writers o, o_recipients o))
          end
      end
  | None => Err ENoMembership
  end.

Definition masterIdentity (vc : option vaultConfig) (sec : Resolver K) : result berr K :=
  match vc with
  | Some v =>
      match v_create v with
      | None => Err ENoMembership
      | Some cr =>
          if String.eqb (vc_sign_with cr) "" then Err ENoSigner else sec_err (RMasterIdentity sec (vc_sign_with cr))
      end
  | None => Err ENoMembership
  end.

(** The operations themselves; [members], [rewrap] and [rekey] are the vault library's. *)
Inductive keyerr : Type := KConf (e : berr) | KVault (m : string).
Definition VaultMember : Type := string * string * string.   (* role, key, label *)
Definition VaultMembers (members : string -> K -> result string (list VaultMember)) (path : string) (vc : option vaultConfig) (sec : Resolver K)
    : result keyerr (list VaultMember) :=
  match masterIdentity vc sec with
  | Err e => Err (KConf e)
  | Ok by_ => match members path by_ with Ok l => Ok l | Err m => Err (KVault m) end
  end.
Notation keyop := (string -> K -> option K -> list K * list K * list K -> result string unit).
Definition Rewrap (rewrap : keyop) (path : string) (vc : option vaultConfig) (sec : Resolver K) : result keyerr unit :=
  match keyMgmtArgs vc sec with
  | Err e => Err (KConf e)
  | Ok (by_, wa, m) => match rewrap path by_ wa m with Ok _ => Ok tt | Err x => Err (KVault x) end
  end.
Definition Rekey (rekey : keyop) (path : string) (vc : option vaultConfig) (sec : Resolver K) : result keyerr unit :=
  match keyMgmtArgs vc sec with
  | Err e => Err (KConf e)
  | Ok (by_, wa, m) => match rekey path by_ wa m with Ok _ => Ok tt | Err x => Err (KVault x) end
  end.

(** Listing the members needs the master identity alone: whatever the other secrets of the
    membership are, it is the library's answer for that identity. *)
Lemma members_need_master_only members path v cr sec k : v_create v = Some cr -> vc_sign_with cr <> ""%string ->
  RMasterIdentity sec (vc_sign_with cr) = Ok k ->
  VaultMembers members path (Some v) sec = match members path k with Ok l => Ok l | Err m => Err (KVault m) end.
Proof.
  intros Hc Hs Hk. unfold VaultMembers, masterIdentity. rewrite Hc. apply String.eqb_neq in Hs. by rewrite Hs, Hk.
Qed.
(** A vault without a configured membership is never touched. *)
Lemma keyslots_need_membership vc sec : (vc = None \/ exists v, vc = Some v /\ v_create v = None) -> forall members op path,
  VaultMembers members path vc sec = Err (KConf ENoMembership) /\ Rewrap op path vc sec = Err (KConf ENoMembership) /\
  Rekey op path vc sec = Err (KConf ENoMembership).
Proof.
  unfold VaultMembers, Rewrap, Rekey, masterIdentity, keyMgmtArgs. intros [->|(v & -> & Hv)] members op path; [done|]. by rewrite Hv.
Qed.
End Storage.
Arguments options : clear implicits.
Arguments backend : clear implicits.
Arguments opening : clear implicits.

(** ** Paths *)

Lemma split_char_no c s : Forall (fun w => mem_char c w = false) (split_char c s).
Proof.
  induction s as [|a s IH]; [by constructor|]. cbn [split_char]. destruct (Ascii.eqb a c) eqn:E; [by constructor|].
  destruct (split_char c s) as [|w ws].
  - constructor; [|done]. cbn [mem_char]. by rewrite Ascii.eqb_sym, E.
  - inversion IH as [|? ? Hw Hws]; subst. constructor; [|done]. cbn [mem_char]. by rewrite Ascii.eqb_sym, E.
Qed.

Lemma split_plain c s : mem_char c s = false -> split_char c s = [s].
Proof.
  induction s as [|a s IH]; [done|]. cbn [mem_char split_char]. intros [Ha Hs]%orb_false_iff.
  rewrite Ascii.eqb_sym, Ha. by rewrite IH.
Qed.

Lemma split_join l : l <> [] -> Forall (fun w => mem_char slash w = false) l -> split_char slash (join "/" l) = l.
Proof.
  intros Hne Hl. induction Hl as [|w l Hw Hl IH]; [done|]. destruct l as [|w' l]; [by apply split_plain|].
  change (join "/" (w :: w' :: l)) with (w +:+ String slash (join "/" (w' :: l))).
  rewrite split_app, split_plain, IH by done. done.
Qed.

Lemma clean_step_no r stack seg : mem_char slash seg = false -> Forall (fun w => mem_char slash w = false) stack ->
  Forall (fun w => mem_char slash w = false) (clean_step r stack seg).
Proof.
  intros Hs Hst. unfold clean_step. destruct (_ || _); [done|]. destruct (String.eqb seg ".."); [|by constructor].
  destruct Hst as [|top rest Ht Hrest]; [destruct r; by repeat constructor|].
  destruct (String.eqb top ".."); [by repeat constructor|done].
Qed.

Lemma clean_segs_no p : Forall (fun w => mem_char slash w = false) (clean_segs p).
Proof.
  unfold clean_segs. apply Forall_rev.
  assert (forall l st, Forall (fun w => mem_char slash w = false) l -> Forall (fun w => mem_char slash w = false) st ->
    Forall (fun w => mem_char slash w = false) (fold_left (clean_step (IsAbs p)) l st)) as H.
  { induction l as [|x l IH]; intros st Hl Hst; [done|]. inversion Hl; subst. cbn. apply IH; [done|]. by apply clean_step_no. }
  apply H; [apply split_char_no|done].
Qed.

Lemma clean_dots k j : fold_left (clean_step false) (replicate k ".."%string) (replicate j ".."%string) = replicate (k + j) ".."%string.
Proof.
  revert j. induction k as [|k IH]; intros j; [done|]. cbn [replicate fold_left Nat.add].
  assert (clean_step false (replicate j ".."%string) ".."%string = replicate (Datatypes.S j) ".."%string) as -> by (by destruct j).
  rewrite IH. by rewrite Nat.add_succ_r.
Qed.

Lemma clean_fold_id r l : clean_shape r l -> fold_left (clean_step r) l [] = rev l.
Proof.
  intros (k & names & -> & Hn & Hk). rewrite fold_left_app.
  assert (fold_left (clean_step r) (replicate k ".."%string) [] = replicate k ".."%string) as ->.
  { destruct r; [by rewrite Hk|]. change [] with (replicate 0 ".."%string). by rewrite clean_dots, Nat.add_0_r. }
  rewrite clean_plain, rev_app_distr by done. f_equal.
  clear. induction k as [|k IH]; [done|]. cbn [replicate rev]. by rewrite <- IH, <- replicate_S_end.
Qed.

(** Cleaning is idempotent through the text of the path. *)
Lemma Clean_idem q : Clean (path_string (Clean q)) = Clean q.
Proof.
  pose proof (Clean_shape q) as Hsh. pose proof (clean_segs_no q) as Hno.
  unfold path_string. cbn [rooted segs Clean] in *. destruct (IsAbs q) eqn:Ha.
  - change ("/" +:+ join "/" (clean_segs q)) with (String slash (join "/" (clean_segs q))).
    unfold Clean. f_equal; [by rewrite Ha|]. unfold clean_segs at 1.
    change (IsAbs (String slash _)) with true. cbn [split_char]. change (Ascii.eqb slash slash) with true. cbn iota.
    cbn [fold_left]. change (clean_step true [] "") with (@nil string).
    destruct (clean_segs q) as [|w l] eqn:E; [done|]. rewrite split_join by done.
    by rewrite clean_fold_id, rev_involutive.
  - destruct (clean_segs q) as [|w l] eqn:E; [by unfold Clean; rewrite Ha, E|].
    assert (IsAbs (join "/" (w :: l)) = false) as Habs.
    { inversion Hno as [|? ? Hw Hl]; subst. destruct Hsh as (k & names & Heq & Hn & _).
      assert (w <> ""%string) as Hwne.
      { destruct k as [|k]; [|cbn in Heq; injection Heq as -> _; done]. cbn in Heq. subst names.
        inversion Hn as [|? ? (H & _) _]; subst. exact H. }
      destruct w as [|c w]; [done|]. cbn [mem_char] in Hw. apply orb_false_iff in Hw as [Hc _].
      unfold IsAbs, has_prefix. destruct l; cbn [join]; rewrite ?sapp_cons; cbn [cut_prefix];
        unfold slash in Hc; by rewrite Hc. }
    unfold Clean at 1, clean_segs at 1. rewrite Habs, split_join by done.
    rewrite clean_fold_id, rev_involutive by done. unfold Clean. by rewrite Ha, E.
Qed.

(** The guard of every caller-supplied path and the path the driver is handed agree. *)
Lemma resolvePath_below dataDir p abs : WithinDir dataDir p = Some abs -> Clean (resolvePath p dataDir) = abs.
Proof.
  unfold WithinDir, resolvePath. destruct (String.eqb_spec dataDir "") as [|Hd]; [done|].
  destruct (String.eqb_spec p "") as [|Hp]; [done|]. cbn [orb]. destruct (IsAbs p); cbn [orb].
  - repeat case_match; congruence.
  - assert (exists q, Join dataDir p = Clean q) as [q ->].
    { unfold Join. repeat case_match; by eexists. }
    rewrite Clean_idem. repeat case_match; congruence.
Qed.

(** ** What a specification becomes *)

Section Spec.
Variable RecommendedPragmas : pragma_set.
Context {K : Type}.

Definition typed_keys : list string :=
  ["journal_mode"; "synchronous"; "auto_vacuum"; "temp_store"; "foreign_keys"; "cache_size"; "busy_timeout"]%string.

(** The reference reading: each typed field from its own key, the rest in [Extra]. *)
Definition read_pragmas (b : pragma_set) (m : gmap string pval) : pragma_set :=
  let get {X} (k : string) (f : string -> X) (d : X) := match m !! k with Some v => f (Sprint v) | None => d end in
  Pragmas (get "journal_mode" to_upper (JournalMode b)) (get "synchronous" to_upper (Synchronous b))
    (get "auto_vacuum" to_upper (AutoVacuum b)) (get "temp_store" to_upper (TempStore b))
    (get "foreign_keys" truthy (ForeignKeys b))
    (get "cache_size" (fun s => default (CacheSize b) (parse_int64 s)) (CacheSize b))
    (get "busy_timeout" (fun s => match parse_int64 s with Some ms => i64 (ms * millisecond) | None => BusyTimeout b end)
       (BusyTimeout b))%string
    ((Sprint <$> filter (fun kv => kv.1 ∉ typed_keys) m) ∪ Extra b).

Lemma read_pragmas_insert b m k v : m !! k = None ->
  pragma_step k v (read_pragmas b m) = read_pragmas b (<[k := v]> m).
Proof.
  intros Hk. unfold pragma_step.
  destruct (decide (k ∈ typed_keys)) as [Hin|Hin].
  - assert (filter (fun kv : string * pval => kv.1 ∉ typed_keys) (<[k := v]> m) =
            filter (fun kv : string * pval => kv.1 ∉ typed_keys) m) as He.
    { rewrite map_filter_insert_False by (by intros []). by rewrite delete_id. }
    unfold typed_keys in Hin.
    repeat (apply elem_of_cons in Hin as [->|Hin]; [unfold read_pragmas at 2; rewrite He;
      cbn [String.eqb Ascii.eqb Bool.eqb read_pragmas JournalMode Synchronous AutoVacuum TempStore ForeignKeys CacheSize BusyTimeout Extra];
      rewrite ?lookup_insert_eq, ?lookup_insert_ne, ?Hk by done; done|]).
    by apply not_elem_of_nil in Hin.
  - assert (forall x, x ∈ typed_keys -> k <> x) as Hne by (intros x Hx ->; done).
    unfold read_pragmas. rewrite !lookup_insert_ne by (apply Hne; unfold typed_keys; set_solver).
    rewrite map_filter_insert_True by done. rewrite fmap_insert, insert_union_l.
    rewrite !(proj2 (String.eqb_neq _ _)) by (apply Hne; unfold typed_keys; set_solver). done.
Qed.

Lemma fold_read_pragmas b l : NoDup l.*1 ->
  foldr (fun kv p => pragma_step kv.1 kv.2 p) b l = read_pragmas b (list_to_map l).
Proof.
  induction l as [|[k v] l IH]; cbn [foldr list_to_map fmap list_fmap].
  - intros _. unfold read_pragmas. rewrite map_filter_empty, fmap_empty, map_empty_union, !lookup_empty. by destruct b.
  - intros [Hk Hl]%NoDup_cons. rewrite IH by done. cbn [fst snd list_to_map foldr uncurry].
    apply read_pragmas_insert. by apply not_elem_of_list_to_map_1.
Qed.

(** (equivalence) Rendering a database's pragmas is independent of the order Go's map
    iteration happens to take, and equals the reference reading: a known key lands in its
    typed field and never in [Extra], an unknown one lands in [Extra] verbatim, explicit
    keys override the preset, and the pool's busy timeout overrides both. *)
Theorem pragmas_are_typed db order : order ≡ₚ map_to_list (db_pragmas db) ->
  let p := read_pragmas (presetPragmas RecommendedPragmas (db_preset db)) (db_pragmas db) in
  pragmas_in RecommendedPragmas order db =
  Pragmas (JournalMode p) (Synchronous p) (AutoVacuum p) (TempStore p) (ForeignKeys p) (CacheSize p)
    (if pl_busy (db_pool db) >? 0 then pl_busy (db_pool db) else BusyTimeout p) (Extra p).
Proof.
  intros Ho p. unfold pragmas_in.
  assert (rev order ≡ₚ map_to_list (db_pragmas db)) as Hr by (by rewrite <- Permutation_rev).
  assert (NoDup (rev order).*1) as Hnd by (rewrite Hr; apply NoDup_fst_map_to_list).
  rewrite <- fold_left_rev_right, fold_read_pragmas by done.
  by rewrite (list_to_map_proper _ _ Hnd Hr), list_to_map_to_list.
Qed.

(** *** Pragmas across a restart

    A runtime-created specification is persisted as JSON and decoded at the next start, which
    turns every number of a pragma into a float64. *)
Definition json_pval (v : pval) : pval := match v with PInt z => PNum z | v => v end.

Lemma digits_val_no_point s : forall acc n, digits_val acc s = Some n -> contains_any s ".eE" = false.
Proof.
  induction s as [|c s IH]; intros acc n; cbn [digits_val contains_any]; [done|].
  destruct (digit c) as [d|] eqn:E; [|done]. intros H%IH. rewrite H, orb_false_r.
  destruct c as [[] [] [] [] [] [] [] []]; try reflexivity; vm_compute in E; discriminate E.
Qed.

Lemma parse_int64_no_point s n : parse_int64 s = Some n -> contains_any s ".eE" = false.
Proof.
  unfold parse_int64, parse_uint64. intros H.
  assert (forall body : string, match body with ""%string => None | _ =>
    match digits_val 0 body with Some n => if n <? two64 then Some n else None | None => None end end <> None ->
    contains_any body ".eE" = false) as Hb.
  { intros body Hb. destruct body as [|c r]; [done|]. destruct (digits_val 0 (String c r)) as [m|] eqn:E; [|done].
    by apply digits_val_no_point in E. }
  destruct s as [|c r]; [done|].
  destruct (Ascii.eqb_spec c "-") as [->|H1]; [|destruct (Ascii.eqb_spec c "+") as [->|H2]].
  - cbn [contains_any]. apply Hb. intros Hn. by rewrite Hn in H.
  - cbn [contains_any]. apply Hb. intros Hn. by rewrite Hn in H.
  - apply Hb. intros Hn.
    destruct c as [[] [] [] [] [] [] [] []]; try (by rewrite Hn in H); done.
Qed.

Lemma sprint_float_point z : 1000000 <= Z.abs z -> contains_any (sprint_float z) ".eE" = true.
Proof.
  intros Hz. unfold sprint_float. rewrite (proj2 (Z.ltb_ge _ _)) by done. cbn zeta.
  rewrite !contains_any_app. cbn [contains_any mem_char]. by rewrite !orb_true_r.
Qed.

(** (round trip, restart) An integer pragma of a persisted specification survives the
    restart exactly when it has at most six digits: a larger one comes back as a float64 and
    is rendered in exponent form, a text that is no longer a Go integer, so the typed
    [cache_size] and [busy_timeout] fall back to their defaults and [max_page_count], the
    size cap of a provisioned database, reaches the driver as another text. *)
Theorem restart_keeps_small_integers z :
  (Sprint (json_pval (PInt z)) = Sprint (PInt z) <-> Z.abs z < 1000000) /\
  (1000000 <= Z.abs z -> parse_int64 (Sprint (json_pval (PInt z))) = None).
Proof.
  cbn [json_pval Sprint]. destruct (Z.ltb_spec (Z.abs z) 1000000) as [Hz|Hz].
  - split; [|lia]. split; [done|]. intros _. unfold sprint_float. by rewrite (proj2 (Z.ltb_lt _ _)).
  - pose proof (sprint_float_point z Hz) as Hp. split.
    + split; [|lia]. intros He. rewrite He, format_int_no_point in Hp. done.
    + intros _. destruct (parse_int64 (sprint_float z)) as [n|] eqn:E; [|done].
      apply parse_int64_no_point in E. congruence.
Qed.

(** *** Backends *)

Lemma resolve_all_err (f : string -> result secerr K) refs e : resolve_all f refs = Err e -> exists x, e = ESecret x.
Proof.
  induction refs as [|r rs IH]; [done|]. cbn. destruct (f r) as [k|x]; cbn; [|intros [= <-]; by eexists].
  destruct (resolve_all f rs); cbn; [done|]. intros [= <-]. by apply IH.
Qed.
Lemma resolve_opt_err (f : string -> result secerr K) r e : resolve_opt f r = Err e -> exists x, e = ESecret x.
Proof. unfold resolve_opt. destruct (String.eqb r ""); [done|]. destruct (f r); cbn; [done|]. intros [= <-]. by eexists. Qed.

Lemma vault_options_err (o : options K) vc (sec : Resolver K) e :
  (openVaultOptions o vc sec = Err e -> exists x, e = ESecret x) /\
  (forall cr, createVaultOptions o vc cr sec = Err e -> exists x, e = ESecret x).
Proof.
  unfold openVaultOptions, createVaultOptions. split; [|intros cr];
    repeat (match goal with
    | |- rbind (resolve_all ?f ?l) _ = _ -> _ => let E := fresh "E" in destruct (resolve_all f l) eqn:E; cbn [rbind];
        [|apply resolve_all_err in E; intros [= <-]; exact E]
    | |- rbind (resolve_opt ?f ?l) _ = _ -> _ => let E := fresh "E" in destruct (resolve_opt f l) eqn:E; cbn [rbind];
        [|apply resolve_opt_err in E; intros [= <-]; exact E]
    end); done.
Qed.

Lemma newVault_shape ex (db : database) (sec : Resolver K) dir be : newVault RecommendedPragmas ex db sec dir = Ok be ->
  exists o, be = vaultBackend (baseConfig RecommendedPragmas db dir) o (String.eqb (db_mode db) "ro") (db_vault db) (db_name db).
Proof.
  unfold newVault. destruct (db_vault db) as [vc|]; [|intros [= <-]; by eexists]. intros H.
  repeat (apply rbind_ok in H as (? & _ & H)). injection H as <-. by eexists.
Qed.

Lemma validateVault_words db vc : ValidateDatabase db = Ok tt -> db_vault db = Some vc -> compressionLevel (v_compression vc) <> None.
Proof.
  unfold ValidateDatabase. intros H Hv. peel H. unfold validateVault in H. rewrite Hv in H. peel H.
  unfold mem_string, vaultCompression in *. cbn [existsb] in *. unfold compressionLevel.
  repeat match goal with |- context [String.eqb ?a ?b] => destruct (String.eqb a b); [done|] end. done.
Qed.

Lemma Known_cases b : b ∈ KnownBackends ->
  b = "file" \/ b = "memory" \/ b = "memory-shared" \/ b = "mvcc" \/ b = "memdb" \/ b = "vault"%string.
Proof. unfold KnownBackends. rewrite !elem_of_cons, elem_of_nil. naive_solver. Qed.

Lemma For_validated ex db (sec : Resolver K) dir : ValidateDatabase db = Ok tt ->
  match For RecommendedPragmas ex db sec dir with
  | Ok be =>
      Kind be = db_backend db /\ is_ok (Open be) = true /\
      ReadOnly be = UsesPath (db_backend db) && String.eqb (db_mode db) "ro" /\
      Path be = if UsesPath (db_backend db) then Some (resolvePath (db_path db) dir) else None
  | Err e => db_backend db = "vault"%string /\ is_Some (db_vault db) /\ (e = EAnchor \/ exists x, e = ESecret x)
  end.
Proof.
  intros Hv. destruct (ValidateDatabase_ok db Hv) as (_ & Hk%Known_cases & _).
  destruct Hk as [Hb|[Hb|[Hb|[Hb|[Hb|Hb]]]]]; unfold For; rewrite Hb;
    cbn -[newVault baseConfig resolvePath pragmas]; try (unfold newVFSBackend; rewrite ?Hb; cbn -[pragmas]; try (destruct (pragmas _ _)); auto; fail).
  destruct (newVault _ ex db sec dir) as [be|e] eqn:E.
  - destruct (newVault_shape _ _ _ _ _ E) as [o ->]. cbn -[resolvePath]. auto.
  - split; [done|]. unfold newVault in E. destruct (db_vault db) as [vc|] eqn:Ev; [|done]. split; [by eexists|].
    pose proof (validateVault_words db vc Hv Ev) as Hc. destruct (compressionLevel (v_compression vc)) as [lvl|]; [|done].
    cbn [of_opt rbind] in E. unfold vault_anchor in E.
    destruct (match v_anchor vc with Some _ => _ | None => _ end) as [anc|ea] eqn:Ea; cbn [rbind] in E;
      [|left; injection E as <-; destruct (v_anchor vc) as [an|]; [destruct (String.eqb (an_type an) "file"); congruence|done]].
    right. destruct (String.eqb (v_key vc) ""); cbn [rbind] in E;
      [|destruct (RBytes sec (v_key vc)); cbn [sec_err rbind] in E; [|injection E as <-; by eexists]];
      (destruct (ex _); [destruct (openVaultOptions _ _ _) eqn:Eo|destruct (v_create vc); [destruct (createVaultOptions _ _ _ _) eqn:Eo|]];
        cbn [rbind] in E; [done| |done| |done] || idtac);
      injection E as <-; apply vault_options_err in Eo; exact Eo.
Qed.

(** (functional, containment) For a specification that passed validation, construction
    yields a backend of exactly the declared kind that [Open] knows how to open, read-only
    exactly for an on-disk database in mode [ro]; it can only fail on a vault, for a secret
    that does not resolve or an anchor kind that is not supported.  And when the path passed
    the containment guard, the path handed to the driver cleans to a path below the data
    directory, the one the guard answered. *)
Theorem specification_is_what_opens ex db (sec : Resolver K) dir : ValidateDatabase db = Ok tt ->
  match For RecommendedPragmas ex db sec dir with
  | Ok be =>
      Kind be = db_backend db /\ is_ok (Open be) = true /\
      ReadOnly be = UsesPath (db_backend db) && String.eqb (db_mode db) "ro" /\
      (forall p, Path be = Some p -> UsesPath (db_backend db) = true /\
         forall abs, WithinDir dir (db_path db) = Some abs -> Clean p = abs /\ Below dir abs)
  | Err e => db_backend db = "vault"%string /\ is_Some (db_vault db) /\ (e = EAnchor \/ exists x, e = ESecret x)
  end.
Proof.
  intros Hv. pose proof (For_validated ex db sec dir Hv) as H.
  destruct (For _ _ _ _ _) as [be|e]; [|done]. destruct H as (H1 & H2 & H3 & H4). split; [done|]. split; [done|].
  split; [done|]. intros p Hp. rewrite H4 in Hp. destruct (UsesPath _); [|done]. injection Hp as <-. split; [done|].
  intros abs Hw. split; [by apply resolvePath_below|by eapply WithinDir_below].
Qed.

(** The container that exists decides which half of a vault block counts: opening one never
    reads its [create] block, creating one never reads the open-time identities and masters. *)
Definition with_create (db : database) (vc : vaultConfig) (cr : option vaultCreate) : database :=
  Database (db_name db) (db_backend db) (db_path db) (db_mode db) (db_pool db) (db_preset db) (db_pragmas db)
    (Some (VaultConfig (v_compression vc) (v_cipher vc) (v_key vc) (v_identities vc) (v_write_as vc) (v_masters vc)
             (v_authenticate vc) (v_anchor vc) cr)) (db_grants db).

Definition options_of (b : backend K) : option (options K) :=
  match b with vaultBackend _ o _ _ _ => Some o | _ => None end.

Lemma create_block_ignored_on_open ex db vc cr (sec : Resolver K) dir be :
  ex (resolvePath (db_path db) dir) = true ->
  newVault RecommendedPragmas ex (with_create db vc cr) sec dir = Ok be ->
  (forall cr', exists be', newVault RecommendedPragmas ex (with_create db vc cr') sec dir = Ok be' /\ options_of be' = options_of be) /\
  (forall o, options_of be = Some o -> o_recipients o = [] /\ o_writers o = [] /\ o_sign_with o = None).
Proof.
  intros Hex. unfold newVault, with_create. cbn [db_vault db_path db_mode db_name baseConfig d_path v_compression v_key v_create].
  unfold vault_anchor. cbn [v_anchor]. rewrite Hex. intros H.
  apply rbind_ok in H as (lvl & -> & H). apply rbind_ok in H as (anc & -> & H). apply rbind_ok in H as (key & -> & H).
  unfold openVaultOptions in *. cbn [v_identities v_masters v_write_as rbind] in *.
  apply rbind_ok in H as (o & Ho & [= <-]). apply rbind_ok in Ho as (ids & Hids & Ho). apply rbind_ok in Ho as (ms & Hms & Ho).
  apply rbind_ok in Ho as (w & Hw & [= <-]). split.
  - intros cr'. rewrite Hids, Hms, Hw. cbn [rbind]. by eexists.
  - intros o [= <-]. done.
Qed.
End Spec.

Definition demo_db : database :=
  Database "u" "vault" "u.vault" "rwc" (Pool 0 "" 0) "" {[ "cache_size"%string := PInt (-2000000) ]}
    (Some (VaultConfig "fast" "" "env:k" [] "" [] false None None)) [].
Definition demo_resolver : Resolver string :=
  MkResolver (fun r => Ok r) (fun r => Ok r) (fun r => Ok r) (fun r => Ok r) (fun r => Ok r).

Lemma pragmas_are_typed_witness :
  [("cache_size"%string, PInt (-2000000))] ≡ₚ map_to_list (db_pragmas demo_db) /\
  CacheSize (pragmas_in no_pragmas [("cache_size"%string, PInt (-2000000))] demo_db) = -2000000.
Proof.
  assert (H : [("cache_size"%string, PInt (-2000000))] ≡ₚ map_to_list (db_pragmas demo_db)) by (vm_compute; reflexivity).
  split; [exact H|]. rewrite (pragmas_are_typed no_pragmas demo_db _ H). vm_compute. reflexivity.
Defined.

Lemma specification_is_what_opens_witness :
  ValidateDatabase demo_db = Ok tt /\
  exists be, For no_pragmas (fun _ => false) demo_db demo_resolver "/data" = Ok be /\ Path be = Some "/data/u.vault"%string /\
    Below "/data" (Clean "/data/u.vault").
Proof.
  split; [vm_compute; reflexivity|].
  pose proof (specification_is_what_opens no_pragmas (fun _ => false) demo_db demo_resolver "/data" ltac:(vm_compute; reflexivity)) as H.
  destruct (For no_pragmas (fun _ => false) demo_db demo_resolver "/data") as [be|e] eqn:E; [|vm_compute in E; discriminate E].
  exists be. split; [reflexivity|]. assert (Hp : Path be = Some "/data/u.vault"%string).
  { vm_compute in E. injection E as <-. reflexivity. }
  split; [exact Hp|]. destruct H as (_ & _ & _ & H). destruct (H _ Hp) as [_ H'].
  destruct (H' (Clean "/data/u.vault") ltac:(vm_compute; reflexivity)) as [_ Hb]. exact Hb.
Defined.

Example restart_rewrites_the_cap :
  Sprint (json_pval (PInt 2097152)) = "2.097152e+06"%string /\ Sprint (json_pval (PInt 1000000)) = "1e+06"%string /\
  Sprint (json_pval (PInt 999999)) = "999999"%string.
Proof. repeat split. Qed.
