(* ===== verification/Token.v ===== *)
(** * auth: session tokens and challenges

    [src/auth/session.go], [src/auth/challenge.go] and the minting entry points of
    [src/auth/auth.go].  Tokens are self-contained, so a minter is its key, its two time
    limits and the revocation set; random session ids and the clock are arguments, and so
    is what the durable session store answers. *)
From S2P Require Import Prelude GoStd Crypto Authz.

Definition sessionPrefix : string := "st_".
Definition tokenVer : Z := 1.
Definition sidLen : nat := 16.
Definition credLen : nat := 16.
Definition hdrLen : nat := 71.

Record sessClaims := SessClaims {
  tier : Z;
  scope : Z;
  factors : Z;
  rot : Z;
  credID : list byte;
  authTime : Z;
  notBefore : Z
}.

Definition allZero (b : list byte) : bool := forallb (fun x => bz x =? 0) b.

Definition claims_assurance (c : sessClaims) : assurance :=
  let cid := if (length (credID c) =? credLen)%nat && negb (allZero (credID c)) then hex_encode (credID c) else ""%string in
  MkAssurance (tier c) (factors c) (authTime c) cid (scope c) (notBefore c).

Record minter := Minter {
  key : list byte;
  idleTTL : Z;
  maxTTL : Z;
  revoked : gmap string Z
}.
Definition newSessionMinter (k : list byte) (idle max : Z) : minter := Minter k idle max ∅.
Definition with_revoked (m : minter) (r : gmap string Z) : minter := Minter (key m) (idleTTL m) (maxTTL m) r.

Definition renewable (m : minter) : bool := maxTTL m >? 0.
Definition sign (m : minter) (payload : list byte) : list byte := hmac_sha256 (key m) payload.

Definition unixNanoOrZero (t : Z) : Z := if is_zero_time t then 0 else unix_nano t.
Definition timeFromNano (n : Z) : Z := if n =? 0 then zero_time else n.

Inductive terr : Type := errInvalidCredential | errNotRenewable.

(** ** Issue and parse *)

Definition cred_field (c : list byte) : list byte :=
  if (length c =? credLen)%nat then c else repeat (zb 0) credLen.

Definition token_payload (sid : list byte) (principal : string) (exp hardExp : Z) (c : sessClaims) : list byte :=
  [zb tokenVer] ++ sid ++ put_be 8 (u64 (unix_nano exp)) ++ put_be 8 (u64 (unixNanoOrZero hardExp)) ++
  put_be 8 (u64 (unixNanoOrZero (authTime c))) ++ put_be 8 (u64 (unixNanoOrZero (notBefore c))) ++
  [zb (tier c)] ++ [zb (scope c)] ++ put_be 2 (factors c) ++ put_be 2 (rot c) ++
  cred_field (credID c) ++ bytes_of principal.

(** The token and its two deadlines. *)
Definition issue (m : minter) (sid : list byte) (principal : string) (exp hardExp : Z) (c : sessClaims)
    : string * Z * Z :=
  let payload := token_payload sid principal exp hardExp c in
  ((sessionPrefix ++ b64_encode RawURLEncoding (payload ++ sign m payload))%string, exp, hardExp).

Record parsed := Parsed {
  p_sid : list byte;
  p_exp : Z;
  p_hardExp : Z;
  p_principal : string;
  p_claims : sessClaims
}.

Definition slice (a b : nat) (l : list byte) : list byte := take (b - a) (drop a l).

Definition parse (m : minter) (token : string) : result terr parsed :=
  match cut_prefix sessionPrefix token with
  | None => Err errInvalidCredential
  | Some body =>
      match b64_decode RawURLEncoding body with
      | None => Err errInvalidCredential
      | Some raw =>
          if (length raw <? hdrLen + 1 + 32)%nat || negb (bz (nth 0 raw Byte.x00) =? tokenVer)
          then Err errInvalidCredential else
          let payload := take (length raw - 32) raw in
          let sig := drop (length raw - 32) raw in
          if negb (bytes_eqb sig (sign m payload)) then Err errInvalidCredential else
          Ok (Parsed (slice 1 17 payload) (i64 (get_be (slice 17 25 payload))) (i64 (get_be (slice 25 33 payload)))
                (string_of (drop hdrLen payload))
                (SessClaims (get_be (slice 49 50 payload)) (get_be (slice 50 51 payload))
                   (get_be (slice 51 53 payload)) (get_be (slice 53 55 payload)) (slice 55 71 payload)
                   (timeFromNano (i64 (get_be (slice 33 41 payload))))
                   (timeFromNano (i64 (get_be (slice 41 49 payload))))))
      end
  end.

(** ** The operations *)

Definition with_authTime (c : sessClaims) (t : Z) : sessClaims :=
  SessClaims (tier c) (scope c) (factors c) (rot c) (credID c) t (notBefore c).

Definition mint (m : minter) (now : Z) (sid : list byte) (principal : string) (c : sessClaims) : string * Z * Z :=
  let c := if is_zero_time (authTime c) then with_authTime c now else c in
  let hardExp := if renewable m then now + maxTTL m else zero_time in
  issue m sid principal (now + idleTTL m) hardExp c.

Definition isRevoked (m : minter) (now : Z) (sid : list byte) : bool :=
  match revoked m !! hex_encode sid with Some until => unix_nano now <=? until | None => false end.

(** The deadline of a renewed token. *)
Definition slide (m : minter) (now hardExp : Z) : Z :=
  let newExp := now + idleTTL m in if newExp >? hardExp then hardExp else newExp.

Definition renew (m : minter) (t : Z) (token : string) : result terr (string * Z * Z) :=
  let* p := parse m token in
  if p_hardExp p =? 0 then Err errNotRenewable else
  let now := unix_nano t in
  if (now >? p_exp p) || (now >=? p_hardExp p) then Err errInvalidCredential
  else if isRevoked m t (p_sid p) then Err errInvalidCredential
  else Ok (issue m (p_sid p) (p_principal p) (slide m now (p_hardExp p)) (p_hardExp p) (p_claims p)).

Definition maybeRefresh (m : minter) (t : Z) (token : string) : option (string * Z) :=
  match parse m token with
  | Err _ => None
  | Ok p =>
      let now := unix_nano t in
      if p_hardExp p =? 0 then None
      else if (now >? p_exp p) || (now >=? p_hardExp p) then None
      else if (i64 (p_exp p - now) >? idleTTL m ÷ 2) || (p_exp p >=? p_hardExp p) then None
      else if isRevoked m t (p_sid p) then None
      else let '(tok, e, _) := issue m (p_sid p) (p_principal p) (slide m now (p_hardExp p)) (p_hardExp p) (p_claims p) in
           Some (tok, e)
  end.

Definition verify (m : minter) (t : Z) (token : string) : result terr (string * string * sessClaims) :=
  let* p := parse m token in
  if unix_nano t >? p_exp p then Err errInvalidCredential
  else if isRevoked m t (p_sid p) then Err errInvalidCredential
  else Ok (p_principal p, hex_encode (p_sid p), p_claims p).

Definition revoke (m : minter) (t : Z) (token : string) : minter * result terr unit :=
  match parse m token with
  | Err e => (m, Err e)
  | Ok p =>
      let now := unix_nano t in
      if now >? p_exp p then (m, Err errInvalidCredential)
      else
        let kept := filter (fun kv => (now >? kv.2) = false) (revoked m) in
        (with_revoked m (<[hex_encode (p_sid p) := Z.max (p_exp p) (p_hardExp p)]> kept), Ok tt)
  end.

Definition revokeSIDs (m : minter) (sids : gmap string Z) (exceptHexSID : string) : minter :=
  with_revoked m (filter (fun kv => kv.1 <> exceptHexSID) sids ∪ revoked m).
(** [sids]: what the durable store answers for the account or the credential. *)
Definition revokeAccount (m : minter) (sids : option (gmap string Z)) (exceptHexSID : string) : minter :=
  match sids with Some s => revokeSIDs m s exceptHexSID | None => m end.
Definition revokeByCredential (m : minter) (sids : option (gmap string Z)) : minter :=
  match sids with Some s => revokeSIDs m s "" | None => m end.
Definition revokeOne (m : minter) (now : Z) (sidHex : string) : minter :=
  revokeSIDs m {[ sidHex := unix_nano (now + i64 (idleTTL m + maxTTL m)) ]} "".

(** ** Minting entry points of the authenticator *)

Definition cred_bytes (credIDHex : string) : list byte :=
  match hex_decode credIDHex with Some b => if (length b =? credLen)%nat then b else [] | None => [] end.

Definition MintSessionAs (m : option minter) (now : Z) (sid : list byte) (principal : string)
    (tier factors scope : Z) (credIDHex : string) (notBefore : Z) : option (string * Z * Z) :=
  match m with
  | None => None
  | Some m => Some (mint m now sid principal (SessClaims tier scope factors 0 (cred_bytes credIDHex) zero_time notBefore))
  end.

Definition MintStepUp (m : option minter) (now : Z) (sid : list byte) (principal : string)
    (prev : assurance) (add : Z) (credIDHex : string) : option (string * Z * Z) :=
  match m with
  | None => None
  | Some m => Some (mint m now sid principal
                 (SessClaims (Tier prev) (Scope prev) (Z.lor (Factors prev) add) 0 (cred_bytes credIDHex)
                    (AuthTime prev) (NotBeforeDestructive prev)))
  end.

(** ** Challenges *)

Definition challengeTTL : Z := 60 * second.
Definition nonceLen : nat := 16.
Definition challengeLen : nat := nonceLen + 8 + 32.

Definition challenge_mint (ckey nonce : list byte) (now : Z) : string :=
  let buf := nonce ++ put_be 8 (u64 (unix_nano (now + challengeTTL))) in
  b64_encode RawURLEncoding (buf ++ hmac_sha256 ckey buf).

Definition challenge_valid (ckey : list byte) (now : Z) (s : string) : bool :=
  match b64_decode RawURLEncoding s with
  | None => false
  | Some tok =>
      if negb (length tok =? challengeLen)%nat then false else
      let payload := take (nonceLen + 8) tok in
      let sig := drop (nonceLen + 8) tok in
      if negb (bytes_eqb sig (hmac_sha256 ckey payload)) then false
      else unix_nano now <=? i64 (get_be (drop nonceLen payload))
  end.

(** ** Round trips *)

Lemma length_slice a b l : (a <= b <= length l)%nat -> length (slice a b l) = (b - a)%nat.
Proof. intros H. unfold slice. rewrite length_take, length_drop. lia. Qed.

Lemma slice_drop a b l : (a <= b)%nat -> slice a b l ++ drop b l = drop a l.
Proof.
  intros H. unfold slice. rewrite <- (take_drop (b - a) (drop a l)) at 2. rewrite drop_drop. do 2 f_equal. lia.
Qed.

(** A payload is the concatenation of its fields. *)
Lemma payload_fields p :
  p = slice 0 1 p ++ slice 1 17 p ++ slice 17 25 p ++ slice 25 33 p ++ slice 33 41 p ++ slice 41 49 p ++
      slice 49 50 p ++ slice 50 51 p ++ slice 51 53 p ++ slice 53 55 p ++ slice 55 71 p ++ drop hdrLen p.
Proof. unfold hdrLen. rewrite !slice_drop by lia. done. Qed.

Lemma app_eq_cut {A} (a b c d : list A) : length a = length c -> a ++ b = c ++ d -> a = c /\ b = d.
Proof. intros Hl. apply app_inj_1, Hl. Qed.

Record time_ok (t : Z) : Prop := { time_cases : t = zero_time \/ (in_i64 t /\ t <> 0) }.

Lemma time_roundtrip t : time_ok t -> timeFromNano (unixNanoOrZero t) = t /\ in_i64 (unixNanoOrZero t).
Proof.
  intros [[->|[H0 H1]]]; [split; [done|split; done]|]. unfold unixNanoOrZero, is_zero_time, timeFromNano.
  destruct (t =? zero_time) eqn:E.
  - bool_to_prop. subst. by apply zero_time_out in H0.
  - rewrite unix_nano_id by done. by rewrite (proj2 (Z.eqb_neq t 0)).
Qed.

Lemma nano_roundtrip n : in_i64 n -> unixNanoOrZero (timeFromNano n) = n.
Proof.
  intros Hn. unfold timeFromNano, unixNanoOrZero. destruct (n =? 0) eqn:E.
  - bool_to_prop. subst. done.
  - destruct (is_zero_time n) eqn:Ez; [|by apply unix_nano_id].
    unfold is_zero_time in Ez. bool_to_prop. subst. by apply zero_time_out in Hn.
Qed.

Lemma i64_range z : in_i64 (i64 z).
Proof. unfold in_i64, i64, two63, two64. pose proof (Z.mod_pos_bound (z + 9223372036854775808) 18446744073709551616). lia. Qed.

Lemma u64_i64 z : in_u64 z -> u64 (i64 z) = z.
Proof.
  unfold in_u64, u64, i64. intros H. rewrite Zminus_mod_idemp_l.
  replace (z + two63 - two63) with z by lia. by apply Z.mod_small.
Qed.

Lemma be8_i64 z : in_i64 z -> i64 (get_be (put_be 8 (u64 z))) = z.
Proof.
  intros H. rewrite get_put_be. pose proof (u64_range z) as Hr. rewrite Z.mod_small by apply Hr. by apply i64_u64.
Qed.

Lemma be8_of l : length l = 8%nat -> put_be 8 (u64 (i64 (get_be l))) = l.
Proof.
  intros Hl. rewrite u64_i64; [rewrite <- Hl; apply put_get_be|].
  pose proof (get_be_range l) as H. rewrite Hl in H. apply H.
Qed.

Record claims_ok (c : sessClaims) : Prop := {
  ck_tier : 0 <= tier c < 256;
  ck_scope : 0 <= scope c < 256;
  ck_factors : 0 <= factors c < 65536;
  ck_rot : 0 <= rot c < 65536;
  ck_auth : time_ok (authTime c);
  ck_nb : time_ok (notBefore c)
}.

(** What a token carries of its claims: the credential id is zero-filled. *)
Definition carried (c : sessClaims) : sessClaims :=
  SessClaims (tier c) (scope c) (factors c) (rot c) (cred_field (credID c)) (authTime c) (notBefore c).

Lemma length_cred_field c : length (cred_field c) = 16%nat.
Proof. unfold cred_field. destruct (Nat.eqb_spec (length c) credLen); [done|]. apply repeat_length. Qed.

Lemma length_token_payload sid p exp hard c :
  length sid = sidLen -> length (token_payload sid p exp hard c) = (71 + length (bytes_of p))%nat.
Proof.
  intros Hs. unfold token_payload. autorewrite with quic_rw. rewrite length_cred_field, Hs. cbn [length]. unfold sidLen. lia.
Qed.

Lemma cred_field_idem c : length c = 16%nat -> cred_field c = c.
Proof. intros H. unfold cred_field. by rewrite H. Qed.

Lemma length_sign m l : length (sign m l) = 32%nat.
Proof. apply length_hmac. Qed.

(** The fields of an issued payload. *)
Lemma token_payload_fields sid p exp hard c :
  length sid = sidLen ->
  let P := token_payload sid p exp hard c in
  slice 1 17 P = sid /\ slice 17 25 P = put_be 8 (u64 (unix_nano exp)) /\
  slice 25 33 P = put_be 8 (u64 (unixNanoOrZero hard)) /\
  slice 33 41 P = put_be 8 (u64 (unixNanoOrZero (authTime c))) /\
  slice 41 49 P = put_be 8 (u64 (unixNanoOrZero (notBefore c))) /\
  slice 49 50 P = [zb (tier c)] /\ slice 50 51 P = [zb (scope c)] /\
  slice 51 53 P = put_be 2 (factors c) /\ slice 53 55 P = put_be 2 (rot c) /\
  slice 55 71 P = cred_field (credID c) /\ drop hdrLen P = bytes_of p.
Proof.
  intros Hs P. pose proof (length_token_payload sid p exp hard c Hs) as Hl. fold P in Hl.
  pose proof (payload_fields P) as H. unfold P in H at 1. unfold token_payload in H. unfold sidLen in Hs.
  repeat match type of H with
  | _ ++ _ = slice ?a ?b ?x ++ _ =>
      let E := fresh "E" in
      apply app_eq_cut in H as [E H];
      [|rewrite (length_slice a b x) by lia; rewrite ?length_put_be, ?length_cred_field, ?Hs; reflexivity]
  end.
  repeat split; done.
Qed.

Lemma parse_issue m sid p exp hard c :
  length sid = sidLen -> p <> ""%string -> time_ok hard -> claims_ok c ->
  parse m (fst (fst (issue m sid p exp hard c))) =
  Ok (Parsed sid (unix_nano exp) (unixNanoOrZero hard) p (carried c)).
Proof.
  intros Hs Hp Hh [Ht Hsc Hf Hr Ha Hn]. unfold issue, parse. cbn [fst]. rewrite cut_prefix_app, b64_decode_encode.
  set (P := token_payload sid p exp hard c).
  assert (Hl : length P = (71 + length (bytes_of p))%nat) by (by apply length_token_payload).
  assert (Hlen : (1 <= length (bytes_of p))%nat).
  { destruct p as [|a s]; [done|]. cbn. lia. }
  assert (Hn0 : nth 0 (P ++ sign m P) Byte.x00 = zb tokenVer) by done.
  rewrite Hn0, length_app, length_sign, Hl.
  rewrite (proj2 (Nat.ltb_ge _ _)) by (unfold hdrLen; lia). rewrite bz_zb_small by (unfold tokenVer; lia).
  rewrite Z.eqb_refl. cbn [negb orb].
  replace (71 + length (bytes_of p) + 32 - 32)%nat with (length P) by lia.
  rewrite (take_app_exact P (sign m P)), (drop_app_exact P (sign m P)) by reflexivity. unfold bytes_eqb. rewrite bool_decide_true by done. cbn [negb].
  destruct (token_payload_fields sid p exp hard c Hs) as (E1 & E2 & E3 & E4 & E5 & E6 & E7 & E8 & E9 & E10 & E11).
  fold P in E1, E2, E3, E4, E5, E6, E7, E8, E9, E10, E11.
  rewrite E1, E2, E3, E4, E5, E6, E7, E8, E9, E10, E11, string_of_bytes_of.
  rewrite !get_put_be. cbn [get_be length]. rewrite !bz_zb_small by done.
  destruct (time_roundtrip hard Hh), (time_roundtrip _ Ha) as [Ha1 Ha2], (time_roundtrip _ Hn) as [Hn1 Hn2].
  rewrite <- !get_put_be, !be8_i64 by (first [done | apply i64_range]). rewrite Ha1, Hn1.
  rewrite !get_put_be, !Z.mod_small by lia. unfold carried. do 2 f_equal. f_equal; lia.
Qed.

(** The fields of a payload, one by one. *)
Lemma one_byte P a : (a < length P)%nat -> exists b, slice a (a + 1) P = [b].
Proof.
  intros Ha. pose proof (length_slice a (a + 1) P ltac:(lia)) as Hl.
  destruct (slice a (a + 1) P) as [|b [|]]; cbn in Hl; [lia|by exists b|lia].
Qed.
Lemma two_bytes P a b : (a + 2 = b)%nat -> (b <= length P)%nat ->
  0 <= get_be (slice a b P) < 65536 /\ put_be 2 (get_be (slice a b P)) = slice a b P.
Proof.
  intros <- Hb. pose proof (length_slice a (a + 2) P ltac:(lia)) as Hl. replace (a + 2 - a)%nat with 2%nat in Hl by lia.
  pose proof (get_be_range (slice a (a + 2) P)) as Hr. rewrite Hl in Hr. split; [apply Hr|]. rewrite <- Hl at 1. apply put_get_be.
Qed.
Lemma epoch_ok z : time_ok (timeFromNano (i64 z)).
Proof.
  constructor. unfold timeFromNano. destruct (i64 z =? 0) eqn:E; [by left|right]. bool_to_prop. split; [apply i64_range|done].
Qed.
(** A payload of the right version is rebuilt from what is read off it. *)
Lemma payload_rebuilt P : (hdrLen < length P)%nat -> bz (nth 0 P Byte.x00) = tokenVer ->
  token_payload (slice 1 17 P) (string_of (drop hdrLen P)) (i64 (get_be (slice 17 25 P))) (timeFromNano (i64 (get_be (slice 25 33 P))))
    (SessClaims (get_be (slice 49 50 P)) (get_be (slice 50 51 P)) (get_be (slice 51 53 P)) (get_be (slice 53 55 P))
       (slice 55 71 P) (timeFromNano (i64 (get_be (slice 33 41 P)))) (timeFromNano (i64 (get_be (slice 41 49 P))))) = P.
Proof.
  unfold hdrLen. intros Hlen Hver.
  destruct (one_byte P 49 ltac:(lia)) as [bt Hbt], (one_byte P 50 ltac:(lia)) as [bs Hbs], (one_byte P 0 ltac:(lia)) as [bv Hbv].
  cbn [Nat.add] in Hbt, Hbs, Hbv. unfold token_payload. cbn [tier scope factors rot credID authTime notBefore].
  rewrite !nano_roundtrip by apply i64_range. rewrite unix_nano_id by apply i64_range.
  rewrite !be8_of by (rewrite length_slice; lia).
  rewrite (proj2 (two_bytes P 51 53 eq_refl ltac:(lia))), (proj2 (two_bytes P 53 55 eq_refl ltac:(lia))).
  rewrite cred_field_idem, bytes_of_string_of by (rewrite length_slice; lia).
  rewrite (payload_fields P) at 12. rewrite Hbt, Hbs, Hbv. assert (G : forall b, get_be [b] = bz b) by (intros; cbn; lia). rewrite !G.
  assert (bv = zb tokenVer) as ->; [|by rewrite !zb_bz].
  apply bz_inj. rewrite bz_zb_small by done. rewrite <- Hver. destruct P as [|b P]; [cbn in Hlen; lia|]. by injection Hbv as ->.
Qed.

(** Every token that parses is, byte for byte, the token [issue] makes of what it says. *)
Lemma parse_exact m tok p :
  parse m tok = Ok p ->
  length (p_sid p) = sidLen /\ p_principal p <> ""%string /\ claims_ok (p_claims p) /\
  length (credID (p_claims p)) = credLen /\ in_i64 (p_exp p) /\ in_i64 (p_hardExp p) /\
  exists body, tok = (sessionPrefix ++ body)%string /\
    let P := token_payload (p_sid p) (p_principal p) (p_exp p) (timeFromNano (p_hardExp p)) (p_claims p) in
    b64_decode RawURLEncoding body = Some (P ++ sign m P).
Proof.
  unfold parse. destruct (cut_prefix sessionPrefix tok) as [body|] eqn:Ec; [|done].
  apply cut_prefix_some in Ec. destruct (b64_decode _ body) as [raw|] eqn:Ed; [|done].
  destruct (Nat.ltb_spec (length raw) (hdrLen + 1 + 32)) as [|Hlen]; [done|]. cbn [orb].
  destruct (bz (nth 0 raw Byte.x00) =? tokenVer) eqn:Ev; [|done]. cbn [negb].
  set (P := take (length raw - 32) raw). destruct (bytes_eqb _ _) eqn:Es; [|done]. cbn [negb].
  intros [= <-]. apply bool_decide_eq_true in Es. unfold hdrLen in Hlen.
  assert (HP : length P = (length raw - 32)%nat) by (unfold P; rewrite length_take; lia).
  cbn [p_sid p_exp p_hardExp p_principal p_claims credID].
  destruct (one_byte P 49 ltac:(lia)) as [bt Hbt], (one_byte P 50 ltac:(lia)) as [bs Hbs]. cbn [Nat.add] in Hbt, Hbs.
  split; [by rewrite length_slice by lia|]. split.
  { intros He. assert (Hd : length (drop hdrLen P) = 0%nat).
    { rewrite <- (bytes_of_string_of (drop hdrLen P)), He. done. }
    rewrite length_drop in Hd. unfold hdrLen in Hd. lia. }
  split.
  { constructor; cbn [tier scope factors rot authTime notBefore]; [| | | |apply epoch_ok|apply epoch_ok].
    - rewrite Hbt. cbn. pose proof (bz_range bt). lia.
    - rewrite Hbs. cbn. pose proof (bz_range bs). lia.
    - by apply two_bytes; [|lia].
    - by apply two_bytes; [|lia]. }
  split; [by rewrite length_slice by lia|]. split; [apply i64_range|]. split; [apply i64_range|].
  exists body. split; [done|]. rewrite Ed. f_equal.
  rewrite payload_rebuilt; [|unfold hdrLen; lia|].
  - rewrite <- Es. unfold P. by rewrite take_drop.
  - bool_to_prop. rewrite <- Ev. unfold P. destruct raw as [|r0 raw]; [cbn in Hlen; lia|]. cbn [length].
    by replace (S (length raw) - 32)%nat with (S (length raw - 32)) by (cbn in Hlen; lia).
Qed.

(** (token codec) Parsing an issued token gives back the session id, both deadlines, the
    principal and every assurance claim; and conversely whatever string parses carries the
    minter's signature over exactly the payload [issue] builds from the parsed fields, so
    no byte of a token is ignored and none of its claims can be altered without the key. *)
Theorem session_token_codec m :
  (forall sid p exp hard c,
     length sid = sidLen -> p <> ""%string -> time_ok hard -> claims_ok c ->
     parse m (fst (fst (issue m sid p exp hard c))) =
     Ok (Parsed sid (unix_nano exp) (unixNanoOrZero hard) p (carried c))) /\
  (forall tok q, parse m tok = Ok q ->
     exists body, tok = (sessionPrefix ++ body)%string /\
       let P := token_payload (p_sid q) (p_principal q) (p_exp q) (timeFromNano (p_hardExp q)) (p_claims q) in
       b64_decode RawURLEncoding body = Some (P ++ sign m P)).
Proof.
  split; [intros; by apply parse_issue|]. intros tok q Hq.
  by destruct (parse_exact m tok q Hq) as (_ & _ & _ & _ & _ & _ & H).
Qed.

(** ** Renewal *)

Lemma slide_le m now hard : slide m now hard <= hard.
Proof. unfold slide. destruct (_ >? hard) eqn:E; bool_to_prop; lia. Qed.

Lemma slide_range m now hard : 0 <= idleTTL m -> in_i64 now -> in_i64 hard -> in_i64 (slide m now hard).
Proof. unfold in_i64, slide. intros. destruct (_ >? hard) eqn:E; bool_to_prop; lia. Qed.

Lemma carried_parsed c : length (credID c) = credLen -> carried c = c.
Proof. intros H. unfold carried. rewrite cred_field_idem by done. by destruct c. Qed.

(** Re-issuing a parsed token changes its sliding deadline only. *)
Lemma parse_reissue m tok q now :
  0 <= idleTTL m -> in_i64 now -> parse m tok = Ok q -> p_hardExp q <> 0 ->
  parse m (fst (fst (issue m (p_sid q) (p_principal q) (slide m now (p_hardExp q)) (p_hardExp q) (p_claims q)))) =
  Ok (Parsed (p_sid q) (slide m now (p_hardExp q)) (p_hardExp q) (p_principal q) (p_claims q)).
Proof.
  intros Hi Hn Hq Hh. destruct (parse_exact m tok q Hq) as (Hs & Hp & Hc & Hcl & He & Hhe & _).
  rewrite parse_issue; [|done|done|constructor; by right|done].
  rewrite carried_parsed by done. rewrite unix_nano_id by (by apply slide_range).
  unfold unixNanoOrZero. destruct (is_zero_time (p_hardExp q)) eqn:E; [|by rewrite unix_nano_id].
  unfold is_zero_time in E. bool_to_prop. rewrite E in Hhe. by apply zero_time_out in Hhe.
Qed.

(** The tokens obtained from one by any number of renewals and transparent refreshes, on
    minters that share the key and the limits but whatever revocations. *)
Inductive descends (m0 : minter) (tok0 : string) : string -> Prop :=
| D_self : descends m0 tok0 tok0
| D_renew m now tok tok' e h :
    key m = key m0 -> idleTTL m = idleTTL m0 -> descends m0 tok0 tok ->
    renew m now tok = Ok (tok', e, h) -> descends m0 tok0 tok'
| D_refresh m now tok tok' e :
    key m = key m0 -> idleTTL m = idleTTL m0 -> descends m0 tok0 tok ->
    maybeRefresh m now tok = Some (tok', e) -> descends m0 tok0 tok'.

Lemma parse_key m m0 tok : key m = key m0 -> parse m tok = parse m0 tok.
Proof. intros H. unfold parse, sign. by rewrite H. Qed.

Lemma renew_ok m t tok tok' e h :
  renew m t tok = Ok (tok', e, h) -> exists q, parse m tok = Ok q /\ p_hardExp q <> 0 /\
    unix_nano t <= p_exp q /\ unix_nano t < p_hardExp q /\ isRevoked m t (p_sid q) = false /\
    tok' = fst (fst (issue m (p_sid q) (p_principal q) (slide m (unix_nano t) (p_hardExp q)) (p_hardExp q) (p_claims q))).
Proof.
  unfold renew. destruct (parse m tok) as [q|]; [|done]. cbn [rbind]. destruct (p_hardExp q =? 0) eqn:E0; [done|].
  destruct ((_ >? _) || _) eqn:E1; [done|]. destruct (isRevoked _ _ _) eqn:E2; [done|].
  bool_to_prop. intros [= <- _ _]. exists q. repeat split; try done.
Qed.

Lemma maybeRefresh_ok m t tok tok' e :
  maybeRefresh m t tok = Some (tok', e) -> exists q, parse m tok = Ok q /\ p_hardExp q <> 0 /\
    unix_nano t <= p_exp q /\ unix_nano t < p_hardExp q /\ isRevoked m t (p_sid q) = false /\
    tok' = fst (fst (issue m (p_sid q) (p_principal q) (slide m (unix_nano t) (p_hardExp q)) (p_hardExp q) (p_claims q))).
Proof.
  unfold maybeRefresh. destruct (parse m tok) as [q|]; [|done]. destruct (p_hardExp q =? 0) eqn:E0; [done|].
  destruct ((unix_nano t >? _) || _) eqn:E1; [done|]. destruct ((i64 _ >? _) || _); [done|].
  destruct (isRevoked _ _ _) eqn:E2; [done|].
  bool_to_prop. intros [= <- _]. exists q. repeat split; try done.
Qed.

Lemma unix_nano_range t : in_i64 (unix_nano t).
Proof. apply i64_range. Qed.

(** A renewed token differs from its ancestor in the sliding deadline only. *)
Lemma descends_parse m0 tok0 q0 tok :
  0 <= idleTTL m0 -> parse m0 tok0 = Ok q0 -> descends m0 tok0 tok ->
  exists exp, parse m0 tok = Ok (Parsed (p_sid q0) exp (p_hardExp q0) (p_principal q0) (p_claims q0)) /\
    exp <= Z.max (p_exp q0) (p_hardExp q0).
Proof.
  intros Hi H0. assert (forall m now tok exp q, key m = key m0 -> idleTTL m = idleTTL m0 ->
    parse m0 tok = Ok (Parsed (p_sid q0) exp (p_hardExp q0) (p_principal q0) (p_claims q0)) ->
    parse m tok = Ok q -> p_hardExp q <> 0 ->
    exists exp', parse m0 (fst (fst (issue m (p_sid q) (p_principal q) (slide m (unix_nano now) (p_hardExp q)) (p_hardExp q) (p_claims q)))) =
      Ok (Parsed (p_sid q0) exp' (p_hardExp q0) (p_principal q0) (p_claims q0)) /\ exp' <= Z.max (p_exp q0) (p_hardExp q0)) as Hstep.
  { intros m now tk exp q Hk Hid Hp Hq Hh. exists (slide m (unix_nano now) (p_hardExp q0)).
    rewrite <- (parse_key m m0), (parse_reissue m tk q) by (try done; by rewrite Hid || apply unix_nano_range).
    rewrite (parse_key m m0) in Hq by done. rewrite Hp in Hq. injection Hq as <-. cbn.
    split; [done|]. pose proof (slide_le m (unix_nano now) (p_hardExp q0)). lia. }
  induction 1 as [|m now tok tok' e h Hk Hid _ (exp & Hp & Hle) Hr|m now tok tok' e Hk Hid _ (exp & Hp & Hle) Hr].
  - exists (p_exp q0). rewrite H0. destruct q0; cbn. split; [done|lia].
  - apply renew_ok in Hr as (q & Hq & Hh & _ & _ & _ & ->). by apply (Hstep m now tok exp).
  - apply maybeRefresh_ok in Hr as (q & Hq & Hh & _ & _ & _ & ->). by apply (Hstep m now tok exp).
Qed.

(** C14: (bounded, frozen renewal) However often a token is renewed or refreshed, at whatever
    times and whatever is revoked meanwhile, the result carries the same session id, hard
    deadline, principal and assurance claims; its validity never passes the later of the
    first token's own expiry and the hard deadline, and [verify] rejects it afterwards. *)
Theorem renewal_frozen_and_bounded m0 tok0 q0 tok :
  0 <= idleTTL m0 -> parse m0 tok0 = Ok q0 -> descends m0 tok0 tok ->
  exists exp, parse m0 tok = Ok (Parsed (p_sid q0) exp (p_hardExp q0) (p_principal q0) (p_claims q0)) /\
    exp <= Z.max (p_exp q0) (p_hardExp q0) /\
    forall m t, key m = key m0 -> unix_nano t > Z.max (p_exp q0) (p_hardExp q0) ->
      verify m t tok = Err errInvalidCredential.
Proof.
  intros Hi H0 Hd. destruct (descends_parse m0 tok0 q0 tok Hi H0 Hd) as (exp & Hp & Hle).
  exists exp. split; [done|]. split; [done|].
  intros m t Hk Ht. unfold verify. rewrite (parse_key m m0), Hp by done. cbn [rbind p_exp].
  by rewrite (proj2 (Z.gtb_lt _ _)) by lia.
Qed.

(** ** Revocation *)

(** What may happen to a minter after a session with outer deadline [D] was revoked:
    time passes, any token is revoked (a token of this very session has the same outer
    deadline), and sessions are revoked by id, account or credential with deadlines that
    do not fall short of their session's. *)
Inductive later (sid : list byte) (D : Z) (m0 : minter) (now0 : Z) : minter -> Z -> Prop :=
| L_start : later sid D m0 now0 m0 now0
| L_time m now now' :
    later sid D m0 now0 m now -> now <= now' -> in_i64 now' -> later sid D m0 now0 m now'
| L_revoke m now tok :
    later sid D m0 now0 m now ->
    (forall q, parse m tok = Ok q -> p_sid q = sid -> D <= Z.max (p_exp q) (p_hardExp q)) ->
    later sid D m0 now0 (fst (revoke m now tok)) now
| L_revoke_sids m now sids except :
    later sid D m0 now0 m now -> (forall u, sids !! hex_encode sid = Some u -> D <= u) ->
    later sid D m0 now0 (revokeSIDs m sids except) now
| L_revoke_one m now s :
    later sid D m0 now0 m now -> 0 <= idleTTL m + maxTTL m -> in_i64 (now + (idleTTL m + maxTTL m)) ->
    in_i64 (idleTTL m + maxTTL m) -> D <= now + (idleTTL m + maxTTL m) ->
    later sid D m0 now0 (revokeOne m now s) now.

Definition still_revoked (sid : list byte) (D : Z) (m : minter) (now : Z) : Prop :=
  D < now \/ exists u, D <= u /\ revoked m !! hex_encode sid = Some u.

Lemma still_revoked_sids sid D m now sids except :
  (forall u, sids !! hex_encode sid = Some u -> D <= u) ->
  still_revoked sid D m now -> still_revoked sid D (revokeSIDs m sids except) now.
Proof.
  intros Hs [H|(u & Hu & Hr)]; [by left|right]. unfold revokeSIDs. cbn [revoked with_revoked].
  destruct (filter (fun kv => kv.1 <> except) sids !! hex_encode sid) as [v|] eqn:E.
  - exists v. split; [|by apply lookup_union_Some_l]. apply map_lookup_filter_Some in E as [E _]. by apply Hs.
  - exists u. split; [done|]. by rewrite lookup_union_r.
Qed.

Lemma still_revoked_revoke sid D m now tok : in_i64 now ->
  (forall q, parse m tok = Ok q -> p_sid q = sid -> D <= Z.max (p_exp q) (p_hardExp q)) ->
  still_revoked sid D m now -> still_revoked sid D (fst (revoke m now tok)) now.
Proof.
  intros Hn Htok IH. unfold revoke. destruct (parse m tok) as [q|] eqn:Hq; [|done]. destruct (_ >? p_exp q); [done|].
  cbn [fst]. destruct (decide (p_sid q = sid)) as [He|Hne].
  - right. exists (Z.max (p_exp q) (p_hardExp q)). cbn [revoked with_revoked]. rewrite He, lookup_insert_eq. by auto.
  - destruct IH as [IH|(u & Hu & Hrv)]; [by left|]. destruct (decide (u < now)); [left; lia|right].
    exists u. split; [done|]. cbn [revoked with_revoked].
    rewrite lookup_insert_ne by (intros Heq; apply hex_encode_inj in Heq; congruence).
    apply map_lookup_filter_Some. split; [done|]. cbn. rewrite unix_nano_id by done.
    rewrite Z.gtb_ltb. apply Z.ltb_ge. lia.
Qed.

Lemma still_revoked_one sid D m now s :
  in_i64 (now + (idleTTL m + maxTTL m)) -> in_i64 (idleTTL m + maxTTL m) -> D <= now + (idleTTL m + maxTTL m) ->
  still_revoked sid D m now -> still_revoked sid D (revokeOne m now s) now.
Proof.
  intros Hr1 Hr2 Hd. apply still_revoked_sids. intros u. rewrite (i64_id (idleTTL m + maxTTL m)), unix_nano_id by done.
  by intros [_ <-]%lookup_singleton_Some.
Qed.

(** A token of a revoked session is refused, for itself and for a successor. *)
Lemma revoked_refused m now tok q D : in_i64 now -> parse m tok = Ok q -> still_revoked (p_sid q) D m now -> p_exp q <= D ->
  verify m now tok = Err errInvalidCredential /\ is_ok (renew m now tok) = false /\ maybeRefresh m now tok = None.
Proof.
  intros Hn Hq Hs Hexp.
  assert (Hdead : (unix_nano now >? p_exp q) = true \/ isRevoked m now (p_sid q) = true).
  { rewrite unix_nano_id by done. unfold isRevoked. rewrite unix_nano_id by done.
    destruct Hs as [Hs|(u & Hu & ->)]; [left; apply Z.gtb_lt; lia|].
    destruct (decide (now <= u)); [right; by apply Z.leb_le|left; apply Z.gtb_lt; lia]. }
  unfold verify, renew, maybeRefresh. rewrite Hq. cbn [rbind]. split; [|split].
  - destruct Hdead as [->| ->]; [done|]. by destruct (_ >? _).
  - destruct (p_hardExp q =? 0); [done|]. destruct Hdead as [->| ->]; [done|]. by destruct (_ || _).
  - destruct (p_hardExp q =? 0); [done|]. destruct Hdead as [->| ->]; [done|].
    destruct (_ || _); [done|]. by destruct (_ || _).
Qed.

Lemma later_revoked sid D m0 now0 m now :
  in_i64 now0 -> still_revoked sid D m0 now0 -> later sid D m0 now0 m now ->
  still_revoked sid D m now /\ in_i64 now /\ key m = key m0.
Proof.
  intros Hn0 H0. induction 1 as [|m now now' _ (IH & Hn & Hk) Ht Hr|m now tok _ (IH & Hn & Hk) Htok
    |m now sids ex _ (IH & Hn & Hk) Hs|m now s _ (IH & Hn & Hk) Hpos Hr1 Hr2 Hd]; [done|..].
  - split; [|done]. destruct IH as [IH|?]; [left; lia|by right].
  - split; [by apply still_revoked_revoke|]. unfold revoke. destruct (parse m tok) as [q|]; [|done]. by destruct (_ >? p_exp q).
  - split; [|done]. by apply still_revoked_sids.
  - split; [|done]. by apply still_revoked_one.
Qed.

(** (logout is final) Once [revoke] accepted a token, every token of its session (in
    particular every renewal of it, none of which outlives the session's outer deadline)
    is refused by [verify], [renew] and [maybeRefresh] at every later time, whatever other
    revocations and garbage collections of the revocation set happen in between. *)
Theorem revocation_is_permanent m now tok m1 q m2 now2 tok' q' :
  parse m tok = Ok q -> revoke m now tok = (m1, Ok tt) -> in_i64 now ->
  later (p_sid q) (Z.max (p_exp q) (p_hardExp q)) m1 now m2 now2 ->
  parse m2 tok' = Ok q' -> p_sid q' = p_sid q -> p_exp q' <= Z.max (p_exp q) (p_hardExp q) ->
  verify m2 now2 tok' = Err errInvalidCredential /\ is_ok (renew m2 now2 tok') = false /\
  maybeRefresh m2 now2 tok' = None.
Proof.
  intros Hq Hrev Hn Hl Hq' Hsid Hexp.
  assert (H1 : still_revoked (p_sid q) (Z.max (p_exp q) (p_hardExp q)) m1 now).
  { unfold revoke in Hrev. rewrite Hq in Hrev. destruct (_ >? p_exp q); [done|]. injection Hrev as <-.
    right. exists (Z.max (p_exp q) (p_hardExp q)). split; [lia|]. cbn [revoked with_revoked]. by rewrite lookup_insert_eq. }
  destruct (later_revoked _ _ _ _ _ _ Hn H1 Hl) as (H2 & Hn2 & _). rewrite <- Hsid in H2.
  by eapply revoked_refused.
Qed.

(** ** Step-up *)

Record assurance_ok (a : assurance) : Prop := {
  ao_tier : 0 <= Tier a < 256;
  ao_scope : 0 <= Scope a < 256;
  ao_factors : 0 <= Factors a < 65536;
  ao_auth : in_i64 (AuthTime a) /\ AuthTime a <> 0;
  ao_nb : time_ok (NotBeforeDestructive a)
}.

Lemma lor_bound16 a b : 0 <= a < 65536 -> 0 <= b < 65536 -> 0 <= Z.lor a b < 65536.
Proof.
  intros Ha Hb. split; [apply Z.lor_nonneg; lia|].
  destruct (decide (Z.lor a b = 0)) as [->|Hne]; [lia|].
  assert (0 < Z.lor a b) by (pose proof (proj2 (Z.lor_nonneg a b)); lia).
  apply (Z.log2_lt_pow2 _ 16); [done|]. rewrite Z.log2_lor by lia.
  assert (forall x, 0 <= x < 65536 -> Z.log2 x < 16) as Hx.
  { intros x Hx. destruct (decide (x = 0)) as [->|]; [done|]. apply (Z.log2_lt_pow2 x 16); lia. }
  pose proof (Hx a Ha). pose proof (Hx b Hb). lia.
Qed.

Lemma assurance_gate_otp prev cid cid' nb act pol t :
  Z.land FactorOTP (pol_CredentialMgmt (withDefaults pol)) = 0 ->
  Z.land FactorOTP (pol_Destructive (withDefaults pol)) = 0 ->
  nb = NotBeforeDestructive prev ->
  RequireAssurance (Some (MkAssurance (Tier prev) (Z.lor (Factors prev) FactorOTP) (AuthTime prev) cid (Scope prev) nb)) act pol t =
  RequireAssurance (Some (MkAssurance (Tier prev) (Factors prev) (AuthTime prev) cid' (Scope prev) nb)) act pol t.
Proof.
  intros H1 H2 ->. destruct act; unfold RequireAssurance; cbn [Tier Factors AuthTime Scope NotBeforeDestructive]; [done|..];
    rewrite Z.land_lor_distr_l.
  - by rewrite H1, Z.lor_0_r.
  - by rewrite H2, Z.lor_0_r.
  - change (Z.land FactorOTP FactorRecovery) with 0. by rewrite Z.lor_0_r.
Qed.

(** (no recency from OTP) A session rotated by [MintStepUp] with a one-time-code factor
    answers every assurance question, for every action, at every later time and under any
    policy whose strict factor sets leave OTP out, exactly as the session it was rotated
    from: a phishable code neither opens the credential-management, destructive or
    recovery gates nor refreshes their recency window. *)
Theorem otp_stepup_keeps_gates m now sid p prev cid tok e h t p' sid' c act pol t' :
  length sid = sidLen -> p <> ""%string -> assurance_ok prev ->
  time_ok (if renewable m then now + maxTTL m else zero_time) ->
  MintStepUp (Some m) now sid p prev FactorOTP cid = Some (tok, e, h) ->
  verify m t tok = Ok (p', sid', c) ->
  Z.land FactorOTP (pol_CredentialMgmt (withDefaults pol)) = 0 ->
  Z.land FactorOTP (pol_Destructive (withDefaults pol)) = 0 ->
  p' = p /\ RequireAssurance (Some (claims_assurance c)) act pol t' = RequireAssurance (Some prev) act pol t'.
Proof.
  intros Hs Hp [Ht Hsc Hf [Ha Ha0] Hnb] Hh Hm Hv H1 H2. unfold MintStepUp, mint in Hm.
  cbn [authTime] in Hm. destruct (is_zero_time (AuthTime prev)) eqn:Ez.
  { unfold is_zero_time in Ez. bool_to_prop. rewrite Ez in Ha. by apply zero_time_out in Ha. }
  apply (inj Some) in Hm. unfold verify in Hv.
  set (c0 := SessClaims _ _ _ _ _ _ _) in Hm.
  assert (Hc0 : claims_ok c0).
  { constructor; cbn; try done; [|constructor; by right]. apply lor_bound16; [done|]. unfold FactorOTP; lia. }
  pose proof (parse_issue m sid p (now + idleTTL m) _ c0 Hs Hp Hh Hc0) as Hpar.
  rewrite Hm in Hpar. cbn [fst] in Hpar. rewrite Hpar in Hv. cbn [rbind p_exp p_sid p_principal p_claims] in Hv.
  destruct (_ >? _); [done|]. destruct (isRevoked _ _ _); [done|]. injection Hv as <- _ <-. split; [done|].
  destruct prev as [ti fa au ci sc nb]. unfold claims_assurance, carried, c0. cbn [tier factors authTime scope notBefore credID].
  by apply (assurance_gate_otp (MkAssurance ti fa au ci sc nb)).
Qed.

(** ** Challenges *)

(** (challenges) A minted challenge is accepted exactly until [challengeTTL] after it was
    minted, and every accepted string is a nonce and an expiry not yet passed under the
    challenger's own signature. *)
Theorem challenge_window k t :
  (forall nonce now, length nonce = nonceLen -> in_i64 (now + challengeTTL) ->
     challenge_valid k t (challenge_mint k nonce now) = (unix_nano t <=? now + challengeTTL)) /\
  (forall s, challenge_valid k t s = true ->
     exists nonce e, length nonce = nonceLen /\ in_i64 e /\ unix_nano t <= e /\
       let buf := nonce ++ put_be 8 (u64 e) in
       b64_decode RawURLEncoding s = Some (buf ++ hmac_sha256 k buf)).
Proof.
  split.
  - intros nonce now Hn Hr. unfold challenge_valid, challenge_mint. rewrite b64_decode_encode.
    set (buf := nonce ++ _). assert (Hl : length buf = 24%nat) by (unfold buf; by rewrite length_app, length_put_be, Hn).
    rewrite length_app, length_hmac, Hl. change (negb (24 + 32 =? challengeLen)%nat) with false. cbn iota.
    rewrite (take_app_exact buf), (drop_app_exact buf) by (by rewrite Hl).
    unfold bytes_eqb. rewrite bool_decide_true by done. cbn [negb]. unfold buf.
    rewrite drop_app_exact, (unix_nano_id (now + challengeTTL)), be8_i64 by done. done.
  - intros s. unfold challenge_valid. destruct (b64_decode _ s) as [tok|]; [|done].
    destruct (Nat.eqb_spec (length tok) challengeLen) as [Hl|]; [|done]. cbn [negb].
    destruct (bytes_eqb _ _) eqn:Hs; [|done]. cbn [negb]. apply bool_decide_eq_true in Hs. intros Ht.
    bool_to_prop. set (payload := take (nonceLen + 8) tok) in *.
    assert (Hp : length payload = 24%nat) by (unfold payload; rewrite length_take, Hl; done).
    exists (take nonceLen payload), (i64 (get_be (drop nonceLen payload))).
    split; [rewrite length_take, Hp; done|]. split; [apply i64_range|]. split; [done|].
    rewrite be8_of by (rewrite length_drop, Hp; done). cbn zeta. rewrite take_drop, <- Hs.
    unfold payload. by rewrite take_drop.
Qed.

(** ** Concrete inputs *)

Definition demo_m : minter := newSessionMinter [] (900 * second) (3600 * second).
Definition demo_sid : list byte := repeat (zb 5) 16.
Definition demo_c : sessClaims := SessClaims 1 0 8 0 (repeat (zb 9) 16) 1000 zero_time.
Definition demo_tok : string := fst (fst (mint demo_m 1000 demo_sid "u_1" demo_c)).
Definition demo_q : parsed :=
  Parsed demo_sid (1000 + 900 * second) (1000 + 3600 * second) "u_1" demo_c.
Definition demo_t2 : Z := 1000 + 800 * second.
Definition demo_tok2 : string :=
  fst (fst (issue demo_m demo_sid "u_1" (demo_t2 + 900 * second) (1000 + 3600 * second) demo_c)).

Lemma renewal_frozen_and_bounded_witness :
  renew demo_m demo_t2 demo_tok = Ok (demo_tok2, demo_t2 + 900 * second, 1000 + 3600 * second) /\
  verify demo_m (1000 + 3601 * second) demo_tok2 = Err errInvalidCredential.
Proof.
  assert (Hr : renew demo_m demo_t2 demo_tok = Ok (demo_tok2, demo_t2 + 900 * second, 1000 + 3600 * second))
    by (vm_compute; reflexivity).
  split; [exact Hr|].
  destruct (renewal_frozen_and_bounded demo_m demo_tok demo_q demo_tok2) as (exp & _ & _ & H).
  - discriminate.
  - vm_compute. reflexivity.
  - exact (D_renew demo_m demo_tok demo_m demo_t2 demo_tok demo_tok2 _ _ eq_refl eq_refl (D_self _ _) Hr).
  - apply (H demo_m); reflexivity.
Defined.

Lemma revocation_is_permanent_witness :
  verify (fst (revoke demo_m 2000 demo_tok)) 5000 demo_tok2 = Err errInvalidCredential.
Proof.
  refine (proj1 (revocation_is_permanent demo_m 2000 demo_tok (fst (revoke demo_m 2000 demo_tok)) demo_q
    (fst (revoke demo_m 2000 demo_tok)) 5000 demo_tok2
    (Parsed demo_sid (demo_t2 + 900 * second) (1000 + 3600 * second) "u_1" demo_c) _ _ _ _ _ _ _)).
  - vm_compute. reflexivity.
  - vm_compute. reflexivity.
  - split; vm_compute; congruence.
  - eapply L_time; [apply L_start|discriminate|split; vm_compute; congruence].
  - vm_compute. reflexivity.
  - reflexivity.
  - discriminate.
Defined.

Definition demo_prev : assurance := MkAssurance 1 8 1000 "" 0 zero_time.
Definition demo_stepped : string :=
  match MintStepUp (Some demo_m) (700 * second) demo_sid "u_1" demo_prev FactorOTP "" with
  | Some (tok, _, _) => tok | None => "" end.

Lemma otp_stepup_keeps_gates_witness :
  RequireAssurance (Some (MkAssurance 1 10 1000 "" 0 zero_time)) CredentialMgmt (MkPolicy 0 0 0) (700 * second)
  = Err ErrStepUpRequired.
Proof.
  refine (eq_trans (proj2 (otp_stepup_keeps_gates demo_m (700 * second) demo_sid "u_1" demo_prev ""
    demo_stepped (700 * second + 900 * second) (700 * second + 3600 * second) (700 * second) "u_1"
    (hex_encode demo_sid) (SessClaims 1 0 10 0 (repeat (zb 0) 16) 1000 zero_time)
    CredentialMgmt (MkPolicy 0 0 0) (700 * second) _ _ _ _ _ _ _ _)) _).
  - reflexivity.
  - discriminate.
  - constructor; cbn; [lia|lia|lia|split; [split; [discriminate|reflexivity]|lia]|constructor; left; reflexivity].
  - constructor. right. split; [split; [discriminate|reflexivity]|discriminate].
  - vm_compute. reflexivity.
  - vm_compute. reflexivity.
  - reflexivity.
  - reflexivity.
  - reflexivity.
Defined.
