(* ===== verification/Logout.v ===== *)
(** * Sessions on record: the device list and logging out everywhere

    [src/auth/session.go] and the session methods of [src/auth/auth.go] with a session
    store wired in.  Tokens themselves are [Token.v]'s; here every mint also records its
    session, and sessions are revoked by account, by credential or by id through the record.
    The store is an interface a feature module implements ([SessionStore]), so it is a
    record of operations with the behaviour its comments state as laws. *)
From S2P Require Import Prelude GoStd Crypto Authz Token.

(** ** The store *)

Record row := Row { r_account : string; r_cred : string; r_deadline : Z }.

Record SessionStore (S : Type) := {
  PutSession : S -> string -> string -> string -> Z -> Z -> Z -> S * bool;   (* sid, account, credential, created, exp, hard *)
  SessionsByAccount : S -> string -> option (gmap string Z);
  SessionsByCredential : S -> string -> option (gmap string Z);
  DeleteSessions : S -> list string -> S * bool
}.
Arguments PutSession {S}. Arguments SessionsByAccount {S}. Arguments SessionsByCredential {S}. Arguments DeleteSessions {S}.

(** What the interface's comments say of an implementation, over the live rows [view]: a put
    that succeeds records the session with its outer deadline, a query that answers answers
    exactly the live sessions asked for, and a delete removes nothing else.  Any call may
    fail. *)
Record store_laws {S} (L : SessionStore S) (view : S -> gmap string row) : Prop := {
  l_put : forall s sid acc cred t e hd, let '(s', ok) := PutSession L s sid acc cred t e hd in
    view s' = if ok then <[sid := Row acc cred (Z.max e hd)]> (view s) else view s;
  l_account : forall s a m, SessionsByAccount L s a = Some m ->
    forall sid d, m !! sid = Some d <-> exists c, view s !! sid = Some (Row a c d);
  l_cred : forall s c m, SessionsByCredential L s c = Some m ->
    forall sid d, m !! sid = Some d <-> exists a, view s !! sid = Some (Row a c d);
  l_delete : forall s sids k, let s' := (DeleteSessions L s sids).1 in
    view s' !! k = view s !! k \/ k ∈ sids /\ view s' !! k = None
}.

Section Sessions.
Context {S : Type} (L : SessionStore S).

(** ** The minter with its store *)

Record world := World { mt : minter; st : option S }.
Definition with_st (w : world) (o : option S) : world := World (mt w) o.
Definition with_mt (w : world) (m : minter) : world := World m (st w).

Definition credHex (c : sessClaims) : string :=
  if (length (credID c) =? credLen)%nat && negb (allZero (credID c)) then hex_encode (credID c) else "".

(** Recording is best effort: the token is valid regardless. *)
Definition mint (w : world) (now : Z) (sid : list byte) (principal : string) (c : sessClaims) : world * (string * Z * Z) :=
  let '(tok, exp, hardExp) := Token.mint (mt w) now sid principal c in
  (match st w with
   | None => w
   | Some s => with_st w (Some (PutSession L s (hex_encode sid) principal (credHex c) (unix_nano now) (unix_nano exp) (unixNanoOrZero hardExp)).1)
   end, (tok, exp, hardExp)).

Definition delete_rows (w : world) (sids : list string) : world :=
  match st w, sids with
  | Some s, _ :: _ => with_st w (Some (DeleteSessions L s sids).1)
  | _, _ => w
  end.
Definition revokeSIDs (w : world) (sids : gmap string Z) (exceptHexSID : string) : world :=
  delete_rows (with_mt w (Token.revokeSIDs (mt w) sids exceptHexSID))
    (map fst (map_to_list (filter (fun kv => kv.1 <> exceptHexSID) sids))).
(** [Err tt]: the store's own error. *)
Definition revokeAccount (w : world) (account exceptHexSID : string) : world * result unit unit :=
  match st w with
  | None => (w, Ok tt)
  | Some s => match SessionsByAccount L s account with
              | None => (w, Err tt)
              | Some sids => (revokeSIDs w sids exceptHexSID, Ok tt)
              end
  end.
Definition revokeByCredential (w : world) (credID : string) : world * result unit unit :=
  match st w with
  | None => (w, Ok tt)
  | Some s => match SessionsByCredential L s credID with
              | None => (w, Err tt)
              | Some sids => (revokeSIDs w sids "", Ok tt)
              end
  end.
Definition revokeOne (w : world) (now : Z) (sidHex : string) : world :=
  revokeSIDs w {[ sidHex := unix_nano (now + i64 (idleTTL (mt w) + maxTTL (mt w))) ]} "".

Definition revoke (w : world) (now : Z) (token : string) : world * result terr unit :=
  match Token.revoke (mt w) now token, parse (mt w) token with
  | (m', Ok _), Ok p => (delete_rows (with_mt w m') [hex_encode (p_sid p)], Ok tt)
  | (m', r), _ => (with_mt w m', r)
  end.

(** ** The authenticator's entry points; [None]: session auth is disabled *)

Definition SetSessionStore (a : option world) (s : S) : option world := (fun w => with_st w (Some s)) <$> a.
Definition RevokeAccountSessions (a : option world) (account exceptHexSID : string) : option world * result unit unit :=
  match a with
  | None => (None, Ok tt)
  | Some w => let '(w', r) := revokeAccount w account exceptHexSID in (Some w', r)
  end.
Definition RevokeCredentialSessions (a : option world) (credID : string) : option world * result unit unit :=
  match a with
  | None => (None, Ok tt)
  | Some w => let '(w', r) := revokeByCredential w credID in (Some w', r)
  end.
Definition RevokeSessionID (a : option world) (now : Z) (sidHex : string) : option world :=
  (fun w => revokeOne w now sidHex) <$> a.

(** ** Runs

    The log of minted sessions is what the process has handed out: who it is for, the token,
    and whether the store took the record. *)

Record session := Session { ss_sid : list byte; ss_account : string; ss_tok : string; ss_stored : bool }.
Record state := State { w_ : world; now_ : Z; log_ : list session }.

Variable view : S -> gmap string row.
Hypothesis laws : store_laws L view.

Definition rows (w : world) : gmap string row := match st w with Some s => view s | None => ∅ end.
(** Session ids are random: a mint's is new to this process and to the store. *)
Definition fresh (x : state) (sid : list byte) : Prop :=
  length sid = sidLen /\ sid ∉ map ss_sid (log_ x) /\ rows (w_ x) !! hex_encode sid = None.
(** A token that checks out is one the process made: nobody else has the key. *)
Definition authentic (x : state) (tok : string) : Prop :=
  forall q, parse (mt (w_ x)) tok = Ok q -> exists s, s ∈ log_ x /\ descends (mt (w_ x)) (ss_tok s) tok.
(** The clock and the configured windows fit [time.Time] in nanoseconds. *)
Definition sane (m : minter) (now : Z) : Prop :=
  0 <= idleTTL m /\ 0 <= maxTTL m /\ 0 < now /\ in_i64 (now + (idleTTL m + maxTTL m)).

Definition stored (w : world) (now : Z) (sid : list byte) (principal : string) (c : sessClaims) : bool :=
  match st w with
  | None => false
  | Some s => let '(_, exp, hardExp) := Token.mint (mt w) now sid principal c in
              (PutSession L s (hex_encode sid) principal (credHex c) (unix_nano now) (unix_nano exp) (unixNanoOrZero hardExp)).2
  end.

Inductive step : state -> state -> Prop :=
| S_time w now l now' : now <= now' -> sane (mt w) now' -> step (State w now l) (State w now' l)
| S_mint w now l sid p c : fresh (State w now l) sid -> p <> ""%string -> claims_ok c ->
    step (State w now l)
      (State (mint w now sid p c).1 now (l ++ [Session sid p (mint w now sid p c).2.1.1 (stored w now sid p c)]))
| S_revoke w now l tok : authentic (State w now l) tok -> step (State w now l) (State (revoke w now tok).1 now l)
| S_account w now l a e : step (State w now l) (State (revokeAccount w a e).1 now l)
| S_cred w now l c : step (State w now l) (State (revokeByCredential w c).1 now l)
| S_one w now l s : step (State w now l) (State (revokeOne w now s) now l).

(** ** The invariant *)

Definition outer (q : parsed) : Z := Z.max (p_exp q) (p_hardExp q).
(** The configuration's checks on the two windows ([Config.validateAuth]). *)
Definition windows (m : minter) : Prop := 0 <= idleTTL m /\ (maxTTL m = 0 \/ idleTTL m <= maxTTL m).
Definition horizon (m : minter) (now : Z) : Z := now + (idleTTL m + maxTTL m).

Definition row_ok (w : world) (now : Z) (s : session) : Prop :=
  exists q, parse (mt w) (ss_tok s) = Ok q /\ p_sid q = ss_sid s /\ p_principal q = ss_account s /\ length (ss_sid s) = sidLen /\
    (p_hardExp q = 0 \/ p_exp q <= p_hardExp q) /\ outer q <= horizon (mt w) now /\
    (forall r, rows w !! hex_encode (ss_sid s) = Some r -> r_account r = ss_account s /\ r_deadline r = outer q) /\
    (ss_stored s = true -> is_Some (rows w !! hex_encode (ss_sid s)) \/ still_revoked (ss_sid s) (outer q) (mt w) now).

Record inv (x : state) : Prop := {
  i_windows : windows (mt (w_ x));
  i_now : 0 < now_ x /\ in_i64 (horizon (mt (w_ x)) (now_ x));
  i_log : forall s, s ∈ log_ x -> row_ok (w_ x) (now_ x) s;
  i_nodup : NoDup (map ss_sid (log_ x))
}.
Definition same_key (m m' : minter) : Prop := key m' = key m /\ idleTTL m' = idleTTL m /\ maxTTL m' = maxTTL m.

Lemma descends_key m m' tok0 tok : key m' = key m -> idleTTL m' = idleTTL m -> descends m tok0 tok -> descends m' tok0 tok.
Proof.
  intros Hk Hi. induction 1 as [|m1 now t t' e h H1 H2 _ IH Hr|m1 now t t' e H1 H2 _ IH Hr]; [constructor| |].
  - apply (D_renew m' tok0 m1 now t t' e h); congruence.
  - apply (D_refresh m' tok0 m1 now t t' e); congruence.
Qed.

(** All tokens of a session have its outer deadline. *)
Lemma descends_outer m tok0 q0 tok q : 0 <= idleTTL m -> parse m tok0 = Ok q0 -> (p_hardExp q0 = 0 \/ p_exp q0 <= p_hardExp q0) ->
  descends m tok0 tok -> parse m tok = Ok q -> p_sid q = p_sid q0 /\ outer q = outer q0 /\ p_exp q <= outer q0.
Proof.
  intros Hi H0 Hw Hd Hq. destruct (descends_parse m tok0 q0 tok Hi H0 Hd) as (e & Hp & Hle).
  rewrite Hp in Hq. injection Hq as <-. unfold outer. cbn. split; [done|].
  assert (p_hardExp q0 = 0 -> tok = tok0) as Hnr.
  { intros Hz. destruct Hd as [|m1 t tok1 tok' e1 h1 Hk1 Hi1 Hd1 Hr|m1 t tok1 tok' e1 Hk1 Hi1 Hd1 Hr]; [done| |].
    - apply renew_ok in Hr as (q & Hq & Hh & _). destruct (descends_parse m tok0 q0 tok1 Hi H0 Hd1) as (e2 & Hp2 & _).
      rewrite (parse_key _ m) in Hq by done. rewrite Hp2 in Hq. by injection Hq as <-.
    - apply maybeRefresh_ok in Hr as (q & Hq & Hh & _). destruct (descends_parse m tok0 q0 tok1 Hi H0 Hd1) as (e2 & Hp2 & _).
      rewrite (parse_key _ m) in Hq by done. rewrite Hp2 in Hq. by injection Hq as <-. }
  destruct Hw as [Hz|Hw]; [|split; lia].
  rewrite Hnr in Hp by done. rewrite H0 in Hp. injection Hp as Hp. rewrite Hp. cbn. split; lia.
Qed.

(** What is enough for the invariant when nothing is minted: the same key, no row appears,
    no revocation is forgotten and a row is only dropped for a session revoked by then. *)
Definition carries (w w' : world) (now : Z) (l : list session) : Prop :=
  same_key (mt w) (mt w') /\ (forall k r, rows w' !! k = Some r -> rows w !! k = Some r) /\
  forall s q, s ∈ l -> parse (mt w) (ss_tok s) = Ok q ->
    (still_revoked (ss_sid s) (outer q) (mt w) now -> still_revoked (ss_sid s) (outer q) (mt w') now) /\
    (is_Some (rows w !! hex_encode (ss_sid s)) -> rows w' !! hex_encode (ss_sid s) = None ->
       still_revoked (ss_sid s) (outer q) (mt w') now).

Lemma carries_inv w w' now l : inv (State w now l) -> carries w w' now l -> inv (State w' now l).
Proof.
  intros [Hw Hn Hl Hd] ((Hk & Hi & Hm) & Hrows & Hs). unfold windows, horizon in *. cbn [w_ now_ log_] in *.
  split; cbn [w_ now_ log_]; unfold windows, horizon; rewrite ?Hi, ?Hm; try done.
  intros s Hin. destruct (Hl s Hin) as (q & Hq & H1 & H2 & H3 & H4 & H5 & H6 & H7). destruct (Hs s q Hin Hq) as [Hs1 Hs2].
  exists q. rewrite (parse_key (mt w') (mt w)) by done. unfold horizon. rewrite Hi, Hm.
  do 6 (split; [done|]). split; [intros r Hr; by apply H6, Hrows|].
  intros [Hr|Hr]%H7; [|right; by apply Hs1].
  destruct (rows w' !! hex_encode (ss_sid s)) eqn:E; [by left|right; by apply Hs2].
Qed.

Lemma carries_refl w now l : carries w w now l.
Proof. split; [done|]. split; [done|]. intros s q _ _. split; [done|]. intros [? E1] E2. congruence. Qed.

Lemma hex_nonempty sid : length sid = sidLen -> hex_encode sid <> ""%string.
Proof. destruct sid; [done|]. by unfold hex_encode. Qed.

Lemma delete_rows_view w sids k :
  rows (delete_rows w sids) !! k = rows w !! k \/ k ∈ sids /\ rows (delete_rows w sids) !! k = None.
Proof.
  unfold delete_rows, rows. destruct (st w) as [s|] eqn:E; [|left; by rewrite E].
  destruct sids as [|x l]; [left; by rewrite E|]. cbn [st with_st]. apply (l_delete L view laws s (x :: l) k).
Qed.

Lemma delete_rows_mt w sids : mt (delete_rows w sids) = mt w.
Proof. unfold delete_rows. destruct (st w), sids; reflexivity. Qed.

(** Revoking a set of ids, when the deadlines are not short. *)
Lemma revokeSIDs_carries w now l sids except :
  (forall s q u, s ∈ l -> parse (mt w) (ss_tok s) = Ok q -> sids !! hex_encode (ss_sid s) = Some u -> outer q <= u) ->
  carries w (revokeSIDs w sids except) now l.
Proof.
  intros Hu. unfold revokeSIDs. split; [|split].
  - rewrite delete_rows_mt. done.
  - intros k r Hr. destruct (delete_rows_view (with_mt w (Token.revokeSIDs (mt w) sids except))
      (map fst (map_to_list (filter (fun kv => kv.1 <> except) sids))) k) as [E|[_ E]]; rewrite E in Hr; [exact Hr|done].
  - intros s q Hin Hq. rewrite delete_rows_mt. cbn [mt with_mt]. split.
    { apply still_revoked_sids. intros u. by apply Hu. }
    intros Hsome Hnone. destruct (delete_rows_view (with_mt w (Token.revokeSIDs (mt w) sids except))
      (map fst (map_to_list (filter (fun kv => kv.1 <> except) sids))) (hex_encode (ss_sid s))) as [E|[Hk _]].
    { rewrite E in Hnone. unfold rows in *. cbn [st with_mt] in Hnone. rewrite Hnone in Hsome. by destruct Hsome. }
    apply list_elem_of_fmap in Hk as ([k u] & Ek & Hk). apply elem_of_map_to_list in Hk. cbn in Ek. subst k.
    right. exists u. unfold Token.revokeSIDs. cbn [revoked with_revoked].
    split; [|by apply lookup_union_Some_l]. apply map_lookup_filter_Some in Hk as [Hk _]. by apply (Hu s q u).
Qed.

Lemma revokeAccount_carries w now l a e : inv (State w now l) -> carries w (revokeAccount w a e).1 now l.
Proof.
  intros Hi. unfold revokeAccount. destruct (st w) as [s0|] eqn:Es; [|apply carries_refl].
  destruct (SessionsByAccount L s0 a) as [sids|] eqn:Ea; [|apply carries_refl]. cbn [fst].
  apply revokeSIDs_carries. intros s q u Hin Hq Hu. destruct (i_log _ Hi s Hin) as (q' & Hq' & _ & _ & _ & _ & _ & Hr & _).
  cbn in Hq', Hr. rewrite Hq in Hq'. injection Hq' as <-. apply (l_account L view laws _ _ _ Ea) in Hu as [c Hc].
  unfold rows in Hr. rewrite Es in Hr. apply Hr in Hc as [_ Hd]. cbn in Hd. lia.
Qed.

Lemma revokeByCredential_carries w now l c : inv (State w now l) -> carries w (revokeByCredential w c).1 now l.
Proof.
  intros Hi. unfold revokeByCredential. destruct (st w) as [s0|] eqn:Es; [|apply carries_refl].
  destruct (SessionsByCredential L s0 c) as [sids|] eqn:Ea; [|apply carries_refl]. cbn [fst].
  apply revokeSIDs_carries. intros s q u Hin Hq Hu. destruct (i_log _ Hi s Hin) as (q' & Hq' & _ & _ & _ & _ & _ & Hr & _).
  cbn in Hq', Hr. rewrite Hq in Hq'. injection Hq' as <-. apply (l_cred L view laws _ _ _ Ea) in Hu as [a Hc].
  unfold rows in Hr. rewrite Es in Hr. apply Hr in Hc as [_ Hd]. cbn in Hd. lia.
Qed.

Lemma with_mt_same w : with_mt w (mt w) = w.
Proof. by destruct w. Qed.

Lemma horizon_in m now : windows m -> 0 < now -> in_i64 (horizon m now) ->
  in_i64 (idleTTL m + maxTTL m) /\ in_i64 now /\ 0 <= maxTTL m.
Proof. unfold windows, horizon, in_i64. lia. Qed.

Lemma revokeOne_carries w now l sid : inv (State w now l) -> carries w (revokeOne w now sid) now l.
Proof.
  intros Hi. destruct (i_now _ Hi) as [Hn Hh]. destruct (horizon_in _ _ (i_windows _ Hi) Hn Hh) as (H1 & H2 & H3). cbn in *.
  apply revokeSIDs_carries. intros s q u Hin Hq [_ <-]%lookup_singleton_Some.
  destruct (i_log _ Hi s Hin) as (q' & Hq' & _ & _ & _ & _ & Ho & _). cbn in Hq', Ho. rewrite Hq in Hq'. injection Hq' as <-.
  rewrite (i64_id (idleTTL (mt w) + maxTTL (mt w))), unix_nano_id by done. exact Ho.
Qed.

Lemma revoke_carries w now l tok : inv (State w now l) -> authentic (State w now l) tok -> carries w (revoke w now tok).1 now l.
Proof.
  intros Hi Ha. destruct (i_now _ Hi) as [Hn Hh]. destruct (horizon_in _ _ (i_windows _ Hi) Hn Hh) as (_ & Hn2 & _).
  assert (forall s q p, s ∈ l -> parse (mt w) (ss_tok s) = Ok q -> parse (mt w) tok = Ok p -> p_sid p = ss_sid s -> outer q <= outer p) as Hout.
  { intros s q p Hin Hq Hp Hs. destruct (Ha p Hp) as (s1 & Hs1 & Hd). cbn in Hs1, Hd.
    destruct (i_log _ Hi s1 Hs1) as (q1 & Hq1 & E1 & _ & _ & Hw1 & _). cbn in Hq1.
    destruct (descends_outer _ _ _ _ _ (proj1 (i_windows _ Hi)) Hq1 Hw1 Hd Hp) as (E2 & E3 & _).
    assert (s1 = s) as ->; [|rewrite Hq in Hq1; injection Hq1 as <-; lia].
    apply list_elem_of_lookup in Hs1 as [i1 F1], Hin as [i F].
    assert (i1 = i) as ->; [|congruence]. apply (NoDup_lookup (map ss_sid l) i1 i (ss_sid s) (i_nodup _ Hi)); cbn;
      rewrite list_lookup_fmap; [rewrite F1|rewrite F]; cbn; congruence. }
  unfold revoke. destruct (Token.revoke (mt w) now tok) as [m' r] eqn:E. unfold Token.revoke in E.
  destruct (parse (mt w) tok) as [p|] eqn:Hp; [|injection E as <- <-; cbn [fst]; rewrite with_mt_same; apply carries_refl].
  destruct (unix_nano now >? p_exp p) eqn:Ex; [injection E as <- <-; cbn [fst]; rewrite with_mt_same; apply carries_refl|].
  assert (m' = (Token.revoke (mt w) now tok).1) as Hm' by (unfold Token.revoke; rewrite Hp, Ex; by injection E as <- <-).
  injection E as E1 <-. cbn [fst]. split; [by rewrite delete_rows_mt, <- E1|]. split.
  - intros k rw Hr. destruct (delete_rows_view (with_mt w m') [hex_encode (p_sid p)] k) as [E|[_ E]]; rewrite E in Hr; [exact Hr|done].
  - intros s q Hin Hq. rewrite delete_rows_mt. cbn [mt with_mt]. split.
    + rewrite Hm'. apply still_revoked_revoke; [done|]. intros p' Hp' Hs. rewrite Hp in Hp'. injection Hp' as <-. by apply (Hout s q p).
    + intros Hsome Hnone. destruct (delete_rows_view (with_mt w m') [hex_encode (p_sid p)] (hex_encode (ss_sid s))) as [E|[Hk _]].
      { rewrite E in Hnone. unfold rows in *. cbn [st with_mt] in Hnone. rewrite Hnone in Hsome. by destruct Hsome. }
      apply list_elem_of_singleton, hex_encode_inj in Hk. right. exists (outer p).
      split; [by apply (Hout s q p)|]. rewrite <- E1, Hk. cbn [revoked with_revoked]. by rewrite lookup_insert_eq.
Qed.

(** Minting: the new session is live, recorded when the store said so, and nobody else's row
    moves. *)
Lemma mint_inv w now l sid p c : inv (State w now l) -> fresh (State w now l) sid -> p <> ""%string -> claims_ok c ->
  inv (State (mint w now sid p c).1 now (l ++ [Session sid p (mint w now sid p c).2.1.1 (stored w now sid p c)])).
Proof.
  intros Hi (Hlen & Hnew & Hrow) Hp Hc. destruct (i_now _ Hi) as [Hn Hh]. destruct (i_windows _ Hi) as [Hid Hmx].
  destruct (horizon_in _ _ (i_windows _ Hi) Hn Hh) as (Hsum & Hn2 & Hm0). cbn [w_ now_ log_] in *.
  set (exp := now + idleTTL (mt w)). set (hd := if renewable (mt w) then now + maxTTL (mt w) else zero_time).
  set (c' := if is_zero_time (authTime c) then with_authTime c now else c).
  assert (claims_ok c') as Hc'.
  { unfold c'. destruct (is_zero_time _); [|done]. destruct Hc. split; try done. cbn. split. right. split; [done|lia]. }
  assert (time_ok hd /\ unixNanoOrZero hd = (if renewable (mt w) then now + maxTTL (mt w) else 0)) as [Hhd Hhn].
  { unfold hd, renewable. destruct (Z.gtb_spec (maxTTL (mt w)) 0).
    - assert (in_i64 (now + maxTTL (mt w))) by (unfold horizon, in_i64 in *; lia).
      split; [split; right; split; [done|lia]|]. unfold unixNanoOrZero. rewrite unix_nano_id by done.
      unfold is_zero_time. destruct (Z.eqb_spec (now + maxTTL (mt w)) zero_time) as [E|]; [|done].
      rewrite E in *. by apply zero_time_out in H0.
    - split; [split; by left|]. unfold unixNanoOrZero, is_zero_time. by rewrite Z.eqb_refl. }
  assert (in_i64 exp) as He by (unfold exp, horizon, in_i64 in *; lia).
  set (tok := (mint w now sid p c).2.1.1).
  assert (tok = (issue (mt w) sid p exp hd c').1.1) as Htok by done.
  assert (parse (mt w) tok = Ok (Parsed sid exp (unixNanoOrZero hd) p (carried c'))) as Hparse
    by (rewrite Htok, parse_issue by done; by rewrite unix_nano_id).
  assert (outer (Parsed sid exp (unixNanoOrZero hd) p (carried c')) = Z.max exp (unixNanoOrZero hd)) as Hout by done.
  assert (mt (mint w now sid p c).1 = mt w) as Hmt by (unfold mint; cbn; by destruct (st w)).
  assert (rows (mint w now sid p c).1 = if stored w now sid p c
            then <[hex_encode sid := Row p (credHex c) (Z.max exp (unixNanoOrZero hd))]> (rows w) else rows w) as Hrows.
  { unfold mint, stored, rows. cbn. fold c' exp hd. destruct (st w) as [s|] eqn:Es; [|by rewrite Es]. cbn [st with_st].
    rewrite (unix_nano_id exp) by done.
    pose proof (l_put L view laws s (hex_encode sid) p (credHex c) (unix_nano now) exp (unixNanoOrZero hd)) as Hput.
    destruct (PutSession L s _ _ _ _ _ _) as [s' ok]. cbn [fst snd]. exact Hput. }
  split; cbn [w_ now_ log_]; rewrite ?Hmt; [exact (i_windows _ Hi)|done| |].
  - intros s [Hin| ->%list_elem_of_singleton]%elem_of_app.
    + destruct (i_log _ Hi s Hin) as (q & H1 & H2 & H3 & H4 & H5 & H6 & H7 & H8). cbn [w_ now_ log_] in *.
      assert (hex_encode sid <> hex_encode (ss_sid s)) as Hne.
      { intros E%hex_encode_inj. apply Hnew. rewrite E. apply list_elem_of_fmap. by exists s. }
      assert (rows (mint w now sid p c).1 !! hex_encode (ss_sid s) = rows w !! hex_encode (ss_sid s)) as Hsame
        by (rewrite Hrows; destruct (stored _ _ _ _ _); [by rewrite lookup_insert_ne|done]).
      exists q. rewrite Hmt, Hsame. by repeat (split; [done|]).
    + eexists. rewrite Hmt. cbn [ss_tok ss_sid ss_account ss_stored]. fold tok. split; [exact Hparse|].
      do 3 (split; [done|]). cbn [p_hardExp p_exp].
      split. { rewrite Hhn. unfold renewable, exp in *. destruct (Z.gtb_spec (maxTTL (mt w)) 0); [right; lia|by left]. }
      split. { unfold outer, horizon. cbn [p_hardExp p_exp]. rewrite Hhn. unfold exp, renewable. destruct (_ >? 0); lia. }
      rewrite Hrows. split.
      * intros r. destruct (stored w now sid p c); [|by rewrite Hrow]. rewrite lookup_insert_eq. by intros [= <-].
      * intros ->. left. rewrite lookup_insert_eq. by eexists.
  - rewrite map_app. apply NoDup_app. split; [apply Hi|]. split; [|apply NoDup_singleton].
    intros x Hx ->%list_elem_of_singleton. by apply Hnew.
Qed.

(** Every step keeps the invariant, the keys and what is revoked. *)
Lemma session_step_inv x x' : inv x -> step x x' -> inv x' /\ same_key (mt (w_ x)) (mt (w_ x')) /\
  forall s q, s ∈ log_ x -> parse (mt (w_ x)) (ss_tok s) = Ok q ->
    s ∈ log_ x' /\ (still_revoked (ss_sid s) (outer q) (mt (w_ x)) (now_ x) -> still_revoked (ss_sid s) (outer q) (mt (w_ x')) (now_ x')).
Proof.
  assert (forall w w' now l, inv (State w now l) -> carries w w' now l ->
    inv (State w' now l) /\ same_key (mt w) (mt w') /\ forall s q, s ∈ l -> parse (mt w) (ss_tok s) = Ok q ->
      s ∈ l /\ (still_revoked (ss_sid s) (outer q) (mt w) now -> still_revoked (ss_sid s) (outer q) (mt w') now)) as Hcarry.
  { intros w w' now l Hi Hc. split; [by apply (carries_inv w)|]. destruct Hc as (H1 & _ & H2). split; [done|].
    intros s q Hin Hq. split; [done|]. by apply (H2 s q). }
  intros Hi Hs. destruct Hs as [w now l now' Hle Hsane|w now l sid p c Hf Hp Hc|w now l tok Ha|w now l a e|w now l c|w now l sid]; cbn [w_ now_ log_].
  - assert (forall sid D, still_revoked sid D (mt w) now -> still_revoked sid D (mt w) now') as Hlater
      by (intros sid D [?|?]; [left; lia|by right]).
    split; [|split; [done|]; by eauto]. destruct Hi as [Hw Hn Hl Hd], Hsane as (_ & _ & Hs1 & Hs2). split; cbn in *; [done|done| |done].
    intros s Hin. destruct (Hl s Hin) as (q & H1 & H2 & H3 & H4 & H5 & H6 & H7 & H8). exists q.
    do 5 (split; [done|]). split; [unfold horizon in *; lia|]. split; [done|]. intros [?|?]%H8; [by left|right; by apply Hlater].
  - assert (mt (mint w now sid p c).1 = mt w) as Hmt by (unfold mint; cbn; by destruct (st w)).
    split; [by apply mint_inv|]. rewrite Hmt. split; [done|]. intros s q Hin _. split; [apply elem_of_app; by left|done].
  - apply Hcarry; [done|by apply revoke_carries].
  - apply Hcarry; [done|by apply revokeAccount_carries].
  - apply Hcarry; [done|by apply revokeByCredential_carries].
  - apply Hcarry; [done|by apply revokeOne_carries].
Qed.

Lemma session_run_inv x x' : inv x -> rtc step x x' -> inv x' /\ same_key (mt (w_ x)) (mt (w_ x')) /\
  forall s q, s ∈ log_ x -> parse (mt (w_ x)) (ss_tok s) = Ok q ->
    still_revoked (ss_sid s) (outer q) (mt (w_ x)) (now_ x) -> still_revoked (ss_sid s) (outer q) (mt (w_ x')) (now_ x').
Proof.
  intros Hi Hr. induction Hr as [x|x y z Hs _ IH]; [done|].
  destruct (session_step_inv x y Hi Hs) as (Hy & (K1 & K2 & K3) & H1). destruct (IH Hy) as (Hz & (J1 & J2 & J3) & H2).
  split; [done|]. split; [split; [|split]; congruence|]. intros s q Hin Hq Hrev. destruct (H1 s q Hin Hq) as [Hin2 Hrev2].
  apply H2; [done| |by apply Hrev2]. by rewrite (parse_key _ (mt (w_ x))).
Qed.

(** A process that has handed out no session yet; the store may hold rows of earlier ones. *)
Definition started (x : state) : Prop :=
  log_ x = [] /\ windows (mt (w_ x)) /\ 0 < now_ x /\ in_i64 (horizon (mt (w_ x)) (now_ x)).

Lemma started_inv x : started x -> inv x.
Proof.
  intros (Hl & Hw & Hn). split; [done|done| |]; rewrite Hl; [by intros s ?%not_elem_of_nil|by apply NoDup_nil].
Qed.

(** What the revocation of an account does at once to one session. *)
Lemma account_revoked w now l a except w' s q : inv (State w now l) -> revokeAccount w a except = (w', Ok tt) ->
  s ∈ l -> parse (mt w) (ss_tok s) = Ok q -> ss_account s = a -> ss_stored s = true -> hex_encode (ss_sid s) <> except ->
  still_revoked (ss_sid s) (outer q) (mt w') now.
Proof.
  intros Hi Hr Hin Hq Ha Hst Hne. destruct (i_log _ Hi s Hin) as (q' & Hq' & _ & _ & _ & _ & _ & Hrow & Hor). cbn [w_ now_] in *.
  rewrite Hq in Hq'. injection Hq' as <-. pose proof (revokeAccount_carries w now l a except Hi) as (_ & _ & Hc).
  destruct (Hor Hst) as [[r Hsome]|Hrev]; [|rewrite Hr in Hc; exact (proj1 (Hc s q Hin Hq) Hrev)].
  destruct (Hrow r Hsome) as [Hacc Hdl]. unfold revokeAccount, rows in *. destruct (st w) as [s0|]; [|done].
  destruct (SessionsByAccount L s0 a) as [sids|] eqn:Ea; [|done]. injection Hr as <-.
  unfold revokeSIDs. rewrite delete_rows_mt. right. exists (outer q). split; [done|].
  cbn [mt with_mt Token.revokeSIDs revoked with_revoked]. apply lookup_union_Some_l, map_lookup_filter_Some. split; [|done].
  apply (l_account L view laws _ _ _ Ea). exists (r_cred r). rewrite Hsome. destruct r. cbn in *. congruence.
Qed.

(** And to a session of another account, or the one that is kept. *)
Lemma account_spared w now l a except w' s : inv (State w now l) -> revokeAccount w a except = (w', Ok tt) ->
  s ∈ l -> ss_account s <> a \/ hex_encode (ss_sid s) = except -> forall t, isRevoked (mt w') t (ss_sid s) = isRevoked (mt w) t (ss_sid s).
Proof.
  intros Hi Hr Hin Hor t. destruct (i_log _ Hi s Hin) as (q & _ & _ & _ & _ & _ & _ & Hrow & _). cbn [w_ now_] in *.
  unfold revokeAccount, rows in *. destruct (st w) as [s0|]; [|by injection Hr as <-].
  destruct (SessionsByAccount L s0 a) as [sids|] eqn:Ea; [|done]. injection Hr as <-.
  unfold revokeSIDs, isRevoked. rewrite delete_rows_mt. cbn [mt with_mt Token.revokeSIDs revoked with_revoked].
  rewrite lookup_union_r; [done|]. apply map_lookup_filter_None. destruct Hor as [Hne|Hex]; [left|right; intros ? _; cbn; by intros H].
  destruct (sids !! hex_encode (ss_sid s)) as [d|] eqn:E; [|done].
  apply (l_account L view laws _ _ _ Ea) in E as [c Hc]. destruct (Hrow _ Hc) as [Hacc _]. by cbn in Hacc.
Qed.

(** C25: (logging out everywhere) However sessions were minted, renewed and revoked before, once
    the sessions of an account are revoked, every token of every session of that account the
    store had taken on record is refused at every later time, whatever happens in between,
    except those of the session the call spares; and every other session, of that account or
    another, is verified exactly as before the call. *)
Theorem logout_everywhere x0 x a except w' : started x0 -> rtc step x0 x ->
  RevokeAccountSessions (Some (w_ x)) a except = (Some w', Ok tt) ->
  (forall s x2 tok, s ∈ log_ x -> ss_account s = a -> ss_stored s = true -> hex_encode (ss_sid s) <> except ->
     rtc step (State w' (now_ x) (log_ x)) x2 -> descends (mt (w_ x)) (ss_tok s) tok ->
     verify (mt (w_ x2)) (now_ x2) tok = Err errInvalidCredential /\ is_ok (renew (mt (w_ x2)) (now_ x2) tok) = false /\
     maybeRefresh (mt (w_ x2)) (now_ x2) tok = None) /\
  (forall s t tok, s ∈ log_ x -> ss_account s <> a \/ hex_encode (ss_sid s) = except -> descends (mt (w_ x)) (ss_tok s) tok ->
     verify (mt w') t tok = verify (mt (w_ x)) t tok).
Proof.
  intros H0 Hrun Hr. destruct (session_run_inv _ _ (started_inv x0 H0) Hrun) as (Hi & _). destruct x as [w now l]. cbn [w_ now_ log_] in *.
  unfold RevokeAccountSessions in Hr. destruct (revokeAccount w a except) as [w1 r] eqn:E. injection Hr as -> ->.
  pose proof (revokeAccount_carries w now l a except Hi) as Hc. rewrite E in Hc. cbn [fst] in Hc.
  destruct Hc as (HK & Hc1 & Hc2). pose proof HK as (K1 & K2 & K3). split.
  - intros s x2 tok Hin Ha Hst Hne Hrun2 Hd. destruct (i_log _ Hi s Hin) as (q & Hq & Hsid & _ & _ & Hw & _). cbn in Hq.
    destruct (session_run_inv (State w' now l) x2) as (Hi2 & (J1 & J2 & J3) & Hkeep); [by apply (carries_inv w)|done|]. cbn [w_ now_ log_] in *.
    destruct (i_now _ Hi2) as [Hn2 Hh2]. destruct (horizon_in _ _ (i_windows _ Hi2) Hn2 Hh2) as (_ & Hnow2 & _).
    destruct (descends_parse (mt w) (ss_tok s) q tok (proj1 (i_windows _ Hi)) Hq Hd) as (e & Hp & _).
    destruct (descends_outer _ _ _ _ _ (proj1 (i_windows _ Hi)) Hq Hw Hd Hp) as (_ & Ho & Hle).
    apply (revoked_refused _ _ _ (Parsed (p_sid q) e (p_hardExp q) (p_principal q) (p_claims q)) (outer q));
      [done| |cbn [p_sid]; rewrite Hsid|exact Hle].
    + rewrite (parse_key _ (mt w)) by congruence. exact Hp.
    + apply (Hkeep s q Hin); [by rewrite (parse_key _ (mt w))|]. by eapply account_revoked.
  - intros s t tok Hin Hor Hd. destruct (i_log _ Hi s Hin) as (q & Hq & Hsid & _). cbn in Hq.
    destruct (descends_parse (mt w) (ss_tok s) q tok (proj1 (i_windows _ Hi)) Hq Hd) as (e & Hp & _).
    pose proof (account_spared w now l a except w' s Hi E Hin Hor t) as Hsp. unfold verify.
    rewrite (parse_key (mt w') (mt w)), Hp by done. cbn [rbind p_sid p_exp]. by rewrite Hsid, Hsp.
Qed.
End Sessions.

(** ** Concrete inputs *)


Definition demo_delete (s : gmap string row) (sids : list string) : gmap string row := fold_right delete s sids.
Definition demo_table : SessionStore (gmap string row) := {|
  PutSession := fun s sid acc cred _ e hd => (<[sid := Row acc cred (Z.max e hd)]> s, true);
  SessionsByAccount := fun s a => Some (omap (fun r => if String.eqb (r_account r) a then Some (r_deadline r) else None) s);
  SessionsByCredential := fun s c => Some (omap (fun r => if String.eqb (r_cred r) c then Some (r_deadline r) else None) s);
  DeleteSessions := fun s sids => (demo_delete s sids, true)
|}.

Lemma demo_omap (f : row -> option Z) (s : gmap string row) sid d : omap f s !! sid = Some d <-> exists r, s !! sid = Some r /\ f r = Some d.
Proof.
  rewrite lookup_omap. apply bind_Some.
Qed.

Lemma demo_table_laws : store_laws demo_table (fun s => s).
Proof.
  split; cbn.
  - done.
  - intros s a m [= <-] sid d. rewrite demo_omap. split.
    + intros ([a' c d'] & Hs & Hf). cbn in Hf. destruct (String.eqb_spec a' a) as [->|]; [|done]. injection Hf as <-. by exists c.
    + intros [c Hs]. eexists. split; [exact Hs|]. cbn. by rewrite String.eqb_refl.
  - intros s c m [= <-] sid d. rewrite demo_omap. split.
    + intros ([a c' d'] & Hs & Hf). cbn in Hf. destruct (String.eqb_spec c' c) as [->|]; [|done]. injection Hf as <-. by exists a.
    + intros [a Hs]. eexists. split; [exact Hs|]. cbn. by rewrite String.eqb_refl.
  - intros s sids k. induction sids as [|x l IH]; [by left|]. unfold demo_delete in *. cbn [fold_right].
    destruct (decide (k = x)) as [->|Hne]; [right; split; [left|apply lookup_delete_eq]|].
    rewrite lookup_delete_ne by done. destruct IH as [IH|[H1 H2]]; [by left|right]. split; [by right|done].
Qed.

Definition demo_sid2 : list byte := repeat (zb 6) 16.
Definition demo_w0 : world (S := gmap string row) := World demo_m (Some ∅).
Definition demo_laptop := mint demo_table demo_w0 1000 demo_sid "u_1" demo_c.
Definition demo_phone := mint demo_table demo_laptop.1 1000 demo_sid2 "u_1" demo_c.
Definition demo_log : list session :=
  [Session demo_sid "u_1" demo_laptop.2.1.1 true; Session demo_sid2 "u_1" demo_phone.2.1.1 true].
Definition demo_out : world (S := gmap string row) :=
  default demo_w0 (RevokeAccountSessions demo_table (Some demo_phone.1) "u_1" (hex_encode demo_sid2)).1.

Lemma demo_claims : claims_ok demo_c.
Proof.
  split; [cbn; lia|cbn; lia|cbn; lia|cbn; lia| |]; constructor; [right|left; reflexivity].
  split; [split; vm_compute; congruence|discriminate].
Qed.

(** Logging out everywhere but on the phone. *)
Lemma logout_everywhere_witness :
  verify (mt demo_out) 2000 demo_laptop.2.1.1 = Err errInvalidCredential /\
  verify (mt demo_out) 2000 demo_phone.2.1.1 = verify (mt demo_phone.1) 2000 demo_phone.2.1.1 /\
  is_ok (verify (mt demo_phone.1) 2000 demo_phone.2.1.1) = true.
Proof.
  destruct (logout_everywhere demo_table (fun s => s) demo_table_laws (State demo_w0 1000 []) (State demo_phone.1 1000 demo_log)
    "u_1" (hex_encode demo_sid2) demo_out) as [H1 H2].
  - split; [reflexivity|]. split; [split; [discriminate|right; discriminate]|]. by repeat split.
  - eapply rtc_l.
    { apply (S_mint demo_table (fun s => s) demo_w0 1000 [] demo_sid "u_1" demo_c); [|discriminate|apply demo_claims].
      split; [reflexivity|]. split; [apply not_elem_of_nil|reflexivity]. }
    eapply rtc_l; [|apply rtc_refl].
    apply (S_mint demo_table (fun s => s) demo_laptop.1 1000 [Session demo_sid "u_1" demo_laptop.2.1.1 true] demo_sid2 "u_1" demo_c);
      [|discriminate|apply demo_claims].
    split; [reflexivity|]. split; [intros E%list_elem_of_singleton; discriminate E|vm_compute; reflexivity].
  - vm_compute. reflexivity.
  - split; [|split; [|vm_compute; reflexivity]].
    + apply (H1 (Session demo_sid "u_1" demo_laptop.2.1.1 true) (State demo_out 2000 demo_log) demo_laptop.2.1.1);
        [left|reflexivity|reflexivity|vm_compute; discriminate| |apply D_self].
      eapply rtc_l; [|apply rtc_refl]. apply S_time; [discriminate|]. vm_compute. by repeat split.
    + apply (H2 (Session demo_sid2 "u_1" demo_phone.2.1.1 true)); [right; left|right; reflexivity|apply D_self].
Defined.
