(* ===== verification/Auth.v ===== *)
(** * auth: from a request to a principal

    [src/auth/auth.go], [methods.go], [cookie.go].  An [authenticator] is the compiled
    credential directory; a [request] is what the methods read of an [http.Request].
    bcrypt, SSH key parsing, ed25519 verification and the secret sources are parameters:
    they are third-party or operating-system code. *)
From S2P Require Import Prelude GoStd Crypto Secret Wire Authz Token.

Definition HeaderKeyringKey : string := "X-Keyring-Key".
Definition HeaderKeyringChallenge : string := "X-Keyring-Challenge".
Definition HeaderKeyringSignature : string := "X-Keyring-Signature".

Record cert := Cert { CommonName : string; RawSPKI : list byte }.

Record request := Request {
  r_method : string;
  r_path : string;
  r_rawquery : string;
  r_header : string -> string;      (* [Header.Get]: empty when absent *)
  r_cookie : string -> option string;
  r_cert : option cert;             (* the verified TLS peer certificate *)
  r_uid : option Z;                 (* the Unix-socket peer *)
  r_host : string;
  r_remote : string;                (* RemoteAddr *)
  r_ctx : option principal          (* what the context carries *)
}.

Inductive autherr : Type := EInvalidCredential | EUnauthenticated.

(** What one method makes of a request: no credential present, a present but invalid one,
    or a principal. *)
Inductive tryres : Type := Absent | Failed (e : autherr) | Granted (p : principal).

(** The callbacks a successful authentication fires. *)
Inductive hook : Type := Seen (name : string) | CredSeen (canon : string).

Section Auth.
Set Default Proof Using "Type".

Variable bcrypt_ok : string -> string -> bool.                 (* hash, password *)
Variable parse_key : string -> option (string * string * string).  (* canonical, key, comment *)
Variable parse_all : string -> bool.                           (* keyring.ParseAuthorizedKeys *)
Variable verify_sig : string -> list byte -> list byte -> bool.    (* key, message, signature *)

Record keyringCred := KeyringCred { kc_pub : string; kc_name : string }.
Record passwordCred := PasswordCred { pc_hash : string; pc_name : string }.

Record authenticator := Authenticator {
  challenger : list byte;
  sessions : option minter;
  cookieMode : bool;
  cookieName : string;
  bearer : gmap string string;
  password : gmap string passwordCred;
  mtlsCN : gmap string string;
  mtlsSPKI : gmap string string;
  keyring : gmap string keyringCred;
  peercred : gmap Z string;
  dynKeyring : gmap string keyringCred;
  enroll : bool;
  acctPaths : option (list string);   (* [None]: no account handler *)
  seenHook : bool;
  credSeenHook : bool
}.

Definition set_dyn (a : authenticator) (d : gmap string keyringCred) : authenticator :=
  Authenticator (challenger a) (sessions a) (cookieMode a) (cookieName a) (bearer a) (password a) (mtlsCN a)
    (mtlsSPKI a) (keyring a) (peercred a) d (enroll a) (acctPaths a) (seenHook a) (credSeenHook a).
Definition set_sessions (a : authenticator) (m : minter) : authenticator :=
  Authenticator (challenger a) (Some m) (cookieMode a) (cookieName a) (bearer a) (password a) (mtlsCN a)
    (mtlsSPKI a) (keyring a) (peercred a) (dynKeyring a) (enroll a) (acctPaths a) (seenHook a) (credSeenHook a).

(** Mounted once at start-up. *)
Definition with_mounts (a : authenticator) (en : bool) (acct : option (list string)) (seen cred : bool) : authenticator :=
  Authenticator (challenger a) (sessions a) (cookieMode a) (cookieName a) (bearer a) (password a) (mtlsCN a)
    (mtlsSPKI a) (keyring a) (peercred a) (dynKeyring a) en acct seen cred.
Definition SetEnrollHandler (a : authenticator) (mounted : bool) : authenticator :=
  with_mounts a mounted (acctPaths a) (seenHook a) (credSeenHook a).
Definition SetAccountHandler (a : authenticator) (mounted : bool) (paths : list string) : authenticator :=
  with_mounts a (enroll a) (if mounted then Some paths else None) (seenHook a) (credSeenHook a).
Definition SetSeenHook (a : authenticator) (on : bool) : authenticator :=
  with_mounts a (enroll a) (acctPaths a) on (credSeenHook a).
Definition SetCredSeenHook (a : authenticator) (on : bool) : authenticator :=
  with_mounts a (enroll a) (acctPaths a) (seenHook a) on.

(** ** Compiling the configured credentials *)

Variable sec_bytes : string -> result secerr string.

Inductive conferr : Type := CMissing (what : string) | CSecret (e : secerr) | CKey.

Definition resolve (v : string) : result conferr string :=
  if String.eqb v "" then Ok ""%string else
  match sec_bytes v with
  | Ok b => Ok (trim_space b)
  | Err ErrMalformedRef | Err ErrUnknownSource => Ok v
  | Err e => Err (CSecret e)
  end.

(** The static maps under construction. *)
Record directory := Directory {
  d_bearer : gmap string string;
  d_password : gmap string passwordCred;
  d_mtlsCN : gmap string string;
  d_mtlsSPKI : gmap string string;
  d_keyring : gmap string keyringCred;
  d_peercred : gmap Z string
}.

(** [strconv.ParseUint(s, 10, 32)]. *)
Definition parse_uint32 (s : string) : option Z :=
  match parse_uint64 s with Some n => if n <? two32 then Some n else None | None => None end.

Definition compile (d : directory) (method : string) (p : string -> string) (principal : string)
    : result conferr directory :=
  if String.eqb method "bearer" then
    let* h := resolve (p "token_hash") in
    if String.eqb h "" then Err (CMissing "token_hash")
    else Ok (Directory (<[to_lower h := principal]> (d_bearer d)) (d_password d) (d_mtlsCN d) (d_mtlsSPKI d) (d_keyring d) (d_peercred d))
  else if String.eqb method "password" then
    let user := p "user" in
    if String.eqb user "" then Err (CMissing "user") else
    let* hash := resolve (p "password_hash") in
    if String.eqb hash "" then Err (CMissing "password_hash")
    else Ok (Directory (d_bearer d) (<[user := PasswordCred hash principal]> (d_password d)) (d_mtlsCN d) (d_mtlsSPKI d) (d_keyring d) (d_peercred d))
  else if String.eqb method "mtls" then
    let cn := p "subject_cn" in let spki := p "spki_sha256" in
    if String.eqb cn "" && String.eqb spki "" then Err (CMissing "subject_cn or spki_sha256")
    else Ok (Directory (d_bearer d) (d_password d)
               (if String.eqb cn "" then d_mtlsCN d else <[cn := principal]> (d_mtlsCN d))
               (if String.eqb spki "" then d_mtlsSPKI d else <[to_lower spki := principal]> (d_mtlsSPKI d))
               (d_keyring d) (d_peercred d))
  else if String.eqb method "keyring" then
    let* line := resolve (p "ed25519") in
    if String.eqb line "" then Err (CMissing "ed25519") else
    match parse_key line with
    | None => Err CKey
    | Some (canon, pub, _) =>
        Ok (Directory (d_bearer d) (d_password d) (d_mtlsCN d) (d_mtlsSPKI d) (<[canon := KeyringCred pub principal]> (d_keyring d)) (d_peercred d))
    end
  else if String.eqb method "peercred" then
    match parse_uint32 (p "uid") with
    | None => Err (CMissing "uid")
    | Some uid => Ok (Directory (d_bearer d) (d_password d) (d_mtlsCN d) (d_mtlsSPKI d) (d_keyring d) (<[uid := principal]> (d_peercred d)))
    end
  else Err (CMissing "known method").

(** The lines of an authorized_keys file; a key without a comment names no principal. *)
Definition roster_line (k : gmap string keyringCred) (line : string) : result conferr (gmap string keyringCred) :=
  let line := trim_space line in
  if String.eqb line "" || has_prefix "#" line then Ok k else
  match parse_key line with
  | None => Err CKey
  | Some (canon, pub, comment) =>
      if String.eqb comment "" then Ok k else Ok (<[canon := KeyringCred pub comment]> k)
  end.
Fixpoint roster_lines (k : gmap string keyringCred) (lines : list string) : result conferr (gmap string keyringCred) :=
  match lines with
  | [] => Ok k
  | l :: rest => let* k := roster_line k l in roster_lines k rest
  end.
(** [file]: the file's contents, [None] for an empty path. *)
Definition loadRoster (k : gmap string keyringCred) (file : option string) : result conferr (gmap string keyringCred) :=
  match file with
  | None => Ok k
  | Some b => if negb (parse_all b) then Err CKey else roster_lines k (split_char newline b)
  end.

(** ** The dynamic keyring *)

Definition lookupKeyring (a : authenticator) (canon : string) : option keyringCred :=
  match keyring a !! canon with
  | Some c => Some c
  | None => dynKeyring a !! canon
  end.

Definition AddKeyring (a : authenticator) (canon pub name : string) : authenticator :=
  match keyring a !! canon with
  | Some _ => a
  | None => set_dyn a (<[canon := KeyringCred pub name]> (dynKeyring a))
  end.

Definition RemoveKeyringName (a : authenticator) (name : string) : authenticator :=
  set_dyn a (filter (fun kv => kc_name kv.2 <> name) (dynKeyring a)).

Definition RemoveKeyringKey (a : authenticator) (canon : string) : authenticator * bool :=
  match dynKeyring a !! canon with
  | None => (a, false)
  | Some _ => (set_dyn a (delete canon (dynKeyring a)), true)
  end.

(** ** The methods *)

Definition authorization (r : request) : string := r_header r "Authorization".

Definition sessionTokenFrom (a : authenticator) (r : request) : option (string * bool) :=
  match cut_prefix "Bearer " (authorization r) with
  | Some t =>
      let t := trim_space t in
      if has_prefix sessionPrefix t then Some (t, false) else None
  | None =>
      if negb (cookieMode a) then None else
      match r_cookie r (cookieName a) with
      | Some v => if has_prefix sessionPrefix v then Some (v, true) else None
      | None => None
      end
  end.

Definition csrfSafe (r : request) : bool :=
  if String.eqb (r_method r) "GET" || String.eqb (r_method r) "HEAD" || String.eqb (r_method r) "OPTIONS" then true
  else
    let site := r_header r "Sec-Fetch-Site" in
    String.eqb site "" || String.eqb site "same-origin" || String.eqb site "none".

Definition tryBearer (a : authenticator) (r : request) : tryres * list hook :=
  match cut_prefix "Bearer " (authorization r) with
  | None => (Absent, [])
  | Some tok =>
      let tok := trim_space tok in
      if String.eqb tok "" then (Absent, []) else
      match bearer a !! hex_encode (Sha256.sum (bytes_of tok)) with
      | None => (Failed EInvalidCredential, [])
      | Some name => (Granted (MkPrincipal name "bearer" None), [])
      end
  end.

Definition trySession (a : authenticator) (now : Z) (r : request) : tryres * list hook :=
  match sessions a with
  | None => (Absent, [])
  | Some m =>
      match sessionTokenFrom a r with
      | None => (Absent, [])
      | Some (tok, fromCookie) =>
          if fromCookie && negb (csrfSafe r) then (Failed EInvalidCredential, []) else
          match verify m now tok with
          | Err _ => (Failed EInvalidCredential, [])
          | Ok (name, _, claims) =>
              (Granted (MkPrincipal name "session" (Some (claims_assurance claims))),
               if seenHook a then [Seen name] else [])
          end
      end
  end.

(** [r.BasicAuth]. *)
Definition basic_auth (r : request) : option (string * string) :=
  let h := authorization r in
  match cut_prefix "basic " (to_lower h) with
  | None => None
  | Some _ =>
      match b64_decode StdEncoding (String.substring 6 (String.length h - 6) h) with
      | None => None
      | Some b => match cut_char ":" (string_of b) with
                  | (u, p, true) => Some (u, p)
                  | _ => None
                  end
      end
  end.

Definition tryPassword (a : authenticator) (r : request) : tryres * list hook :=
  match basic_auth r with
  | None => (Absent, [])
  | Some (user, pass) =>
      match password a !! user with
      | None => (Failed EInvalidCredential, [])
      | Some c => if bcrypt_ok (pc_hash c) pass then (Granted (MkPrincipal (pc_name c) "password" None), [])
                  else (Failed EInvalidCredential, [])
      end
  end.

Definition tryMTLS (a : authenticator) (r : request) : tryres * list hook :=
  match r_cert r with
  | None => (Absent, [])
  | Some c =>
      match mtlsCN a !! CommonName c with
      | Some name => (Granted (MkPrincipal name "mtls" None), [])
      | None =>
          match mtlsSPKI a !! hex_encode (Sha256.sum (RawSPKI c)) with
          | Some name => (Granted (MkPrincipal name "mtls" None), [])
          | None => (Absent, [])
          end
      end
  end.

Definition tryKeyring (a : authenticator) (now : Z) (r : request) : tryres * list hook :=
  let sig := r_header r HeaderKeyringSignature in
  if String.eqb sig "" then (Absent, []) else
  let keyLine := r_header r HeaderKeyringKey in
  let chal := r_header r HeaderKeyringChallenge in
  if String.eqb keyLine "" || String.eqb chal "" || negb (challenge_valid (challenger a) now chal)
  then (Failed EInvalidCredential, []) else
  match parse_key keyLine with
  | None => (Failed EInvalidCredential, [])
  | Some (canon, _, _) =>
      match lookupKeyring a canon with
      | None => (Failed EInvalidCredential, [])
      | Some cred =>
          match b64_decode StdEncoding sig with
          | None => (Failed EInvalidCredential, [])
          | Some sigBytes =>
              if negb (verify_sig (kc_pub cred) (KeyringSigningInput chal (r_method r) (r_path r) (r_rawquery r)) sigBytes)
              then (Failed EInvalidCredential, [])
              else (Granted (MkPrincipal (kc_name cred) "keyring" None),
                    (if seenHook a then [Seen (kc_name cred)] else []) ++
                    (if credSeenHook a then [CredSeen canon] else []))
          end
      end
  end.

Definition VerifyPresented (a : authenticator) (now : Z) (r : request) : result autherr (string * string) :=
  let sig := r_header r HeaderKeyringSignature in
  let keyLine := r_header r HeaderKeyringKey in
  let chal := r_header r HeaderKeyringChallenge in
  if String.eqb sig "" || String.eqb keyLine "" || String.eqb chal "" || negb (challenge_valid (challenger a) now chal)
  then Err EInvalidCredential else
  match parse_key keyLine with
  | None => Err EInvalidCredential
  | Some (canon, pub, _) =>
      match b64_decode StdEncoding sig with
      | None => Err EInvalidCredential
      | Some sigBytes =>
          if negb (verify_sig pub (KeyringSigningInput chal (r_method r) (r_path r) (r_rawquery r)) sigBytes)
          then Err EInvalidCredential else Ok (canon, pub)
      end
  end.

Definition tryPeercred (a : authenticator) (r : request) : option principal :=
  match r_uid r with
  | None => None
  | Some uid => match peercred a !! uid with
                | None => None
                | Some name => Some (MkPrincipal name "peercred" None)
                end
  end.

Definition try (a : authenticator) (now : Z) (method : string) (r : request) : tryres * list hook :=
  if String.eqb method "mtls" then tryMTLS a r
  else if String.eqb method "keyring" then tryKeyring a now r
  else if String.eqb method "session" then trySession a now r
  else if String.eqb method "bearer" then tryBearer a r
  else if String.eqb method "password" then tryPassword a r
  else (Absent, []).

(** ** The middleware *)

Definition accepts (lcAuth : list string) (m : string) : bool :=
  match lcAuth with [] => String.eqb m "none" | _ => existsb (String.eqb m) lcAuth end.

Definition hardMethods : list string := ["mtls"; "keyring"; "session"; "bearer"; "password"]%string.

Definition skipped (acc : list string) (skipSession : bool) (m : string) : bool :=
  negb (accepts acc m) || (skipSession && String.eqb m "session").

(** The loop over the hard methods: the first one that finds a credential decides. *)
Fixpoint try_hard (a : authenticator) (acc : list string) (now : Z) (r : request) (skipSession : bool)
    (ms : list string) : tryres * list hook :=
  match ms with
  | [] => (Absent, [])
  | m :: rest =>
      if skipped acc skipSession m then try_hard a acc now r skipSession rest else
      match try a now m r with
      | (Absent, _) => try_hard a acc now r skipSession rest
      | res => res
      end
  end.

Definition authenticateFor (a : authenticator) (acc : list string) (now : Z) (r : request) (skipSession : bool)
    : result autherr principal * list hook :=
  match try_hard a acc now r skipSession hardMethods with
  | (Granted p, h) => (Ok p, h)
  | (Failed e, h) => (Err e, h)
  | (Absent, _) =>
      match (if accepts acc "peercred" then tryPeercred a r else None) with
      | Some p => (Ok p, [])
      | None => if accepts acc "none" then (Ok Anonymous, []) else (Err EUnauthenticated, [])
      end
  end.

Definition amrForMethod (method : string) : Z :=
  if String.eqb method "keyring" || String.eqb method "mtls" then FactorDeviceKey
  else if String.eqb method "password" || String.eqb method "bearer" then FactorPassword
  else 0.

(** A response of the session endpoint; [cookie] is the session cookie it sets ([Some ""]
    clears it). *)
Inductive session_resp : Type :=
| RToken (tok principal : string) (exp hardExp : Z) (cookie : option string)
| RDenied (e : autherr)
| RConflict
| RNoContent (cookie : option string)
| RMethodNotAllowed.

Definition WriteSessionTransport (a : authenticator) (tok : string) : option string :=
  if cookieMode a then Some tok else None.
Definition ClearSessionTransport (a : authenticator) : option string :=
  if cookieMode a then Some ""%string else None.

Definition sessionTokenFromRequest (a : authenticator) (r : request) : option string :=
  match sessionTokenFrom a r with
  | None => None
  | Some (tok, fromCookie) => if fromCookie && negb (csrfSafe r) then None else Some tok
  end.

(** [sid] is the random session id of a mint. *)
Definition serveSession (a : authenticator) (m : minter) (acc : list string) (now : Z) (sid : list byte) (r : request)
    : authenticator * session_resp * list hook :=
  if String.eqb (r_method r) "POST" then
    match authenticateFor a acc now r true with
    | (Err e, h) => (a, RDenied e, h)
    | (Ok p, h) =>
        if IsAnonymous (Some p) then (a, RDenied EUnauthenticated, h) else
        let t := if has_prefix "u_" (Name p) then TierOwner else TierDataOnly in
        let '(tok, exp, hard) := mint m now sid (Name p) (SessClaims t 0 (amrForMethod (Method p)) 0 [] zero_time zero_time) in
        (a, RToken tok (Name p) exp hard (WriteSessionTransport a tok), h)
    end
  else if String.eqb (r_method r) "PUT" then
    match sessionTokenFromRequest a r with
    | None => (a, RDenied EUnauthenticated, [])
    | Some tok =>
        match renew m now tok with
        | Err errNotRenewable => (a, RConflict, [])
        | Err errInvalidCredential => (a, RDenied EInvalidCredential, [])
        | Ok (nt, exp, hard) => (a, RToken nt "" exp hard (WriteSessionTransport a nt), [])
        end
    end
  else if String.eqb (r_method r) "DELETE" then
    match sessionTokenFromRequest a r with
    | None => (a, RDenied EUnauthenticated, [])
    | Some tok =>
        match revoke m now tok with
        | (_, Err _) => (a, RDenied EInvalidCredential, [])
        | (m', Ok _) => (set_sessions a m', RNoContent (ClearSessionTransport a), [])
        end
    end
  else (a, RMethodNotAllowed, []).

(** Where [Wrap] sends a request; [refresh] is the extended token and its expiry, handed
    back by cookie or header. *)
Inductive routed : Type :=
| ToChallenge (challenge : option string)
| ToSession (resp : session_resp)
| ToAccount
| ToEnroll
| ToNext (p : principal) (refresh : option (string * Z * bool))
| Denied (e : autherr).

Definition refresh_token (a : authenticator) (now : Z) (r : request) (p : principal) : option (string * Z * bool) :=
  if negb (String.eqb (Method p) "session") then None else
  match sessions a with
  | None => None
  | Some m =>
      if negb (renewable m) then None else
      match sessionTokenFrom a r with
      | None => None
      | Some (tok, fromCookie) =>
          match maybeRefresh m now tok with
          | Some (nt, ne) => Some (nt, ne, fromCookie)
          | None => None
          end
      end
  end.

Definition Wrap (a : authenticator) (acc : list string) (now : Z) (rnd : list byte) (r : request)
    : authenticator * routed * list hook :=
  let path := r_path r in
  let next :=
    match authenticateFor a acc now r false with
    | (Err e, h) => (a, Denied e, h)
    | (Ok p, h) => (a, ToNext p (refresh_token a now r p), h)
    end in
  if String.eqb path "/_auth/challenge" && accepts acc "keyring" then
    (a, ToChallenge (if String.eqb (r_method r) "GET" then Some (challenge_mint (challenger a) rnd now) else None), [])
  else if String.eqb path "/_auth/session" && accepts acc "session" && (match sessions a with Some _ => true | None => false end) then
    match sessions a with
    | Some m => let '(a', resp, h) := serveSession a m acc now rnd r in (a', ToSession resp, h)
    | None => next
    end
  else if match acctPaths a with Some ps => existsb (String.eqb path) ps | None => false end then (a, ToAccount, [])
  else if String.eqb path "/_auth/enroll" && accepts acc "keyring" && enroll a then (a, ToEnroll, [])
  else if String.eqb path "/_health" then (a, ToNext Anonymous None, [])
  else next.

(** Account endpoints authenticate a session themselves. *)
Definition SessionPrincipal (a : authenticator) (now : Z) (r : request) : option (principal * string) :=
  match sessions a with
  | None => None
  | Some m =>
      match sessionTokenFrom a r with
      | None => None
      | Some (tok, fromCookie) =>
          if fromCookie && negb (csrfSafe r) then None else
          match verify m now tok with
          | Err _ => None
          | Ok (name, sid, claims) => Some (MkPrincipal name "session" (Some (claims_assurance claims)), sid)
          end
      end
  end.

(** ** Authentication is decisive *)

Lemma try_hard_spec a acc now r sk ms :
  match try_hard a acc now r sk ms with
  | (Absent, _) => forall m, m ∈ ms -> skipped acc sk m = false -> fst (try a now m r) = Absent
  | (res, h) => exists pre m post, ms = pre ++ m :: post /\ skipped acc sk m = false /\ try a now m r = (res, h)  /\
      forall x, x ∈ pre -> skipped acc sk x = false -> fst (try a now x r) = Absent
  end.
Proof.
  induction ms as [|m rest IH]; cbn [try_hard]; [intros m Hm; by apply not_elem_of_nil in Hm|].
  assert (Hcons : skipped acc sk m = true \/ fst (try a now m r) = Absent ->
    match try_hard a acc now r sk rest with
    | (Absent, _) => forall x, x ∈ m :: rest -> skipped acc sk x = false -> fst (try a now x r) = Absent
    | (res, h) => exists pre x post, m :: rest = pre ++ x :: post /\ skipped acc sk x = false  /\
        try a now x r = (res, h)  /\
        forall y, y ∈ pre -> skipped acc sk y = false -> fst (try a now y r) = Absent
    end).
  { intros Hm. destruct (try_hard a acc now r sk rest) as [[|e|p] h].
    - intros x [->|Hx]%elem_of_cons Hs; [destruct Hm; [congruence|done]|by apply IH].
    - destruct IH as (pre & x & post & -> & Hs & Ht & Hpre). exists (m :: pre), x, post. split; [done|].
      split; [done|]. split; [done|]. intros y [->|Hy]%elem_of_cons Hys; [destruct Hm; [congruence|done]|by apply Hpre].
    - destruct IH as (pre & x & post & -> & Hs & Ht & Hpre). exists (m :: pre), x, post. split; [done|].
      split; [done|]. split; [done|]. intros y [->|Hy]%elem_of_cons Hys; [destruct Hm; [congruence|done]|by apply Hpre]. }
  destruct (skipped acc sk m) eqn:Hs; [apply Hcons; by left|].
  destruct (try a now m r) as [[|e|p] h] eqn:Ht.
  - apply Hcons. by right.
  - exists [], m, rest. split; [done|]. split; [done|]. split; [done|]. intros x Hx. by apply not_elem_of_nil in Hx.
  - exists [], m, rest. split; [done|]. split; [done|]. split; [done|]. intros x Hx. by apply not_elem_of_nil in Hx.
Qed.

Lemma try_method a now m r p h : try a now m r = (Granted p, h) -> Method p = m.
Proof.
  unfold try. destruct (String.eqb_spec m "mtls") as [->|]; [|destruct (String.eqb_spec m "keyring") as [->|];
    [|destruct (String.eqb_spec m "session") as [->|]; [|destruct (String.eqb_spec m "bearer") as [->|];
    [|destruct (String.eqb_spec m "password") as [->|]; [|done]]]]].
  - unfold tryMTLS. repeat case_match; intros; simplify_eq; done.
  - unfold tryKeyring. repeat case_match; intros; simplify_eq; done.
  - unfold trySession. repeat case_match; intros; simplify_eq; done.
  - unfold tryBearer. repeat case_match; intros; simplify_eq; done.
  - unfold tryPassword. repeat case_match; intros; simplify_eq; done.
Qed.

(** C5: (no downgrade) The first accepted method, in the fixed priority order, that finds a
    credential in the request decides: if the credential is valid its principal is the
    request's, if not the request is refused, whatever weaker methods would say. Only
    when no accepted method finds one does the Unix peer, then the anonymous principal
    (where the listener admits it) apply, and otherwise the request is refused. *)
Theorem authentication_is_decisive a acc now r sk :
  let res := fst (authenticateFor a acc now r sk) in
  (exists pre m post, hardMethods = pre ++ m :: post /\ skipped acc sk m = false  /\
     (forall x, x ∈ pre -> skipped acc sk x = false -> fst (try a now x r) = Absent)  /\
     ((exists p, fst (try a now m r) = Granted p /\ res = Ok p /\ Method p = m) \/
      (exists e, fst (try a now m r) = Failed e /\ res = Err e))) \/
  ((forall m, m ∈ hardMethods -> skipped acc sk m = false -> fst (try a now m r) = Absent)  /\
   ((exists p, accepts acc "peercred" = true /\ tryPeercred a r = Some p /\ res = Ok p) \/
    (accepts acc "none" = true /\ res = Ok Anonymous) \/
    (accepts acc "none" = false /\ res = Err EUnauthenticated))).
Proof.
  cbn zeta. unfold authenticateFor. pose proof (try_hard_spec a acc now r sk hardMethods) as H.
  destruct (try_hard a acc now r sk hardMethods) as [[|e|p] h].
  - right. split; [done|]. destruct (accepts acc "peercred") eqn:Hp.
    + destruct (tryPeercred a r) as [p|]; [left; by exists p|]. right. destruct (accepts acc "none"); auto.
    + right. destruct (accepts acc "none"); auto.
  - left. destruct H as (pre & m & post & Hms & Hs & Ht & Hpre). exists pre, m, post.
    split; [done|]. split; [done|]. split; [done|]. right. exists e. by rewrite Ht.
  - left. destruct H as (pre & m & post & Hms & Hs & Ht & Hpre). exists pre, m, post.
    split; [done|]. split; [done|]. split; [done|]. left. exists p. rewrite Ht. split; [done|]. split; [done|].
    by apply (try_method a now m r p h).
Qed.

(** ** Building the directory *)

Definition credential : Type := string * (string -> string) * string.   (* method, parameters, principal *)

Fixpoint compile_all (d : directory) (creds : list credential) : result conferr directory :=
  match creds with
  | [] => Ok d
  | (m, p, pr) :: rest => let* d := compile d m p pr in compile_all d rest
  end.

Definition empty_directory : directory := Directory ∅ ∅ ∅ ∅ ∅ ∅.

Definition New (ck : list byte) (session : option minter) (creds : list credential) (roster : option string)
    : result conferr authenticator :=
  let* d := compile_all empty_directory creds in
  let* k := loadRoster (d_keyring d) roster in
  Ok (Authenticator ck session false "__Host-session" (d_bearer d) (d_password d) (d_mtlsCN d) (d_mtlsSPKI d) k
        (d_peercred d) ∅ false None false false).

(** The key under which a configured credential is filed. *)
Definition filed (c : credential) (d : directory) : Prop :=
  let '(m, p, pr) := c in
  (m = "bearer"%string -> exists h, resolve (p "token_hash") = Ok h /\ h <> ""%string /\ d_bearer d !! to_lower h = Some pr) /\
  (m = "password"%string -> exists h, resolve (p "password_hash") = Ok h /\ h <> ""%string /\
     d_password d !! p "user" = Some (PasswordCred h pr)) /\
  (m = "mtls"%string -> (p "subject_cn" <> ""%string -> d_mtlsCN d !! p "subject_cn" = Some pr) /\
     (p "spki_sha256" <> ""%string -> d_mtlsSPKI d !! to_lower (p "spki_sha256") = Some pr)) /\
  (m = "keyring"%string -> exists l canon pub c, resolve (p "ed25519") = Ok l /\ parse_key l = Some (canon, pub, c) /\
     d_keyring d !! canon = Some (KeyringCred pub pr)) /\
  (m = "peercred"%string -> exists u, parse_uint32 (p "uid") = Some u /\ d_peercred d !! u = Some pr).

Lemma compile_filed d m p pr d' : compile d m p pr = Ok d' -> filed (m, p, pr) d'.
Proof.
  unfold compile, filed.
  destruct (String.eqb_spec m "bearer") as [->|Hb].
  { intros H. apply rbind_ok in H as (h & Hh & H). destruct (String.eqb_spec h ""); [done|]. invc H.
    repeat split; try done. intros _. exists h. cbn. by rewrite lookup_insert_eq. }
  destruct (String.eqb_spec m "password") as [->|Hp].
  { destruct (String.eqb (p "user") ""); [done|]. intros H. apply rbind_ok in H as (h & Hh & H).
    destruct (String.eqb_spec h ""); [done|]. invc H. repeat split; try done. intros _. exists h. cbn.
    by rewrite lookup_insert_eq. }
  destruct (String.eqb_spec m "mtls") as [->|Hm].
  { destruct (_ && _); [done|]. intros H. invc H. repeat split; try done; intros Hne; cbn;
      rewrite (proj2 (String.eqb_neq _ _)) by done; by rewrite lookup_insert_eq. }
  destruct (String.eqb_spec m "keyring") as [->|Hk].
  { intros H. apply rbind_ok in H as (l & Hl & H). destruct (String.eqb l ""); [done|].
    destruct (parse_key l) as [[[canon pub] c]|] eqn:Hpk; [|done]. invc H. repeat split; try done.
    intros _. exists l, canon, pub, c. cbn. by rewrite lookup_insert_eq. }
  destruct (String.eqb_spec m "peercred") as [->|Hu]; [|done].
  destruct (parse_uint32 (p "uid")) as [u|] eqn:Hpu; [|done]. intros H. invc H. repeat split; try done.
  intros _. exists u. cbn. by rewrite lookup_insert_eq.
Qed.

Lemma compile_all_app d c1 c2 :
  compile_all d (c1 ++ c2) = (let* d1 := compile_all d c1 in compile_all d1 c2).
Proof.
  revert d. induction c1 as [|[[m p] pr] c1 IH]; intros d; [done|]. cbn [compile_all app].
  destruct (compile d m p pr) as [d1|]; cbn [rbind]; [apply IH|done].
Qed.

(** No entry appears out of thin air. *)
Record directory_from (creds : list credential) (d : directory) : Prop := {
  df_bearer : forall h n, d_bearer d !! h = Some n ->
    exists p v, ("bearer"%string, p, n) ∈ creds /\ resolve (p "token_hash") = Ok v /\ h = to_lower v;
  df_password : forall u c, d_password d !! u = Some c ->
    exists p, ("password"%string, p, pc_name c) ∈ creds /\ p "user" = u /\ u <> ""%string /\
      resolve (p "password_hash") = Ok (pc_hash c) /\ pc_hash c <> ""%string;
  df_peer : forall u n, d_peercred d !! u = Some n -> exists p, ("peercred"%string, p, n) ∈ creds /\ parse_uint32 (p "uid") = Some u;
  df_keyring : forall k c, d_keyring d !! k = Some c -> exists p v x,
    ("keyring"%string, p, kc_name c) ∈ creds /\ resolve (p "ed25519") = Ok v /\ parse_key v = Some (k, kc_pub c, x);
  df_cn : forall cn n, d_mtlsCN d !! cn = Some n -> cn <> ""%string /\ exists p, ("mtls"%string, p, n) ∈ creds /\ p "subject_cn" = cn;
  df_spki : forall s n, d_mtlsSPKI d !! s = Some n -> exists p, ("mtls"%string, p, n) ∈ creds /\ to_lower (p "spki_sha256") = s
}.

Lemma directory_from_weaken creds c d : directory_from creds d -> directory_from (creds ++ [c]) d.
Proof.
  intros [H1 H2 H3 H4 H5 H6].
  assert (Hin : forall x, x ∈ creds -> x ∈ creds ++ [c]) by (intros x Hx; apply elem_of_app; by left).
  constructor.
  - intros h n Hh. destruct (H1 h n Hh) as (p & v & ? & ?). exists p, v. auto.
  - intros u x Hu. destruct (H2 u x Hu) as (p & ? & ?). exists p. auto.
  - intros u n Hu. destruct (H3 u n Hu) as (p & ? & ?). exists p. auto.
  - intros k x Hk. destruct (H4 k x Hk) as (p & v & y & ? & ?). exists p, v, y. auto.
  - intros cn n Hc. destruct (H5 cn n Hc) as (? & p & ? & ?). split; [done|]. exists p. auto.
  - intros s n Hs. destruct (H6 s n Hs) as (p & ? & ?). exists p. auto.
Qed.

Lemma compile_from creds d m p pr d' :
  directory_from creds d -> compile d m p pr = Ok d' -> directory_from (creds ++ [(m, p, pr)]) d'.
Proof.
  intros H. apply (directory_from_weaken _ (m, p, pr)) in H. destruct H as [H1 H2 H3 H4 H5 H6].
  assert (Hin : (m, p, pr) ∈ creds ++ [(m, p, pr)]) by (apply elem_of_app; right; constructor).
  unfold compile.
  destruct (String.eqb_spec m "bearer") as [->|].
  { intros H. apply rbind_ok in H as (h & Hh & H). destruct (String.eqb h ""); [done|]. invc H.
    constructor; cbn; try done. intros h' nm. rewrite lookup_insert. case_decide; [|apply H1].
    intros [= <-]. exists p, h. by subst. }
  destruct (String.eqb_spec m "password") as [->|].
  { destruct (String.eqb_spec (p "user") ""); [done|]. intros H. apply rbind_ok in H as (h & Hh & H).
    destruct (String.eqb_spec h ""); [done|]. invc H. constructor; cbn; try done.
    intros u c. rewrite lookup_insert. case_decide; [|apply H2]. intros [= <-]. exists p. by subst. }
  destruct (String.eqb_spec m "mtls") as [->|].
  { destruct (_ && _); [done|]. intros H. invc H. constructor; cbn; try done.
    - intros cn nm. destruct (String.eqb_spec (p "subject_cn") ""); [apply H5|]. rewrite lookup_insert.
      case_decide; [|apply H5]. intros [= <-]. subst. split; [done|]. by exists p.
    - intros s nm. destruct (String.eqb_spec (p "spki_sha256") ""); [apply H6|]. rewrite lookup_insert.
      case_decide; [|apply H6]. intros [= <-]. by exists p. }
  destruct (String.eqb_spec m "keyring") as [->|].
  { intros H. apply rbind_ok in H as (l & Hl & H). destruct (String.eqb l ""); [done|].
    destruct (parse_key l) as [[[canon pub] x]|] eqn:Hpk; [|done]. invc H. constructor; cbn; try done.
    intros k c. rewrite lookup_insert. case_decide; [|apply H4]. intros [= <-]. exists p, l, x. by subst. }
  destruct (String.eqb_spec m "peercred") as [->|]; [|done].
  destruct (parse_uint32 (p "uid")) as [u|] eqn:Hpu; [|done]. intros H. invc H. constructor; cbn; try done.
  intros u' nm. rewrite lookup_insert. case_decide; [|apply H3]. intros [= <-]. exists p. by subst.
Qed.

Lemma compile_all_from creds d0 c0 d :
  directory_from c0 d0 -> compile_all d0 creds = Ok d -> directory_from (c0 ++ creds) d.
Proof.
  revert d0 c0. induction creds as [|[[m p] pr] rest IH]; cbn [compile_all]; intros d0 c0 H0 H.
  - injection H as <-. by rewrite app_nil_r.
  - apply rbind_ok in H as (d1 & H1 & H). rewrite cons_middle, app_assoc.
    eapply IH, H. by eapply compile_from.
Qed.

(** Every line of the roster is accounted for. *)
Lemma roster_lines_from lines : forall k k',
  roster_lines k lines = Ok k' -> forall canon c, k' !! canon = Some c ->
  k !! canon = Some c \/ exists l, l ∈ lines /\ parse_key (trim_space l) = Some (canon, kc_pub c, kc_name c) /\ kc_name c <> ""%string.
Proof.
  induction lines as [|l rest IH]; cbn [roster_lines]; intros k k' H canon c Hc.
  - injection H as <-. by left.
  - apply rbind_ok in H as (k1 & H1 & H). destruct (IH k1 k' H canon c Hc) as [Hk1|(l' & Hl & Hp)].
    + unfold roster_line in H1. destruct (_ || _); [injection H1 as <-; by left|].
      destruct (parse_key (trim_space l)) as [[[cn pub] comment]|] eqn:Hpk; [|done].
      destruct (String.eqb_spec comment ""); injection H1 as <-; [by left|].
      rewrite lookup_insert in Hk1. case_decide; [|by left]. injection Hk1 as <-. right. exists l. subst.
      split; [constructor|]. by split.
    + right. exists l'. split; [by constructor|done].
Qed.

(** (credential directory) When [New] succeeds every configured credential compiled
    (none is skipped), each was filed under its key when its turn came, and conversely every
    entry of every method map stems from a configured credential of that very principal,
    or, for a keyring key, from a roster line whose comment names it; no roster key
    without a comment is admitted. *)
Theorem directory_is_exactly_configured ck session creds roster a :
  New ck session creds roster = Ok a ->
  exists d, compile_all empty_directory creds = Ok d /\ directory_from creds d /\
    (forall c1 m p pr c2, creds = c1 ++ (m, p, pr) :: c2 ->
       exists d1 d2, compile_all empty_directory c1 = Ok d1 /\ compile d1 m p pr = Ok d2 /\ filed (m, p, pr) d2) /\
    bearer a = d_bearer d /\ password a = d_password d /\ mtlsCN a = d_mtlsCN d /\ mtlsSPKI a = d_mtlsSPKI d /\
    peercred a = d_peercred d /\ dynKeyring a = ∅ /\
    forall canon c, keyring a !! canon = Some c -> d_keyring d !! canon = Some c \/
      exists b l, roster = Some b /\ l ∈ split_char newline b /\
        parse_key (trim_space l) = Some (canon, kc_pub c, kc_name c) /\ kc_name c <> ""%string.
Proof.
  unfold New. intros H. apply rbind_ok in H as (d & Hd & H). apply rbind_ok in H as (k & Hk & H).
  injection H as <-. exists d. split; [done|]. split.
  { apply (compile_all_from creds empty_directory []); [|done]. constructor; intros *; cbn; by rewrite lookup_empty. }
  split.
  { intros c1 m p pr c2 ->. rewrite compile_all_app in Hd. apply rbind_ok in Hd as (d1 & H1 & Hd). cbn in Hd.
    apply rbind_ok in Hd as (d2 & H2 & _). exists d1, d2. split; [done|]. split; [done|]. by eapply compile_filed. }
  cbn. repeat (split; [done|]). intros canon c Hc. unfold loadRoster in Hk.
  destruct roster as [b|]; [|injection Hk as <-; by left]. destruct (negb (parse_all b)); [done|].
  destruct (roster_lines_from _ _ _ Hk canon c Hc) as [|(l & ? & ? & ?)]; [by left|right; by exists b, l].
Qed.

(** ** What the endpoints guarantee *)

Lemma authenticateFor_mint_method a acc now r p h :
  authenticateFor a acc now r true = (Ok p, h) ->
  p = Anonymous \/ Method p = "peercred"%string \/
  exists m, m ∈ ["mtls"; "keyring"; "bearer"; "password"]%string /\ Method p = m /\ accepts acc m = true /\ fst (try a now m r) = Granted p.
Proof.
  unfold authenticateFor. pose proof (try_hard_spec a acc now r true hardMethods) as H.
  destruct (try_hard a acc now r true hardMethods) as [[|e|q] h']; [|done|].
  - destruct (accepts acc "peercred"); cbn.
    + unfold tryPeercred. destruct (r_uid r) as [u|]; [|destruct (accepts acc "none"); intros [= <- <-]; by left].
      destruct (peercred a !! u); [intros [= <- <-]; right; by left|].
      destruct (accepts acc "none"); intros [= <- <-]; by left.
    + destruct (accepts acc "none"); intros [= <- <-]; by left.
  - intros [= <- <-]. right. right. destruct H as (pre & m & post & Hms & Hs & Ht & _). exists m.
    unfold skipped in Hs. apply orb_false_iff in Hs as [Hacc Hns]. apply negb_false_iff in Hacc. cbn in Hns.
    split; [|split; [by apply (try_method a now m r q h')|split; [done|by rewrite Ht]]].
    assert (Hm : m ∈ hardMethods) by (rewrite Hms; apply elem_of_app; right; constructor).
    apply String.eqb_neq in Hns. unfold hardMethods in Hm. clear - Hm Hns. set_solver.
Qed.

(** (minting) A session token is minted only for a request that proves an identity by a
    non-session credential accepted on that listener, or by its Unix peer; never for the
    anonymous principal. The token names exactly that principal, carries owner tier exactly
    for account ([u_]) principals, the factor of the method used, full scope and the
    current time. *)
Theorem mint_needs_primary_credential a m acc now sid r a' tok p exp hard ck h :
  serveSession a m acc now sid r = (a', RToken tok p exp hard ck, h) -> r_method r = "POST"%string ->
  length sid = sidLen -> in_i64 now -> now <> 0 -> time_ok (if renewable m then now + maxTTL m else zero_time) ->
  a' = a /\ exists q, Name q = p /\ p <> ""%string /\
    (Method q = "peercred"%string \/
     exists mt, mt ∈ ["mtls"; "keyring"; "bearer"; "password"]%string /\ Method q = mt /\ accepts acc mt = true /\
       fst (try a now mt r) = Granted q) /\
    exists t, parse m tok = Ok t /\ p_principal t = p /\ authTime (p_claims t) = now /\
      scope (p_claims t) = ScopeFull /\ factors (p_claims t) = amrForMethod (Method q) /\
      tier (p_claims t) = (if has_prefix "u_" p then TierOwner else TierDataOnly).
Proof.
  unfold serveSession. intros H Hm Hs Hn Hn0 Hh. rewrite Hm in H. cbn [String.eqb Ascii.eqb] in H.
  change (String.eqb "POST" "POST") with true in H. cbn iota in H.
  destruct (authenticateFor a acc now r true) as [[q|e] h0] eqn:Ha; [|done].
  destruct (IsAnonymous (Some q)) eqn:Hanon; [done|].
  set (c := SessClaims _ _ _ _ _ _ _) in H. destruct (mint m now sid (Name q) c) as [[tk ex] hd] eqn:Hmint.
  injection H as <- <- <- <- <- _ _. split; [done|]. exists q. split; [done|].
  assert (Hne : Name q <> ""%string) by (unfold IsAnonymous in Hanon; by apply String.eqb_neq).
  split; [done|]. split.
  { destruct (authenticateFor_mint_method _ _ _ _ _ _ Ha) as [->|[?|?]]; [done|by left|by right]. }
  unfold mint in Hmint. subst c. cbn [authTime] in Hmint. change (is_zero_time zero_time) with true in Hmint. cbn iota in Hmint.
  unfold with_authTime in Hmint. cbn [tier scope factors rot credID notBefore] in Hmint.
  set (c := SessClaims _ _ _ _ _ _ _) in Hmint.
  assert (Hc : claims_ok c).
  { constructor; cbn; [| |unfold amrForMethod; by repeat case_match|done|constructor; by right|constructor; by left].
    - by destruct (has_prefix "u_" (Name q)).
    - done. }
  pose proof (parse_issue m sid (Name q) (now + idleTTL m) _ c Hs Hne Hh Hc) as Hp. rewrite Hmint in Hp. cbn [fst] in Hp.
  eexists. split; [exact Hp|]. done.
Qed.

(** Runtime enrollment, and what it promises: a map edited behind the static one. *)
Inductive kop : Type := KAdd (canon pub name : string) | KRemoveName (name : string) | KRemoveKey (canon : string).
Definition kstep (a : authenticator) (o : kop) : authenticator :=
  match o with
  | KAdd c pub n => AddKeyring a c pub n
  | KRemoveName n => RemoveKeyringName a n
  | KRemoveKey c => fst (RemoveKeyringKey a c)
  end.
Definition kspec (d : gmap string keyringCred) (o : kop) : gmap string keyringCred :=
  match o with
  | KAdd c pub n => <[c := KeyringCred pub n]> d
  | KRemoveName n => filter (fun kv => kc_name kv.2 <> n) d
  | KRemoveKey c => delete c d
  end.

Lemma kstep_spec a d o :
  (forall c, lookupKeyring a c = match keyring a !! c with Some x => Some x | None => d !! c end) ->
  keyring (kstep a o) = keyring a /\
  forall c, lookupKeyring (kstep a o) c = match keyring a !! c with Some x => Some x | None => kspec d o !! c end.
Proof.
  intros H.
  assert (Hd : forall c, keyring a !! c = None -> dynKeyring a !! c = d !! c).
  { intros c Hc. specialize (H c). unfold lookupKeyring in H. by rewrite Hc in H. }
  destruct o as [c pub n|n|c]; cbn [kstep kspec].
  - unfold AddKeyring. destruct (keyring a !! c) as [x|] eqn:Hc.
    + split; [done|]. intros c'. rewrite H. destruct (keyring a !! c') eqn:Hc'; [done|].
      rewrite lookup_insert_ne; [done|]. intros ->. congruence.
    + split; [done|]. intros c'. unfold lookupKeyring. cbn. destruct (keyring a !! c') eqn:Hc'; [done|].
      rewrite !lookup_insert. case_decide; [done|by apply Hd].
  - split; [done|]. intros c. unfold lookupKeyring. cbn. destruct (keyring a !! c) eqn:Hc; [done|].
    apply option_eq. intros x. rewrite !map_lookup_filter_Some. cbn. by rewrite Hd.
  - unfold RemoveKeyringKey. destruct (dynKeyring a !! c) eqn:Hdc; cbn [fst].
    + split; [done|]. intros c'. unfold lookupKeyring. cbn. destruct (keyring a !! c') eqn:Hc'; [done|].
      rewrite !lookup_delete. case_decide; [done|by apply Hd].
    + split; [done|]. intros c'. unfold lookupKeyring. destruct (keyring a !! c') eqn:Hc'; [done|].
      rewrite lookup_delete. case_decide as He; [by subst|by apply Hd].
Qed.

(** (static keys win) After any sequence of runtime enrollments and removals, a key of the
    static configuration still resolves to its configured identity, and any other key to
    the last enrollment of it that was not removed, by key or by name, since. *)
Theorem static_keys_win ops : forall a,
  let a' := fold_left kstep ops a in
  keyring a' = keyring a /\
  forall canon, lookupKeyring a' canon =
    match keyring a !! canon with
    | Some c => Some c
    | None => fold_left kspec ops (dynKeyring a) !! canon
    end.
Proof.
  assert (Hgen : forall ops a d,
    (forall c, lookupKeyring a c = match keyring a !! c with Some x => Some x | None => d !! c end) ->
    keyring (fold_left kstep ops a) = keyring a /\
    forall c, lookupKeyring (fold_left kstep ops a) c =
      match keyring a !! c with Some x => Some x | None => fold_left kspec ops d !! c end).
  { induction ops0 as [|o ops0 IH]; intros a d H; [done|]. cbn [fold_left].
    destruct (kstep_spec a d o H) as [Hk Hl]. rewrite <- Hk. apply IH. intros c. rewrite Hk. apply Hl. }
  intros a. by apply Hgen.
Qed.

(** (forged writes) A session that travels in the cookie authorizes no state-changing
    request a browser marks as same-site or cross-site: the session method refuses it, the
    account endpoints see no session, and it can be neither renewed nor revoked. *)
Theorem cross_site_cookie_is_refused a m acc now sid r tok :
  sessions a = Some m -> sessionTokenFrom a r = Some (tok, true) ->
  r_method r <> "GET"%string -> r_method r <> "HEAD"%string -> r_method r <> "OPTIONS"%string ->
  r_header r "Sec-Fetch-Site" <> ""%string -> r_header r "Sec-Fetch-Site" <> "same-origin"%string ->
  r_header r "Sec-Fetch-Site" <> "none"%string ->
  fst (trySession a now r) = Failed EInvalidCredential /\ SessionPrincipal a now r = None /\
  (r_method r = "PUT"%string \/ r_method r = "DELETE"%string ->
     serveSession a m acc now sid r = (a, RDenied EUnauthenticated, [])).
Proof.
  intros Hs Ht H1 H2 H3 H4 H5 H6.
  assert (Hc : csrfSafe r = false).
  { unfold csrfSafe. by rewrite !(proj2 (String.eqb_neq _ _)) by done. }
  unfold trySession, SessionPrincipal, serveSession, sessionTokenFromRequest. rewrite Hs, Ht, Hc. cbn [negb andb].
  split; [done|]. split; [done|]. by intros [-> | ->].
Qed.

(** (proof of possession) The keyring method grants a principal only to a request that
    answers an unexpired challenge of this server with a signature, by the private key of a
    registered identity, over that challenge and this request's method, path and query; and
    [VerifyPresented] accepts exactly such an answer by the key the request presents. *)
Theorem keyring_proves_possession a now r :
  let sig := r_header r HeaderKeyringSignature in
  let chal := r_header r HeaderKeyringChallenge in
  let bound pub := exists s, b64_decode StdEncoding sig = Some s /\
    verify_sig pub (KeyringSigningInput chal (r_method r) (r_path r) (r_rawquery r)) s = true in
  (forall p h, tryKeyring a now r = (Granted p, h) ->
     exists canon pub x cred, parse_key (r_header r HeaderKeyringKey) = Some (canon, pub, x) /\
       lookupKeyring a canon = Some cred /\ p = MkPrincipal (kc_name cred) "keyring" None /\
       challenge_valid (challenger a) now chal = true /\ bound (kc_pub cred)) /\
  (forall canon pub, VerifyPresented a now r = Ok (canon, pub) <->
     r_header r HeaderKeyringKey <> ""%string /\ sig <> ""%string /\ chal <> ""%string /\
     challenge_valid (challenger a) now chal = true /\ bound pub /\
     exists x, parse_key (r_header r HeaderKeyringKey) = Some (canon, pub, x)).
Proof.
  cbn zeta. split.
  - intros p h. unfold tryKeyring. destruct (String.eqb (r_header r HeaderKeyringSignature) ""); [done|].
    destruct (_ || _ || _) eqn:Hv; [done|]. apply orb_false_iff in Hv as [_ Hv]. apply negb_false_iff in Hv.
    destruct (parse_key _) as [[[canon pub] x]|] eqn:Hp; [|done]. destruct (lookupKeyring a canon) as [cred|] eqn:Hl; [|done].
    destruct (b64_decode _ _) as [s|] eqn:Hd; [|done]. destruct (verify_sig _ _ s) eqn:Hs; [|done].
    cbn [negb]. intros [= <- _]. exists canon, pub, x, cred. repeat split; try done. by exists s.
  - intros canon pub. unfold VerifyPresented. split.
    + destruct (_ || _ || _ || _) eqn:Hv; [done|]. apply orb_false_iff in Hv as [Hv Hc]. apply negb_false_iff in Hc.
      apply orb_false_iff in Hv as [Hv H3]. apply orb_false_iff in Hv as [H1 H2].
      apply String.eqb_neq in H1, H2, H3.
      destruct (parse_key _) as [[[cn pb] x]|] eqn:Hp; [|done]. destruct (b64_decode _ _) as [s|] eqn:Hd; [|done].
      destruct (verify_sig pb _ s) eqn:Hs; [|done]. cbn [negb]. intros [= <- <-].
      repeat split; try done; [by exists s|by exists x].
    + intros (H1 & H2 & H3 & Hc & (s & Hd & Hs) & x & Hp).
      rewrite !(proj2 (String.eqb_neq _ _)) by done. by rewrite Hc, Hp, Hd, Hs.
Qed.

(** (nothing behind the middleware runs unauthenticated) [Wrap] hands a request to the
    next handler only as the principal its credentials authenticate, or anonymously for
    the health endpoint; a refreshed session token is handed back only to a request that
    session authenticated, over the transport it came by, and is a renewal of its token. *)
Theorem wrap_authenticates a acc now rnd r a' p refresh h :
  Wrap a acc now rnd r = (a', ToNext p refresh, h) ->
  a' = a /\
  ((r_path r = "/_health"%string /\ p = Anonymous /\ refresh = None) \/
   authenticateFor a acc now r false = (Ok p, h)) /\
  forall nt ne fromCookie, refresh = Some (nt, ne, fromCookie) ->
    Method p = "session"%string /\ exists m tok, sessions a = Some m /\
      sessionTokenFrom a r = Some (tok, fromCookie) /\ descends m tok nt.
Proof.
  unfold Wrap.
  assert (Hnext : match authenticateFor a acc now r false with
    | (Err e, h) => (a, Denied e, h) | (Ok p, h) => (a, ToNext p (refresh_token a now r p), h) end = (a', ToNext p refresh, h) ->
    a' = a /\ authenticateFor a acc now r false = (Ok p, h) /\ refresh = refresh_token a now r p).
  { destruct (authenticateFor a acc now r false) as [[q|e] h']; [|done]. by intros [= <- <- <- <-]. }
  assert (Hgoal : a' = a /\ authenticateFor a acc now r false = (Ok p, h) /\ refresh = refresh_token a now r p ->
    a' = a /\ ((r_path r = "/_health"%string /\ p = Anonymous /\ refresh = None) \/ authenticateFor a acc now r false = (Ok p, h)) /\
    forall nt ne fromCookie, refresh = Some (nt, ne, fromCookie) ->
      Method p = "session"%string /\ exists m tok, sessions a = Some m /\
        sessionTokenFrom a r = Some (tok, fromCookie) /\ descends m tok nt).
  { intros (-> & Hau & ->). split; [done|]. split; [by right|]. intros nt ne fc. unfold refresh_token.
    destruct (String.eqb_spec (Method p) "session"); [|done]. cbn [negb]. destruct (sessions a) as [m|]; [|done].
    destruct (renewable m); [|done]. cbn [negb]. destruct (sessionTokenFrom a r) as [[tok c]|]; [|done].
    destruct (maybeRefresh m now tok) as [[nt' ne']|] eqn:Hr; [|done]. intros [= <- <- <-]. split; [done|].
    exists m, tok. split; [done|]. split; [done|]. by eapply (D_refresh m tok m now tok); [..|apply D_self|]. }
  destruct (_ && accepts acc "keyring"); [done|]. destruct (_ && accepts acc "session" && _).
  { destruct (sessions a); [|by intros H; apply Hgoal, Hnext]. by destruct (serveSession _ _ _ _ _ _) as [[? ?] ?]. }
  destruct (match acctPaths a with Some _ => _ | None => _ end); [done|].
  destruct (_ && _ && enroll a); [done|]. destruct (String.eqb_spec (r_path r) "/_health"); [|by intros H; apply Hgoal, Hnext].
  intros [= <- <- <- <-]. split; [done|]. split; [by left|done].
Qed.

(** A refused request fires no callback, and no request changes the enrolled keys. *)
Lemma try_failed_quiet a now m r e h : try a now m r = (Failed e, h) -> h = [].
Proof. unfold try, tryMTLS, tryKeyring, trySession, tryBearer, tryPassword. cbv zeta. intros H. repeat (case_match; simplify_eq; try done). Qed.
Lemma refused_quiet a acc now r sk e h : authenticateFor a acc now r sk = (Err e, h) -> h = [].
Proof.
  unfold authenticateFor. assert (H : forall ms e' h', try_hard a acc now r sk ms = (Failed e', h') -> h' = []).
  { induction ms as [|m ms IH]; intros e' h'; cbn [try_hard]; [done|]. destruct (skipped _ _ _); [apply IH|].
    destruct (try a now m r) as [[|x|q] h0] eqn:Et; [apply IH| |done]. intros [= <- <-]. by eapply try_failed_quiet. }
  destruct (try_hard _ _ _ _ _ _) as [[|x|q] h'] eqn:E; [|intros [= _ <-]; by eapply H|done].
  destruct (if accepts acc "peercred" then _ else _); [done|]. by destruct (accepts acc "none"); intros [= _ <-].
Qed.
Lemma Wrap_keys a acc now rnd r : dynKeyring (Wrap a acc now rnd r).1.1 = dynKeyring a.
Proof.
  unfold Wrap. assert (Hn : dynKeyring (match authenticateFor a acc now r false with
    | (Err e, h) => (a, Denied e, h) | (Ok p, h) => (a, ToNext p (refresh_token a now r p), h) end).1.1 = dynKeyring a)
    by (by destruct (authenticateFor a acc now r false) as [[q|e] h]).
  destruct (_ && accepts acc "keyring"); [done|]. destruct (_ && accepts acc "session" && _).
  { destruct (sessions a) as [m|]; [|exact Hn]. unfold serveSession. repeat case_match; simplify_eq; done. }
  destruct (match acctPaths a with Some _ => _ | None => _ end); [done|].
  destruct (_ && _ && enroll a); [done|]. by destruct (String.eqb _ _).
Qed.

(** Where a request goes when no feature owns account endpoints. *)
Lemma Wrap_out a acc now rnd r : acctPaths a = None ->
  let '(a', out, h) := Wrap a acc now rnd r in
  match out with
  | ToChallenge _ | ToSession _ => r_path r = "/_auth/challenge"%string \/ r_path r = "/_auth/session"%string
  | ToAccount => False
  | ToEnroll => a' = a /\ h = [] /\ r_path r = "/_auth/enroll"%string /\ accepts acc "keyring" = true
  | Denied e => a' = a /\ authenticateFor a acc now r false = (Err e, h)
  | ToNext p _ => a' = a /\ (r_path r = "/_health"%string \/ authenticateFor a acc now r false = (Ok p, h))
  end.
Proof.
  intros Ha. unfold Wrap. rewrite Ha. cbv zeta.
  set (next := match authenticateFor a acc now r false with (Err e, h) => _ | (Ok p, h) => _ end).
  assert (Hn : let '(a', out, h) := next in
    match out with
    | Denied e => a' = a /\ authenticateFor a acc now r false = (Err e, h)
    | ToNext p _ => a' = a /\ (r_path r = "/_health"%string \/ authenticateFor a acc now r false = (Ok p, h))
    | _ => False end) by (subst next; destruct (authenticateFor a acc now r false) as [[q|e] h]; auto).
  clearbody next. destruct next as [[a' out] h].
  assert (Hthen : match out with
    | ToChallenge _ | ToSession _ => r_path r = "/_auth/challenge"%string \/ r_path r = "/_auth/session"%string
    | ToAccount => False
    | ToEnroll => a' = a /\ h = [] /\ r_path r = "/_auth/enroll"%string /\ accepts acc "keyring" = true
    | Denied e => a' = a /\ authenticateFor a acc now r false = (Err e, h)
    | ToNext p _ => a' = a /\ (r_path r = "/_health"%string \/ authenticateFor a acc now r false = (Ok p, h))
    end) by (by destruct out).
  destruct (String.eqb (r_path r) "/_auth/challenge" && accepts acc "keyring") eqn:E1.
  { apply andb_true_iff in E1 as [E1%String.eqb_eq _]. by left. }
  destruct (String.eqb (r_path r) "/_auth/session" && accepts acc "session" && _) eqn:E2.
  { apply andb_true_iff in E2 as [E2 _]. apply andb_true_iff in E2 as [E2%String.eqb_eq _].
    destruct (sessions a); [|exact Hthen]. destruct (serveSession _ _ _ _ _ _) as [[a1 resp] h1]. by right. }
  destruct (String.eqb (r_path r) "/_auth/enroll" && accepts acc "keyring" && enroll a) eqn:E3.
  { apply andb_true_iff in E3 as [E3 _]. by apply andb_true_iff in E3 as [E3%String.eqb_eq ?]. }
  destruct (String.eqb_spec (r_path r) "/_health"); [by auto|exact Hthen].
Qed.

End Auth.

(** ** Concrete parameters and requests *)

Definition demo_bcrypt (hash pass : string) : bool := String.eqb hash ("h:" +:+ pass).
Definition demo_key (l : string) : option (string * string * string) :=
  match cut_char " " l with (k, c, _) => if String.eqb k "" then None else Some (k, k, c) end.
Definition demo_verify (pub : string) (msg sig : list byte) : bool := bytes_eqb sig (bytes_of pub ++ msg).
Definition demo_sec (v : string) : result secerr string := Err ErrMalformedRef.
Definition demo_all (b : string) : bool := true.

Definition get2 (k v k2 v2 : string) (x : string) : string :=
  if String.eqb x k then v else if String.eqb x k2 then v2 else ""%string.
Definition demo_params : string -> string := get2 "user" "bob" "password_hash" "h:pw".
Definition demo_auth : authenticator :=
  Authenticator [] (Some demo_m) true "__Host-session" ∅ {["bob"%string := PasswordCred "h:pw" "u_bob"]} ∅ ∅
    {["k"%string := KeyringCred "k" "ops"]} ∅ ∅ false None false false.

Definition demo_creds : list credential := [("password"%string, demo_params, "u_bob"%string)].
Definition demo_roster : string := "k ops" +:+ nl +:+ "z".
Definition demo_new : authenticator :=
  match New demo_key demo_all demo_sec [] None demo_creds (Some demo_roster) with Ok a => a | Err _ => demo_auth end.

Lemma directory_is_exactly_configured_witness :
  New demo_key demo_all demo_sec [] None demo_creds (Some demo_roster) = Ok demo_new /\
  password demo_new !! "bob"%string = Some (PasswordCred "h:pw" "u_bob") /\
  keyring demo_new !! "z"%string = None /\ dynKeyring demo_new = ∅.
Proof.
  assert (H : New demo_key demo_all demo_sec [] None demo_creds (Some demo_roster) = Ok demo_new)
    by (vm_compute; reflexivity).
  split; [exact H|]. split; [vm_compute; reflexivity|]. split; [vm_compute; reflexivity|].
  destruct (directory_is_exactly_configured demo_key demo_all demo_sec [] None demo_creds (Some demo_roster) demo_new H)
    as (d & _ & _ & _ & _ & _ & _ & _ & _ & Hd & _). exact Hd.
Defined.

Definition no_cookie (n : string) : option string := None.
Definition login : request :=
  Request "POST" "/_auth/session" "" (get2 "Authorization" "Basic Ym9iOnB3" "" "") no_cookie None None "" "" None.
Definition login_tok : string :=
  fst (fst (mint demo_m 1000 demo_sid "u_bob" (SessClaims TierOwner 0 FactorPassword 0 [] zero_time zero_time))).

Lemma mint_needs_primary_credential_witness :
  serveSession demo_bcrypt demo_key demo_verify demo_auth demo_m ["session"; "password"]%string 1000 demo_sid login =
    (demo_auth, RToken login_tok "u_bob" (1000 + 900 * second) (1000 + 3600 * second) (Some login_tok), []) /\
  exists t, parse demo_m login_tok = Ok t /\ p_principal t = "u_bob"%string.
Proof.
  assert (E : serveSession demo_bcrypt demo_key demo_verify demo_auth demo_m ["session"; "password"]%string 1000 demo_sid login =
    (demo_auth, RToken login_tok "u_bob" (1000 + 900 * second) (1000 + 3600 * second) (Some login_tok), []))
    by (vm_compute; reflexivity).
  split; [exact E|].
  destruct (mint_needs_primary_credential demo_bcrypt demo_key demo_verify demo_auth demo_m _ 1000 demo_sid login
    _ _ _ _ _ _ _ E eq_refl eq_refl) as (_ & q & _ & _ & _ & t & Hp & Hn & _).
  - split; [discriminate|reflexivity].
  - discriminate.
  - constructor. right. split; [split; [discriminate|reflexivity]|discriminate].
  - exists t. split; [exact Hp|exact Hn].
Defined.

Definition forged : request :=
  Request "PUT" "/_auth/session" "" (get2 "Sec-Fetch-Site" "cross-site" "" "")
    (fun _ => Some demo_tok) None None "" "" None.

Lemma cross_site_cookie_is_refused_witness :
  serveSession demo_bcrypt demo_key demo_verify demo_auth demo_m [] 2000 demo_sid forged = (demo_auth, RDenied EUnauthenticated, []).
Proof.
  refine (proj2 (proj2 (cross_site_cookie_is_refused demo_bcrypt demo_key demo_verify demo_auth demo_m [] 2000 demo_sid forged demo_tok
    eq_refl _ _ _ _ _ _ _)) _); try discriminate; [vm_compute; reflexivity|left; reflexivity].
Defined.

Definition riding : request :=
  Request "GET" "/db/query" "" (get2 "Authorization" ("Bearer " +:+ demo_tok) "" "") no_cookie None None "" "" None.

Lemma wrap_authenticates_witness :
  Wrap demo_bcrypt demo_key demo_verify demo_auth ["session"]%string demo_t2 demo_sid riding =
    (demo_auth, ToNext (MkPrincipal "u_1" "session" (Some (claims_assurance demo_c)))
       (Some (demo_tok2, demo_t2 + 900 * second, false)), []) /\
  exists m tok, descends m tok demo_tok2.
Proof.
  assert (E : Wrap demo_bcrypt demo_key demo_verify demo_auth ["session"]%string demo_t2 demo_sid riding =
    (demo_auth, ToNext (MkPrincipal "u_1" "session" (Some (claims_assurance demo_c)))
       (Some (demo_tok2, demo_t2 + 900 * second, false)), [])) by (vm_compute; reflexivity).
  split; [exact E|].
  destruct (wrap_authenticates demo_bcrypt demo_key demo_verify demo_auth ["session"]%string demo_t2 demo_sid riding
    _ _ _ _ E) as (_ & _ & H).
  destruct (H _ _ _ eq_refl) as (_ & m & tok & _ & _ & Hd). exists m, tok. exact Hd.
Defined.
