(* ===== verification/Hrana.v ===== *)
(** * httpapi: the Hrana streams

    [src/httpapi/hrana.go], [hrana_types.go], [hrana_cursor.go].  The pinned connection is
    a record of driver operations over a state of the caller's choice; requests are the
    decoded JSON bodies.  A Go panic (an index out of range) is [None]. *)
From S2P Require Import Prelude GoStd Crypto Wire Authz Engine Session.

(** ** Requests and results *)

Record hStmt := HStmt {
  h_sql : option string;
  h_sqlid : option Z;
  h_args : list value;
  h_named : list (string * value);
  h_want_rows : option bool
}.

Inductive hBatchCond : Type :=
| Cond (ctype : string) (step : option Z) (cond : option hBatchCond) (conds : list hBatchCond).

Record hBatchStep := HStep { condition : option hBatchCond; stmt : hStmt }.
Definition hBatch : Type := list hBatchStep.

Record hCol := HCol { c_name : option string; c_decltype : option string }.
Record hStmtResult := HStmtResult {
  cols : list hCol;
  rows : list (list value);
  affected_row_count : Z;
  last_insert_rowid : option string;
  truncated : bool
}.
Record hError := HError { message : string; code : option string }.
Record hBatchResult := HBatchResult { step_results : list (option hStmtResult); step_errors : list (option hError) }.

Record hDescribeResult := HDescribe {
  d_params : list (option string);
  d_cols : list hCol;
  is_explain : bool;
  is_readonly : bool
}.

Record streamRequest := StreamRequest {
  s_type : string;
  s_stmt : option hStmt;
  s_batch : option hBatch;
  s_sql : option string;
  s_sqlid : option Z;
  s_tables : list string
}.

Inductive response : Type :=
| executeResp (r : hStmtResult)
| batchResp (r : hBatchResult)
| describeResp (r : hDescribeResult)
| getAutocommitResp (b : bool)
| changesetResp (base64 : string)
| simpleResp (kind : string).
Inductive streamResult : Type := okStream (r : response) | errStream (e : hError).

(** An execution error: a client protocol error or whatever the engine reports. *)
Inductive xerr : Type := protocolError (msg : string) | XErr (e : err).

(** The prepared statement's introspection surface. *)
Record prepared := Prepared {
  p_cols : list (string * string);     (* name, declared type or empty *)
  p_binds : list string;               (* bind names, empty when anonymous *)
  p_readonly : bool
}.

(** The pinned connection. *)
Record Conn (S : Type) := {
  cq : Queryer S;
  autocommit : S -> bool;
  exec_script : S -> string -> S * result err unit;
  prepare : S -> string -> S * result err prepared;
  create_session : S -> S * result err nat;
  attach_table : S -> nat -> string -> S * result err unit;
  changeset : S -> nat -> S * result err (list byte);
  close_session : S -> nat -> S
}.
Arguments cq {S}. Arguments autocommit {S}. Arguments exec_script {S}. Arguments prepare {S}.
Arguments create_session {S}. Arguments attach_table {S}. Arguments changeset {S}. Arguments close_session {S}.

(** ** Statement building and result shaping *)

Definition resolveSQL (s : session) (sqlText : option string) (sqlID : option Z) : result xerr string :=
  match sqlText with
  | Some t => Ok t
  | None =>
      match sqlID with
      | Some i => match LookupSQL s i with Some t => Ok t | None => Err (protocolError "unknown sql_id") end
      | None => Err (protocolError "request has neither sql nor sql_id")
      end
  end.

Definition stmtFromHrana (sqlText : string) (st : hStmt) (allowAttach : bool) : statement :=
  match h_named st with
  | [] => Stmt sqlText (h_args st) [] allowAttach
  | named => Stmt sqlText [] named allowAttach
  end.

Definition toHStmtResult (res : qresult) (wantRows : option bool) : hStmtResult :=
  HStmtResult (map (fun c => HCol (Some c) None) (Columns res))
    (if default true wantRows then Rows res else [])
    (RowsAffected res)
    (if LastInsertID res =? 0 then None else Some (format_int (LastInsertID res)))
    (Truncated res).

Definition engine_hError (e : err) : hError :=
  if is_denied e then HError (denied_text e) None
  else match as_engine e with
       | Some (_, ext, msg) => HError msg (Some (ExtendedCodeName ext))
       | None => if is_ctx e then HError "statement timed out" None else HError "internal error" None
       end.
Definition hErrorFrom (e : xerr) : hError :=
  match e with protocolError m => HError m None | XErr e => engine_hError e end.

(** ** Batch conditions *)

(** [results[*c.Step] != nil] after the upper bound check: a negative index panics. *)
Definition step_set {A} (step : option Z) (l : list (option A)) : option bool :=
  match step with
  | None => Some false
  | Some s =>
      if s <? Z.of_nat (length l) then
        if s <? 0 then None
        else Some (match nth (Z.to_nat s) l None with Some _ => true | None => false end)
      else Some false
  end.

Fixpoint evalCond (c : hBatchCond) (results : list (option hStmtResult)) (errs : list (option hError)) (ac : bool)
    : option bool :=
  match c with
  | Cond ty step cond conds =>
      if String.eqb ty "ok" then step_set step results
      else if String.eqb ty "error" then step_set step errs
      else if String.eqb ty "not" then
        match cond with
        | None => Some false
        | Some c' => match evalCond c' results errs ac with Some b => Some (negb b) | None => None end
        end
      else if String.eqb ty "and" then
        (fix all (l : list hBatchCond) : option bool :=
           match l with
           | [] => Some true
           | c' :: rest => match evalCond c' results errs ac with
                           | Some true => all rest
                           | r => r
                           end
           end) conds
      else if String.eqb ty "or" then
        (fix any (l : list hBatchCond) : option bool :=
           match l with
           | [] => Some false
           | c' :: rest => match evalCond c' results errs ac with
                           | Some false => any rest
                           | r => r
                           end
           end) conds
      else if String.eqb ty "is_autocommit" then Some ac
      else Some false
  end.

Definition condition_holds (c : option hBatchCond) results errs ac : option bool :=
  match c with None => Some true | Some c => evalCond c results errs ac end.

(** *** Conditions: the unexecuted tail, and panics *)

Section CondInd.
Variable P : hBatchCond -> Prop.
Hypothesis step_case : forall ty step cond conds,
  (forall c, cond = Some c -> P c) -> Forall P conds -> P (Cond ty step cond conds).
Fixpoint hBatchCond_ind' (c : hBatchCond) : P c :=
  match c with
  | Cond ty step cond conds =>
      step_case ty step cond conds
        (fun c' => match cond as o return o = Some c' -> P c' with
                   | Some c0 => fun E => eq_rect c0 P (hBatchCond_ind' c0) c' (f_equal (default c0) E)
                   | None => fun E => match eq_ind None (fun o => match o with Some _ => False | None => True end) I _ E with end
                   end)
        ((fix all (l : list hBatchCond) : Forall P l :=
            match l with [] => Forall_nil_2 P | c0 :: r => Forall_cons_2 P c0 r (hBatchCond_ind' c0) (all r) end) conds)
  end.
End CondInd.

Lemma step_set_pad {A} step (R : list (option A)) k :
  step_set step (R ++ replicate k None) = step_set step R.
Proof.
  destruct step as [s|]; [|done]. cbn [step_set]. rewrite length_app, length_replicate.
  destruct (Z.ltb_spec s (Z.of_nat (length R))) as [H|H].
  - rewrite (proj2 (Z.ltb_lt s (Z.of_nat (length R + k)))) by lia.
    destruct (Z.ltb_spec s 0); [done|]. by rewrite app_nth1 by lia.
  - destruct (Z.ltb_spec s (Z.of_nat (length R + k))) as [H'|]; [|done].
    rewrite (proj2 (Z.ltb_ge s 0)) by lia. rewrite app_nth2 by lia.
    by rewrite nth_lookup, lookup_replicate_2 by lia.
Qed.

(** The unexecuted tail of the preallocated arrays is invisible to a condition. *)
Lemma evalCond_pad c R E k ac :
  evalCond c (R ++ replicate k None) (E ++ replicate k None) ac = evalCond c R E ac.
Proof.
  induction c as [ty step cond conds Hc Hcs] using hBatchCond_ind'. cbn [evalCond].
  rewrite !step_set_pad. repeat case_match; try done.
  - specialize (Hc _ eq_refl). congruence.
  - specialize (Hc _ eq_refl). congruence.
  - specialize (Hc _ eq_refl). congruence.
  - induction Hcs as [|c l Hc' _ IH]; [done|]. rewrite Hc'. by destruct (evalCond c R E ac) as [[]|].
  - induction Hcs as [|c l Hc' _ IH]; [done|]. rewrite Hc'. by destruct (evalCond c R E ac) as [[]|].
Qed.

Lemma condition_holds_pad c R E k ac :
  condition_holds c (R ++ replicate k None) (E ++ replicate k None) ac = condition_holds c R E ac.
Proof. destruct c; [apply evalCond_pad|done]. Qed.

(** Conditions that name no negative step. *)
Fixpoint nonneg_steps (c : hBatchCond) : bool :=
  match c with
  | Cond _ step cond conds =>
      match step with Some s => 0 <=? s | None => true end &&
      match cond with Some c' => nonneg_steps c' | None => true end &&
      forallb nonneg_steps conds
  end.

Lemma step_set_total {A} step (R : list (option A)) :
  match step with Some s => 0 <=? s | None => true end = true -> is_Some (step_set step R).
Proof.
  destruct step as [s|]; [|by eexists]. intros Hs%Z.leb_le. cbn.
  rewrite (proj2 (Z.ltb_ge s 0)) by lia. destruct (_ <? _); by eexists.
Qed.

Lemma evalCond_total c R E ac : nonneg_steps c = true -> is_Some (evalCond c R E ac).
Proof.
  induction c as [ty step cond conds Hc Hcs] using hBatchCond_ind'. cbn [nonneg_steps evalCond].
  intros [[Hs Hn]%andb_true_iff Hl]%andb_true_iff.
  destruct (String.eqb ty "ok"); [by apply step_set_total|].
  destruct (String.eqb ty "error"); [by apply step_set_total|].
  destruct (String.eqb ty "not").
  { destruct cond as [c'|]; [|by eexists]. destruct (Hc c' eq_refl Hn) as [b ->]. by eexists. }
  assert (Hall : Forall (fun c => is_Some (evalCond c R E ac)) conds).
  { apply Forall_forall. intros c Hin. rewrite Forall_forall in Hcs. apply Hcs; [done|].
    rewrite List.forallb_forall in Hl. apply Hl. by apply list_elem_of_In. }
  destruct (String.eqb ty "and").
  { induction Hall as [|c l [b Hb] _ IH]; [by eexists|]. inversion Hcs; subst. cbn in Hl.
    apply andb_true_iff in Hl as [_ Hl]. rewrite Hb. destruct b; [by apply IH|by eexists]. }
  destruct (String.eqb ty "or").
  { induction Hall as [|c l [b Hb] _ IH]; [by eexists|]. inversion Hcs; subst. cbn in Hl.
    apply andb_true_iff in Hl as [_ Hl]. rewrite Hb. destruct b; [by eexists|by apply IH]. }
  destruct (String.eqb ty "is_autocommit"); by eexists.
Qed.

(** ** Execution on the pinned connection *)

Section Exec.
Context `{FT : FloatText} {S : Type} (e : engine) (d : Conn S).

Definition execStmt (st : S) (s : session) (h : hStmt) : S * result xerr hStmtResult :=
  match resolveSQL s (h_sql h) (h_sqlid h) with
  | Err x => (st, Err x)
  | Ok sqlText =>
      match Run e (cq d) st (stmtFromHrana sqlText h (attach s)) with
      | (st', Err x) => (st', Err (XErr x))
      | (st', Ok res) => (st', Ok (toHStmtResult res (h_want_rows h)))
      end
  end.

(** The step loop, with the optional [emit] callback threading its own state: [None] for
    the pipeline; its boolean answer abandons the batch. *)
Section Loop.
Context {X : Type} (emit : option (X -> nat -> hStmtResult + hError -> X * bool)).

Definition emit_step (x : X) (i : nat) (o : hStmtResult + hError) : X * bool :=
  match emit with None => (x, true) | Some f => f x i o end.

Fixpoint batch_loop (st : S) (s : session) (x : X) (i : nat) (steps : hBatch)
    (results : list (option hStmtResult)) (errs : list (option hError)) (ac : bool) : option (S * X * hBatchResult) :=
  match steps with
  | [] => Some (st, x, HBatchResult results errs)
  | step :: rest =>
      match condition_holds (condition step) results errs ac with
      | None => None
      | Some false => batch_loop st s x (i + 1) rest results errs ac
      | Some true =>
          let '(st', r) := execStmt st s (stmt step) in
          let '(results', errs', o) :=
            match r with
            | Ok res => (<[i := Some res]> results, errs, inl res)
            | Err x => (results, <[i := Some (hErrorFrom x)]> errs, inr (hErrorFrom x))
            end in
          let '(x', go) := emit_step x i o in
          if go then batch_loop st' s x' (i + 1) rest results' errs' (autocommit d st')
          else Some (st', x', HBatchResult results' errs')
      end
  end.

Definition runHranaBatch (st : S) (s : session) (x : X) (b : hBatch) : option (S * X * hBatchResult) :=
  let n := length b in
  batch_loop st s x 0 b (replicate n None) (replicate n None) (autocommit d st).
End Loop.

Definition execBatch (st : S) (s : session) (b : hBatch) : option (S * hBatchResult) :=
  match runHranaBatch (X := unit) None st s tt b with
  | Some (st', _, r) => Some (st', r)
  | None => None
  end.

(** ** The cursor *)

Inductive cursor_entry : Type :=
| cursorStepBegin (step : nat) (cs : list hCol)
| cursorRow (row : list value)
| cursorStepEnd (affected : Z) (rowid : option string) (trunc : bool)
| cursorStepError (step : nat) (er : hError).

(** The response writer: the lines written and how many more the client will take. *)
Record writer := Writer { lines : list cursor_entry; budget : nat }.
Definition write (w : writer) (l : cursor_entry) : writer * bool :=
  match budget w with
  | O => (w, false)
  | Datatypes.S k => (Writer (lines w ++ [l]) k, true)
  end.
Fixpoint write_all (w : writer) (ls : list cursor_entry) : writer * bool :=
  match ls with
  | [] => (w, true)
  | l :: rest => match write w l with
                 | (w', true) => write_all w' rest
                 | (w', false) => (w', false)
                 end
  end.

Definition cursor_emit (w : writer) (i : nat) (o : hStmtResult + hError) : writer * bool :=
  match o with
  | inr er => write w (cursorStepError i er)
  | inl res =>
      match write w (cursorStepBegin i (cols res)) with
      | (w1, false) => (w1, false)
      | (w1, true) =>
          match write_all w1 (map cursorRow (rows res)) with
          | (w2, false) => (w2, false)
          | (w2, true) => write w2 (cursorStepEnd (affected_row_count res) (last_insert_rowid res) (truncated res))
          end
      end
  end.

Definition cursor_batch (st : S) (s : session) (w : writer) (b : hBatch) : option (S * writer) :=
  match runHranaBatch (Some cursor_emit) st s w b with
  | Some (st', w', _) => Some (st', w')
  | None => None
  end.

(** ** The other stream requests *)

Definition describeStmt (st : S) (sqlText : string) : S * result err hDescribeResult :=
  match prepare d st sqlText with
  | (st', Err x) => (st', Err (wrap x))
  | (st', Ok p) =>
      (st', Ok (HDescribe (map (fun n => if String.eqb n "" then None else Some n) (p_binds p))
                  (map (fun '(n, t) => HCol (Some n) (if String.eqb t "" then None else Some t)) (p_cols p))
                  (IsExplain sqlText) (p_readonly p)))
  end.

Fixpoint attach_tables (st : S) (c : nat) (tables : list string) : S * result err unit :=
  match tables with
  | [] => (st, Ok tt)
  | t :: rest =>
      match attach_table d st c t with
      | (st', Err x) => (close_session d st' c, Err x)
      | (st', Ok _) => attach_tables st' c rest
      end
  end.

Definition startCapture (st : S) (s : session) (tables : list string) : S * session * result xerr unit :=
  match capture s with
  | Some _ => (st, s, Err (protocolError "a capture session is already open on this stream"))
  | None =>
      match create_session d st with
      | (st1, Err x) => (st1, s, Err (XErr x))
      | (st1, Ok c) =>
          match attach_tables st1 c (match tables with [] => [""%string] | _ => tables end) with
          | (st2, Err x) => (st2, s, Err (XErr x))
          | (st2, Ok _) => (st2, SetCapture s (Some c), Ok tt)
          end
      end
  end.

Definition captureChangeset (st : S) (s : session) : S * session * result xerr (list byte) :=
  match TakeCapture s with
  | (s', None) => (st, s', Err (protocolError "no capture session open (send session_start first)"))
  | (s', Some c) =>
      let '(st1, r) := changeset d st c in
      (close_session d st1 c, s', match r with Ok b => Ok b | Err x => Err (XErr x) end)
  end.

Definition proto (m : string) : streamResult := errStream (HError m None).

(** One stream request; the boolean closes the stream. *)
Definition runStreamRequest (st : S) (s : session) (r : streamRequest)
    : option (S * session * streamResult * bool) :=
  let ty := s_type r in
  if String.eqb ty "execute" then
    match s_stmt r with
    | None => Some (st, s, proto "execute requires a stmt", false)
    | Some h => match execStmt st s h with
                | (st', Err x) => Some (st', s, errStream (hErrorFrom x), false)
                | (st', Ok res) => Some (st', s, okStream (executeResp res), false)
                end
    end
  else if String.eqb ty "batch" then
    match s_batch r with
    | None => Some (st, s, proto "batch requires a batch", false)
    | Some b => match execBatch st s b with
                | None => None
                | Some (st', res) => Some (st', s, okStream (batchResp res), false)
                end
    end
  else if String.eqb ty "sequence" then
    match resolveSQL s (s_sql r) (s_sqlid r) with
    | Err x => Some (st, s, errStream (hErrorFrom x), false)
    | Ok sqlText => match exec_script d st sqlText with
                    | (st', Err x) => Some (st', s, errStream (engine_hError x), false)
                    | (st', Ok _) => Some (st', s, okStream (simpleResp "sequence"), false)
                    end
    end
  else if String.eqb ty "describe" then
    match resolveSQL s (s_sql r) (s_sqlid r) with
    | Err x => Some (st, s, errStream (hErrorFrom x), false)
    | Ok sqlText => match describeStmt st sqlText with
                    | (st', Err x) => Some (st', s, errStream (engine_hError x), false)
                    | (st', Ok res) => Some (st', s, okStream (describeResp res), false)
                    end
    end
  else if String.eqb ty "store_sql" then
    match s_sqlid r, s_sql r with
    | Some i, Some q =>
        match LookupSQL s i with
        | Some _ => Some (st, s, proto "sql_id already in use", false)
        | None => Some (st, StoreSQL s i q, okStream (simpleResp "store_sql"), false)
        end
    | _, _ => Some (st, s, proto "store_sql requires sql_id and sql", false)
    end
  else if String.eqb ty "close_sql" then
    Some (st, match s_sqlid r with Some i => DropSQL s i | None => s end, okStream (simpleResp "close_sql"), false)
  else if String.eqb ty "get_autocommit" then
    Some (st, s, okStream (getAutocommitResp (autocommit d st)), false)
  else if String.eqb ty "session_start" then
    match startCapture st s (s_tables r) with
    | (st', s', Err x) => Some (st', s', errStream (hErrorFrom x), false)
    | (st', s', Ok _) => Some (st', s', okStream (simpleResp "session_start"), false)
    end
  else if String.eqb ty "session_changeset" then
    match captureChangeset st s with
    | (st', s', Err x) => Some (st', s', errStream (hErrorFrom x), false)
    | (st', s', Ok b) => Some (st', s', okStream (changesetResp (b64_encode StdEncoding b)), false)
    end
  else if String.eqb ty "close" then Some (st, s, okStream (simpleResp "close"), true)
  else Some (st, s, proto ("unknown request type: " +:+ ty), false).

(** The requests of a pipeline in order; after a close the rest answer an error.  The
    session is what teardown will find, also when a request panics ([None]: the database
    state a panic leaves is not tracked). *)
Fixpoint run_requests (st : S) (s : session) (closed : bool) (rs : list streamRequest)
    : session * option (S * list streamResult * bool) :=
  match rs with
  | [] => (s, Some (st, [], closed))
  | r :: rest =>
      if closed then
        match run_requests st s closed rest with
        | (s', Some (st', out, c)) => (s', Some (st', proto "stream is closed" :: out, c))
        | x => x
        end
      else
        match runStreamRequest st s r with
        | None => (s, None)
        | Some (st1, s1, res, close) =>
            match run_requests st1 s1 close rest with
            | (s', Some (st', out, c)) => (s', Some (st', res :: out, c))
            | x => x
            end
        end
  end.

(** ** Batches *)

Definition outcome : Type := hStmtResult + hError.

(** A batch's results so far, one step longer. *)
Definition push (r : hBatchResult) (o : option outcome) : hBatchResult :=
  HBatchResult (step_results r ++ [match o with Some (inl v) => Some v | _ => None end])
               (step_errors r ++ [match o with Some (inr er) => Some er | _ => None end]).

(** One step against the results of the steps before it. *)
Definition run_step (st : S) (s : session) (r : hBatchResult) (step : hBatchStep) : option (S * option outcome) :=
  match condition_holds (condition step) (step_results r) (step_errors r) (autocommit d st) with
  | None => None
  | Some false => Some (st, None)
  | Some true =>
      let '(st', x) := execStmt st s (stmt step) in
      Some (st', Some (match x with Ok v => inl v | Err x => inr (hErrorFrom x) end))
  end.

Lemma batch_loop_app (st : S) s (x : unit) b1 : forall i b2 R E ac, ac = autocommit d st ->
  batch_loop None st s x i (b1 ++ b2) R E ac =
  match batch_loop None st s x i b1 R E ac with
  | None => None
  | Some (st', x', r) =>
      batch_loop None st' s x' (i + length b1) b2 (step_results r) (step_errors r) (autocommit d st')
  end.
Proof.
  revert st. induction b1 as [|step b1 IH]; intros st i b2 R E ac Hac; cbn [app batch_loop length].
  - cbn. by rewrite Hac, Nat.add_0_r.
  - replace (i + Datatypes.S (length b1))%nat with (i + 1 + length b1)%nat by lia.
    destruct (condition_holds _ _ _ _) as [[]|]; [|by apply IH|done].
    destruct (execStmt st s (stmt step)) as [st' r].
    destruct r; cbn [emit_step]; by apply IH.
Qed.

Lemma batch_loop_length (st : S) s (x : unit) b : forall i R E ac st' x' r,
  batch_loop None st s x i b R E ac = Some (st', x', r) ->
  length (step_results r) = length R /\ length (step_errors r) = length E.
Proof.
  revert st. induction b as [|step b IH]; intros st i R E ac st' x' r; cbn [batch_loop].
  - by intros [= <- <- <-].
  - destruct (condition_holds _ _ _ _) as [[]|]; [|by apply IH|done].
    destruct (execStmt st s (stmt step)) as [st1 [v|v]]; cbn [emit_step];
      intros [H1 H2]%IH; by rewrite ?length_insert in *.
Qed.

Lemma batch_loop_pad (st : S) s (x : unit) b k : forall i R E ac,
  (i + length b <= length R)%nat -> (i + length b <= length E)%nat ->
  batch_loop None st s x i b (R ++ replicate k None) (E ++ replicate k None) ac =
  match batch_loop None st s x i b R E ac with
  | None => None
  | Some (st', x', r) =>
      Some (st', x', HBatchResult (step_results r ++ replicate k None) (step_errors r ++ replicate k None))
  end.
Proof.
  revert st. induction b as [|step b IH]; intros st i R E ac HR HE; cbn [batch_loop length] in *; [done|].
  rewrite condition_holds_pad.
  destruct (condition_holds _ _ _ _) as [[]|]; [|apply IH; lia|done].
  destruct (execStmt st s (stmt step)) as [st1 [v|v]]; cbn [emit_step];
    rewrite insert_app_l by lia; apply IH; rewrite ?length_insert; lia.
Qed.

Lemma execBatch_lengths st s b st' r :
  execBatch st s b = Some (st', r) -> length (step_results r) = length b /\ length (step_errors r) = length b.
Proof.
  unfold execBatch, runHranaBatch. destruct (batch_loop _ _ _ _ _ _ _ _ _) as [[[? ?] ?]|] eqn:H; [|done].
  intros [= <- <-]. apply batch_loop_length in H. by rewrite !length_replicate in H.
Qed.

(** The array loop is the step-by-step run: a batch with one more step is the batch, then
    that step against its results alone. *)
Lemma execBatch_snoc st s b step :
  execBatch st s (b ++ [step]) =
  match execBatch st s b with
  | None => None
  | Some (st1, r1) =>
      match run_step st1 s r1 step with
      | None => None
      | Some (st2, o) => Some (st2, push r1 o)
      end
  end.
Proof.
  pose proof (execBatch_lengths st s b) as Hlen.
  unfold execBatch, runHranaBatch in *. rewrite length_app, replicate_add, replicate_add.
  rewrite batch_loop_app by done. rewrite batch_loop_pad by (rewrite length_replicate; lia).
  destruct (batch_loop None st s tt 0 b _ _ _) as [[[st1 u] r1]|]; [|done].
  destruct (Hlen st1 r1 eq_refl) as [HR HE]. cbn [batch_loop length step_results step_errors Nat.add].
  rewrite condition_holds_pad. unfold run_step.
  destruct (condition_holds _ _ _ _) as [[]|]; [|done|done].
  destruct (execStmt st1 s (stmt step)) as [st2 [v|v]]; cbn [emit_step]; unfold push;
    rewrite <- ?HR, <- ?HE at 1; cbn [replicate];
    rewrite ?insert_app_r_alt, ?Nat.sub_diag by lia; cbn; do 2 f_equal.
  all: try (rewrite HR, <- HE); rewrite ?insert_app_r_alt, ?Nat.sub_diag by lia; done.
Qed.

(** ** The cursor streams the batch *)

Definition outcome_entries (i : nat) (o : outcome) : list cursor_entry :=
  match o with
  | inr er => [cursorStepError i er]
  | inl v => cursorStepBegin i (cols v) :: map cursorRow (rows v) ++
             [cursorStepEnd (affected_row_count v) (last_insert_rowid v) (truncated v)]
  end.

(** The entries of a batch result, from step [i] on: none for a skipped step. *)
Fixpoint entries_of (i : nat) (R : list (option hStmtResult)) (E : list (option hError)) : list cursor_entry :=
  match R, E with
  | r :: R', e :: E' =>
      match r, e with
      | Some v, _ => outcome_entries i (inl v)
      | None, Some er => outcome_entries i (inr er)
      | None, None => []
      end ++ entries_of (i + 1) R' E'
  | _, _ => []
  end.

Definition written (w : writer) (es : list cursor_entry) : writer :=
  Writer (lines w ++ take (budget w) es) (budget w - length es).

Lemma write_all_spec es : forall w,
  write_all w es = (written w es, bool_decide (length es <= budget w)%nat).
Proof.
  induction es as [|l es IH]; intros [ls k]; cbn [write_all].
  - unfold written. cbn. by rewrite take_nil, app_nil_r, Nat.sub_0_r.
  - unfold write. destruct k as [|k]; cbn [budget lines].
    + unfold written. cbn. by rewrite app_nil_r.
    + rewrite IH. unfold written. cbn [budget lines length take]. rewrite <- app_assoc. f_equal.
      apply bool_decide_ext. cbn. lia.
Qed.

Lemma write_all_app es1 es2 w :
  write_all w (es1 ++ es2) = match write_all w es1 with (w', true) => write_all w' es2 | (w', false) => (w', false) end.
Proof.
  revert w. induction es1 as [|l es IH]; intros w; [done|]. cbn [app write_all].
  destruct (write w l) as [w' []]; [apply IH|done].
Qed.

Lemma cursor_emit_spec w i o :
  cursor_emit w i o = (written w (outcome_entries i o), bool_decide (length (outcome_entries i o) <= budget w)%nat).
Proof.
  rewrite <- write_all_spec. destruct o as [v|er]; cbn [cursor_emit outcome_entries].
  - cbn [write_all]. destruct (write w _) as [w1 []]; [|done]. rewrite write_all_app.
    destruct (write_all w1 _) as [w2 []]; [|done]. cbn [write_all]. by destruct (write w2 _) as [w3 []].
  - cbn [write_all]. by destruct (write w _) as [w3 []].
Qed.

Lemma written_app w es1 es2 : (length es1 <= budget w)%nat -> written (written w es1) es2 = written w (es1 ++ es2).
Proof.
  intros H. unfold written. cbn [lines budget]. f_equal; [|rewrite length_app; lia].
  rewrite take_app, (take_ge es1), <- app_assoc by lia. done.
Qed.
Lemma written_short w es1 es2 : (budget w < length es1)%nat -> written w es1 = written w (es1 ++ es2).
Proof.
  intros H. unfold written. f_equal; [|rewrite length_app; lia].
  rewrite take_app. by replace (budget w - length es1)%nat with 0%nat by lia; rewrite take_0, app_nil_r.
Qed.

Lemma batch_loop_prefix (st : S) s (x : unit) b : forall i R E ac st' x' r j,
  batch_loop None st s x i b R E ac = Some (st', x', r) -> (j < i)%nat ->
  step_results r !! j = R !! j /\ step_errors r !! j = E !! j.
Proof.
  revert st. induction b as [|step b IH]; intros st i R E ac st' x' r j; cbn [batch_loop].
  - by intros [= <- <- <-].
  - intros H Hj. destruct (condition_holds _ _ _ _) as [[]|]; [|eapply IH in H; [done|lia]|done].
    destruct (execStmt st s (stmt step)) as [st1 [v|v]]; cbn [emit_step] in H;
      eapply IH in H as [-> ->]; try lia; by rewrite list_lookup_insert_ne by lia.
Qed.

Lemma entries_drop i R E j r er :
  R !! j = Some r -> E !! j = Some er ->
  entries_of i (drop j R) (drop j E) =
  match r, er with
  | Some v, _ => outcome_entries i (inl v)
  | None, Some er => outcome_entries i (inr er)
  | None, None => []
  end ++ entries_of (i + 1) (drop (j + 1) R) (drop (j + 1) E).
Proof.
  intros HR HE. rewrite (drop_S R r j), (drop_S E er j) by done. cbn [entries_of]. by rewrite !(Nat.add_1_r j).
Qed.

(** Everything from position [i] on is still empty. *)
Definition fresh_from {A} (i : nat) (l : list (option A)) : Prop :=
  forall j, (i <= j < length l)%nat -> l !! j = Some None.

Lemma fresh_insert {A} i (l : list (option A)) v : fresh_from i l -> fresh_from (i + 1) (<[i := v]> l).
Proof. intros H j. rewrite length_insert. intros Hj. rewrite list_lookup_insert_ne by lia. apply H. lia. Qed.
Lemma fresh_next {A} i (l : list (option A)) : fresh_from i l -> fresh_from (i + 1) l.
Proof. intros H j Hj. apply H. lia. Qed.

Lemma cursor_loop (st : S) s b : forall i R E ac w st' x' r,
  length R = (i + length b)%nat -> length E = (i + length b)%nat -> fresh_from i R -> fresh_from i E ->
  batch_loop None st s tt i b R E ac = Some (st', x', r) ->
  exists st'' r'',
    batch_loop (Some cursor_emit) st s w i b R E ac =
      Some (st'', written w (entries_of i (drop i (step_results r)) (drop i (step_errors r))), r'') /\
    ((length (entries_of i (drop i (step_results r)) (drop i (step_errors r))) <= budget w)%nat -> st'' = st').
Proof.
  revert st. induction b as [|step b IH]; intros st i R E ac w st' x' r HR HE FR FE;
    cbn [batch_loop length] in *.
  - intros [= <- <- <-]. exists st, (HBatchResult R E). cbn [step_results step_errors].
    rewrite !drop_ge by lia. cbn. split; [|done]. destruct w. unfold written. cbn.
    by rewrite take_nil, app_nil_r, Nat.sub_0_r.
  - assert (Hpre : forall o R1 E1 st1, batch_loop None st1 s tt (i + 1) b R1 E1 (autocommit d st1) = Some (st', x', r) ->
      length R1 = length R -> length E1 = length E -> fresh_from (i + 1) R1 -> fresh_from (i + 1) E1 ->
      R1 !! i = Some (match o with inl v => Some v | inr _ => None end) ->
      E1 !! i = Some (match o with inl _ => None | inr er => Some er end) ->
      let es := entries_of i (drop i (step_results r)) (drop i (step_errors r)) in
      exists st'' r'',
      (if bool_decide (length (outcome_entries i o) <= budget w)%nat
       then batch_loop (Some cursor_emit) st1 s (written w (outcome_entries i o)) (i + 1) b R1 E1 (autocommit d st1)
       else Some (st1, written w (outcome_entries i o), HBatchResult R1 E1)) =
        Some (st'', written w es, r'') /\ ((length es <= budget w)%nat -> st'' = st')).
    { intros o R1 E1 st1 Hl HR1 HE1 FR1 FE1 Hr He es.
      assert (Hes : es = outcome_entries i o ++ entries_of (i + 1) (drop (i + 1) (step_results r)) (drop (i + 1) (step_errors r))).
      { destruct (batch_loop_prefix _ _ _ _ _ _ _ _ _ _ _ i Hl ltac:(lia)) as [H1 H2].
        rewrite Hr in H1. rewrite He in H2. unfold es. rewrite (entries_drop i _ _ _ _ _ H1 H2). by destruct o. }
      rewrite Hes, length_app. case_bool_decide as Hb.
      - destruct (IH st1 (i + 1)%nat R1 E1 (autocommit d st1) (written w (outcome_entries i o)) st' x' r)
          as (st'' & r'' & Hrun & Hst); [lia|lia|done|done|done|].
        exists st'', r''. rewrite Hrun, written_app by done. split; [done|]. intros Hle. apply Hst. cbn. lia.
      - exists st1, (HBatchResult R1 E1). split; [|lia]. by rewrite <- written_short by lia. }
    destruct (condition_holds _ _ _ _) as [[]|] eqn:Hc; [| |done].
    + destruct (execStmt st s (stmt step)) as [st1 x]. destruct x as [v|v]; cbn [emit_step]; intros Hl;
        rewrite cursor_emit_spec.
      * apply (Hpre (inl v)); rewrite ?length_insert; try done; try (by apply fresh_insert); try (by apply fresh_next).
        -- by rewrite list_lookup_insert_eq by lia.
        -- apply FE. lia.
      * apply (Hpre (inr (hErrorFrom v))); rewrite ?length_insert; try done; try (by apply fresh_insert); try (by apply fresh_next).
        -- apply FR. lia.
        -- by rewrite list_lookup_insert_eq by lia.
    + intros Hl. destruct (batch_loop_prefix _ _ _ _ _ _ _ _ _ _ _ i Hl ltac:(lia)) as [H1 H2].
      rewrite FR in H1 by lia. rewrite FE in H2 by lia. rewrite (entries_drop i _ _ _ _ _ H1 H2). cbn [app].
      eapply IH; try done; try lia; by apply fresh_next.
Qed.

(** C16: (cursor/pipeline equivalence) The cursor endpoint streams exactly what the [batch]
    request of the pipeline returns: for a client that reads [n] lines, the lines written
    are the first [n] entries of the batch result (a begin, the rows and an end for a step
    that succeeded, a [step_error] for one that failed, nothing for a skipped one), and if
    that is all of them the database ends in the state the batch leaves. *)
Theorem cursor_streams_batch st s b st' r n :
  execBatch st s b = Some (st', r) ->
  exists st'' w,
    cursor_batch st s (Writer [] n) b = Some (st'', w) /\
    lines w = take n (entries_of 0 (step_results r) (step_errors r)) /\
    ((length (entries_of 0 (step_results r) (step_errors r)) <= n)%nat -> st'' = st').
Proof.
  unfold execBatch, cursor_batch, runHranaBatch. intros H.
  destruct (batch_loop None _ _ _ _ _ _ _ _) as [[[st1 x1] r1]|] eqn:Hl; [|done]. injection H as <- <-.
  eapply (cursor_loop _ _ _ 0 _ _ _ (Writer [] n)) in Hl as (st'' & r'' & -> & Hst);
    rewrite ?length_replicate; try done.
  - eexists _, _. split; [done|]. split; [done|exact Hst].
  - intros j. rewrite length_replicate. intros Hj. by rewrite lookup_replicate_2 by lia.
  - intros j. rewrite length_replicate. intros Hj. by rewrite lookup_replicate_2 by lia.
Qed.

(** (equivalence with the step-by-step reading) The batch loop over its preallocated
    arrays is the recursive definition one would write: one more step is the batch
    without it, then the step run (or skipped, or failing) on the state it left, with its
    condition evaluated against the results of the steps before it alone, so that a
    reference to a step that has not run yet is false; a panic stays a panic. *)
Theorem batch_is_stepwise st s b step :
  execBatch st s (b ++ [step]) =
  match execBatch st s b with
  | None => None
  | Some (st1, r1) =>
      match run_step st1 s r1 step with
      | None => None
      | Some (st2, o) => Some (st2, push r1 o)
      end
  end.
Proof. apply execBatch_snoc. Qed.

Definition well_stepped (b : hBatch) : bool :=
  forallb (fun step => match condition step with Some c => nonneg_steps c | None => true end) b.

(** C33: (termination without panic) A batch whose conditions name no negative step runs to
    completion: one slot per step in both result arrays, and no step has both a result and
    an error. *)
Theorem batch_completes st s b :
  well_stepped b = true ->
  exists st' r, execBatch st s b = Some (st', r) /\
    length (step_results r) = length b /\ length (step_errors r) = length b /\
    forall i v er, step_results r !! i = Some (Some v) -> step_errors r !! i = Some (Some er) -> False.
Proof.
  unfold well_stepped. induction b as [|step b IH] using rev_ind.
  - intros _. by exists st, (HBatchResult [] []).
  - rewrite forallb_app, andb_true_iff. intros [Hb Hs]. cbn in Hs. rewrite andb_true_r in Hs.
    destruct (IH Hb) as (st1 & r1 & Hrun & HR & HE & Hx). rewrite execBatch_snoc, Hrun.
    assert (Hc : is_Some (run_step st1 s r1 step)).
    { unfold run_step. destruct (condition step) as [c|]; cbn [condition_holds].
      - destruct (evalCond_total c (step_results r1) (step_errors r1) (autocommit d st1) Hs) as [[] ->].
        + by destruct (execStmt st1 s (stmt step)).
        + by eexists.
      - by destruct (execStmt st1 s (stmt step)). }
    destruct Hc as [[st2 o] ->]. exists st2, (push r1 o). split; [done|]. unfold push. cbn [step_results step_errors].
    rewrite !length_app. cbn [length]. split; [lia|]. split; [lia|].
    intros i v er [H1|[? H1]]%lookup_app_Some [H2|[? H2]]%lookup_app_Some; [by eapply Hx| | |].
    + apply lookup_lt_Some in H1. lia.
    + apply lookup_lt_Some in H2. lia.
    + apply list_lookup_singleton_Some in H1 as [_ H1]. apply list_lookup_singleton_Some in H2 as [_ H2].
      by destruct o as [[]|].
Qed.

(** A negative step index passes the upper bound check and is then out of range: in Go,
    a panic of the request's goroutine. *)
Lemma negative_step_panics st s q b :
  execBatch st s (HStep (Some (Cond "ok" (Some (-1)) None [])) q :: b) = None.
Proof. done. Qed.

(** ** The session a request may change *)

(** What a request leaves alone: everything but the stored SQL and the capture. *)
Definition same_stream (s s' : session) : Prop :=
  id s' = id s /\ gen s' = gen s /\ conn s' = conn s /\ release s' = release s /\ dbName s' = dbName s /\
  principal s' = principal s /\ readOnly s' = readOnly s /\ attach s' = attach s /\
  created s' = created s /\ lastUsed s' = lastUsed s /\ busy s' = busy s.

Lemma runStreamRequest_stream st s r st' s' res c :
  runStreamRequest st s r = Some (st', s', res, c) -> same_stream s s'.
Proof.
  intros H. assert (Hs : s' = s \/ (exists i q, s' = StoreSQL s i q) \/ (exists i, s' = DropSQL s i) \/
    exists o, s' = SetCapture s o).
  { revert H. unfold runStreamRequest, startCapture, captureChangeset. cbn [TakeCapture].
    repeat case_match; simplify_eq/=; intros; simplify_eq/=; eauto 8. }
  by destruct Hs as [->|[(?&?&->)|[(?&->)|(?&->)]]].
Qed.

Lemma run_requests_stream rs : forall st s closed, same_stream s (run_requests st s closed rs).1.
Proof.
  induction rs as [|r rs IH]; intros st s closed; cbn [run_requests]; [done|]. destruct closed.
  - specialize (IH st s true). destruct (run_requests st s true rs) as [s' [[[]]|]]; exact IH.
  - destruct (runStreamRequest st s r) as [[[[st1 s1] res] c]|] eqn:E; [|done].
    apply runStreamRequest_stream in E. specialize (IH st1 s1 c).
    destruct (run_requests st1 s1 c rs) as [s' [[[]]|]]; cbn [fst] in *; unfold same_stream in *; naive_solver congruence.
Qed.

(** ** What the connection keeps, a stream keeps *)

Section Keeps.
Context (P : S -> Prop).

(** [P] of the database's state survives every operation of the connection. *)
Record conn_keeps : Prop := {
  ck_stmt : queryer_keeps (cq d) P;
  ck_script : forall st q, P st -> P (exec_script d st q).1;
  ck_prepare : forall st q, P st -> P (prepare d st q).1;
  ck_create : forall st, P st -> P (create_session d st).1;
  ck_attach : forall st c t, P st -> P (attach_table d st c t).1;
  ck_changeset : forall st c, P st -> P (changeset d st c).1;
  ck_close : forall st c, P st -> P (close_session d st c)
}.

Lemma execStmt_keeps st s h : queryer_keeps (cq d) P -> P st -> P (execStmt st s h).1.
Proof.
  intros Hk Hp. unfold execStmt. destruct (resolveSQL _ _ _) as [q|]; [|done].
  pose proof (Run_keeps e (cq d) P Hk st (stmtFromHrana q h (attach s)) Hp) as H. by destruct (Run _ _ _ _) as [st' []].
Qed.

Lemma batch_loop_keeps {X} (emit : option (X -> nat -> hStmtResult + hError -> X * bool)) s b : queryer_keeps (cq d) P ->
  forall st x i R E ac st' x' r, P st -> batch_loop emit st s x i b R E ac = Some (st', x', r) -> P st'.
Proof.
  intros Hk. induction b as [|step b IH]; intros st x i R E ac st' x' r Hp; cbn [batch_loop]; [by intros [= <- <- <-]|].
  destruct (condition_holds _ _ _ _) as [[]|]; [|by apply IH|done].
  pose proof (execStmt_keeps st s (stmt step) Hk Hp) as H. destruct (execStmt st s (stmt step)) as [st1 v]. cbn [fst] in H.
  destruct (match v with Ok _ => _ | Err _ => _ end) as [[R1 E1] o].
  destruct (emit_step emit x i o) as [x1 []]; [by apply IH|by intros [= <- <- <-]].
Qed.

Lemma attach_tables_keeps c ts : conn_keeps -> forall st, P st -> P (attach_tables st c ts).1.
Proof.
  intros Hk. induction ts as [|t ts IH]; intros st Hp; cbn [attach_tables]; [done|].
  pose proof (ck_attach Hk st c t Hp) as H. destruct (attach_table d st c t) as [st1 [u|x]]; cbn [fst] in *; [by apply IH|by apply (ck_close Hk)].
Qed.

Lemma request_keeps st s r st' s' res c : conn_keeps -> P st -> runStreamRequest st s r = Some (st', s', res, c) -> P st'.
Proof.
  intros Hk Hp. unfold runStreamRequest. cbv zeta. pose proof (ck_stmt Hk) as Hs.
  destruct (String.eqb (s_type r) "execute").
  { destruct (s_stmt r) as [h|]; [|by intros [= <- <- <- <-]].
    pose proof (execStmt_keeps st s h Hs Hp) as H. by destruct (execStmt st s h) as [st1 [v|v]]; intros [= <- <- <- <-]. }
  destruct (String.eqb (s_type r) "batch").
  { destruct (s_batch r) as [b|]; [|by intros [= <- <- <- <-]]. unfold execBatch, runHranaBatch.
    destruct (batch_loop None _ _ _ _ _ _ _ _) as [[[st1 x] rr]|] eqn:E; [|done].
    intros [= <- <- <- <-]. by eapply batch_loop_keeps. }
  destruct (String.eqb (s_type r) "sequence").
  { destruct (resolveSQL _ _ _) as [q|]; [|by intros [= <- <- <- <-]].
    pose proof (ck_script Hk st q Hp) as H. by destruct (exec_script d st q) as [st1 [v|v]]; intros [= <- <- <- <-]. }
  destruct (String.eqb (s_type r) "describe").
  { destruct (resolveSQL _ _ _) as [q|]; [|by intros [= <- <- <- <-]]. unfold describeStmt.
    pose proof (ck_prepare Hk st q Hp) as H. by destruct (prepare d st q) as [st1 [v|v]]; intros [= <- <- <- <-]. }
  destruct (String.eqb (s_type r) "store_sql").
  { destruct (s_sqlid r), (s_sql r); [destruct (LookupSQL _ _)|..]; by intros [= <- <- <- <-]. }
  destruct (String.eqb (s_type r) "close_sql"); [by intros [= <- <- <- <-]|].
  destruct (String.eqb (s_type r) "get_autocommit"); [by intros [= <- <- <- <-]|].
  destruct (String.eqb (s_type r) "session_start").
  { unfold startCapture. destruct (capture s); [by intros [= <- <- <- <-]|].
    pose proof (ck_create Hk st Hp) as H. destruct (create_session d st) as [st1 [c0|x]]; cbn [fst] in H; [|by intros [= <- <- <- <-]].
    pose proof (attach_tables_keeps c0 (match s_tables r with [] => [""%string] | _ => s_tables r end) Hk st1 H) as Ha.
    destruct (attach_tables _ _ _) as [st2 [u|x]]; by intros [= <- <- <- <-]. }
  destruct (String.eqb (s_type r) "session_changeset").
  { unfold captureChangeset. destruct (TakeCapture s) as [s1 [c0|]]; [|by intros [= <- <- <- <-]].
    pose proof (ck_changeset Hk st c0 Hp) as H. destruct (changeset d st c0) as [st1 [b|x]]; cbn [fst] in H;
      intros [= <- <- <- <-]; by apply (ck_close Hk). }
  destruct (String.eqb (s_type r) "close"); by intros [= <- <- <- <-].
Qed.

Lemma run_requests_keeps rs : conn_keeps -> forall st s closed s' st' out c, P st ->
  run_requests st s closed rs = (s', Some (st', out, c)) -> P st'.
Proof.
  intros Hk. induction rs as [|r rs IH]; intros st s closed s' st' out c Hp; cbn [run_requests]; [by intros [= <- <- <- <-]|].
  destruct closed.
  - destruct (run_requests st s true rs) as [s1 [[[st1 out1] c1]|]] eqn:E; [|done]. intros [= <- <- <- <-]. by eapply IH.
  - destruct (runStreamRequest st s r) as [[[[st1 s1] res] c1]|] eqn:E1; [|done].
    destruct (run_requests st1 s1 c1 rs) as [s2 [[[st2 out2] c2]|]] eqn:E2; [|done].
    intros [= <- <- <- <-]. eapply IH; [|exact E2]. by eapply request_keeps.
Qed.

Lemma cursor_batch_keeps st s w b st' w' : conn_keeps -> P st -> cursor_batch st s w b = Some (st', w') -> P st'.
Proof.
  intros Hk Hp. unfold cursor_batch, runHranaBatch. destruct (batch_loop _ _ _ _ _ _ _ _ _) as [[[st1 w1] r]|] eqn:E; [|done].
  intros [= <- <-]. eapply batch_loop_keeps; [apply Hk|exact Hp|exact E].
Qed.
End Keeps.

(** ** Capture sessions *)

Definition cap_set (s : session) : gset nat := match capture s with Some c => {[c]} | None => ∅ end.

(** The driver's bookkeeping of open SQLite sessions on the pinned connection. *)
Record capture_driver (opened : S -> gset nat) : Prop := {
  cd_create : forall st, let '(st', r) := create_session d st in
    match r with
    | Ok c => c ∉ opened st /\ opened st' = {[c]} ∪ opened st
    | Err _ => opened st' = opened st
    end;
  cd_attach : forall st c t, opened (attach_table d st c t).1 = opened st;
  cd_changeset : forall st c, opened (changeset d st c).1 = opened st;
  cd_close : forall st c, opened (close_session d st c) = opened st ∖ {[c]};
  cd_prepare : forall st q, opened (prepare d st q).1 = opened st;
  cd_script : forall st q, opened (exec_script d st q).1 = opened st;
  cd_query : forall st q a, opened (QueryContext (cq d) st q a).1 = opened st;
  cd_exec : forall st q a, opened (ExecContext (cq d) st q a).1 = opened st
}.

Section Captures.
Variable opened : S -> gset nat.
Hypothesis drv : capture_driver opened.

Lemma opened_stmts o : queryer_keeps (cq d) (fun st => opened st = o).
Proof using drv. split; intros st sql a <-; [apply (cd_query _ drv)|apply (cd_exec _ drv)]. Qed.
Lemma opened_execStmt st s h : opened (execStmt st s h).1 = opened st.
Proof using drv. by apply (execStmt_keeps (fun x => opened x = opened st)), eq_refl; first apply opened_stmts. Qed.

Lemma opened_attach_tables c ts : forall st,
  let '(st', r) := attach_tables st c ts in
  opened st' = match r with Ok _ => opened st | Err _ => opened st ∖ {[c]} end.
Proof using drv.
  induction ts as [|t ts IH]; intros st; cbn [attach_tables]; [done|].
  pose proof (cd_attach _ drv st c t) as H. destruct (attach_table d st c t) as [st' [?|?]]; cbn [fst] in H.
  - rewrite <- H. apply IH.
  - by rewrite (cd_close _ drv), H.
Qed.

Lemma opened_request st s r st' s' res c :
  opened st = cap_set s -> runStreamRequest st s r = Some (st', s', res, c) -> opened st' = cap_set s'.
Proof using drv.
  intros Hc. unfold runStreamRequest. cbv zeta.
  destruct (String.eqb (s_type r) "execute").
  { destruct (s_stmt r) as [h|]; [|by intros [= <- <- <- <-]].
    pose proof (opened_execStmt st s h) as H. destruct (execStmt st s h) as [st1 [v|v]]; intros [= <- <- <- <-]; by rewrite <- Hc. }
  destruct (String.eqb (s_type r) "batch").
  { destruct (s_batch r) as [b|]; [|by intros [= <- <- <- <-]]. unfold execBatch, runHranaBatch.
    destruct (batch_loop None _ _ _ _ _ _ _ _) as [[[st1 x] rr]|] eqn:E; [|done].
    intros [= <- <- <- <-]. apply (batch_loop_keeps (fun x => opened x = opened st)) in E; [by rewrite E|apply opened_stmts|done]. }
  destruct (String.eqb (s_type r) "sequence").
  { destruct (resolveSQL _ _ _) as [q|]; [|by intros [= <- <- <- <-]].
    pose proof (cd_script _ drv st q) as H. destruct (exec_script d st q) as [st1 [v|v]]; intros [= <- <- <- <-]; by rewrite <- Hc. }
  destruct (String.eqb (s_type r) "describe").
  { destruct (resolveSQL _ _ _) as [q|]; [|by intros [= <- <- <- <-]]. unfold describeStmt.
    pose proof (cd_prepare _ drv st q) as H. destruct (prepare d st q) as [st1 [v|v]]; intros [= <- <- <- <-]; by rewrite <- Hc. }
  destruct (String.eqb (s_type r) "store_sql").
  { destruct (s_sqlid r), (s_sql r); [destruct (LookupSQL _ _)|..]; by intros [= <- <- <- <-]. }
  destruct (String.eqb (s_type r) "close_sql").
  { destruct (s_sqlid r); by intros [= <- <- <- <-]. }
  destruct (String.eqb (s_type r) "get_autocommit"); [by intros [= <- <- <- <-]|].
  destruct (String.eqb (s_type r) "session_start").
  { unfold startCapture, cap_set in *. destruct (capture s) as [c0|] eqn:Hcap.
    { intros [= <- <- <- <-]. by rewrite Hcap. }
    pose proof (cd_create _ drv st) as H. destruct (create_session d st) as [st1 [c0|?]].
    - destruct H as [Hn H].
      pose proof (opened_attach_tables c0 (match s_tables r with [] => [""%string] | _ => s_tables r end) st1) as Ha.
      destruct (attach_tables _ _ _) as [st2 [?|?]]; intros [= <- <- <- <-]; cbn [SetCapture capture]; rewrite Ha, H, Hc.
      + set_solver.
      + rewrite Hcap. set_solver.
    - intros [= <- <- <- <-]. by rewrite Hcap, H. }
  destruct (String.eqb (s_type r) "session_changeset").
  { unfold captureChangeset, TakeCapture, cap_set in *. destruct (capture s) as [c0|].
    - pose proof (cd_changeset _ drv st c0) as H. destruct (changeset d st c0) as [st1 [?|?]]; cbn [fst] in H;
        intros [= <- <- <- <-]; cbn [SetCapture capture]; rewrite (cd_close _ drv), H, Hc; set_solver.
    - by intros [= <- <- <- <-]. }
  destruct (String.eqb (s_type r) "close"); by intros [= <- <- <- <-].
Qed.

(** (resource safety) Whatever requests a stream runs, the SQLite sessions open on its
    connection are exactly the one the stream still holds: [session_start] that fails
    half way leaves none, [session_changeset] closes the one it reads, and closing what
    the session holds when it is torn down leaves none.  No request can touch the
    stream's identity, mode or counters. *)
Theorem captures_never_leak st s closed rs s' st' out c :
  opened st = cap_set s ->
  run_requests st s closed rs = (s', Some (st', out, c)) ->
  opened st' = cap_set s' /\
  opened (match capture s' with Some x => close_session d st' x | None => st' end) = ∅ /\
  length out = length rs /\ same_stream s s'.
Proof using drv.
  intros H0 Hrun. pose proof (run_requests_stream rs st s closed) as Hss. rewrite Hrun in Hss. cbn [fst] in Hss.
  assert (H : opened st' = cap_set s' /\ length out = length rs).
  { clear Hss. revert st s closed out H0 Hrun.
    induction rs as [|r rs IH]; intros st s closed out H0; cbn [run_requests].
    - by intros [= <- <- <- <-].
    - destruct closed.
      + destruct (run_requests st s true rs) as [s1 [[[st1 out1] c1]|]] eqn:E; [|done].
        intros [= <- <- <- <-]. destruct (IH _ _ _ _ H0 E) as [? Hlen]. split; [done|]. cbn. by rewrite Hlen.
      + destruct (runStreamRequest st s r) as [[[[st1 s1] res] c1]|] eqn:E1; [|done].
        destruct (run_requests st1 s1 c1 rs) as [s2 [[[st2 out2] c2]|]] eqn:E2; [|done].
        intros [= <- <- <- <-]. eapply opened_request in E1; [|done].
        destruct (IH _ _ _ _ E1 E2) as [? Hlen]. split; [done|]. cbn. by rewrite Hlen. }
  destruct H as [H Hlen]. split; [done|]. split; [|done].
  unfold cap_set in H. destruct (capture s') as [x|]; [|done]. rewrite (cd_close _ drv), H. set_solver.
Qed.
End Captures.

End Exec.

(** ** A concrete connection for the witnesses *)

Import DemoFloat.

(** It logs the statements, fails on "bad" and keeps the set of open SQLite sessions. *)
Record demo := Demo { log : list string; caps : gset nat }.
Definition demo_conn : Conn demo :=
  {| cq := {| QueryContext := fun st q _ => (Demo (log st ++ [q]) (caps st), Ok (RowSet ["a"%string] [Ok [GInt 1]] None));
              ExecContext := fun st q _ =>
                if String.eqb q "bad" then (st, Err (ErrSqlite 19 2067 "UNIQUE constraint failed"))
                else (Demo (log st ++ [q]) (caps st), Ok (1, 7)) |};
     autocommit := fun _ => true;
     exec_script := fun st q => (Demo (log st ++ [q]) (caps st), Ok tt);
     prepare := fun st q => (st, Ok (Prepared [] [] true));
     create_session := fun st => let c := fresh (caps st) in (Demo (log st) ({[c]} ∪ caps st), Ok c);
     attach_table := fun st _ t => (st, if String.eqb t "missing" then Err (ErrOther "no table") else Ok tt);
     changeset := fun st _ => (st, Ok []);
     close_session := fun st c => Demo (log st) (caps st ∖ {[c]}) |}.

Definition demo_session : session := Session [] 1 0 true "db" "p" false false 0 0 true ∅ None.
Definition demo_stmt (q : string) : hStmt := HStmt (Some q) None [] [] None.
(** SELECT; a failing step; one that runs because it failed; one skipped. *)
Definition demo_batch : hBatch :=
  [HStep None (demo_stmt "SELECT 1"); HStep None (demo_stmt "bad");
   HStep (Some (Cond "and" None None [Cond "ok" (Some 0) None []; Cond "error" (Some 1) None []])) (demo_stmt "INSERT");
   HStep (Some (Cond "ok" (Some 1) None [])) (demo_stmt "DELETE")]%string.

Lemma cursor_streams_batch_witness :
  exists st' r, execBatch (NewEngine 0 0) demo_conn (Demo [] ∅) demo_session demo_batch = Some (st', r) /\
    log st' = ["SELECT 1"; "INSERT"]%string /\
    exists st'' w, cursor_batch (NewEngine 0 0) demo_conn (Demo [] ∅) demo_session (Writer [] 4) demo_batch = Some (st'', w) /\
      lines w = [cursorStepBegin 0 [HCol (Some "a"%string) None]; cursorRow [VInt 1]; cursorStepEnd 0 None false;
                 cursorStepError 1 (HError "UNIQUE constraint failed" (Some "SQLITE_CONSTRAINT_UNIQUE"%string))].
Proof.
  destruct (execBatch (NewEngine 0 0) demo_conn (Demo [] ∅) demo_session demo_batch) as [[st' r]|] eqn:E;
    [|vm_compute in E; discriminate E].
  exists st', r. split; [reflexivity|].
  destruct (cursor_streams_batch (NewEngine 0 0) demo_conn _ _ _ _ _ 4 E) as (st'' & w & Hc & Hl & _).
  vm_compute in E. injection E as <- <-. split; [reflexivity|].
  exists st'', w. split; [exact Hc|]. rewrite Hl. reflexivity.
Defined.

Lemma batch_completes_witness :
  well_stepped demo_batch = true /\
  exists st' r, execBatch (NewEngine 0 0) demo_conn (Demo [] ∅) demo_session demo_batch = Some (st', r) /\
    length (step_results r) = 4%nat.
Proof.
  split; [reflexivity|].
  destruct (batch_completes (NewEngine 0 0) demo_conn (Demo [] ∅) demo_session demo_batch eq_refl)
    as (st' & r & H & Hl & _).
  exists st', r. split; [exact H|exact Hl].
Defined.

Lemma demo_capture_driver : capture_driver demo_conn caps.
Proof.
  constructor; try done.
  - intros st. cbn. split; [apply is_fresh|done].
  - intros st q a. cbn. by destruct (String.eqb q "bad").
Qed.

Definition demo_requests : list streamRequest :=
  [StreamRequest "session_start" None None None None ["t"; "missing"];
   StreamRequest "session_start" None None None None [];
   StreamRequest "execute" (Some (demo_stmt "INSERT")) None None None [];
   StreamRequest "close" None None None None [];
   StreamRequest "execute" (Some (demo_stmt "INSERT")) None None None []]%string.

Lemma captures_never_leak_witness :
  exists s' st' out c,
    run_requests (NewEngine 0 0) demo_conn (Demo [] ∅) demo_session false demo_requests = (s', Some (st', out, c)) /\
    c = true /\ length out = 5%nat /\ is_Some (capture s') /\ log st' = ["INSERT"%string] /\ caps st' = cap_set s'.
Proof.
  destruct (run_requests (NewEngine 0 0) demo_conn (Demo [] ∅) demo_session false demo_requests)
    as [s' [[[st' out] c]|]] eqn:E; [|vm_compute in E; discriminate E].
  exists s', st', out, c.
  destruct (captures_never_leak (NewEngine 0 0) demo_conn caps demo_capture_driver (Demo [] ∅) demo_session
    false demo_requests s' st' out c eq_refl E) as (Hcap & _ & Hlen & _).
  split; [reflexivity|]. vm_compute in E. injection E as <- <- <- <-.
  split; [reflexivity|]. split; [exact Hlen|]. split; [eexists; reflexivity|]. split; [reflexivity|exact Hcap].
Defined.

(** The masking of a failed [sequence] request: the driver's error is not converted to the
    server's typed error on this path, so its message and code never reach the client,
    while [execute] reports them. *)
Lemma sequence_masks_sqlite_errors code ext msg :
  engine_hError (ErrSqlite code ext msg) = HError "internal error" None /\
  engine_hError (wrap (ErrSqlite code ext msg)) = HError msg (Some (ExtendedCodeName ext)).
Proof. done. Qed.
