(* ===== verification/Sqlite.v ===== *)
(** * SQLite, as far as the server relies on it

    The driver is not part of the repository.  What it does is a parameter everywhere: any
    operations that keep to [drives] (a statement runs only if the authorizer of the
    connection it is compiled on accepted each of its actions, [Backend.v]; beginning,
    ending and observing a transaction runs no statement), whatever they answer, wherever
    they fail and whatever a statement does to the database.  [sqlite_laws] is what the
    documentation promises of the statements that only read.  A small driver at the end
    satisfies both, for the witnesses. *)
From S2P Require Import Prelude GoStd Wire Engine Backend Session Hrana.

(** The compiler, and what the library may do to a database: running a statement, to its end
    or until it fails, and the operations that compile nothing (begin, commit, rollback, the
    session extension). *)
Record sqlite (S : Type) := Sqlite {
  compile : string -> list (list action);                (* the statements of a text, the actions of each *)
  effect : S -> list action -> S -> Prop;
  beside : S -> S -> Prop
}.
Arguments compile {S}. Arguments effect {S}. Arguments beside {S}.

Section Driver.
Context {S : Type} (pragma_on : string -> bool) (lib : sqlite S).

(** What running a text can leave: its statements are compiled on the connection as it then
    is, one after the other, until one is refused or fails, or the driver stops. *)
Inductive ran : S * pconn -> list (list action) -> S * pconn -> Prop :=
| ran_stop x l : ran x l x
| ran_refused x s l c e : exec pragma_on x.2 s = (c, Err e) -> ran x (s :: l) (x.1, c)
| ran_failed x s l c s' : exec pragma_on x.2 s = (c, Ok tt) -> effect lib x.1 s s' -> ran x (s :: l) (s', x.2)
| ran_on x s l c s' y : exec pragma_on x.2 s = (c, Ok tt) -> effect lib x.1 s s' -> ran (s', c) l y -> ran x (s :: l) y.

(** An operation that compiles nothing leaves the connection's mode alone. *)
Definition besides (x y : S * pconn) : Prop := beside lib x.1 y.1 /\ y.2 = x.2.

Record drives_q (q : Queryer (S * pconn)) : Prop := {
  dq_query : forall x sql a, ran x (compile lib sql) (QueryContext q x sql a).1;
  dq_exec : forall x sql a, ran x (compile lib sql) (ExecContext q x sql a).1
}.
Record drives_tx (b : TxBeginner (S * pconn)) : Prop := {
  dt_q : drives_q (TxQueryer b);
  dt_begin : forall x, besides x (BeginTx b x).1;
  dt_commit : forall x, besides x (Commit b x).1;
  dt_rollback : forall x, besides x (Rollback b x)
}.
(** [Prepare] compiles and runs nothing. *)
Record drives (d : Conn (S * pconn)) : Prop := {
  dc_q : drives_q (cq d);
  dc_script : forall x sql, ran x (compile lib sql) (exec_script d x sql).1;
  dc_prepare : forall x sql, (prepare d x sql).1 = x;
  dc_create : forall x, besides x (create_session d x).1;
  dc_attach : forall x c t, besides x (attach_table d x c t).1;
  dc_changeset : forall x c, besides x (changeset d x c).1;
  dc_close : forall x c, besides x (close_session d x c)
}.

(** ** What survives on a connection *)

Record survives (P : S * pconn -> Prop) : Prop := {
  su_refused : forall x s c e, P x -> exec pragma_on x.2 s = (c, Err e) -> P (x.1, c);
  su_stmt : forall sql s x c s', s ∈ compile lib sql -> P x -> exec pragma_on x.2 s = (c, Ok tt) -> effect lib x.1 s s' ->
    P (s', c) /\ P (s', x.2);
  su_beside : forall x y, P x -> besides x y -> P y
}.

Section Survives.
Variable P : S * pconn -> Prop.
Hypothesis HP : survives P.

Lemma ran_keeps sql x y : P x -> ran x (compile lib sql) y -> P y.
Proof using HP.
  assert (H : forall l x y, ran x l y -> (forall s, s ∈ l -> s ∈ compile lib sql) -> P x -> P y); [|intros Hx Hr; by eapply H].
  clear x y. induction 1 as [x l|x s l c e E|x s l c s' E He|x s l c s' y E He Hr IH]; intros Hl Hx.
  - done.
  - by eapply su_refused.
  - eapply su_stmt; [done|apply (Hl s); left|done|exact E|done].
  - apply IH; [intros s0 Hs; apply Hl; by right|]. eapply su_stmt; [done|apply (Hl s); left|done|exact E|done].
Qed.
Lemma drives_q_keeps q : drives_q q -> queryer_keeps q P.
Proof using HP. intros [H1 H2]. split; intros x sql a Hx; by eapply ran_keeps. Qed.
Lemma drives_keeps d : drives d -> conn_keeps d P.
Proof using HP.
  intros []. constructor; [by apply drives_q_keeps|..].
  - intros x sql Hx. by eapply ran_keeps.
  - intros x sql Hx. by rewrite dc_prepare0.
  - intros x Hx. by eapply su_beside.
  - intros x c t Hx. by eapply su_beside.
  - intros x c Hx. by eapply su_beside.
  - intros x c Hx. by eapply su_beside.
Qed.
End Survives.

(** No statement of a client takes the write-denying authorizer away or attaches anything. *)
Lemma guarded_survives : survives (fun x => guarded x.2).
Proof.
  constructor.
  - intros x s c e Hg E. by destruct (exec_guarded _ _ _ _ _ Hg E).
  - intros sql s x c s' _ Hg E _. by destruct (exec_guarded _ _ _ _ _ Hg E).
  - intros x y Hg [_ E]. by rewrite E.
Qed.

(** ** What the documentation promises of reading *)

(** [content]: the rows, the schema and the header fields that the actions of [Backend.v]
    write; [clean]: the connection has no change of its own that is not yet committed. *)
Record sqlite_laws {D : Type} (content : S -> D) (clean : S -> Prop) : Prop := {
  sl_codes : forall sql s, s ∈ compile lib sql -> forallb documented s = true;
  sl_reads : forall s acts s', effect lib s acts s' -> forallb only_reads acts = true -> clean s -> content s' = content s /\ clean s';
  sl_beside : forall s s', beside lib s s' -> clean s -> content s' = content s /\ clean s'
}.

Section Reader.
Context {D : Type} (content : S -> D) (clean : S -> Prop).
Hypothesis laws : sqlite_laws content clean.

(** The content is [d], seen from a connection that only reads. *)
Definition reader (d : D) (x : S * pconn) : Prop := content x.1 = d /\ clean x.1 /\ guarded x.2.

Lemma reader_survives d : survives (reader d).
Proof using laws.
  constructor.
  - intros x s c e (Hd & Hc & Hg) E. destruct (exec_guarded _ _ _ _ _ Hg E) as [Hg' _]. done.
  - intros sql s x c s' Hs (Hd & Hc & Hg) E He. destruct (exec_guarded _ _ _ _ _ Hg E) as (Hg' & Hr & _).
    destruct (sl_reads _ _ laws _ _ _ He) as [H1 H2]; [by apply Hr, (sl_codes _ _ laws sql)|done|].
    unfold reader. cbn [fst snd]. by rewrite H1.
  - intros x y (Hd & Hc & Hg) [Hb E]. destruct (sl_beside _ _ laws _ _ Hb Hc) as [H1 H2]. unfold reader. by rewrite H1, E.
Qed.
End Reader.
End Driver.

(** ** A small driver for the witnesses *)

Definition not_authorized : err := ErrSqlite 23 23 "not authorized".
Definition demo_compile (q : string) : list (list action) :=
  [if has_prefix "INSERT" q then [Action 18 "t" ""] else if has_prefix "COMMIT" q then [Action SQLITE_TRANSACTION "COMMIT" ""] else [Action SQLITE_READ "t" "n"]].
(** A text that starts with INSERT writes, and a write that got through shows in the log. *)
Definition demo_effect (s : list string) (acts : list action) : list string := if forallb only_reads acts then s else s ++ ["written"%string].
Definition demo_sqlite : sqlite (list string) :=
  {| compile := demo_compile; effect s acts s' := s' = demo_effect s acts; beside s s' := s' = s |}.

Section Demo.
Variable pragma_on : string -> bool.
Definition demo_run {A : Type} (x : list string * pconn) (q : string) (a : A) : (list string * pconn) * result err A :=
  match demo_compile q with
  | s :: _ => match exec pragma_on x.2 s with (c, Ok _) => ((demo_effect x.1 s, c), Ok a) | (c, Err _) => ((x.1, c), Err not_authorized) end
  | [] => (x, Ok a)
  end.
Definition demo_q : Queryer (list string * pconn) :=
  {| QueryContext x q _ := demo_run x q (RowSet ["n"%string] [Ok [GInt 1]] None); ExecContext x q _ := demo_run x q (1, 7) |}.
Definition demo_tx : TxBeginner (list string * pconn) :=
  {| BeginTx x := (x, Ok tt); TxQueryer := demo_q; Commit x := (x, Ok tt); Rollback x := x |}.
Definition demo_conn : Conn (list string * pconn) :=
  {| cq := demo_q; autocommit _ := true; exec_script x q := demo_run x q tt; prepare x _ := (x, Ok (Prepared [] [] true));
     create_session x := (x, Ok 0%nat); attach_table x _ _ := (x, Ok tt); changeset x _ := (x, Ok []); close_session x _ := x |}.

Lemma demo_runs {A} x q (a : A) : ran pragma_on demo_sqlite x (compile demo_sqlite q) (demo_run x q a).1.
Proof.
  unfold demo_run. cbn [compile demo_sqlite]. unfold demo_compile. set (s := if has_prefix _ q then _ else _).
  destruct (exec pragma_on x.2 s) as [c [[]|e]] eqn:E; cbn [fst].
  - eapply ran_on; [exact E|reflexivity|apply ran_stop].
  - eapply ran_refused, E.
Qed.
Lemma demo_drives_q : drives_q pragma_on demo_sqlite demo_q.
Proof. split; intros; apply demo_runs. Qed.
Lemma demo_drives_tx : drives_tx pragma_on demo_sqlite demo_tx.
Proof. split; [apply demo_drives_q|done..]. Qed.
Lemma demo_drives : drives pragma_on demo_sqlite demo_conn.
Proof. split; [apply demo_drives_q|intros; apply demo_runs|done..]. Qed.
End Demo.
Lemma demo_sqlite_laws : sqlite_laws demo_sqlite (fun s => s) (fun _ => True).
Proof.
  constructor.
  - intros q s Hs%list_elem_of_singleton. subst s. by repeat case_match.
  - intros s acts s' -> H _. unfold demo_effect. by rewrite H.
  - by intros s s' ->.
Qed.
