(* ===== verification/HttpApi.v ===== *)
(** * httpapi: routing, admission, the native endpoint and the stream handlers

    [src/httpapi/handler.go], [native.go] and the handlers of [hrana.go] and
    [hrana_cursor.go].  JSON text is [encoding/json]'s business: a body is its bytes and
    [decode] says what they decode to.  What lies outside the handlers answers through
    [env]: the registry's open, the pool's connection and the driver, of which the
    read-only containment asks what [Sqlite.v] states. *)
From S2P Require Import Prelude GoStd Crypto Wire Authz Limits Backend Engine Session Config Hrana Sqlite.
From Stdlib Require Import Floats.SpecFloat.

(** ** Requests, responses, the handler *)

Record routing := Routing { ByPath : bool; ByHost : bool; HostSuffix : string; DefaultDB : string }.

(** A request body: its bytes, and whether reading ends in an error after them. *)
Record body := Body { data : list byte; broken : bool }.
Record http_request := HReq {
  q_method : string; q_path : string; q_host : string; q_body : body; q_principal : option Authz.principal
}.

Record apiError := APIError { a_message : string; a_code : Z; a_extended : Z }.
Record resultJSON := ResultJSON {
  j_columns : list string; j_rows : list (list json); j_affected : Z; j_lastid : Z; j_truncated : bool
}.
Inductive payload : Type :=
| PError (e : apiError) (failed : option nat)
| PResult (r : resultJSON)
| PResults (rs : list resultJSON)
| PPipeline (baton : option string) (results : list streamResult)
| PCursor (baton : string) (entries : list cursor_entry)
| PAborted.   (* no (further) response: the goroutine panicked, or the client is gone *)
Record response := Resp { status : Z; payload_ : payload }.

Definition writeErr (st : Z) (msg : string) : response := Resp st (PError (APIError msg 0 0) None).
Definition writeDenied : response := writeErr 403 "forbidden: read-only (write not permitted)".

(** What a [reg.Get], a pool or an open session may answer. *)
Inductive geterr : Type := GUnknownDB | GReserved | GBusy | GDeadline | GCanceled | GOther (msg : string).

Record handler := Handler {
  route : routing; policy_ : policy; maxBody : Z; metrics : bool; sessions_on : bool; attachAllowed : bool;
  serverAdmins : gset string
}.
Definition defaultMaxBody : Z := 8 * 2 ^ 20.
Definition WithMaxBody (n : Z) (h : handler) : handler :=
  if n >? 0 then Handler (route h) (policy_ h) n (metrics h) (sessions_on h) (attachAllowed h) (serverAdmins h) else h.
Definition WithAttach (allowed : bool) (admins : list string) (h : handler) : handler :=
  Handler (route h) (policy_ h) (maxBody h) (metrics h) (sessions_on h) allowed
          (list_to_set (List.filter (fun a => negb (String.eqb a "")) admins)).
Definition WithPolicy (p : option policy) (h : handler) : handler :=
  match p with
  | Some p => Handler (route h) p (maxBody h) (metrics h) (sessions_on h) (attachAllowed h) (serverAdmins h)
  | None => h
  end.
Definition WithSessions (on : bool) (h : handler) : handler :=
  Handler (route h) (policy_ h) (maxBody h) (metrics h) on (attachAllowed h) (serverAdmins h).
Definition New (rt : routing) (m : bool) (opts : list (handler -> handler)) : handler :=
  let rt := if negb (ByPath rt) && negb (ByHost rt) then Routing true (ByHost rt) (HostSuffix rt) (DefaultDB rt) else rt in
  fold_left (fun h o => o h) opts (Handler rt (NewPolicy true) defaultMaxBody m false false ∅).

(** ** Routing *)

Definition isEndpointToken (s : string) : bool := mem_string s EndpointTokens.
Definition splitPath (p : string) : list string :=
  List.filter (fun s => negb (String.eqb s "")) (split_char slash (trim "/" p)).
Definition hostname (h : string) : string := (cut_char ":" h).1.1.

Inductive routeerr : Type := errNoDatabase | errInvalidDB.
Definition validated (db endpoint : string) : result routeerr (string * string) :=
  if ValidDBName db then Ok (db, endpoint) else Err errInvalidDB.

Definition resolve_default (h : handler) (r : http_request) : result routeerr (string * string) :=
  if String.eqb (DefaultDB (route h)) "" then Err errNoDatabase else validated (DefaultDB (route h)) (q_path r).
Definition resolve_host (h : handler) (r : http_request) : result routeerr (string * string) :=
  if ByHost (route h) && negb (String.eqb (HostSuffix (route h)) "") then
    match cut_suffix (HostSuffix (route h)) (hostname (q_host r)) with
    | Some base =>
        let d := trim_suffix "." base in
        if String.eqb d "" then resolve_default h r else validated d (q_path r)
    | None => resolve_default h r
    end
  else resolve_default h r.
Definition resolve (h : handler) (r : http_request) : result routeerr (string * string) :=
  match splitPath (q_path r) with
  | s :: rest =>
      if ByPath (route h) && negb (isEndpointToken s) then validated s ("/" +:+ join "/" rest)
      else resolve_host h r
  | [] => resolve_host h r
  end.

Inductive destination : Type :=
| DHealth | DMetrics | DAdmin | DReserved | DNoRoute (e : routeerr)
| DQuery (db : string) | DPipeline (db : string) | DProbe | DCursor (db : string)
| DData (db endpoint : string)   (* export, backup, changeset, blob, changes *)
| DUnknown (endpoint : string).

Definition data_endpoints : list string :=
  ["/export"; "/backup"; "/changeset/apply"; "/changeset/invert"; "/changeset/concat"; "/blob/provision";
   "/blob/create"; "/blob/write"; "/blob/read"; "/blob/size"; "/blob/delete"; "/changes"]%string.

Definition ServeHTTP (h : handler) (r : http_request) : destination :=
  let p := q_path r in
  if String.eqb p "/_health" then DHealth
  else if String.eqb p "/_metrics" then DMetrics
  else if String.eqb p "/_admin" || has_prefix "/_admin/" p then DAdmin
  else if has_prefix "/_" p then DReserved
  else match resolve h r with
       | Err e => DNoRoute e
       | Ok (db, ep) =>
           if String.eqb ep "/query" then DQuery db
           else if mem_string ep ["/v2/pipeline"; "/v3/pipeline"]%string then DPipeline db
           else if mem_string ep ["/v2"; "/v3"]%string then DProbe
           else if mem_string ep ["/v2/cursor"; "/v3/cursor"]%string then DCursor db
           else if mem_string ep data_endpoints then DData db ep
           else DUnknown ep
       end.

(** ** Error mapping *)

Definition toAPIError (e : err) : apiError :=
  match as_engine e with Some (c, x, m) => APIError m c x | None => APIError "internal error" 0 0 end.

Definition writeGetError (e : geterr) : response :=
  match e with
  | GUnknownDB => writeErr 404 "unknown database"
  | GReserved | GBusy => writeErr 503 "database temporarily unavailable"
  | GDeadline | GCanceled => writeErr 504 "request timed out"
  | GOther _ => writeErr 500 "internal error"
  end.

(** The native endpoint's reading of an execution error; [failed] only a batch has. *)
Definition run_error (e : err) (failed : option nat) : response :=
  if is_denied e then writeErr 403 (denied_text e)
  else if IsNotAuthorized e then writeDenied
  else if is_ctx e then writeErr 504 "statement timed out"
  else Resp 200 (PError (toAPIError e) failed).
Definition writeRunError (e : err) : response := run_error e None.

Inductive bodyerr : Type := errBodyTooLarge | errRead.
Definition readBody (h : handler) (b : body) : result bodyerr (list byte) :=
  if Z.of_nat (length (data b)) >? maxBody h then Err errBodyTooLarge   (* the reader stops one byte past the cap *)
  else if broken b then Err errRead else Ok (data b).
Definition writeReadBodyErr (e : bodyerr) : response :=
  match e with
  | errBodyTooLarge => writeErr 413 "request body exceeds the maximum allowed size"
  | errRead => writeErr 400 "read body"
  end.

(** ** Admission *)

Inductive metric : Type := MInc (db principal : string) | MLatency (db : string).

(** What a request works on: the limiter, the metrics so far, the registry references it
    holds, the connections the pool got back, and the database. *)
Record world (S : Type) := World {
  w_lim : option limiter; w_met : list metric; w_refs : Z; w_pool : list pconn; w_db : S
}.
Arguments World {S}. Arguments w_lim {S}. Arguments w_met {S}. Arguments w_refs {S}. Arguments w_pool {S}.
Arguments w_db {S}.

Definition set_db {S} (w : world S) (s : S) : world S := World (w_lim w) (w_met w) (w_refs w) (w_pool w) s.
Definition add_ref {S} (w : world S) (n : Z) : world S := World (w_lim w) (w_met w) (w_refs w + n) (w_pool w) (w_db w).
Definition give_back {S} (w : world S) (c : pconn) : world S :=
  World (w_lim w) (w_met w) (w_refs w) (w_pool w ++ [c]) (w_db w).

Definition authorize (h : handler) (r : http_request) (db : string) : result response level :=
  let lvl := Level (policy_ h) (Some (FromContext (q_principal r))) db in
  if CanRead lvl then Ok lvl else Err (writeErr 403 "forbidden: no access to this database").

(** [known]: whether the registry has a backend for the database. *)
Definition meter {S} (h : handler) (known : bool) (r : http_request) (db : string) (now : Z) (w : world S)
    : world S * result response bool :=
  let p := Authz.Name (FromContext (q_principal r)) in
  let '(lim', v) :=
    match w_lim w with
    | None => (None, Admitted_)
    | Some l => let '(v, l') := Allow l p db now in (Some l', v)
    end in
  let w1 := World lim' (w_met w) (w_refs w) (w_pool w) (w_db w) in
  match v with
  | RateLimited => (w1, Err (writeErr 429 "rate limit exceeded"))
  | Limits.Busy => (w1, Err (writeErr 503 "database busy: too many concurrent requests"))
  | Admitted_ =>
      let metered := metrics h && known in
      (World lim' (if metered then w_met w ++ [MInc db p] else w_met w) (w_refs w) (w_pool w) (w_db w), Ok metered)
  end.
(** The release func [meter] returns. *)
Definition done {S} (metered : bool) (db : string) (w : world S) : world S :=
  World (option_map (fun l => Limits.release l db) (w_lim w))
        (if metered then w_met w ++ [MLatency db] else w_met w) (w_refs w) (w_pool w) (w_db w).

(** ** The native endpoint *)

Record queryRequest := QueryRequest {
  r_sql : string; r_args : list json; r_statements : list (string * list json)
}.

(** What surrounds one request: its database in the registry, the pool's connection and
    the driver's answers to the mode changes ([up1..4]), the pool's own operations and
    those of the borrowed connection, whose state carries the connection's mode. *)
Record env (S : Type) := Env {
  known : string -> bool;
  get : string -> result geterr unit;
  borrow : result geterr pconn;
  pragma_on : string -> bool;
  up1 : bool; up2 : bool; up3 : bool; up4 : bool;
  mode_err : dberr -> geterr;
  pool_q : Queryer S;
  pool_tx : TxBeginner S;
  conn_q : Queryer (S * pconn);
  conn_tx : TxBeginner (S * pconn)
}.
Arguments known {S}. Arguments get {S}. Arguments borrow {S}. Arguments pragma_on {S}.
Arguments up1 {S}. Arguments up2 {S}. Arguments up3 {S}. Arguments up4 {S}. Arguments mode_err {S}.
Arguments pool_q {S}. Arguments pool_tx {S}. Arguments conn_q {S}. Arguments conn_tx {S}.

Section Native.
Context `{FT : FloatText} (e : engine).
(** [encoding/json]: the decoded body and whether content follows it; and [err.Error()]. *)
Variable decode : list byte -> result string (queryRequest * bool).
Variable text : wire_err -> string.

Definition toResultJSON (r : qresult) : resultJSON :=
  ResultJSON (Columns r) (map (map NativeValue_MarshalJSON) (Rows r)) (RowsAffected r) (LastInsertID r) (Truncated r).

(** The statements of a batch, before any of them runs. *)
Fixpoint batch_statements (stmts : list (string * list json)) : result response (list statement) :=
  match stmts with
  | [] => Ok []
  | (q, args) :: rest =>
      if String.eqb q "" then Err (writeErr 400 "batch statement missing 'sql'")
      else match DecodeNativeArgs args with
           | Err x => Err (writeErr 400 (text x))
           | Ok a => let* es := batch_statements rest in Ok (Stmt q a [] false :: es)
           end
  end.

Definition runBatch {T} (tb : TxBeginner T) (st : T) (stmts : list (string * list json)) : T * response :=
  match batch_statements stmts with
  | Err resp => (st, resp)
  | Ok es =>
      match Batch e tb st es with
      | (st', Err x) => (st', run_error x (as_batch x))
      | (st', Ok rs) => (st', Resp 200 (PResults (map toResultJSON rs)))
      end
  end.

Definition run_single {T} (q : Queryer T) (st : T) (req : queryRequest) : T * response :=
  match DecodeNativeArgs (r_args req) with
  | Err x => (st, writeErr 400 (text x))
  | Ok a =>
      match Run e q st (Stmt (r_sql req) a [] false) with
      | (st', Err x) => (st', writeRunError x)
      | (st', Ok res) => (st', Resp 200 (PResult (toResultJSON res)))
      end
  end.

Definition run_request {T} (q : Queryer T) (tb : TxBeginner T) (st : T) (req : queryRequest) : T * response :=
  match r_statements req with
  | [] => run_single q st req
  | stmts => runBatch tb st stmts
  end.

(** Between [reg.Get] and its release. *)
Definition query_on_handle {S} (v : env S) (lvl : level) (req : queryRequest) (w : world S) : world S * response :=
  if CanWrite lvl then
    let '(s', resp) := run_request (pool_q v) (pool_tx v) (w_db w) req in (set_db w s', resp)
  else
    match borrow v with
    | Err x => (w, writeGetError x)
    | Ok c =>
        match SetConnMode (pragma_on v) (up1 v) (up2 v) c true with
        | (c1, Err x) => (give_back w c1, writeGetError (mode_err v x))
        | (c1, Ok _) =>
            let '((s', c2), resp) := run_request (conn_q v) (conn_tx v) (w_db w, c1) req in
            let '(c3, _) := SetConnMode (pragma_on v) (up3 v) (up4 v) c2 false in
            (give_back (set_db w s') c3, resp)
        end
    end.

(** The validation of the decoded request. *)
Definition parse_query (h : handler) (b : body) : result response queryRequest :=
  match readBody h b with
  | Err x => Err (writeReadBodyErr x)
  | Ok bytes =>
      match decode bytes with
      | Err m => Err (writeErr 400 ("invalid JSON: " +:+ m))
      | Ok (req, more) =>
          if more then Err (writeErr 400 "unexpected trailing content after JSON body")
          else match String.eqb (r_sql req) "", r_statements req with
               | true, [] => Err (writeErr 400 "request must set 'sql' or 'statements'")
               | false, _ :: _ => Err (writeErr 400 "set either 'sql' or 'statements', not both")
               | _, _ => Ok req
               end
      end
  end.

Definition query_admitted {S} (h : handler) (v : env S) (r : http_request) (db : string) (lvl : level) (w : world S)
    : world S * response :=
  match parse_query h (q_body r) with
  | Err resp => (w, resp)
  | Ok req =>
      match get v db with
      | Err x => (w, writeGetError x)
      | Ok _ => let '(w', resp) := query_on_handle v lvl req (add_ref w 1) in (add_ref w' (-1), resp)
      end
  end.

Definition handleQuery {S} (h : handler) (v : env S) (r : http_request) (db : string) (now : Z) (w : world S)
    : world S * response :=
  if negb (String.eqb (q_method r) "POST") then (w, writeErr 405 "use POST")
  else match authorize h r db with
       | Err resp => (w, resp)
       | Ok lvl =>
           match meter h (known v db) r db now w with
           | (w1, Err resp) => (w1, resp)
           | (w1, Ok metered) =>
               let '(w2, resp) := query_admitted h v r db lvl w1 in (done metered db w2, resp)
           end
       end.
End Native.

(** ** Routing reaches a database only under a valid name *)

Lemma resolve_valid h r db ep : resolve h r = Ok (db, ep) -> ValidDBName db = true.
Proof.
  assert (Hv : forall d x, validated d x = Ok (db, ep) -> ValidDBName db = true).
  { intros d x. unfold validated. destruct (ValidDBName d) eqn:E; [|done]. by intros [= <- _]. }
  unfold resolve, resolve_host, resolve_default. repeat case_match; try done; apply Hv.
Qed.

(** The database a destination works on. *)
Definition dest_db (d : destination) : option string :=
  match d with
  | DQuery db | DPipeline db | DCursor db | DData db _ => Some db
  | _ => None
  end.

Lemma ServeHTTP_db h r db : dest_db (ServeHTTP h r) = Some db ->
  has_prefix "/_" (q_path r) = false /\ exists ep, resolve h r = Ok (db, ep).
Proof.
  unfold ServeHTTP. destruct (String.eqb (q_path r) "/_health"); [done|].
  destruct (String.eqb (q_path r) "/_metrics"); [done|].
  destruct (_ || _); [done|]. destruct (has_prefix "/_" (q_path r)); [done|].
  destruct (resolve h r) as [[d ep]|]; [|done]. intros H. split; [done|]. exists ep.
  repeat case_match; try discriminate H; by injection H as ->.
Qed.

Lemma split_plain_filter p : Forall plain_seg (split_char slash p) ->
  List.filter (fun s => negb (String.eqb s "")) (split_char slash p) = split_char slash p.
Proof.
  induction 1 as [|s l (Hs & _) _ IH]; [done|]. cbn. by rewrite (proj2 (String.eqb_neq s "")), IH by done.
Qed.

(** C34: (routing safety) A request that reaches a database handler names a valid database
    however the name was found (path, host or default): never a reserved or endpoint name,
    never a path-shaped one, and never through a reserved [/_] path.  A first path segment
    that is a valid name is that database, whatever host the request names. *)
Theorem routed_databases_are_valid h r db :
  (dest_db (ServeHTTP h r) = Some db ->
     ValidDBName db = true /\ has_prefix "/_" (q_path r) = false /\ db ∉ Reserved /\ db ∉ EndpointTokens) /\
  (forall rest, ByPath (route h) = true -> ValidDBName db = true -> splitPath (q_path r) = db :: rest ->
     resolve h r = Ok (db, "/" +:+ join "/" rest)).
Proof.
  split.
  - intros [Hp (ep & Hr)]%ServeHTTP_db. apply resolve_valid in Hr. split; [done|]. split; [done|].
    unfold ValidDBName in Hr. repeat case_match; try done.
    split; intros Hin%mem_string_elem.
    + match goal with H : has_prefix _ _ || _ = false |- _ => apply orb_false_iff in H as [_ ?] end. congruence.
    + congruence.
  - intros rest Hb Hv Hs. unfold resolve. rewrite Hs, Hb.
    assert (Ht : isEndpointToken db = false).
    { unfold isEndpointToken. unfold ValidDBName in Hv. by repeat case_match. }
    rewrite Ht. cbn [negb andb]. unfold validated. by rewrite Hv.
Qed.

(** ** Errors *)

(** An error without the text only the server may see. *)
Fixpoint mask (e : err) : err :=
  match e with
  | ErrBatch i e' => ErrBatch i (mask e')
  | ErrSqlite _ _ _ | ErrOther _ => ErrOther ""
  | e => e
  end.

Lemma mask_reads e : is_denied (mask e) = is_denied e /\ is_ctx (mask e) = is_ctx e /\
  as_engine (mask e) = as_engine e /\ (is_denied e = true -> denied_text (mask e) = denied_text e).
Proof. induction e; cbn; try done. destruct IHe as (? & ? & ? & H). repeat split; try done. intros Hd. by rewrite H. Qed.

(** (error confidentiality) Neither endpoint's response to a failed statement, nor the
    answer to a failed open, depends on the text of an internal or driver error: an error
    and the same error with that text blanked are answered alike, on the native endpoint
    (single and batch), in a Hrana result, and at open. *)
Theorem internal_errors_do_not_leak e failed m m' :
  run_error e failed = run_error (mask e) failed /\
  engine_hError e = engine_hError (mask e) /\
  writeGetError (GOther m) = writeGetError (GOther m').
Proof.
  destruct (mask_reads e) as (Hd & Hc & Ha & Ht). split; [|split; [|done]].
  - unfold run_error, IsNotAuthorized, toAPIError. rewrite Hd, Hc, Ha.
    destruct (is_denied e); [|done]. by rewrite Ht.
  - unfold engine_hError. rewrite Hd, Hc, Ha. destruct (is_denied e); [|done]. by rewrite Ht.
Qed.

(** ** The native endpoint's guarantees *)

Lemma Allow_inflight l p db now d :
  let '(v, l') := Allow l p db now in
  zget (inflight l') d = match v with Admitted_ => if decide (db = d) then zget (inflight l) d + 1 else zget (inflight l) d
                                    | _ => zget (inflight l) d end.
Proof.
  unfold Allow, takeToken. destruct (SFleb _ _).
  - cbn [negb]. destruct (_ && _); [done|]. cbn [set_inflight inflight]. rewrite zget_insert.
    destruct (decide _) as [<-|]; done.
  - destruct (SFltb _ _); cbn [negb]; [done|]. destruct (_ && _); [done|].
    cbn [set_inflight set_bucket inflight]. rewrite zget_insert. destruct (decide _) as [<-|]; done.
Qed.

Section Guarantees.
Context `{FT : FloatText} (e : engine).
Variable decode : list byte -> result string (queryRequest * bool).
Variable text : wire_err -> string.
Context {S D : Type} (h : handler) (v : env S).

Let handle := handleQuery e decode text h v.

(** Connections are only ever given back, at most one per request. *)
Definition returns_one (w w' : world S) : Prop := exists l, w_pool w' = w_pool w ++ l /\ (length l <= 1)%nat.
Lemma returns_none w w' : w_pool w' = w_pool w -> returns_one w w'.
Proof. intros H. exists []. rewrite H, app_nil_r. split; [done|cbn; lia]. Qed.
Lemma returns_back w w' c : w_pool w' = w_pool w ++ [c] -> returns_one w w'.
Proof. intros H. exists [c]. rewrite H. split; [done|cbn; lia]. Qed.

Lemma query_on_handle_refs lvl req w w' resp :
  query_on_handle e text v lvl req w = (w', resp) ->
  w_refs w' = w_refs w /\ w_lim w' = w_lim w /\ w_met w' = w_met w /\
  returns_one w w'.
Proof.
  unfold query_on_handle. destruct (CanWrite lvl).
  - destruct (run_request _ _ _ _ _ _) as [s' rp]. intros [= <- <-]. split; [done|]. split; [done|]. split; [done|].
    by apply returns_none.
  - destruct (borrow v) as [c|x].
    + destruct (SetConnMode _ _ _ c true) as [c1 [u|x]].
      * destruct (run_request _ _ _ _ _ _) as [[s' c2] rp]. destruct (SetConnMode _ _ _ c2 false) as [c3 r3].
        intros [= <- <-]. split; [done|]. split; [done|]. split; [done|]. by apply (returns_back _ _ c3).
      * intros [= <- <-]. split; [done|]. split; [done|]. split; [done|]. by apply (returns_back _ _ c1).
    + intros [= <- <-]. split; [done|]. split; [done|]. split; [done|]. by apply returns_none.
Qed.

Lemma query_admitted_refs r db lvl w w' resp :
  query_admitted e decode text h v r db lvl w = (w', resp) ->
  w_refs w' = w_refs w /\ w_lim w' = w_lim w /\ w_met w' = w_met w /\
  returns_one w w'.
Proof.
  pose proof (returns_none w w eq_refl) as Hnil.
  unfold query_admitted. destruct (parse_query _ _ _) as [req|x]; [|by intros [= <- <-]].
  destruct (get v db); [|by intros [= <- <-]].
  destruct (query_on_handle _ _ _ _ _ _) as [w1 rp] eqn:E. intros [= <- <-].
  apply query_on_handle_refs in E as (H1 & H2 & H3 & H4). cbn [add_ref w_refs w_lim w_met w_pool] in *.
  split; [lia|]. by repeat split.
Qed.

(** (resource balance) Every path through the native endpoint, errors included, gives
    back what it took: the registry reference, the limiter's slot of the database (the
    number of requests in flight is what it was), the borrowed connection; an admitted
    request that is counted is also timed, a rejected one neither. *)
Theorem query_is_balanced r db now w w' resp :
  (forall l, w_lim w = Some l -> 0 <= InFlight l db) ->
  handle r db now w = (w', resp) ->
  w_refs w' = w_refs w /\
  (forall l d, w_lim w = Some l -> exists l', w_lim w' = Some l' /\ InFlight l' d = InFlight l d) /\
  (w_met w' = w_met w \/
   w_met w' = w_met w ++ [MInc db (Authz.Name (FromContext (q_principal r))); MLatency db]) /\
  returns_one w w'.
Proof.
  intros Hpos. unfold handle, handleQuery.
  assert (Hw : w_refs w = w_refs w /\
    (forall l d, w_lim w = Some l -> exists l', w_lim w = Some l' /\ InFlight l' d = InFlight l d) /\
    (w_met w = w_met w \/ w_met w = w_met w ++ [MInc db (Authz.Name (FromContext (q_principal r))); MLatency db]) /\
    exists l, w_pool w = w_pool w ++ l /\ (length l <= 1)%nat).
  { split; [done|]. split; [by eauto|]. split; [by left|]. by apply returns_none. }
  destruct (negb _); [by intros [= <- <-]|].
  destruct (authorize h r db) as [lvl|rp]; [|by intros [= <- <-]].
  unfold meter. destruct (w_lim w) as [l|] eqn:Hl.
  - pose proof (Allow_inflight l (Authz.Name (FromContext (q_principal r))) db now) as Ha.
    destruct (Allow l _ db now) as [vd l']. destruct vd.
    + destruct (query_admitted _ _ _ _ _ _ _ _ _) as [w2 rp] eqn:E. intros [= <- <-].
      apply query_admitted_refs in E as (H1 & H2 & H3 & H4). cbn [w_refs w_lim w_met w_pool] in *.
      unfold done. cbn [w_refs w_lim w_met w_pool]. rewrite H1, H2, H3. cbn [option_map].
      split; [done|]. split; [|split; [|done]].
      * intros l0 d [= <-]. eexists. split; [done|]. specialize (Ha d) as Hd. specialize (Ha db).
        rewrite decide_True in Ha by done. specialize (Hpos l eq_refl). unfold InFlight in *.
        unfold Limits.release. rewrite Ha, (proj2 (Z.ltb_lt _ _)) by lia. cbn [set_inflight inflight].
        rewrite zget_insert. destruct (decide (db = d)) as [<-|]; lia.
      * destruct (metrics h && known v db); [right; by rewrite <- app_assoc|by left].
    + intros [= <- <-]. cbn [w_refs w_lim w_met w_pool]. split; [done|]. split; [|by destruct Hw as (_ & _ & ?)].
      intros l0 d [= <-]. exists l'. split; [done|]. apply Ha.
    + intros [= <- <-]. cbn [w_refs w_lim w_met w_pool]. split; [done|]. split; [|by destruct Hw as (_ & _ & ?)].
      intros l0 d [= <-]. exists l'. split; [done|]. apply Ha.
  - destruct (query_admitted _ _ _ _ _ _ _ _ _) as [w2 rp] eqn:E. intros [= <- <-].
    apply query_admitted_refs in E as (H1 & H2 & H3 & H4). cbn [w_refs w_lim w_met w_pool] in *.
    unfold done. cbn [w_refs w_lim w_met w_pool]. rewrite H1, H2, H3. cbn [option_map].
    split; [done|]. split; [done|]. split; [|done].
    destruct (metrics h && known v db); [right; by rewrite <- app_assoc|by left].
Qed.

(** *** Without write access

    The driver is the one of [Sqlite.v]: only the authorizer that [SetConnMode] installs
    stands between a statement and the database. *)
Section ReadOnly.
Variable lib : sqlite S.
Variable content : S -> D.
Variable clean : S -> Prop.
Hypothesis laws : sqlite_laws lib content clean.
Hypothesis conn_is : drives_q (pragma_on v) lib (conn_q v) /\ drives_tx (pragma_on v) lib (conn_tx v).

Lemma run_request_ro s c req : clean s -> guarded c ->
  reader content clean (content s) (run_request e text (conn_q v) (conn_tx v) (s, c) req).1.
Proof using laws conn_is.
  intros Hcl Hc. destruct conn_is as [Hdq Hdt]. set (P := reader content clean (content s)).
  assert (Hx : P (s, c)) by done.
  pose proof (reader_survives (pragma_on v) lib content clean laws (content s)) as HP. fold P in HP.
  pose proof (drives_q_keeps _ _ _ HP _ Hdq) as Hk. pose proof (drives_q_keeps _ _ _ HP _ (dt_q _ _ _ Hdt)) as Hkt. unfold run_request.
  destruct (r_statements req) as [|st0 sts0].
  - unfold run_single. destruct (DecodeNativeArgs _) as [a|]; [|done].
    pose proof (Run_keeps e _ P Hk (s, c) (Stmt (r_sql req) a [] false) Hx) as Hr.
    by destruct (Run _ _ _ _) as [y [res|er]].
  - unfold runBatch. destruct (batch_statements _ _) as [es|]; [|done]. unfold Batch.
    pose proof (su_beside _ _ _ HP _ _ Hx (dt_begin _ _ _ Hdt (s, c))) as Hb. destruct (BeginTx (conn_tx v) (s, c)) as [x1 [u|er]]; [|done].
    cbn [fst] in Hb. pose proof (run_all_keeps e _ P Hkt es x1 0%nat Hb) as Hr.
    destruct (run_all _ _ _ _ _) as [y [out|er]]; cbn [fst] in *; [|by apply (su_beside _ _ _ HP _ _ Hr), (dt_rollback _ _ _ Hdt)].
    pose proof (su_beside _ _ _ HP _ _ Hr (dt_commit _ _ _ Hdt y)) as Hc'. by destruct (Commit (conn_tx v) y) as [z [u'|er]].
Qed.

(** What a reader's turn on the handle leaves. *)
Definition read_only_turn (w w' : world S) : Prop :=
  content (w_db w') = content (w_db w) /\
  exists l, w_pool w' = w_pool w ++ l /\
    (up2 v = true -> up3 v = true -> up4 v = true -> Forall (fun c => c = base_conn) l).
Lemma read_only_idle w w' : w_db w' = w_db w -> w_pool w' = w_pool w -> read_only_turn w w'.
Proof using Type. intros Hd Hp. split; [by rewrite Hd|]. exists []. by rewrite Hp, app_nil_r. Qed.

Lemma query_admitted_ro r db lvl w w' resp : CanWrite lvl = false -> clean (w_db w) ->
  borrow v = Ok base_conn -> pragma_on v "ON" = true -> pragma_on v "OFF" = false ->
  query_admitted e decode text h v r db lvl w = (w', resp) -> read_only_turn w w'.
Proof using laws conn_is.
  intros Hw Hcl Hb Hon Hoff.
  unfold query_admitted. destruct (parse_query _ _ _) as [req|x]; [|intros [= <- <-]; by apply read_only_idle].
  destruct (get v db); [|intros [= <- <-]; by apply read_only_idle].
  unfold query_on_handle. rewrite Hw, Hb.
  destruct (SetConnMode (pragma_on v) (up1 v) (up2 v) base_conn true) as [c1 rs] eqn:Es.
  assert (Hc1 : match rs with Ok _ => guarded c1 | Err _ => up2 v = true -> c1 = base_conn end).
  { unfold SetConnMode, exec_ctx in Es. destruct (up1 v); [|by injection Es as <- <-].
    cbn in Es. destruct (up2 v); [|by injection Es as <- <-]. by injection Es as <- <-. }
  destruct rs as [u|x].
  - pose proof (run_request_ro (w_db w) c1 req Hcl Hc1) as (Hs & _ & Hg). cbn [add_ref w_db].
    destruct (run_request _ _ _ _ _ _) as [[s' c2] rp']. cbn [fst snd] in *.
    pose proof (restore_readonly (pragma_on v) (up3 v) (up4 v) c2 Hg Hoff) as Hr.
    destruct (SetConnMode _ (up3 v) (up4 v) c2 false) as [c3 r3]. intros [= <- <-].
    split; [done|]. exists [c3]. split; [done|]. intros _ H3 H4. constructor; [|done]. by apply (proj1 Hr).
  - intros [= <- <-]. split; [done|]. exists [c1]. split; [done|].
    intros H2 _ _. constructor; [|done]. by apply Hc1.
Qed.

Lemma handleQuery_ro r db now w w' resp :
  CanWrite (Level (policy_ h) (Some (FromContext (q_principal r))) db) = false -> clean (w_db w) ->
  borrow v = Ok base_conn -> pragma_on v "ON" = true -> pragma_on v "OFF" = false ->
  handle r db now w = (w', resp) -> read_only_turn w w'.
Proof using laws conn_is.
  intros Hw Hcl Hb Hon Hoff. unfold handle, handleQuery, authorize.
  destruct (negb _); [intros [= <- <-]; by apply read_only_idle|].
  destruct (CanRead _); [|intros [= <- <-]; by apply read_only_idle].
  assert (Hm : forall w1 m, meter h (known v db) r db now w = (w1, m) -> w_db w1 = w_db w /\ w_pool w1 = w_pool w).
  { intros w1 m. unfold meter. destruct (w_lim w) as [l|]; [destruct (Allow _ _ _ _) as [[] ?]|]; by intros [= <- <-]. }
  destruct (meter _ _ _ _ _ _) as [w1 [metered|rp]]; destruct (Hm _ _ eq_refl) as [Hdb Hpool];
    [|intros [= <- <-]; by apply read_only_idle].
  destruct (query_admitted _ _ _ _ _ _ _ _ _) as [w2 rp] eqn:E. intros [= <- <-].
  apply query_admitted_ro in E; [|by rewrite ?Hdb..]. unfold read_only_turn in E. by rewrite Hdb, Hpool in E.
Qed.

(** C6: (read-only containment, end to end) A request of a principal without write access,
    single statement or batch, leaves the content of the database as it was, whatever SQL
    it carries, also when that SQL switches [query_only] off, although nothing is assumed
    of what the shared pool's own operations do; the connection it borrowed goes back to the
    pool in the base mode (unless the driver could not switch it).  The driver is any that
    keeps to [Sqlite.v]: a statement runs only if the authorizer of the connection it is
    compiled on accepted all its actions, and of what runs only this is assumed, that a
    statement of reading actions does not write.  [clean]: no uncommitted change is pending. *)
Theorem readonly_query_is_contained r db now w w' resp :
  CanWrite (Level (policy_ h) (Some (FromContext (q_principal r))) db) = false ->
  clean (w_db w) -> borrow v = Ok base_conn -> pragma_on v "ON" = true -> pragma_on v "OFF" = false ->
  handle r db now w = (w', resp) ->
  content (w_db w') = content (w_db w) /\
  exists l, w_pool w' = w_pool w ++ l /\
    (up2 v = true -> up3 v = true -> up4 v = true -> Forall (fun c => c = base_conn) l).
Proof using laws conn_is. intros Hw Hcl Hb Hon Hoff E. exact (handleQuery_ro r db now w w' resp Hw Hcl Hb Hon Hoff E). Qed.
End ReadOnly.

(** (gates) The native endpoint does anything to the database only for a POST by a
    principal that may read it, admitted by the limiter, with a body within the cap that
    decodes to exactly one of a statement or a batch, and once the registry has opened it.
    In particular a principal without access changes nothing at all: no metric, no token,
    no reference. *)
Theorem query_is_gated r db now w w' resp :
  handle r db now w = (w', resp) ->
  (w_db w' <> w_db w ->
     q_method r = "POST"%string /\
     CanRead (Level (policy_ h) (Some (FromContext (q_principal r))) db) = true /\
     (forall l, w_lim w = Some l -> (Allow l (Authz.Name (FromContext (q_principal r))) db now).1 = Admitted_) /\
     Z.of_nat (length (data (q_body r))) <= maxBody h /\ broken (q_body r) = false /\
     (exists req, decode (data (q_body r)) = Ok (req, false) /\
        (r_sql req = ""%string <-> r_statements req <> [])) /\
     get v db = Ok tt) /\
  (CanRead (Level (policy_ h) (Some (FromContext (q_principal r))) db) = false ->
     w' = w /\ resp = writeErr (if String.eqb (q_method r) "POST" then 403 else 405)
                        (if String.eqb (q_method r) "POST" then "forbidden: no access to this database" else "use POST")).
Proof.
  unfold handle, handleQuery, authorize.
  destruct (String.eqb_spec (q_method r) "POST") as [Hp|]; cbn [negb]; [|by intros [= <- <-]].
  destruct (CanRead _) eqn:Hr; [|by intros [= <- <-]]. split; [|done]. revert H. unfold meter.
  set (p := Authz.Name (FromContext (q_principal r))).
  intros Hrun Hne. split; [done|]. split; [done|].
  assert (Hall : (forall l, w_lim w = Some l -> (Allow l p db now).1 = Admitted_) /\
    exists w1 w2 lvl rp, w_db w1 = w_db w /\ query_admitted e decode text h v r db lvl w1 = (w2, rp) /\ w_db w2 = w_db w').
  { destruct (w_lim w) as [l|].
    - destruct (Allow l p db now) as [[] l'] eqn:Ea.
      + destruct (query_admitted _ _ _ _ _ _ _ _ _) as [w2 rp] eqn:E. injection Hrun as <- <-. split.
        * intros l0 [= <-]. by rewrite Ea.
        * eexists _, _, _, _. split; [|split; [exact E|]]; reflexivity.
      + exfalso. injection Hrun as <- <-. by apply Hne.
      + exfalso. injection Hrun as <- <-. by apply Hne.
    - destruct (query_admitted _ _ _ _ _ _ _ _ _) as [w2 rp] eqn:E. injection Hrun as <- <-. split; [done|].
      eexists _, _, _, _. split; [|split; [exact E|]]; reflexivity. }
  destruct Hall as [Ha (w1 & w2 & lvl & rp & Hw1 & E & Hw2)]. split; [done|]. revert E.
  unfold query_admitted, parse_query, readBody.
  destruct (Z.gtb_spec (Z.of_nat (length (data (q_body r)))) (maxBody h)); [intros [= <- <-]; congruence|].
  split; [done|]. destruct (broken (q_body r)); [injection E as <- <-; congruence|]. split; [done|].
  destruct (decode (data (q_body r))) as [[req more]|]; [|injection E as <- <-; congruence].
  destruct more; [injection E as <- <-; congruence|].
  destruct (String.eqb_spec (r_sql req) ""), (r_statements req) as [|st sts] eqn:Hst;
    try (injection E as <- <-; congruence);
    (split; [exists req; rewrite Hst; by split|]); destruct (get v db) as [[]|]; try done; injection E as <- <-; congruence.
Qed.
End Guarantees.

(** ** Witnesses *)

Import DemoFloat.

Definition demo_text (x : wire_err) : string := "bad argument".
(** A body is the text of one statement. *)
Definition demo_decode (b : list byte) : result string (queryRequest * bool) :=
  Ok (QueryRequest (string_of b) [] [], false).

Definition pool_of (q : Queryer (list string)) : TxBeginner (list string) :=
  {| BeginTx := fun st => (st, Ok tt); TxQueryer := q; Commit := fun st => (st, Ok tt); Rollback := fun st => st |}.
Definition env_of (q : Queryer (list string * pconn)) (t : TxBeginner (list string * pconn)) : env (list string) :=
  Env (list string) (fun db => String.eqb db "app") (fun db => if String.eqb db "app" then Ok tt else Err GUnknownDB)
    (Ok base_conn) documented_bool true true true true (fun _ => GOther "driver")
    log_queryer (pool_of log_queryer) q t.
(** The borrowed connection is SQLite's over the same content. *)
Definition demo_env : env (list string) :=
  env_of (demo_q documented_bool) (demo_tx documented_bool).

Definition demo_handler : handler :=
  New (Routing false false "" "") true
    [WithPolicy (Some (Authz.Grant (Authz.Grant (NewPolicy false) "app" "ann" Authz.ReadOnly) "app" "bob" Authz.ReadWrite));
     WithMaxBody 64; WithSessions true; WithAttach true [""; "bob"]%string].
Definition demo_request (who sql : string) : http_request :=
  HReq "POST" "/app/query" "localhost" (Body (bytes_of sql) false) (Some (MkPrincipal who "bearer" None)).
Definition demo_world : world (list string) :=
  World (Some (Limits.New (S754_zero false) 4)) [] 0 [] [].

Lemma routed_databases_are_valid_witness :
  ServeHTTP demo_handler (demo_request "bob" "") = DQuery "app" /\ ValidDBName "app" = true.
Proof.
  assert (E : ServeHTTP demo_handler (demo_request "bob" "") = DQuery "app") by reflexivity.
  split; [exact E|].
  destruct (proj1 (routed_databases_are_valid demo_handler (demo_request "bob" "") "app"))
    as (Hv & _); [rewrite E; reflexivity|exact Hv].
Defined.

Definition demo_handle (who sql : string) : world (list string) * response :=
  handleQuery (NewEngine 0 0) demo_decode demo_text demo_handler demo_env (demo_request who sql) "app" 0 demo_world.

Lemma query_is_balanced_witness :
  w_db (demo_handle "bob" "INSERT INTO t VALUES (1)").1 = ["INSERT INTO t VALUES (1)"%string] /\
  w_met (demo_handle "bob" "INSERT INTO t VALUES (1)").1 = [MInc "app" "bob"; MLatency "app"]%string /\
  w_refs (demo_handle "bob" "INSERT INTO t VALUES (1)").1 = 0.
Proof.
  split; [reflexivity|]. split; [reflexivity|].
  destruct (demo_handle "bob" "INSERT INTO t VALUES (1)") as [w' resp] eqn:E. cbn [fst].
  destruct (query_is_balanced (NewEngine 0 0) demo_decode demo_text demo_handler demo_env
    (demo_request "bob" "INSERT INTO t VALUES (1)") "app" 0 demo_world w' resp) as [H _]; [|exact E|exact H].
  intros l [= <-]. vm_compute. discriminate.
Defined.

Lemma readonly_query_is_contained_witness :
  (demo_handle "ann" "INSERT INTO t VALUES (1)").2 = writeDenied /\
  w_db (demo_handle "ann" "INSERT INTO t VALUES (1)").1 = [] /\
  w_pool (demo_handle "ann" "INSERT INTO t VALUES (1)").1 = [base_conn].
Proof.
  split; [reflexivity|]. split; [|reflexivity].
  destruct (demo_handle "ann" "INSERT INTO t VALUES (1)") as [w' resp] eqn:E. cbn [fst].
  destruct (readonly_query_is_contained (NewEngine 0 0) demo_decode demo_text demo_handler demo_env
    demo_sqlite (fun s => s) (fun _ => True) demo_sqlite_laws (conj (demo_drives_q _) (demo_drives_tx _))
    (demo_request "ann" "INSERT INTO t VALUES (1)") "app" 0 demo_world w' resp)
    as [H _]; [reflexivity|exact I|reflexivity|reflexivity|reflexivity|exact E|exact H].
Defined.

Lemma query_is_gated_witness :
  (demo_handle "eve" "SELECT 1").1 = demo_world /\
  payload_ (demo_handle "eve" "SELECT 1").2 = PError (APIError "forbidden: no access to this database" 0 0) None.
Proof.
  destruct (demo_handle "eve" "SELECT 1") as [w' resp] eqn:E. cbn [fst snd].
  destruct (query_is_gated (NewEngine 0 0) demo_decode demo_text demo_handler demo_env
    (demo_request "eve" "SELECT 1") "app" 0 demo_world w' resp E) as [_ H].
  destruct (H eq_refl) as [-> ->]. split; reflexivity.
Defined.
