(* ===== verification/Metrics.v ===== *)
(** * obs: the metrics registry

    [src/obs/metrics.go] and what [src/httpapi/handler.go] (meter) and
    [src/provision/provision.go] (Drop) feed it.  A gauge is a function of the state it
    samples; the number formats of the page are parameters. *)
From S2P Require Import Prelude GoStd Crypto Wire Authz Limits Session Config Hrana HttpApi.
From stdpp Require Import sorting.
#[local] Open Scope Z_scope.

Section Metrics.
Context {G : Type}.
Variable quote : string -> string.      (* %q *)
Variable seconds : Z -> string.         (* %g of a duration in seconds *)

Record registry := Registry {
  requests : gmap string Z; latSum : gmap string Z; latCount : gmap string Z; gauges : gmap string (G -> Z)
}.
Definition NewRegistry : registry := Registry ∅ ∅ ∅ ∅.

(** [m[k] += d] on an int64. *)
Definition bump (m : gmap string Z) (k : string) (d : Z) : gmap string Z := <[k := i64 (default 0 (m !! k) + d)]> m.
Definition IncRequests (r : registry) (db : string) : registry :=
  Registry (bump (requests r) db 1) (latSum r) (latCount r) (gauges r).
Definition ObserveLatency (r : registry) (db : string) (d : Z) : registry :=
  Registry (requests r) (bump (latSum r) db d) (bump (latCount r) db 1) (gauges r).
Definition Forget (r : registry) (db : string) : registry :=
  Registry (delete db (requests r)) (delete db (latSum r)) (delete db (latCount r)) (gauges r).
Definition SetGauge (r : registry) (name : string) (sample : option (G -> Z)) : registry :=
  Registry (requests r) (latSum r) (latCount r) (match sample with None => delete name (gauges r) | Some f => <[name := f]> (gauges r) end).

Definition str_le (x y : string) : Prop := String.leb x y = true.
#[local] Instance str_le_dec x y : Decision (str_le x y) := decide (String.leb x y = true).
#[local] Instance str_le_total : Total str_le.
Proof. intros a b. apply String.leb_total. Qed.
Definition sortedKeys {V} (m : gmap string V) : list string := merge_sort str_le (map_to_list m).*1.

Definition WritePrometheus (g : G) (r : registry) : string :=
  "# TYPE requests_total counter" +:+ nl +:+
  String.concat "" (map (fun db => "requests_total{db=" +:+ quote db +:+ "} " +:+ format_int (default 0 (requests r !! db)) +:+ nl) (sortedKeys (requests r))) +:+
  "# TYPE request_duration_seconds summary" +:+ nl +:+
  String.concat "" (map (fun db =>
     "request_duration_seconds_sum{db=" +:+ quote db +:+ "} " +:+ seconds (default 0 (latSum r !! db)) +:+ nl +:+
     "request_duration_seconds_count{db=" +:+ quote db +:+ "} " +:+ format_int (default 0 (latCount r !! db)) +:+ nl) (sortedKeys (latCount r))) +:+
  String.concat "" (map (fun n =>
     "# TYPE " +:+ n +:+ " gauge" +:+ nl +:+ n +:+ " " +:+ format_int (match gauges r !! n with Some f => f g | None => 0 end) +:+ nl) (sortedKeys (gauges r))).

(** What the request handlers recorded ([HttpApi.metric], each latency with its duration),
    and the series a detached database loses. *)
Inductive event : Type := EInc (db : string) | ELatency (db : string) (d : Z) | EForget (db : string).
Definition apply (r : registry) (e : event) : registry :=
  match e with EInc db => IncRequests r db | ELatency db d => ObserveLatency r db d | EForget db => Forget r db end.
Definition of_metric (d : Z) (m : metric) : event :=
  match m with MInc db _ => EInc db | MLatency db => ELatency db d end.

(** ** Counters are exact *)

(** The events on [db] since it was last forgotten. *)
Definition since (db : string) (es : list event) : list event :=
  fold_left (fun acc e => match e with
    | EForget x => if String.eqb x db then [] else acc
    | EInc x | ELatency x _ => if String.eqb x db then acc ++ [e] else acc
    end) es [].
Definition incs (es : list event) : Z := Z.of_nat (length (List.filter (fun e => match e with EInc _ => true | _ => false end) es)).
Definition lats (es : list event) : Z := Z.of_nat (length (List.filter (fun e => match e with ELatency _ _ => true | _ => false end) es)).
Definition total (es : list event) : Z := fold_right Z.add 0 (map (fun e => match e with ELatency _ d => d | _ => 0 end) es).
Definition series (k v : Z) : option Z := if k =? 0 then None else Some (i64 v).

Lemma i64_add a b : i64 (i64 a + b) = i64 (a + b).
Proof. unfold i64. replace ((a + two63) mod two64 - two63 + b + two63) with ((a + two63) mod two64 + b) by lia.
  rewrite Zplus_mod_idemp_l. do 2 f_equal. lia. Qed.
Lemma bump_series m db k v d : 0 <= k -> (k = 0 -> v = 0) -> m !! db = series k v -> bump m db d !! db = series (k + 1) (v + d).
Proof.
  intros Hk Hv Hm. unfold bump, series in *. rewrite lookup_insert_eq, Hm. destruct (Z.eqb_spec (k + 1) 0); [lia|].
  destruct (Z.eqb_spec k 0) as [E|]; cbn; [by rewrite (Hv E)|]. by rewrite i64_add.
Qed.
Lemma bump_other m db x d : x <> db -> bump m x d !! db = m !! db.
Proof. intros. unfold bump. by rewrite lookup_insert_ne. Qed.

(** (metrics) After any sequence of requests counted, latencies observed and databases
    forgotten, a database has a series exactly when something happened to it since it was
    last forgotten, and then the counter, the observation count and the latency sum are
    those of the events since, as 64-bit integers; and the page lists each series once, in
    byte order. *)
Theorem counters_are_exact es db :
  let r := fold_left apply es NewRegistry in let s := since db es in
  requests r !! db = series (incs s) (incs s) /\ latCount r !! db = series (lats s) (lats s) /\
  latSum r !! db = series (lats s) (total s) /\
  NoDup (sortedKeys (requests r)) /\ Sorted str_le (sortedKeys (requests r)) /\
  (db ∈ sortedKeys (requests r) <-> incs s <> 0) /\ gauges r = ∅.
Proof.
  intros r s.
  assert (H : requests r !! db = series (incs s) (incs s) /\ latCount r !! db = series (lats s) (lats s) /\
    latSum r !! db = series (lats s) (total s) /\ (lats s = 0 -> total s = 0) /\ gauges r = ∅).
  { subst r s. unfold since. induction es as [|e es IH] using rev_ind; [done|]. rewrite !fold_left_app. cbn [fold_left].
    destruct IH as (I1 & I2 & I3 & I4 & I5). set (r := fold_left apply es NewRegistry) in *. set (s := fold_left _ es []) in *.
    assert (Hz : 0 <= incs s /\ 0 <= lats s) by (unfold incs, lats; lia). destruct Hz as [Hi Hl].
    assert (Ha : forall a b, incs (a ++ b) = incs a + incs b /\ lats (a ++ b) = lats a + lats b /\ total (a ++ b) = total a + total b).
    { intros a b. unfold incs, lats, total. rewrite !List.filter_app, !length_app, map_app, fold_right_app. split; [lia|]. split; [lia|].
      generalize (fold_right Z.add 0 (map (fun e => match e with ELatency _ d => d | _ => 0 end) b)). intros z.
      induction (map _ a) as [|x l IH]; cbn; lia. }
    destruct e as [x|x d|x]; cbn [apply]; destruct (String.eqb_spec x db) as [->|Hne].
    - destruct (Ha s [EInc db]) as (-> & -> & ->). change (incs [EInc db]) with 1. change (lats [EInc db]) with 0. change (total [EInc db]) with 0.
      rewrite !Z.add_0_r. cbn. split; [by apply bump_series|]. done.
    - cbn. rewrite bump_other by done. done.
    - destruct (Ha s [ELatency db d]) as (-> & -> & ->). change (incs [ELatency db d]) with 0. change (lats [ELatency db d]) with 1.
      change (total [ELatency db d]) with (d + 0). rewrite !Z.add_0_r. cbn. split; [done|]. split; [by apply bump_series|]. split; [by apply bump_series|]. split; [lia|done].
    - cbn. rewrite !bump_other by done. done.
    - cbn. rewrite !lookup_delete_eq. done.
    - cbn. rewrite !lookup_delete_ne by done. done. }
  destruct H as (H1 & H2 & H3 & _ & H5). split; [done|]. split; [done|]. split; [done|]. unfold sortedKeys. split.
  { rewrite merge_sort_Permutation. apply NoDup_fst_map_to_list. }
  split; [apply (Sorted_merge_sort str_le)|]. split; [|done]. rewrite merge_sort_Permutation. rewrite list_elem_of_fmap. split.
  - intros ([k v] & -> & Hin%elem_of_map_to_list). cbn in *. rewrite Hin in H1. unfold series in H1. by destruct (Z.eqb_spec (incs s) 0).
  - intros Hn. exists (db, i64 (incs s)). split; [done|]. apply elem_of_map_to_list. rewrite H1. unfold series. by destruct (Z.eqb_spec (incs s) 0).
Qed.

(** [Forget] drops a detached database's series, but a request gives its registry reference
    back before it reports its latency: the database can be detached in between, and the
    series reappears for a database that is no longer served. *)
Lemma latency_revives_forgotten_series {X} db (w1 : HttpApi.world X) d :
  let es := map (of_metric d) (w_met w1) ++ [EForget db] ++ map (of_metric d) (drop (length (w_met w1)) (w_met (done true db w1))) in
  latCount (fold_left apply es NewRegistry) !! db = Some 1.
Proof.
  intros es. destruct (counters_are_exact es db) as (_ & H & _). rewrite H. subst es. clear H.
  assert (E : drop (length (w_met w1)) (w_met (done true db w1)) = [MLatency db]) by (cbn [done w_met]; apply drop_app_length).
  rewrite E. unfold since. rewrite fold_left_app. cbn [fold_left app map of_metric]. rewrite String.eqb_refl. done.
Qed.
End Metrics.
