(* ===== verification/Envelope.v ===== *)
(** * The JSON envelopes of the wire

    [src/httpjson/httpjson.go], the struct tags of [src/httpapi/native.go] and
    [hrana_types.go].  Decoding into a Go struct is a walk over the members of the object:
    a member whose key matches a field (exactly or by case folding) is decoded into it, the
    last one wins, [null] leaves a scalar alone and empties a pointer or a slice, and any
    other type is an error.  Encoding writes the members in field order. *)
From S2P Require Import Prelude GoStd Crypto Wire Engine Session Hrana HttpApi.

(** ** Decoding into structs *)

Section Decode.
Context {A : Type}.
Implicit Types (dec : A -> json -> result wire_err A) (kvs : list (string * json)).

Fixpoint field (name : string) dec (cur : A) kvs : result wire_err A :=
  match kvs with
  | [] => Ok cur
  | (k, v) :: r => if key_matches name k then let* x := dec cur v in field name dec x r else field name dec cur r
  end.
(** Into a pointer field: the target starts at its zero value. *)
Definition dec_ptr (zero : A) dec (cur : option A) (v : json) : result wire_err (option A) :=
  match v with
  | JNull => Ok None
  | _ => let* x := dec (default zero cur) v in Ok (Some x)
  end.
(** Into a slice: each element is decoded from its zero value. *)
Fixpoint dec_elems (zero : A) dec (l : list json) : result wire_err (list A) :=
  match l with
  | [] => Ok []
  | v :: r => let* x := dec zero v in let* xs := dec_elems zero dec r in Ok (x :: xs)
  end.
Definition dec_slice (zero : A) dec (cur : list A) (v : json) : result wire_err (list A) :=
  match v with
  | JNull => Ok []
  | JArr l => dec_elems zero dec l
  | _ => Err ErrJSON
  end.
Definition members (v : json) : result wire_err (list (string * json)) :=
  match v with JObj kvs => Ok kvs | JNull => Ok [] | _ => Err ErrJSON end.

Lemma dec_elems_map {B} zero dec (f : B -> json) (g : B -> A) l :
  (forall b, b ∈ l -> dec zero (f b) = Ok (g b)) -> dec_elems zero dec (map f l) = Ok (map g l).
Proof.
  induction l as [|b l IH]; intros H; [done|]. cbn. rewrite H by left. cbn. rewrite IH; [done|].
  intros c Hc. apply H. by right.
Qed.
End Decode.

Definition dec_string (cur : string) (v : json) : result wire_err string :=
  match v with JStr s => Ok s | JNull => Ok cur | _ => Err ErrJSON end.
Definition dec_bool (cur : bool) (v : json) : result wire_err bool :=
  match v with JBool b => Ok b | JNull => Ok cur | _ => Err ErrJSON end.
Definition dec_int64 (cur : Z) (v : json) : result wire_err Z :=
  match v with JNum lit => of_opt ErrJSON (parse_int64 lit) | JNull => Ok cur | _ => Err ErrJSON end.
(** [json.RawMessage] keeps the document. *)
Definition dec_raw (cur v : json) : result wire_err json := Ok v.
Definition dec_rows (cur : list (list json)) (v : json) : result wire_err (list (list json)) :=
  dec_slice [] (dec_slice JNull dec_raw) cur v.

Lemma dec_ptr_some {A} (zero : A) dec cur v : v <> JNull -> dec_ptr zero dec cur v = let* x := dec (default zero cur) v in Ok (Some x).
Proof. by destruct v. Qed.
Lemma dec_ptr_string cur (o : option string) : dec_ptr EmptyString dec_string cur (match o with Some x => marshal_string x | None => JNull end) =
  Ok (utf8_coerce <$> o).
Proof. by destruct o. Qed.
Lemma field_nil {A} name (dec : A -> json -> result wire_err A) cur : field name dec cur [] = Ok cur.
Proof. done. Qed.
Lemma field_hit {A} name k (dec : A -> json -> result wire_err A) cur v r : key_matches name k = true ->
  field name dec cur ((k, v) :: r) = let* x := dec cur v in field name dec x r.
Proof. intros H. cbn. by rewrite H. Qed.
Lemma field_miss {A} name k (dec : A -> json -> result wire_err A) cur v r : key_matches name k = false ->
  field name dec cur ((k, v) :: r) = field name dec cur r.
Proof. intros H. cbn. by rewrite H. Qed.
(** Walks a field over a document whose keys are known. *)
Ltac walk :=
  repeat first
    [ rewrite field_hit by reflexivity; cbn [rbind]
    | rewrite field_miss by reflexivity
    | rewrite field_nil ]; cbn [rbind].

Lemma dec_int64_format n cur : in_i64 n -> dec_int64 cur (JNum (format_int n)) = Ok n.
Proof. intros Hn. cbn. by rewrite parse_format_int. Qed.

Lemma dec_rows_map rows cur : dec_rows cur (JArr (map JArr rows)) = Ok rows.
Proof.
  unfold dec_rows, dec_slice. rewrite (dec_elems_map _ _ JArr (fun r => r)); [by rewrite map_id|]. intros r _.
  rewrite <- (map_id r) at 1. rewrite (dec_elems_map _ _ (fun j => j) (fun j => j)); [by rewrite map_id|done].
Qed.
Lemma dec_strings l cur : dec_slice EmptyString dec_string cur (JArr (map marshal_string l)) = Ok (map utf8_coerce l).
Proof. by apply dec_elems_map. Qed.

(** ** What the server writes *)

Definition jbool_omit (name : string) (b : bool) : list (string * json) := if b then [(name, JBool true)] else [].
Definition jint_omit (name : string) (n : Z) : list (string * json) := if n =? 0 then [] else [(name, JNum (format_int n))].
Definition jptr {A} (f : A -> json) (o : option A) : json := match o with Some x => f x | None => JNull end.

Lemma field_omit_miss {A} name k (dec : A -> json -> result wire_err A) cur b : key_matches name k = false ->
  field name dec cur (jbool_omit k b) = Ok cur.
Proof. intros H. destruct b; [|done]. cbn. by rewrite H. Qed.
Lemma field_omit_hit name k b : key_matches name k = true -> field name dec_bool false (jbool_omit k b) = Ok b.
Proof. intros H. destruct b; [|done]. cbn. by rewrite H. Qed.

(** [httpjson.Error] and the richer envelope of the data plane. *)
Definition Error (msg : string) : json := JObj [("error", JObj [("message", marshal_string msg)])]%string.
Definition marshal_apiError (e : apiError) : json :=
  JObj (("message"%string, marshal_string (a_message e)) :: jint_omit "code" (a_code e) ++ jint_omit "extended_code" (a_extended e)).
Definition marshal_errorEnvelope (e : apiError) (failed : option nat) : json :=
  JObj (("error"%string, marshal_apiError e) ::
        match failed with Some i => [("failed_index"%string, JNum (format_int (Z.of_nat i)))] | None => [] end).

Definition marshal_resultJSON (r : resultJSON) : json :=
  JObj ([("columns", JArr (map marshal_string (j_columns r))); ("rows", JArr (map JArr (j_rows r)));
         ("rows_affected", JNum (format_int (j_affected r))); ("last_insert_id", JNum (format_int (j_lastid r)))]%string
        ++ jbool_omit "truncated" (j_truncated r)).

Section Marshal.
Context `{FT : FloatText}.

Definition marshal_hCol (c : hCol) : json :=
  JObj [("name", jptr marshal_string (c_name c)); ("decltype", jptr marshal_string (c_decltype c))]%string.
Definition marshal_hStmtResult (r : hStmtResult) : json :=
  JObj ([("cols", JArr (map marshal_hCol (cols r))); ("rows", JArr (map (fun row => JArr (map HranaValue_MarshalJSON row)) (rows r)));
         ("affected_row_count", JNum (format_int (affected_row_count r)));
         ("last_insert_rowid", jptr marshal_string (last_insert_rowid r))]%string
        ++ jbool_omit "truncated" (truncated r)).
Definition marshal_hError (e : hError) : json :=
  JObj [("message", marshal_string (message e)); ("code", jptr marshal_string (code e))]%string.
Definition marshal_hBatchResult (b : hBatchResult) : json :=
  JObj [("step_results", JArr (map (jptr marshal_hStmtResult) (step_results b)));
        ("step_errors", JArr (map (jptr marshal_hError) (step_errors b)))]%string.
Definition marshal_hDescribe (d : hDescribeResult) : json :=
  JObj [("params", JArr (map (fun p => JObj [("name"%string, jptr marshal_string p)]) (d_params d)));
        ("cols", JArr (map marshal_hCol (d_cols d))); ("is_explain", JBool (is_explain d)); ("is_readonly", JBool (is_readonly d))]%string.
Definition marshal_response (x : Hrana.response) : json :=
  match x with
  | executeResp r => JObj [("type", JStr "execute"); ("result", marshal_hStmtResult r)]
  | batchResp b => JObj [("type", JStr "batch"); ("result", marshal_hBatchResult b)]
  | describeResp d => JObj [("type", JStr "describe"); ("result", marshal_hDescribe d)]
  | getAutocommitResp b => JObj [("type", JStr "get_autocommit"); ("is_autocommit", JBool b)]
  | changesetResp c => JObj [("type", JStr "session_changeset"); ("changeset", marshal_string c)]
  | simpleResp k => JObj [("type", marshal_string k)]
  end%string.
Definition marshal_streamResult (r : streamResult) : json :=
  match r with
  | okStream x => JObj [("type", JStr "ok"); ("response", marshal_response x)]
  | errStream e => JObj [("type", JStr "error"); ("error", marshal_hError e)]
  end%string.
Definition marshal_pipelineResp (baton : option string) (rs : list streamResult) : json :=
  JObj [("baton", jptr marshal_string baton); ("base_url", JNull); ("results", JArr (map marshal_streamResult rs))]%string.
End Marshal.

(** ** What the server reads *)

Section Unmarshal.
Context `{FT : FloatText}.

Definition dec_hvalue (cur : value) (v : json) : result wire_err value := HranaValue_UnmarshalJSON v.
Definition in_i32 (n : Z) : bool := (- 2147483648 <=? n) && (n <=? 2147483647).
Definition dec_int32 (cur : Z) (v : json) : result wire_err Z :=
  let* n := dec_int64 cur v in if in_i32 n then Ok n else Err ErrJSON.
Definition dec_named (cur : string * value) (v : json) : result wire_err (string * value) :=
  let* kvs := members v in
  let* n := field "name" dec_string cur.1 kvs in
  let* x := field "value" dec_hvalue cur.2 kvs in Ok (n, x).
Definition zero_stmt : hStmt := HStmt None None [] [] None.
Definition dec_hStmt (cur : hStmt) (v : json) : result wire_err hStmt :=
  let* kvs := members v in
  let* q := field "sql" (dec_ptr EmptyString dec_string) (h_sql cur) kvs in
  let* i := field "sql_id" (dec_ptr 0 dec_int32) (h_sqlid cur) kvs in
  let* a := field "args" (dec_slice VNull dec_hvalue) (h_args cur) kvs in
  let* n := field "named_args" (dec_slice (EmptyString, VNull) dec_named) (h_named cur) kvs in
  let* w := field "want_rows" (dec_ptr false dec_bool) (h_want_rows cur) kvs in
  Ok (HStmt q i a n w).

(** [fuel] bounds the nesting of the document. *)
Fixpoint dec_cond (fuel : nat) (cur : hBatchCond) (v : json) : result wire_err hBatchCond :=
  match fuel with
  | O => Err ErrJSON
  | S n =>
      let zero := Cond "" None None [] in
      let 'Cond t s c l := cur in
      let* kvs := members v in
      let* t := field "type" dec_string t kvs in
      let* s := field "step" (dec_ptr 0 dec_int32) s kvs in
      let* c := field "cond" (dec_ptr zero (dec_cond n)) c kvs in
      let* l := field "conds" (dec_slice zero (dec_cond n)) l kvs in
      Ok (Cond t s c l)
  end.
Definition zero_step : hBatchStep := HStep None zero_stmt.
Definition dec_step (fuel : nat) (cur : hBatchStep) (v : json) : result wire_err hBatchStep :=
  let* kvs := members v in
  let* c := field "condition" (dec_ptr (Cond "" None None []) (dec_cond fuel)) (condition cur) kvs in
  let* s := field "stmt" dec_hStmt (stmt cur) kvs in Ok (HStep c s).
Definition dec_hBatch (fuel : nat) (cur : hBatch) (v : json) : result wire_err hBatch :=
  let* kvs := members v in field "steps" (dec_slice zero_step (dec_step fuel)) cur kvs.
Definition zero_request : streamRequest := StreamRequest "" None None None None [].
Definition dec_streamRequest (fuel : nat) (cur : streamRequest) (v : json) : result wire_err streamRequest :=
  let* kvs := members v in
  let* t := field "type" dec_string (s_type cur) kvs in
  let* st := field "stmt" (dec_ptr zero_stmt dec_hStmt) (s_stmt cur) kvs in
  let* b := field "batch" (dec_ptr [] (dec_hBatch fuel)) (s_batch cur) kvs in
  let* q := field "sql" (dec_ptr EmptyString dec_string) (s_sql cur) kvs in
  let* i := field "sql_id" (dec_ptr 0 dec_int32) (s_sqlid cur) kvs in
  let* tb := field "tables" (dec_slice EmptyString dec_string) (s_tables cur) kvs in
  Ok (StreamRequest t st b q i tb).
(** [pipelineReq] and [cursorReq]. *)
Definition unmarshal_pipelineReq (fuel : nat) (v : json) : result wire_err (option string * list streamRequest) :=
  let* kvs := members v in
  let* b := field "baton" (dec_ptr EmptyString dec_string) None kvs in
  let* rs := field "requests" (dec_slice zero_request (dec_streamRequest fuel)) [] kvs in Ok (b, rs).
Definition unmarshal_cursorReq (fuel : nat) (v : json) : result wire_err (option string * option hBatch) :=
  let* kvs := members v in
  let* b := field "baton" (dec_ptr EmptyString dec_string) None kvs in
  let* rs := field "batch" (dec_ptr [] (dec_hBatch fuel)) None kvs in Ok (b, rs).
End Unmarshal.

Definition dec_statementJSON (cur : string * list json) (v : json) : result wire_err (string * list json) :=
  let* kvs := members v in
  let* q := field "sql" dec_string cur.1 kvs in
  let* a := field "args" (dec_slice JNull dec_raw) cur.2 kvs in Ok (q, a).
Definition unmarshal_queryRequest (v : json) : result wire_err queryRequest :=
  let* kvs := members v in
  let* q := field "sql" dec_string "" kvs in
  let* a := field "args" (dec_slice JNull dec_raw) [] kvs in
  let* s := field "statements" (dec_slice (EmptyString, []) dec_statementJSON) [] kvs in
  Ok (QueryRequest q a s).
