(* ===== verification/Endpoints.v ===== *)
(** * httpapi: changesets, exports and backups

    [src/httpapi/changeset.go], [export.go], [backup.go]: the endpoints that hand whole
    byte strings to or from the driver.  The driver's operations ([ApplyChangeset],
    [Serialize], the online backup) answer through [driver]; the state a request works on
    is [HttpApi.world] over [data]: the database's content with what the process holds
    besides it (borrowed connections, export slots, temporary files, backup handles). *)
From S2P Require Import Prelude GoStd Crypto Wire Authz Limits Session Config Hrana HttpApi Envelope.
From Stdlib Require Import Floats.SpecFloat.

(** ** Requests and replies *)

(** [url.Values.Get] and the values of a key. *)
Fixpoint query_all (q : values) (k : string) : list string :=
  match q with [] => [] | (k', v) :: r => if String.eqb k' k then v :: query_all r k else query_all r k end.
Definition query_get (q : values) (k : string) : string := default "" (head (query_all q k)).

Inductive reply : Type :=
| Plain (r : HttpApi.response)
| Json (st : Z) (j : json)
| Bytes (filename : option string) (length : option Z) (b : list byte)   (* 200, an octet stream *)
| Nothing.                                                               (* the handler wrote nothing *)
Definition fail (st : Z) (msg : string) : reply := Plain (writeErr st msg).
Definition status_ok : json := JObj [("status", JStr "ok")]%string.
Definition reply_status (x : reply) : Z :=
  match x with Plain r => status r | Json st _ => st | Bytes _ _ _ | Nothing => 200 end.

(** The part of the handler these endpoints add. *)
Record data_handler := DataHandler { base : handler; maxBlob : Z; maxExport : Z }.
Definition defaultMaxBlob : Z := 2 ^ 30.
Definition defaultMaxExport : Z := 2 ^ 30.
Definition maxConcurrentExports : Z := 4.
Definition NewData (h : handler) (opts : list (data_handler -> data_handler)) : data_handler :=
  fold_left (fun d o => o d) opts (DataHandler h defaultMaxBlob defaultMaxExport).
Definition WithMaxBlob (n : Z) (d : data_handler) : data_handler :=
  if n >? 0 then DataHandler (base d) n (maxExport d) else d.
Definition WithMaxExport (n : Z) (d : data_handler) : data_handler := DataHandler (base d) (maxBlob d) n.

(** [done, ok := h.meter(...); if !ok { return }; defer done()]. *)
Definition admitted {X} (h : handler) (known : bool) (r : http_request) (db : string) (now : Z) (w : world X)
    (k : world X -> world X * reply) : world X * reply :=
  match meter h known r db now w with
  | (w1, Err resp) => (w1, Plain resp)
  | (w1, Ok metered) => let '(w2, rp) := k w1 in (done metered db w2, rp)
  end.
Definition opened {X} (got : result geterr unit) (w : world X) (k : world X -> world X * reply) : world X * reply :=
  match got with
  | Err x => (w, Plain (writeGetError x))
  | Ok _ => let '(w1, rp) := k (add_ref w 1) in (add_ref w1 (-1), rp)
  end.

(** The limiter is left as it was found. *)
Definition lim_balanced {X} (w w' : world X) : Prop :=
  forall l d, w_lim w = Some l -> exists l', w_lim w' = Some l' /\ InFlight l' d = InFlight l d.
Definition allowed {X} (w : world X) (r : http_request) (db : string) (now : Z) : Prop :=
  forall l, w_lim w = Some l -> (Allow l (Authz.Name (FromContext (q_principal r))) db now).1 = Admitted_.
Lemma admitted_cases {X} h known r db now (w : world X) k w' rp :
  (forall l, w_lim w = Some l -> 0 <= InFlight l db) -> admitted h known r db now w k = (w', rp) ->
  (w_db w' = w_db w /\ w_refs w' = w_refs w /\ w_pool w' = w_pool w /\ lim_balanced w w' /\
   exists e, rp = Plain e /\ (status e = 429 \/ status e = 503)) \/
  (allowed w r db now /\ exists w1 w2, k w1 = (w2, rp) /\
     w_db w1 = w_db w /\ w_refs w1 = w_refs w /\ w_pool w1 = w_pool w /\
     w_db w' = w_db w2 /\ w_refs w' = w_refs w2 /\ w_pool w' = w_pool w2 /\ (w_lim w2 = w_lim w1 -> lim_balanced w w')).
Proof.
  intros Hpos. unfold admitted, meter, allowed, lim_balanced. set (p := Authz.Name _).
  destruct (w_lim w) as [l|] eqn:Hl.
  - pose proof (Allow_inflight l p db now) as Ha. destruct (Allow l p db now) as [[] l'] eqn:Ea.
    + destruct (k _) as [w2 rp2] eqn:Ek. intros [= <- <-]. right. split; [intros l0 [= <-]; by rewrite Ea|].
      eexists _, w2. split; [exact Ek|]. cbn [w_db w_refs w_pool w_lim done]. do 6 (split; [done|]).
      intros Hsame l0 d [= <-]. rewrite Hsame. cbn [option_map]. eexists. split; [done|].
      specialize (Ha d) as Hd. specialize (Ha db). rewrite decide_True in Ha by done. specialize (Hpos l eq_refl).
      unfold InFlight in *. unfold Limits.release. rewrite Ha, (proj2 (Z.ltb_lt _ _)) by lia. cbn [set_inflight inflight].
      rewrite zget_insert. destruct (decide (db = d)) as [<-|]; lia.
    + intros [= <- <-]. left. do 3 (split; [done|]). split; [|eexists; split; [done|by left]].
      intros l0 d [= <-]. exists l'. split; [done|]. apply Ha.
    + intros [= <- <-]. left. do 3 (split; [done|]). split; [|eexists; split; [done|by right]].
      intros l0 d [= <-]. exists l'. split; [done|]. apply Ha.
  - destruct (k _) as [w2 rp2] eqn:Ek. intros [= <- <-]. right. split; [done|]. eexists _, w2. split; [exact Ek|].
    cbn [w_db w_refs w_pool w_lim done]. do 6 (split; [done|]). done.
Qed.

(** What admission does to the database: nothing. *)
Lemma admitted_db {X} h known r db now (w : world X) k w' rp : admitted h known r db now w k = (w', rp) ->
  (w_db w' = w_db w /\ exists e, rp = Plain e /\ (status e = 429 \/ status e = 503)) \/
  exists w1 w2, k w1 = (w2, rp) /\ w_db w1 = w_db w /\ w_db w' = w_db w2.
Proof.
  unfold admitted, meter. destruct (w_lim w) as [l|]; [destruct (Allow _ _ _ _) as [[] l']|].
  2, 3: intros [= <- <-]; left; split; [done|]; eexists; by auto.
  all: destruct (k _) as [w2 rp2] eqn:Ek; intros [= <- <-]; right; by eexists _, w2.
Qed.

(** ** The driver and what is held of it *)

Inductive conflict_type : Type := ConflictData | ConflictNotFound | ConflictConflict | ConflictConstraint | ConflictForeignKey.
Inductive conflict_action : Type := ChangesetOmit | ChangesetReplace | ChangesetAbort.
Record apply_options := ApplyOptions {
  handler_ : option (conflict_type -> conflict_action); filter_ : option (string -> bool)
}.

Record data (S : Type) := Data { content : S; conns : Z; exports : Z; temps : Z; backups : Z }.
Arguments Data {S}. Arguments content {S}. Arguments conns {S}. Arguments exports {S}. Arguments temps {S}. Arguments backups {S}.

(** What one step of the online backup answers: whether the context is done before it, and
    whether pages are left. *)
Record backup_step := BStep { ctx_done : bool; stepped : result string bool }.
Record driver (S : Type) := Driver {
  known_ : string -> bool;
  get_ : string -> result geterr unit;
  get_text : geterr -> string;             (* err.Error() of a failed open *)
  conn_ : result string unit;              (* Handle.Conn *)
  is_sqlite : bool;                        (* the raw connection is a *sqlite.Conn *)
  apply_cs : S -> list byte -> apply_options -> S * result string unit;
  invert_cs : S -> list byte -> result string (list byte);
  concat_cs : S -> list byte -> list byte -> result string (list byte);
  image_size : S -> result string Z;       (* page_count * page_size *)
  serialize : S -> result string (list byte);
  slot : bool;                             (* an export slot comes before the context is done *)
  temp_file : bool;                        (* CreateTemp *)
  dest_open : result string unit; dest_conn : result string unit;
  backup_init : result string unit;
  backup_steps : list backup_step;         (* the answers of the loop's iterations, in order *)
  backup_finish : result string unit;
  image : S -> list byte;                  (* what a finished backup leaves in the file *)
  reopen : bool                            (* os.Open of the finished file *)
}.
Arguments known_ {S}. Arguments get_ {S}. Arguments get_text {S}. Arguments conn_ {S}. Arguments is_sqlite {S}.
Arguments apply_cs {S}. Arguments invert_cs {S}. Arguments concat_cs {S}. Arguments image_size {S}. Arguments serialize {S}.
Arguments slot {S}. Arguments temp_file {S}. Arguments dest_open {S}. Arguments dest_conn {S}. Arguments backup_init {S}.
Arguments backup_steps {S}. Arguments backup_finish {S}. Arguments image {S}. Arguments reopen {S}.

Definition upd {S} (w : world (data S)) (f : data S -> data S) : world (data S) := set_db w (f (w_db w)).
Definition with_content {S} (s : S) (d : data S) : data S := Data s (conns d) (exports d) (temps d) (backups d).
Definition add_conn {S} (n : Z) (d : data S) : data S := Data (content d) (conns d + n) (exports d) (temps d) (backups d).
Definition add_export {S} (n : Z) (d : data S) : data S := Data (content d) (conns d) (exports d + n) (temps d) (backups d).
Definition add_temp {S} (n : Z) (d : data S) : data S := Data (content d) (conns d) (exports d) (temps d + n) (backups d).
Definition add_backup {S} (n : Z) (d : data S) : data S := Data (content d) (conns d) (exports d) (temps d) (backups d + n).

Section Endpoints.
Context {S : Type} (dh : data_handler) (v : driver S).
(** [json.Unmarshal] of the concat body: its two members. *)
Variable decode_pair : list byte -> result string (string * string).
Variable quote : string -> string.   (* strconv.Quote *)
Notation W := (world (data S)).

(** ** Changesets *)

(** The non-empty names of a comma-separated list, white space around them dropped. *)
Definition table_names (raw : string) : list string :=
  List.filter (fun n => negb (String.eqb n "")) (map trim_space (split_char "," raw)).

Definition replace_policy (t : conflict_type) : conflict_action :=
  match t with ConflictData | ConflictConflict => ChangesetReplace | _ => ChangesetOmit end.

Definition changesetApplyOptions (q : values) : result string apply_options :=
  let pol := query_get q "on_conflict" in
  let* hd :=
    (if mem_string pol [""; "abort"]%string then Ok None
     else if String.eqb pol "omit" then Ok (Some (fun _ => ChangesetOmit))
     else if String.eqb pol "replace" then Ok (Some replace_policy)
     else Err ("on_conflict must be abort|omit|replace, got " +:+ quote pol)) in
  let raw := query_get q "tables" in
  Ok (ApplyOptions hd (if String.eqb raw "" then None else Some (fun t => mem_string t (table_names raw)))).

(** [onConn]: every failure, the registry's included, comes back as one error text. *)
Definition onConn {A} (db : string) (fn : S -> S * result string A) (w : W) : W * result string A :=
  match get_ v db with
  | Err x => (w, Err (get_text v x))
  | Ok _ =>
      let w1 := add_ref w 1 in
      match conn_ v with
      | Err m => (add_ref w1 (-1), Err m)
      | Ok _ =>
          let w2 := upd w1 (add_conn 1) in
          let '(w3, r) :=
            if is_sqlite v then let '(s', r) := fn (content (w_db w2)) in (upd w2 (with_content s'), r)
            else (w2, Err "connection is not *sqlite.Conn"%string) in
          (add_ref (upd w3 (add_conn (-1))) (-1), r)
      end
  end.

(** A changeset endpoint reads the whole body first. *)
Definition with_body (r : http_request) (w : W) (k : list byte -> W -> W * reply) : W * reply :=
  match readBody (base dh) (q_body r) with Err x => (w, Plain (writeReadBodyErr x)) | Ok b => k b w end.
Definition nonempty (cs : list byte) (w : W) (k : W -> W * reply) : W * reply :=
  match cs with [] => (w, fail 400 "empty changeset") | _ => k w end.

Definition handleChangesetApply (r : http_request) (q : values) (db : string) (now : Z) (w : W) : W * reply :=
  if negb (String.eqb (q_method r) "POST") then (w, fail 405 "use POST") else
  match authorize (base dh) r db with
  | Err resp => (w, Plain resp)
  | Ok lvl =>
      if negb (CanWrite lvl) then (w, Plain writeDenied) else
      admitted (base dh) (known_ v db) r db now w (fun w => with_body r w (fun cs w => nonempty cs w (fun w =>
        match changesetApplyOptions q with
        | Err m => (w, fail 400 m)
        | Ok opts =>
            match onConn db (fun s => apply_cs v s cs opts) w with
            | (w', Err m) => (w', fail 422 ("apply changeset: " +:+ m))
            | (w', Ok _) => (w', Json 200 status_ok)
            end
        end)))
  end.

Definition handleChangesetInvert (r : http_request) (db : string) (now : Z) (w : W) : W * reply :=
  if negb (String.eqb (q_method r) "POST") then (w, fail 405 "use POST") else
  match authorize (base dh) r db with
  | Err resp => (w, Plain resp)
  | Ok _ =>
      admitted (base dh) (known_ v db) r db now w (fun w => with_body r w (fun cs w => nonempty cs w (fun w =>
        match onConn db (fun s => (s, invert_cs v s cs)) w with
        | (w', Err m) => (w', fail 422 ("invert changeset: " +:+ m))
        | (w', Ok out) => (w', Bytes None None out)
        end)))
  end.

Definition handleChangesetConcat (r : http_request) (db : string) (now : Z) (w : W) : W * reply :=
  if negb (String.eqb (q_method r) "POST") then (w, fail 405 "use POST") else
  match authorize (base dh) r db with
  | Err resp => (w, Plain resp)
  | Ok _ =>
      admitted (base dh) (known_ v db) r db now w (fun w => with_body r w (fun body w =>
        match decode_pair body with
        | Err m => (w, fail 400 ("invalid JSON: " +:+ m))
        | Ok (ta, tb) =>
            match b64_decode StdEncoding ta, b64_decode StdEncoding tb with
            | Some a, Some b =>
                match onConn db (fun s => (s, concat_cs v s a b)) w with
                | (w', Err m) => (w', fail 422 ("concat changesets: " +:+ m))
                | (w', Ok out) => (w', Bytes None None out)
                end
            | _, _ => (w, fail 400 "invalid base64 changeset")
            end
        end))
  end.

(** ** Exports and backups *)

(** The slot of [exportSem], or the end of the context while waiting for one. *)
Definition with_slot (msg : string) (w : W) (k : W -> W * reply) : W * reply :=
  if slot v && (exports (w_db w) <? maxConcurrentExports)
  then let '(w1, rp) := k (upd w (add_export 1)) in (upd w1 (add_export (-1)), rp)
  else (w, fail 503 msg).

Definition export_image (db : string) (w : W) : W * reply :=
  let send w := match serialize v (content (w_db w)) with
                | Err _ => (w, fail 500 "export failed")
                | Ok b => (w, Bytes (Some (db +:+ ".sqlite")) None b)
                end in
  if maxExport dh >? 0 then
    match image_size v (content (w_db w)) with
    | Err _ => (w, fail 500 "export: could not determine database size")
    | Ok n => if n >? maxExport dh then (w, fail 413 "database too large to export") else send w
    end
  else send w.

Definition handleExport (r : http_request) (db : string) (now : Z) (w : W) : W * reply :=
  if negb (String.eqb (q_method r) "GET") then (w, fail 405 "use GET") else
  match authorize (base dh) r db with
  | Err resp => (w, Plain resp)
  | Ok _ =>
      admitted (base dh) (known_ v db) r db now w (fun w => with_slot "too many concurrent exports" w (fun w =>
        opened (get_ v db) w (export_image db)))
  end.

(** The copy loop; every way out finishes the backup handle.  A list that ends first stands
    for a context that is done by the next iteration. *)
Fixpoint backup_loop (steps : list backup_step) : result string unit :=
  match steps with
  | [] => Err "context canceled"%string
  | st :: rest =>
      if ctx_done st then Err "context canceled"%string
      else match stepped st with
           | Err m => Err m
           | Ok true => backup_loop rest
           | Ok false => backup_finish v
           end
  end.

Definition backupTo (w : W) : W * result string unit :=
  match dest_open v with
  | Err m => (w, Err ("open dest: " +:+ m))
  | Ok _ =>
      match conn_ v with
      | Err m => (w, Err m)
      | Ok _ =>
          let w1 := upd w (add_conn 1) in
          let close w := upd w (add_conn (-1)) in
          match dest_conn v with
          | Err m => (close w1, Err m)
          | Ok _ =>
              let w2 := upd w1 (add_conn 1) in
              let close2 w := close (close w) in
              if negb (is_sqlite v) then (close2 w2, Err "source connection is not *sqlite.Conn"%string) else
              match backup_init v with
              | Err m => (close2 w2, Err m)
              | Ok _ =>
                  let w3 := upd w2 (add_backup 1) in
                  let out := backup_loop (backup_steps v) in
                  (close2 (upd w3 (add_backup (-1))), out)
              end
          end
      end
  end.

Definition backup_file (db : string) (w : W) : W * reply :=
  if negb (temp_file v) then (w, fail 500 "backup: cannot create temp file") else
  let w1 := upd w (add_temp 1) in
  let '(w2, out) := backupTo w1 in
  let rp := match out with
            | Err _ => fail 500 "backup failed"
            | Ok _ => if reopen v then let b := image v (content (w_db w2)) in
                                       Bytes (Some (db +:+ ".sqlite")) (Some (Z.of_nat (length b))) b
                      else fail 500 "backup: cannot read image"
            end in
  (upd w2 (add_temp (-1)), rp).

Definition handleBackup (r : http_request) (db : string) (now : Z) (w : W) : W * reply :=
  if negb (String.eqb (q_method r) "GET") then (w, fail 405 "use GET") else
  match authorize (base dh) r db with
  | Err resp => (w, Plain resp)
  | Ok _ =>
      admitted (base dh) (known_ v db) r db now w (fun w => with_slot "too many concurrent backups" w (fun w =>
        opened (get_ v db) w (backup_file db)))
  end.

(** ** What every path gives back, and who may write *)

Record same (w w' : W) : Prop := {
  s_refs : w_refs w' = w_refs w; s_lim : w_lim w' = w_lim w; s_met : w_met w' = w_met w; s_pool : w_pool w' = w_pool w;
  s_conns : conns (w_db w') = conns (w_db w); s_exports : exports (w_db w') = exports (w_db w);
  s_temps : temps (w_db w') = temps (w_db w); s_backups : backups (w_db w') = backups (w_db w)
}.
Lemma same_refl w : same w w.
Proof. by constructor. Qed.
(** What runs between taking something and giving it back. *)
Ltac same_tac := constructor; cbn [fst snd upd add_ref set_db w_refs w_lim w_met w_pool w_db conns exports temps backups
  content with_content add_conn add_export add_temp add_backup] in *; try done; try lia.

Lemma onConn_same {A} db (fn : S -> S * result string A) w : let '(w', r) := onConn db fn w in
  same w w' /\ (content (w_db w') = content (w_db w) \/
     get_ v db = Ok tt /\ content (w_db w') = (fn (content (w_db w))).1 /\ r = (fn (content (w_db w))).2).
Proof.
  unfold onConn. destruct (get_ v db) as [[]|]; [|split; [apply same_refl|by left]].
  destruct (conn_ v); [|split; [same_tac|by left]].
  destruct (is_sqlite v); [|split; [same_tac|by left]].
  cbn [upd add_ref set_db w_db content add_conn]. destruct (fn (content (w_db w))) as [s' r]. split; [same_tac|by right].
Qed.

Lemma opened_same got w k : (forall w, same w (k w).1 /\ content (w_db (k w).1) = content (w_db w)) ->
  same w (opened got w k).1 /\ content (w_db (opened got w k).1) = content (w_db w).
Proof.
  intros H. unfold opened. destruct got; [|split; [apply same_refl|done]]. specialize (H (add_ref w 1)).
  destruct (k (add_ref w 1)) as [w1 rp]. destruct H as [[] Hc]. split; [same_tac|exact Hc].
Qed.
Lemma slot_same msg w k : (forall w, same w (k w).1 /\ content (w_db (k w).1) = content (w_db w)) ->
  same w (with_slot msg w k).1 /\ content (w_db (with_slot msg w k).1) = content (w_db w).
Proof.
  intros H. unfold with_slot. destruct (_ && _); [|split; [apply same_refl|done]]. specialize (H (upd w (add_export 1))).
  destruct (k _) as [w1 rp]. destruct H as [[] Hc]. split; [same_tac|exact Hc].
Qed.
Lemma export_same db w : (export_image db w).1 = w.
Proof. unfold export_image. repeat case_match; done. Qed.
Lemma backupTo_same w : same w (backupTo w).1 /\ content (w_db (backupTo w).1) = content (w_db w).
Proof.
  unfold backupTo. destruct (dest_open v); [|split; [apply same_refl|done]]. destruct (conn_ v); [|split; [apply same_refl|done]].
  destruct (dest_conn v); [|split; [same_tac|done]]. destruct (negb _); [split; [same_tac|done]|].
  destruct (backup_init v); split; try done; same_tac.
Qed.
Lemma backup_same db w : same w (backup_file db w).1 /\ content (w_db (backup_file db w).1) = content (w_db w).
Proof.
  unfold backup_file. destruct (negb _); [split; [apply same_refl|done]|].
  pose proof (backupTo_same (upd w (add_temp 1))) as [[] Hc]. destruct (backupTo _) as [w2 out]. split; [same_tac|exact Hc].
Qed.

Inductive endpoint : Type := EApply | EInvert | EConcat | EExport | EBackup.
Definition serve (o : endpoint) (r : http_request) (q : values) (db : string) (now : Z) (w : W) : W * reply :=
  match o with
  | EApply => handleChangesetApply r q db now w | EInvert => handleChangesetInvert r db now w
  | EConcat => handleChangesetConcat r db now w | EExport => handleExport r db now w | EBackup => handleBackup r db now w
  end.

(** The five handlers have one shape: method, access, admission, then a body of their own. *)
Definition method_of (o : endpoint) : string := match o with EExport | EBackup => "GET" | _ => "POST" end.
Definition apply_body (r : http_request) (q : values) (db : string) (w : W) : W * reply :=
  with_body r w (fun cs w => nonempty cs w (fun w =>
    match changesetApplyOptions q with
    | Err m => (w, fail 400 m)
    | Ok opts => match onConn db (fun s => apply_cs v s cs opts) w with
                 | (w', Err m) => (w', fail 422 ("apply changeset: " +:+ m))
                 | (w', Ok _) => (w', Json 200 status_ok)
                 end
    end)).
Definition body_of (o : endpoint) (r : http_request) (q : values) (db : string) (w : W) : W * reply :=
  match o with
  | EApply => apply_body r q db w
  | EInvert => with_body r w (fun cs w => nonempty cs w (fun w =>
      match onConn db (fun s => (s, invert_cs v s cs)) w with
      | (w', Err m) => (w', fail 422 ("invert changeset: " +:+ m)) | (w', Ok out) => (w', Bytes None None out) end))
  | EConcat => with_body r w (fun body w =>
      match decode_pair body with
      | Err m => (w, fail 400 ("invalid JSON: " +:+ m))
      | Ok (ta, tb) =>
          match b64_decode StdEncoding ta, b64_decode StdEncoding tb with
          | Some a, Some b => match onConn db (fun s => (s, concat_cs v s a b)) w with
                              | (w', Err m) => (w', fail 422 ("concat changesets: " +:+ m))
                              | (w', Ok out) => (w', Bytes None None out) end
          | _, _ => (w, fail 400 "invalid base64 changeset")
          end
      end)
  | EExport => with_slot "too many concurrent exports" w (fun w => opened (get_ v db) w (export_image db))
  | EBackup => with_slot "too many concurrent backups" w (fun w => opened (get_ v db) w (backup_file db))
  end.
Definition writes_content (o : endpoint) : bool := match o with EApply => true | _ => false end.
Lemma serve_shape o r q db now w : serve o r q db now w =
  if negb (String.eqb (q_method r) (method_of o)) then (w, fail 405 ("use " +:+ method_of o)) else
  match authorize (base dh) r db with
  | Err resp => (w, Plain resp)
  | Ok lvl => if writes_content o && negb (CanWrite lvl) then (w, Plain writeDenied)
              else admitted (base dh) (known_ v db) r db now w (body_of o r q db)
  end.
Proof. by destruct o. Qed.

(** What was applied, when the content is no longer what it was. *)
Definition applied (r : http_request) (q : values) (db : string) (s s' : S) : Prop :=
  exists cs opts, readBody (base dh) (q_body r) = Ok cs /\ cs <> [] /\ changesetApplyOptions q = Ok opts /\
    get_ v db = Ok tt /\ s' = (apply_cs v s cs opts).1.
Lemma body_spec o r q db w : let w' := (body_of o r q db w).1 in
  same w w' /\ (content (w_db w') = content (w_db w) \/ o = EApply /\ applied r q db (content (w_db w)) (content (w_db w'))).
Proof.
  destruct o; cbn [body_of].
  - unfold apply_body, with_body, applied. destruct (readBody _ _) as [cs|]; [|split; [apply same_refl|by left]].
    destruct cs as [|c cs]; cbn [nonempty]; [split; [apply same_refl|by left]|].
    destruct (changesetApplyOptions q) as [opts|]; [|split; [apply same_refl|by left]].
    pose proof (onConn_same db (fun s => apply_cs v s (c :: cs) opts) w) as H. destruct (onConn _ _ w) as [w' [u|m]];
      (destruct H as [Hs [Hc|(Hg & Hc & _)]]; split; [exact Hs|by left|exact Hs|right; split; [done|]; by exists (c :: cs), opts]).
  - unfold with_body. destruct (readBody _ _) as [cs|]; [|split; [apply same_refl|by left]].
    destruct cs as [|c cs]; cbn [nonempty]; [split; [apply same_refl|by left]|].
    pose proof (onConn_same db (fun s => (s, invert_cs v s (c :: cs))) w) as H. destruct (onConn _ _ w) as [w' [u|m]];
      (destruct H as [Hs [Hc|(_ & Hc & _)]]; (split; [exact Hs|by left])).
  - unfold with_body. destruct (readBody _ _) as [body|]; [|split; [apply same_refl|by left]].
    destruct (decode_pair body) as [[ta tb]|]; [|split; [apply same_refl|by left]].
    destruct (b64_decode StdEncoding ta) as [a|], (b64_decode StdEncoding tb) as [b|]; try (split; [apply same_refl|by left]).
    pose proof (onConn_same db (fun s => (s, concat_cs v s a b)) w) as H. destruct (onConn _ _ w) as [w' [u|m]];
      (destruct H as [Hs [Hc|(_ & Hc & _)]]; (split; [exact Hs|by left])).
  - destruct (slot_same "too many concurrent exports" w (fun w => opened (get_ v db) w (export_image db))) as [H1 H2]; [|split; [done|by left]].
    intros w0. apply opened_same. intros w1. rewrite export_same. split; [apply same_refl|done].
  - destruct (slot_same "too many concurrent backups" w (fun w => opened (get_ v db) w (backup_file db))) as [H1 H2]; [|split; [done|by left]].
    intros w0. apply opened_same. intros w1. apply backup_same.
Qed.

Lemma serve_cases o r q db now w w' rp : serve o r q db now w = (w', rp) ->
  let lvl := Level (policy_ (base dh)) (Some (FromContext (q_principal r))) db in
  (w' = w /\ exists e, rp = Plain e /\ (status e = 405 \/ status e = 403)) \/
  (q_method r = method_of o /\ CanRead lvl = true /\ (o = EApply -> CanWrite lvl = true) /\
   admitted (base dh) (known_ v db) r db now w (body_of o r q db) = (w', rp)).
Proof.
  rewrite serve_shape. unfold authorize. cbv zeta. set (lvl := Level _ _ _).
  destruct (String.eqb_spec (q_method r) (method_of o)) as [Hm|]; cbn [negb]; [|intros [= <- <-]; left; eauto].
  destruct (CanRead lvl); [|intros [= <- <-]; left; eauto].
  destruct (writes_content o && negb (CanWrite lvl)) eqn:Hw; [intros [= <- <-]; left; eauto|].
  intros E. right. do 3 (split; [done || intros ->; by destruct (CanWrite lvl)|]). exact E.
Qed.

(** Success and effect, by capability. *)
Lemma serve_effect o r q db now w w' rp : serve o r q db now w = (w', rp) ->
  let lvl := Level (policy_ (base dh)) (Some (FromContext (q_principal r))) db in
  (reply_status rp < 400 -> CanRead lvl = true) /\
  (content (w_db w') <> content (w_db w) -> CanRead lvl = true /\ CanWrite lvl = true).
Proof.
  intros E lvl. apply serve_cases in E as [(-> & e & -> & Hst)|(_ & Hr & Hw & E)].
  { split; [cbn; by destruct Hst as [-> | ->]|done]. }
  split; [done|]. intros Hne. split; [done|].
  apply admitted_db in E as [[Hd _]|(w1 & w2 & Ek & Hd & Hd')]; [by rewrite Hd in Hne|].
  pose proof (body_spec o r q db w1) as [_ Hc]. rewrite Ek in Hc. cbn [fst] in Hc. rewrite Hd in Hc. rewrite Hd' in Hne.
  destruct Hc as [Hc|[-> _]]; [by destruct Hne|by apply Hw].
Qed.

(** C28: (data endpoints) For each of the changeset, export and backup endpoints, on every
    path through it, whatever the driver answers: the registry reference, the limiter's
    slots, the borrowed connections, the export slots, the temporary files and the backup
    handles are afterwards what they were before; the database's content changes only when
    a principal that may write, admitted by the limiter, applies a complete non-empty
    changeset under valid options, and then to what the driver made of exactly that
    changeset and those options; bytes of the database go only to a principal that may
    read it; and one without access changes nothing at all. *)
Theorem data_endpoints_are_gated o r q db now w w' rp :
  (forall l, w_lim w = Some l -> 0 <= InFlight l db) ->
  serve o r q db now w = (w', rp) ->
  let lvl := Level (policy_ (base dh)) (Some (FromContext (q_principal r))) db in
  (w_refs w' = w_refs w /\ w_pool w' = w_pool w /\ lim_balanced w w' /\ conns (w_db w') = conns (w_db w) /\
   exports (w_db w') = exports (w_db w) /\ temps (w_db w') = temps (w_db w) /\ backups (w_db w') = backups (w_db w)) /\
  (content (w_db w') <> content (w_db w) ->
     o = EApply /\ q_method r = "POST"%string /\ CanWrite lvl = true /\ allowed w r db now /\
     applied r q db (content (w_db w)) (content (w_db w'))) /\
  (forall name n b, rp = Bytes name n b -> o <> EApply /\ CanRead lvl = true /\ allowed w r db now) /\
  (CanRead lvl = false -> w' = w /\ (reply_status rp = 405 \/ reply_status rp = 403)).
Proof.
  intros Hpos E lvl. apply serve_cases in E as [(-> & e & -> & Hst)|(Hm & Hr & Hw & E)].
  { assert (lim_balanced w w) by (intros l d Hl; by exists l). split; [auto 10|]. by split; [|split]. }
  apply admitted_cases in E as [(E1 & E2 & E3 & E4 & e & -> & _)|(Ha & w1 & w2 & Ek & E1 & E2 & E3 & E4 & E5 & E6 & E7)]; [| |done].
  { rewrite E1. split; [auto 10|]. split; [done|]. split; [done|]. subst lvl. congruence. }
  pose proof (body_spec o r q db w1) as Hb. rewrite Ek in Hb. destruct Hb as [[] Hc]. cbn [fst] in *. rewrite E1 in *.
  rewrite E4. split; [|split; [|split; [|subst lvl; congruence]]].
  - rewrite E5, E6. split; [congruence|]. split; [congruence|]. split; [by apply E7|]. auto 10.
  - intros Hne. destruct Hc as [Hc|[-> Hap]]; [by rewrite Hc in Hne|]. auto.
  - intros name n b ->. split; [|by split]. intros ->. revert Ek. cbn [body_of]. unfold apply_body, with_body, nonempty. by repeat case_match.
Qed.
End Endpoints.

(** An open that fails reaches the client with its own text and as 422, where every other
    endpoint answers 404, 503, 504 or a plain "internal error" ([writeGetError]). *)
Lemma changeset_leaks_open_error {S} (dh : data_handler) (v : driver S) quote r q db now (w : world (data S)) x cs opts :
  q_method r = "POST"%string -> CanWrite (Level (policy_ (base dh)) (Some (FromContext (q_principal r))) db) = true ->
  w_lim w = None -> readBody (base dh) (q_body r) = Ok cs -> cs <> [] -> changesetApplyOptions quote q = Ok opts ->
  get_ v db = Err x ->
  (handleChangesetApply dh v quote r q db now w).2 = fail 422 ("apply changeset: " +:+ get_text v x).
Proof.
  intros Hm Hw Hl Hb Hne Ho Hg. unfold handleChangesetApply, authorize. rewrite Hm. cbn [String.eqb negb].
  assert (Hr : CanRead (Level (policy_ (base dh)) (Some (FromContext (q_principal r))) db) = true) by (revert Hw; by destruct (Level _ _ _)).
  rewrite Hr, Hw. cbn [negb]. unfold admitted, meter. rewrite Hl. unfold with_body. rewrite Hb. destruct cs; [done|]. cbn [nonempty].
  rewrite Ho. unfold onConn. by rewrite Hg.
Qed.

(** ** Witnesses *)

(** A database that is a log of changesets; the second row to come is refused. *)
Definition demo_driver : driver (list (list byte)) := {|
  known_ db := String.eqb db "app"; get_ db := if String.eqb db "app" then Ok tt else Err GUnknownDB;
  get_text _ := "registry: unknown database"; conn_ := Ok tt; is_sqlite := true;
  apply_cs s cs _ := (s ++ [cs], Ok tt); invert_cs _ cs := Ok (rev cs); concat_cs _ a b := Ok (a ++ b);
  image_size s := Ok (Z.of_nat (length (concat s))); serialize s := Ok (concat s); slot := true; temp_file := true;
  dest_open := Ok tt; dest_conn := Ok tt; backup_init := Ok tt;
  backup_steps := [BStep false (Ok true); BStep false (Ok false)]; backup_finish := Ok tt; image s := concat s; reopen := true
|}.
Definition demo_data : world (data (list (list byte))) := World (Some (Limits.New (S754_zero false) 4)) [] 0 [] (Data [[zb 1]] 0 0 0 0).
Definition demo_data_handler : data_handler := NewData demo_handler [WithMaxExport 4].
Definition demo_body (who meth : string) (b : list byte) : http_request :=
  HReq meth "/app/changeset/apply" "localhost" (Body b false) (Some (MkPrincipal who "bearer" None)).
Definition demo_serve (o : endpoint) (who meth : string) (b : list byte) := serve demo_data_handler demo_driver (fun _ => Err "json"%string) (fun s => s) o
  (demo_body who meth b) [("on_conflict", "omit")]%string "app" 0 demo_data.

Lemma data_endpoints_are_gated_witness :
  content (w_db (demo_serve EApply "bob" "POST" [zb 7]).1) = [[zb 1]; [zb 7]] /\
  reply_status (demo_serve EApply "ann" "POST" [zb 7]).2 = 403 /\
  (demo_serve EExport "ann" "GET" []).2 = Bytes (Some "app.sqlite"%string) None [zb 1] /\
  (demo_serve EBackup "ann" "GET" []).2 = Bytes (Some "app.sqlite"%string) (Some 1) [zb 1] /\
  exports (w_db (demo_serve EBackup "ann" "GET" []).1) = 0 /\ backups (w_db (demo_serve EBackup "ann" "GET" []).1) = 0 /\
  CanWrite (Level (policy_ (base demo_data_handler)) (Some (FromContext (Some (MkPrincipal "bob" "bearer" None)))) "app") = true.
Proof.
  split; [vm_compute; reflexivity|]. split; [vm_compute; reflexivity|]. split; [vm_compute; reflexivity|].
  split; [vm_compute; reflexivity|].
  assert (Hpos : forall l, w_lim demo_data = Some l -> 0 <= InFlight l "app") by (intros l [= <-]; done).
  pose proof (data_endpoints_are_gated demo_data_handler demo_driver (fun _ => Err "json"%string) (fun s => s) EBackup
    (demo_body "ann" "GET" []) [("on_conflict", "omit")]%string "app" 0 demo_data) as H.
  specialize (H _ _ Hpos (surjective_pairing _)). destruct H as [(_ & _ & _ & _ & He & _ & Hb) _].
  split; [exact He|]. split; [exact Hb|].
  pose proof (data_endpoints_are_gated demo_data_handler demo_driver (fun _ => Err "json"%string) (fun s => s) EApply
    (demo_body "bob" "POST" [zb 7]) [("on_conflict", "omit")]%string "app" 0 demo_data) as H.
  specialize (H _ _ Hpos (surjective_pairing _)). destruct H as [_ [H _]]. apply H. vm_compute. discriminate.
Defined.
