(* ===== verification/Blob.v ===== *)
(** * httpapi: large objects

    [src/httpapi/blob.go]: the blob endpoints over gosqlite's [blobstore], whose operations
    are the record [library]; [library_laws] is what its documentation promises and the
    handlers rely on.  The second half follows the cache of opened stores through the life
    of database handles: requests, the registry's steps and its close hook interleaved. *)
From S2P Require Import Prelude GoStd Crypto Wire Authz Limits Session Config Hrana HttpApi Envelope Endpoints.
From Stdlib Require Import Floats.SpecFloat.

(** ** The object store *)

Inductive berr : Type := ErrNotFound | EBlob (msg : string).
Definition berr_text (e : berr) : string := match e with ErrNotFound => "blobstore: not found" | EBlob m => m end.
Inductive compression : Type := CompressionFastest | CompressionFast | CompressionDefault | CompressionBetter | CompressionBest.
Inductive bopt : Type := WithChunkSize (n : Z) | WithCompression (c : compression) | WithDedup.
Inductive rstat : Type := RMore | REOF | RFail (msg : string).

Record library (S St : Type) := Library {
  bs_open : S -> nat -> string -> list bopt -> S * result berr St;
  bs_open_ro : S -> nat -> string -> result berr St;
  bs_create : S -> St -> S * result berr Z;
  bs_writer : S -> St -> Z -> result berr unit;
  bs_write_at : S -> St -> Z -> list byte -> Z -> S * result berr unit;
  bs_close_writer : S -> St -> Z -> S;                 (* its error is ignored *)
  bs_truncate : S -> St -> Z -> Z -> S * result berr unit;
  bs_size : S -> St -> Z -> result berr Z;
  bs_reader : S -> St -> Z -> result berr unit;
  bs_read_at : S -> St -> Z -> Z -> Z -> list byte * rstat;   (* a buffer's length, an offset *)
  bs_delete : S -> St -> Z -> S * result berr unit
}.
Arguments bs_open {S St}. Arguments bs_open_ro {S St}. Arguments bs_create {S St}. Arguments bs_writer {S St}.
Arguments bs_write_at {S St}. Arguments bs_close_writer {S St}. Arguments bs_truncate {S St}. Arguments bs_size {S St}.
Arguments bs_reader {S St}. Arguments bs_read_at {S St}. Arguments bs_delete {S St}.

(** A request body as it arrives: what is there to be read next, and how it ends. *)
Record stream := Stream { chunks : list (list byte); cut : option string }.
Definition whole (s : stream) : list byte := concat (chunks s).
Definition bufsize : Z := 65536.

(** One [Read] of an [io.LimitedReader] with [n] bytes left, into the copy buffer. *)
Definition Read (n : Z) (s : stream) : list byte * rstat * Z * stream :=
  if n <=? 0 then ([], REOF, n, s) else
  let cap := Z.min bufsize n in
  match chunks s with
  | [] => ([], match cut s with Some m => RFail m | None => REOF end, n, s)
  | c :: r =>
      if Z.of_nat (length c) <=? cap then (c, RMore, n - Z.of_nat (length c), Stream r (cut s))
      else (take (Z.to_nat cap) c, RMore, n - cap, Stream (drop (Z.to_nat cap) c :: r) (cut s))
  end.
Definition measure (s : stream) : nat := length (whole s) + length (chunks s).

Section Handlers.
Context {S St : Type} (L : library S St).

(** The bytes written so far, and how the copy ended. *)
Inductive copy_err : Type := CStore (e : berr) | CRead (msg : string).
Fixpoint copyToWriterAt (fuel : nat) (st : St) (id : Z) (n : Z) (s : stream) (off : Z) (db : S) : S * Z * option copy_err :=
  match fuel with
  | O => (db, off, Some (CRead "fuel"))   (* not reached: [measure] decreases *)
  | Datatypes.S fuel =>
      let '(d, rs, n', s') := Read n s in
      let next db off := match rs with
                         | RMore => copyToWriterAt fuel st id n' s' off db
                         | REOF => (db, off, None)
                         | RFail m => (db, off, Some (CRead m))
                         end in
      match d with
      | [] => next db off
      | _ => match bs_write_at L db st id d off with
             | (db', Err e) => (db', off, Some (CStore e))
             | (db', Ok _) => next db' (off + Z.of_nat (length d))
             end
      end
  end.

(** The bytes sent; an error in the middle just ends the body. *)
Fixpoint copyFromReaderAt (fuel : nat) (st : St) (id size off : Z) (db : S) : list byte :=
  match fuel with
  | O => []
  | Datatypes.S fuel =>
      if off <? size then
        let '(d, rs) := bs_read_at L db st id bufsize off in
        d ++ match rs with RMore => copyFromReaderAt fuel st id size (off + Z.of_nat (length d)) db | _ => [] end
      else []
  end.

(** ** The handler *)

Definition blobOpts (q : values) : list bopt :=
  match parse_int64 (query_get q "chunk") with Some n => if n >? 0 then [WithChunkSize n] else [] | None => [] end
  ++ (let c := query_get q "compress" in
      if String.eqb c "fastest" then [WithCompression CompressionFastest]
      else if String.eqb c "fast" then [WithCompression CompressionFast]
      else if String.eqb c "default" then [WithCompression CompressionDefault]
      else if String.eqb c "better" then [WithCompression CompressionBetter]
      else if String.eqb c "best" then [WithCompression CompressionBest] else [])
  ++ (if String.eqb (query_get q "dedup") "1" then [WithDedup] else []).

Definition blobID (q : values) : result reply Z :=
  match query_all q "id" with
  | [] => Err (fail 400 "missing ?id=")
  | t :: _ => match parse_int64 t with Some id => Ok id | None => Err (fail 400 "invalid ?id=") end
  end.
Definition blobFail (prefix : string) (e : berr) : reply :=
  match e with
  | ErrNotFound => fail 404 (prefix +:+ ": not found")
  | EBlob m => fail 422 (prefix +:+ ": " +:+ m)
  end.

(** The cache of opened stores, by handle and store name. *)
Notation cache := (gmap (nat * string) St).
Definition load_or_store (c : cache) (k : nat * string) (st : St) : cache * St :=
  match c !! k with Some st' => (c, st') | None => (<[k := st]> c, st) end.
Definition forgetBlobStores (c : cache) (h : nat) : cache := filter (fun kv => kv.1.1 <> h) c.

Record blobs := Blobs { db_ : S; stores : cache }.
Definition blobStore (b : blobs) (h : nat) (name : string) : blobs * result berr St :=
  match stores b !! (h, name) with
  | Some st => (b, Ok st)
  | None => match bs_open L (db_ b) h name [] with
            | (s', Err e) => (Blobs s' (stores b), Err e)
            | (s', Ok st) => let '(c, st') := load_or_store (stores b) (h, name) st in (Blobs s' c, Ok st')
            end
  end.
Definition provisionBlobStore (b : blobs) (h : nat) (name : string) (opts : list bopt) : blobs * result berr St :=
  match bs_open L (db_ b) h name opts with
  | (s', Err e) => (Blobs s' (stores b), Err e)
  | (s', Ok st) => (Blobs s' (<[(h, name) := st]> (stores b)), Ok st)
  end.
Definition readBlobStore (b : blobs) (h : nat) (name : string) : result berr St :=
  match stores b !! (h, name) with Some st => Ok st | None => bs_open_ro L (db_ b) h name end.

Notation W := (world blobs).
Definition with_db (w : W) (s : S) : W := set_db w (Blobs s (stores (w_db w))).
Definition jint (k : string) (n : Z) : reply := Json 200 (JObj [(k, JNum (format_int n))]).

Definition blob_create (st : St) (w : W) : W * reply :=
  match bs_create L (db_ (w_db w)) st with
  | (s', Err e) => (with_db w s', blobFail "create" e)
  | (s', Ok id) => (with_db w s', jint "id" id)
  end.
Definition copy_fail (e : copy_err) : reply :=
  match e with CStore e => blobFail "write" e | CRead m => fail 422 ("write: " +:+ m) end.
Definition blob_write (maxBlob : Z) (st : St) (q : values) (body : stream) (w : W) : W * reply :=
  match blobID q with
  | Err rp => (w, rp)
  | Ok id =>
      match bs_writer L (db_ (w_db w)) st id with
      | Err e => (w, blobFail "open writer" e)
      | Ok _ =>
          let '(s1, n, werr) := copyToWriterAt (Datatypes.S (measure body)) st id (maxBlob + 1) body 0 (db_ (w_db w)) in
          let s2 := bs_close_writer L s1 st id in
          match werr with
          | Some e => (with_db w s2, copy_fail e)
          | None =>
              if n >? maxBlob then
                (with_db w (bs_truncate L s2 st id 0).1, fail 413 "object exceeds the maximum blob size")
              else match bs_truncate L s2 st id n with
                   | (s3, Err e) => (with_db w s3, blobFail "truncate" e)
                   | (s3, Ok _) => (with_db w s3, jint "size" n)
                   end
          end
      end
  end.
Definition blob_read (st : St) (q : values) (w : W) : W * reply :=
  match blobID q with
  | Err rp => (w, rp)
  | Ok id =>
      match bs_size L (db_ (w_db w)) st id with
      | Err e => (w, blobFail "size" e)
      | Ok size =>
          match bs_reader L (db_ (w_db w)) st id with
          | Err e => (w, blobFail "open reader" e)
          | Ok _ => (w, Bytes None (Some size) (copyFromReaderAt (Datatypes.S (Z.to_nat size)) st id size 0 (db_ (w_db w))))
          end
      end
  end.
Definition blob_size (st : St) (q : values) (w : W) : W * reply :=
  match blobID q with
  | Err rp => (w, rp)
  | Ok id => match bs_size L (db_ (w_db w)) st id with Err e => (w, blobFail "size" e) | Ok n => (w, jint "size" n) end
  end.
Definition blob_delete (st : St) (q : values) (w : W) : W * reply :=
  match blobID q with
  | Err rp => (w, rp)
  | Ok id => match bs_delete L (db_ (w_db w)) st id with
             | (s', Err e) => (with_db w s', blobFail "delete" e)
             | (s', Ok _) => (with_db w s', Json 200 status_ok)
             end
  end.

Definition write_endpoints : list string := ["/blob/provision"; "/blob/create"; "/blob/write"; "/blob/delete"]%string.
Definition on_store (maxBlob : Z) (endpoint : string) (st : St) (q : values) (body : stream) (w : W) : W * reply :=
  if String.eqb endpoint "/blob/create" then blob_create st w
  else if String.eqb endpoint "/blob/write" then blob_write maxBlob st q body w
  else if String.eqb endpoint "/blob/read" then blob_read st q w
  else if String.eqb endpoint "/blob/size" then blob_size st q w
  else if String.eqb endpoint "/blob/delete" then blob_delete st q w
  else (w, Nothing).
Definition on_handle (maxBlob : Z) (endpoint : string) (h : nat) (name : string) (q : values) (body : stream) (w : W) : W * reply :=
  if String.eqb endpoint "/blob/provision" then
    match provisionBlobStore (w_db w) h name (blobOpts q) with
    | (b, Err e) => (set_db w b, fail 422 ("provision: " +:+ berr_text e))
    | (b, Ok _) => (set_db w b, Json 200 status_ok)
    end
  else if mem_string endpoint write_endpoints then
    match blobStore (w_db w) h name with
    | (b, Err e) => (set_db w b, fail 422 ("open blobstore: " +:+ berr_text e))
    | (b, Ok st) => on_store maxBlob endpoint st q body (set_db w b)
    end
  else match readBlobStore (w_db w) h name with
       | Err _ => (w, fail 404 "store not found")
       | Ok st => on_store maxBlob endpoint st q body w
       end.

(** [got]: the handle the registry answers with. *)
Definition handleBlob (dh : data_handler) (known : bool) (got : result geterr nat) (r : http_request) (q : values) (body : stream)
    (db endpoint : string) (now : Z) (w : W) : W * reply :=
  match authorize (base dh) r db with
  | Err resp => (w, Plain resp)
  | Ok lvl =>
      let write := mem_string endpoint write_endpoints in
      if write && negb (CanWrite lvl) then (w, Plain writeDenied) else
      if write && negb (String.eqb (q_method r) "POST") then (w, fail 405 "use POST") else
      if negb write && negb (String.eqb (q_method r) "GET") then (w, fail 405 "use GET") else
      admitted (base dh) known r db now w (fun w =>
        let store := query_get q "store" in
        if negb (ValidDBName store) then (w, fail 400 "invalid or missing ?store=") else
        match got with
        | Err x => (w, Plain (writeGetError x))
        | Ok h => let '(w1, rp) := on_handle (maxBlob dh) endpoint h store q body (add_ref w 1) in (add_ref w1 (-1), rp)
        end)
  end.

(** Success and effect, by capability: a reading endpoint leaves database and cache alone. *)
Lemma on_handle_reads maxBlob ep h name q body w : mem_string ep write_endpoints = false ->
  w_db (on_handle maxBlob ep h name q body w).1 = w_db w.
Proof.
  unfold on_handle. intros Hw. destruct (String.eqb_spec ep "/blob/provision") as [->|_]; [done|]. rewrite Hw.
  destruct (readBlobStore _ _ _) as [st|]; [|done]. unfold on_store, blob_read, blob_size.
  destruct (String.eqb_spec ep "/blob/create") as [->|_]; [done|]. destruct (String.eqb_spec ep "/blob/write") as [->|_]; [done|].
  destruct (String.eqb ep "/blob/read"); [by repeat case_match|]. destruct (String.eqb ep "/blob/size"); [by repeat case_match|].
  destruct (String.eqb_spec ep "/blob/delete") as [->|_]; done.
Qed.
Lemma handleBlob_effect dh known got r q body db ep now w w' rp : handleBlob dh known got r q body db ep now w = (w', rp) ->
  let lvl := Level (policy_ (base dh)) (Some (FromContext (q_principal r))) db in
  (reply_status rp < 400 -> CanRead lvl = true) /\
  (w_db w' <> w_db w -> CanRead lvl = true /\ CanWrite lvl = true).
Proof.
  unfold handleBlob, authorize. cbv zeta. set (lvl := Level _ _ _). destruct (CanRead lvl); [|by intros [= <- <-]].
  intros E. split; [done|]. intros Hne. split; [done|]. revert E.
  destruct (mem_string ep write_endpoints) eqn:Ew; cbn [andb negb]; [|].
  - destruct (CanWrite lvl); [done|]. by intros [= <- <-].
  - destruct (String.eqb (q_method r) "GET"); cbn [negb]; [|by intros [= <- <-]].
    intros [[Hd _]|(w1 & w2 & Ek & Hd & Hd')]%admitted_db; [by rewrite Hd in Hne|]. destruct Hne. rewrite Hd', <- Hd. revert Ek.
    destruct (negb _); [by intros [= <- <-]|]. destruct got as [h|]; [|by intros [= <- <-]].
    pose proof (on_handle_reads (maxBlob dh) ep h (query_get q "store") q body (add_ref w1 1) Ew) as H.
    destruct (on_handle _ _ _ _ _ _ _) as [w3 rp3]. cbn [fst] in H. intros [= <- <-]. exact H.
Qed.
End Handlers.

(** ** What the library promises

    [objs]: the objects of the database, by store and id. *)
Section Laws.
Context {S St : Type} (L : library S St).
Variable objs : S -> string -> Z -> option (list byte).
Variable nm : St -> string.

(** Object [id] of store [n] becomes [o]; no other object changes. *)
Definition puts (s s' : S) (n : string) (id : Z) (o : option (list byte)) : Prop :=
  objs s' n id = o /\ forall n' id', (n', id') <> (n, id) -> objs s' n' id' = objs s n' id'.
Definition others (s s' : S) (n : string) (id : Z) : Prop :=
  forall n' id', (n', id') <> (n, id) -> objs s' n' id' = objs s n' id'.
Definition keeps (s s' : S) : Prop := forall n id, objs s' n id = objs s n id.

(** [WriteAt] past the end fills the gap with zeros; [Truncate] cuts or extends. *)
Definition resized (k : nat) (c : list byte) : list byte := take k c ++ replicate (k - length c) (zb 0).
Definition overwritten (c : list byte) (off : nat) (d : list byte) : list byte :=
  resized off c ++ d ++ drop (off + length d) c.

Record library_laws : Prop := {
  l_open s h n o : match bs_open L s h n o with (s', Ok st) => keeps s s' /\ nm st = n | (s', Err _) => keeps s s' end;
  l_open_ro s h n st : bs_open_ro L s h n = Ok st -> nm st = n;
  l_create s st : match bs_create L s st with
                  | (s', Ok id) => objs s (nm st) id = None /\ puts s s' (nm st) id (Some [])
                  | (s', Err _) => keeps s s' end;
  l_writer s st id : bs_writer L s st id = Ok tt -> is_Some (objs s (nm st) id);
  l_write_at s st id d off c : objs s (nm st) id = Some c -> 0 <= off ->
    match bs_write_at L s st id d off with
    | (s', Ok _) => puts s s' (nm st) id (Some (overwritten c (Z.to_nat off) d))
    | (s', Err _) => others s s' (nm st) id
    end;
  l_close s st id : keeps s (bs_close_writer L s st id);
  l_truncate s st id k c : objs s (nm st) id = Some c -> 0 <= k ->
    match bs_truncate L s st id k with
    | (s', Ok _) => puts s s' (nm st) id (Some (resized (Z.to_nat k) c))
    | (s', Err _) => others s s' (nm st) id
    end;
  l_size s st id n : bs_size L s st id = Ok n -> exists c, objs s (nm st) id = Some c /\ n = Z.of_nat (length c);
  (* io.ReaderAt: fewer bytes than asked for come with an error; EOF: none are left *)
  l_read_at s st id len off c : objs s (nm st) id = Some c -> 0 <= off -> 0 < len ->
    let '(d, rs) := bs_read_at L s st id len off in
    d = take (length d) (drop (Z.to_nat off) c) /\ Z.of_nat (length d) <= len /\
    match rs with
    | RMore => Z.of_nat (length d) = len
    | REOF => Z.of_nat (length c) <= off + Z.of_nat (length d)
    | RFail _ => True
    end;
  l_delete s st id : match bs_delete L s st id with
                     | (s', Ok _) => puts s s' (nm st) id None
                     | (s', Err _) => others s s' (nm st) id end
}.
Hypothesis laws : library_laws.

Lemma keeps_refl s : keeps s s.
Proof. done. Qed.
Lemma keeps_puts s s1 s2 n id o : keeps s s1 -> puts s1 s2 n id o -> puts s s2 n id o.
Proof. intros H [H1 H2]. split; [done|]. intros n' id' Hne. by rewrite H2. Qed.
Lemma puts_keeps s s1 s2 n id o : puts s s1 n id o -> keeps s1 s2 -> puts s s2 n id o.
Proof. intros [H1 H2] H. split; [by rewrite H|]. intros n' id' Hne. by rewrite H, H2. Qed.
Lemma puts_trans s s1 s2 n id o o' : puts s s1 n id o -> puts s1 s2 n id o' -> puts s s2 n id o'.
Proof. intros [_ H1] [H2 H3]. split; [done|]. intros n' id' Hne. by rewrite H3, H1. Qed.
Lemma puts_others s s' n id o : puts s s' n id o -> others s s' n id.
Proof. by intros [_ H]. Qed.
Lemma others_trans s s1 s2 n id : others s s1 n id -> others s1 s2 n id -> others s s2 n id.
Proof. intros H1 H2 n' id' Hne. by rewrite H2, H1. Qed.
Lemma keeps_others s s' n id : keeps s s' -> others s s' n id.
Proof. intros H n' id' _. apply H. Qed.

(** *** The copy loops *)

Lemma resized_length k c : length (resized k c) = k.
Proof. unfold resized. rewrite length_app, length_take, length_replicate. lia. Qed.
Lemma resized_take k c : (k <= length c)%nat -> resized k c = take k c.
Proof. intros H. unfold resized. replace (k - length c)%nat with 0%nat by lia. apply app_nil_r. Qed.
(** Writing on from where the last write ended. *)
Lemma overwritten_app c off d1 d2 : overwritten (overwritten c off d1) (off + length d1) d2 = overwritten c off (d1 ++ d2).
Proof.
  unfold overwritten. rewrite (resized_take (off + length d1)) by (rewrite !length_app, resized_length; lia).
  rewrite (app_assoc (resized off c)), take_app_exact by (by rewrite length_app, resized_length).
  rewrite <- !app_assoc. do 3 f_equal. rewrite drop_app_ge, resized_length by (rewrite resized_length; lia).
  rewrite drop_app_ge, drop_drop by lia. f_equal. rewrite length_app. lia.
Qed.
Lemma overwritten_nil c off : (off <= length c)%nat -> overwritten c off [] = c.
Proof. intros H. unfold overwritten. rewrite resized_take by done. cbn [app length]. by rewrite Nat.add_0_r, take_drop. Qed.
Lemma overwritten_whole c d : take (length d) (overwritten c 0 d) = d.
Proof. unfold overwritten, resized. rewrite take_0, Nat.sub_0_l. cbn [app replicate]. by rewrite take_app_exact. Qed.
Lemma overwritten_length c off d : length (overwritten c off d) = Nat.max (off + length d) (length c).
Proof. unfold overwritten. rewrite !length_app, resized_length, length_drop. lia. Qed.

(** What one [Read] takes is the next piece of the limited body. *)
Lemma Read_spec n s d rs n' s' : Read n s = (d, rs, n', s') ->
  match rs with
  | RMore => 0 < n /\ n' = n - Z.of_nat (length d) /\ 0 <= n' /\ whole s = d ++ whole s' /\ cut s' = cut s /\ (measure s' < measure s)%nat
  | REOF => d = [] /\ (n <= 0 \/ whole s = [] /\ cut s = None)
  | RFail m => d = [] /\ 0 < n /\ whole s = [] /\ cut s = Some m
  end.
Proof.
  unfold Read, measure, whole. destruct (Z.leb_spec n 0); [intros [= <- <- _ _]; auto|].
  destruct (chunks s) as [|c r] eqn:Ec; [destruct (cut s) eqn:Et; intros [= <- <- _ _]; auto|].
  destruct (Z.leb_spec (Z.of_nat (length c)) (Z.min bufsize n)); intros [= <- <- <- <-]; cbn [concat chunks cut length];
    (split; [done|]).
  - split; [done|]. split; [lia|]. split; [done|]. split; [done|]. rewrite length_app. lia.
  - unfold bufsize in *. rewrite length_take, !length_app, length_drop. split; [lia|]. split; [lia|].
    split; [by rewrite app_assoc, take_drop|]. split; [done|]. lia.
Qed.

(** With the fuel the handler gives it the loop writes the limited body in place, or stops
    at the first failure. *)
Lemma copy_spec st id fuel : forall n s off db c, (measure s < fuel)%nat -> objs db (nm st) id = Some c ->
  0 <= off <= Z.of_nat (length c) ->
  let T := take (Z.to_nat n) (whole s) in
  match copyToWriterAt L fuel st id n s off db with
  | (db', off', None) => off' = off + Z.of_nat (length T) /\ puts db db' (nm st) id (Some (overwritten c (Z.to_nat off) T)) /\
                         (cut s = None \/ Z.of_nat (length (whole s)) >= n)
  | (db', _, Some e) => others db db' (nm st) id /\
                        match e with CRead m => cut s = Some m /\ Z.of_nat (length (whole s)) < n | CStore _ => True end
  end.
Proof.
  induction fuel as [|fuel IH]; intros n s off db c Hf Hc Hoff; [lia|]. cbn [copyToWriterAt].
  destruct (Read n s) as [[[d rs] n'] s'] eqn:Er. apply Read_spec in Er. destruct rs as [| |m].
  - destruct Er as (Hn & -> & Hn' & Hs & Hcut & Hm).
    assert (HT : take (Z.to_nat n) (whole s) = d ++ take (Z.to_nat (n - Z.of_nat (length d))) (whole s')).
    { rewrite Hs, take_app_ge by lia. do 2 f_equal. lia. }
    assert (Hnext : forall db1, objs db1 (nm st) id = Some (overwritten c (Z.to_nat off) d) -> others db db1 (nm st) id ->
      match copyToWriterAt L fuel st id (n - Z.of_nat (length d)) s' (off + Z.of_nat (length d)) db1 with
      | (db', off', None) => off' = off + Z.of_nat (length (take (Z.to_nat n) (whole s))) /\
          puts db db' (nm st) id (Some (overwritten c (Z.to_nat off) (take (Z.to_nat n) (whole s)))) /\
          (cut s = None \/ Z.of_nat (length (whole s)) >= n)
      | (db', _, Some e) => others db db' (nm st) id /\
          match e with CRead m => cut s = Some m /\ Z.of_nat (length (whole s)) < n | CStore _ => True end
      end).
    { intros db1 H1 H2. specialize (IH (n - Z.of_nat (length d)) s' (off + Z.of_nat (length d)) db1 _ ltac:(lia) H1).
      rewrite overwritten_length in IH. specialize (IH ltac:(lia)). cbv zeta in IH. rewrite HT, length_app.
      replace (Z.to_nat (off + Z.of_nat (length d))) with (Z.to_nat off + length d)%nat in IH by lia.
      rewrite overwritten_app in IH. rewrite Hs, length_app. destruct (copyToWriterAt _ _ _ _ _ _ _ _) as [[db' off'] [e|]].
      - destruct IH as [Ho He]. split; [by eapply others_trans|]. destruct e; [done|]. rewrite <- Hcut. split; [apply He|lia].
      - destruct IH as (-> & [Hp1 Hp2] & Hend). split; [lia|]. split; [split; [done|by eapply others_trans]|].
        rewrite <- Hcut. destruct Hend; [by left|right; lia]. }
    destruct d as [|b d].
    + rewrite Z.add_0_r in Hnext. apply Hnext; [|by intros ? ? _]. rewrite overwritten_nil by lia. done.
    + pose proof (l_write_at laws db st id (b :: d) off c Hc (proj1 Hoff)) as Hw.
      destruct (bs_write_at L db st id (b :: d) off) as [db1 [u|e]]; [|done]. destruct Hw as [Hw1 Hw2]. by apply Hnext.
  - destruct Er as [-> Hend]. cbn. destruct Hend as [Hn|[Hw Hcut]].
    + replace (Z.to_nat n) with 0%nat by lia. rewrite take_0. cbn. split; [lia|]. split; [|right; lia].
      split; [by rewrite overwritten_nil by lia|done].
    + rewrite Hw, take_nil. cbn. split; [lia|]. split; [|by left]. split; [by rewrite overwritten_nil by lia|done].
  - destruct Er as (-> & Hn & Hw & Hcut). cbn. rewrite Hw. cbn. split; [done|]. split; [done|lia].
Qed.

(** The bytes sent are the object from the offset on, all of them unless a read failed. *)
Lemma read_spec st id db c fuel : forall off, objs db (nm st) id = Some c -> 0 <= off <= Z.of_nat (length c) ->
  (Z.to_nat (Z.of_nat (length c) - off) < fuel)%nat ->
  let b := copyFromReaderAt L fuel st id (Z.of_nat (length c)) off db in
  b = take (length b) (drop (Z.to_nat off) c) /\
  (b = drop (Z.to_nat off) c \/ exists off' m, (bs_read_at L db st id bufsize off').2 = RFail m).
Proof.
  induction fuel as [|fuel IH]; intros off Hc Hoff Hf; [lia|]. cbn [copyFromReaderAt].
  destruct (Z.ltb_spec off (Z.of_nat (length c))) as [Hlt|Hge].
  2:{ cbn. split; [done|left]. rewrite drop_ge by lia. done. }
  pose proof (l_read_at laws db st id bufsize off c Hc (proj1 Hoff) ltac:(done)) as H.
  destruct (bs_read_at L db st id bufsize off) as [d rs] eqn:Er. destruct H as (Hd & Hl & Hs).
  assert (Hcut : (length d <= length (drop (Z.to_nat off) c))%nat) by (rewrite Hd, length_take; lia). rewrite length_drop in Hcut.
  assert (Hsplit : forall k, take (length d + k) (drop (Z.to_nat off) c) = d ++ take k (drop (Z.to_nat (off + Z.of_nat (length d))) c)).
  { intros k. replace (Z.to_nat (off + Z.of_nat (length d))) with (Z.to_nat off + length d)%nat by lia.
    rewrite <- drop_drop. rewrite <- take_take_drop. by rewrite <- Hd. }
  destruct rs as [| |m].
  - specialize (IH (off + Z.of_nat (length d)) Hc ltac:(lia) ltac:(unfold bufsize in Hs; lia)). cbv zeta in IH.
    set (b := copyFromReaderAt _ _ _ _ _ _ _) in *. destruct IH as [IH1 IH2]. split.
    + rewrite length_app, Hsplit. by rewrite <- IH1.
    + destruct IH2 as [IH2|IH2]; [left|by right]. rewrite <- (firstn_all2 (n := length d + length c) (drop (Z.to_nat off) c)) by (rewrite length_drop; lia).
      rewrite Hsplit, IH2. f_equal. symmetry. apply take_ge. rewrite length_drop. lia.
  - rewrite app_nil_r. split; [done|left]. rewrite Hd. apply take_ge. rewrite length_drop. lia.
  - rewrite app_nil_r. split; [done|right]. exists off, m. by rewrite Er.
Qed.

Lemma write_spec max st q body w : 0 <= max ->
  let '(w', rp) := blob_write L max st q body w in let s := db_ (w_db w) in let s' := db_ (w_db w') in
  (w_refs w' = w_refs w /\ w_lim w' = w_lim w /\ w_pool w' = w_pool w /\ stores (w_db w') = stores (w_db w)) /\
  match blobID q with
  | Ok id => others s s' (nm st) id /\
             forall j, rp = Json 200 j -> cut body = None /\ Z.of_nat (length (whole body)) <= max /\
               rp = jint "size" (Z.of_nat (length (whole body))) /\ puts s s' (nm st) id (Some (whole body))
  | Err _ => s' = s /\ forall j, rp <> Json 200 j
  end.
Proof.
  intros Hmax. unfold blob_write. destruct (blobID q) as [id|rp] eqn:Hid.
  2:{ split; [done|]. split; [done|]. intros j ->. revert Hid. unfold blobID. by repeat case_match. }
  destruct (bs_writer L (db_ (w_db w)) st id) as [[]|e] eqn:Hw; [|split; [done|]; split; [by intros ? ? _|by destruct e]].
  destruct (l_writer laws _ _ _ Hw) as [c Hc].
  pose proof (copy_spec st id (Datatypes.S (measure body)) (max + 1) body 0 (db_ (w_db w)) c ltac:(lia) Hc ltac:(lia)) as Hcp.
  cbv zeta in Hcp. destruct (copyToWriterAt _ _ _ _ _ _ _ _) as [[s1 n] [e|]].
  { split; [done|]. destruct Hcp as [Ho _]. cbn [with_db set_db w_db db_]. split; [|destruct e as [[]|]; done].
    eapply others_trans; [exact Ho|]. apply keeps_others, (l_close laws). }
  destruct Hcp as (-> & Hp & Hend). pose proof (puts_keeps _ _ _ _ _ _ Hp (l_close laws s1 st id)) as Hp2.
  rewrite Z.add_0_l, length_take in *. change (Z.to_nat 0) with 0%nat in *. set (T := take _ _) in *.
  destruct (Z.gtb_spec (Z.of_nat (Nat.min (Z.to_nat (max + 1)) (length (whole body)))) max) as [Hgt|Hle].
  - split; [done|]. cbn [with_db set_db w_db db_]. split; [|done].
    pose proof (l_truncate laws (bs_close_writer L s1 st id) st id 0 _ (proj1 Hp2) ltac:(lia)) as Ht.
    eapply others_trans; [exact (puts_others _ _ _ _ _ Hp2)|]. destruct (bs_truncate L _ st id 0) as [s3 [u|e]]; [by eapply puts_others|exact Ht].
  - assert (HT : T = whole body) by (apply take_ge; lia). rewrite HT in *.
    replace (Nat.min _ _) with (length (whole body)) by lia.
    pose proof (l_truncate laws (bs_close_writer L s1 st id) st id (Z.of_nat (length (whole body))) _ (proj1 Hp2) ltac:(lia)) as Ht.
    rewrite Nat2Z.id in Ht. destruct (bs_truncate L _ st id _) as [s3 [u|e]]; (split; [done|]); cbn [with_db set_db w_db db_].
    + rewrite resized_take, overwritten_whole in Ht by (rewrite overwritten_length; lia).
      pose proof (puts_trans _ _ _ _ _ _ _ Hp2 Ht) as Hp3. split; [by eapply puts_others|]. intros j _.
      split; [destruct Hend; [done|lia]|]. split; [lia|]. done.
    + split; [|by destruct e]. eapply others_trans; [exact (puts_others _ _ _ _ _ Hp2)|exact Ht].
Qed.

(** *** The whole handler *)

Definition cache_ok (c : gmap (nat * string) St) : Prop := forall h n st, c !! (h, n) = Some st -> nm st = n.

Lemma blobStore_spec b h n : cache_ok (stores b) -> let '(b', r) := blobStore L b h n in
  keeps (db_ b) (db_ b') /\ cache_ok (stores b') /\ match r with Ok st => nm st = n | Err _ => True end.
Proof.
  intros Hc. unfold blobStore. destruct (stores b !! (h, n)) as [st|] eqn:E; [split; [done|]; split; [done|by eapply Hc]|].
  pose proof (l_open laws (db_ b) h n []) as Ho. destruct (bs_open L (db_ b) h n []) as [s' [st|e]]; [|done].
  unfold load_or_store. rewrite E. destruct Ho as [Hk Hn]. split; [done|]. split; [|done].
  intros h' n' st'. cbn [stores]. rewrite lookup_insert. destruct (decide _) as [[= <- <-]|]; [by intros [= <-]|apply Hc].
Qed.
Lemma readBlobStore_spec b h n st : cache_ok (stores b) -> readBlobStore L b h n = Ok st -> nm st = n.
Proof.
  intros Hc. unfold readBlobStore. destruct (stores b !! (h, n)) as [st'|] eqn:E; [intros [= <-]; by eapply Hc|apply (l_open_ro laws)].
Qed.

(** A request is refused before the store is touched, or was admitted. *)
Lemma handleBlob_cases dh known got r q body db ep now w w' rp : (forall l, w_lim w = Some l -> 0 <= InFlight l db) ->
  handleBlob L dh known got r q body db ep now w = (w', rp) ->
  let lvl := Level (policy_ (base dh)) (Some (FromContext (q_principal r))) db in
  let wr := mem_string ep write_endpoints in
  (w_db w' = w_db w /\ w_refs w' = w_refs w /\ w_pool w' = w_pool w /\ lim_balanced w w' /\ exists e, rp = Plain e) \/
  CanRead lvl = true /\ (wr = true -> CanWrite lvl = true) /\ q_method r = (if wr then "POST" else "GET")%string /\ allowed w r db now /\
  ValidDBName (query_get q "store") = true /\
  exists h w1 w2, got = Ok h /\ on_handle L (maxBlob dh) ep h (query_get q "store") q body w1 = (w2, rp) /\
    w_db w1 = w_db w /\ w_refs w1 = w_refs w + 1 /\ w_pool w1 = w_pool w /\
    w_db w' = w_db w2 /\ w_refs w' = w_refs w2 - 1 /\ w_pool w' = w_pool w2 /\ (w_lim w2 = w_lim w1 -> lim_balanced w w').
Proof.
  intros Hpos. unfold handleBlob, authorize. cbv zeta. set (lvl := Level _ _ _). set (wr := mem_string _ _).
  assert (Hno : forall e, (w, Plain e) = (w', rp) -> w_db w' = w_db w /\ w_refs w' = w_refs w /\ w_pool w' = w_pool w /\ lim_balanced w w' /\ exists e, rp = Plain e).
  { intros e [= <- <-]. do 3 (split; [done|]). split; [by intros l d Hl; exists l|by eexists]. }
  destruct (CanRead lvl); [|intros E; left; by eapply Hno].
  destruct (wr && negb (CanWrite lvl)) eqn:E1; [intros E; left; by eapply Hno|].
  destruct (wr && negb (String.eqb (q_method r) "POST")) eqn:E2; [intros E; left; by eapply Hno|].
  destruct (negb wr && negb (String.eqb (q_method r) "GET")) eqn:E3; [intros E; left; by eapply Hno|].
  intros E. apply admitted_cases in E as [E|(Ha & w1 & w2 & Ek & D1 & D2 & D3 & D4 & D5 & D6 & D7)]; [| |done].
  { left. destruct E as (? & ? & ? & ? & e & -> & _). eauto 10. }
  destruct (ValidDBName (query_get q "store")); cbn [negb] in Ek.
  2:{ injection Ek as <- <-. left. rewrite D4, D1, D5, D2, D6, D3. do 3 (split; [done|]). split; [by apply D7|by eexists]. }
  destruct got as [h|x].
  2:{ injection Ek as <- <-. left. rewrite D4, D1, D5, D2, D6, D3. do 3 (split; [done|]). split; [by apply D7|by eexists]. }
  destruct (on_handle _ _ _ _ _ _ _ _) as [w3 rp3] eqn:Eh. injection Ek as <- <-. right.
  split; [done|]. split; [intros Hwr; by rewrite Hwr in E1; destruct (CanWrite lvl)|]. split.
  { destruct wr; cbn [negb andb] in *; by destruct (String.eqb_spec (q_method r) "POST"), (String.eqb_spec (q_method r) "GET"). }
  split; [done|]. split; [done|]. exists h, (add_ref w1 1), w3. cbn [add_ref w_db w_refs w_pool w_lim] in *.
  do 3 (split; [done|]). split; [lia|]. split; [done|]. split; [done|]. split; [lia|]. done.
Qed.

(** C21: (large objects) An upload answered with success stored exactly the body it was sent,
    whole and within the cap, under the id and store it named, and answered with its
    length; whatever the answer, no other object changed, and the reference and limiter
    slot are given back.  A download of the same object afterwards, while nothing wrote
    it, announces that length and sends a prefix of those bytes: all of them, unless a
    read of the store failed, which the announced length lets the client see. *)
Theorem blobs_roundtrip dh known got r q body db now w w1 rp : 0 <= maxBlob dh ->
  (forall l, w_lim w = Some l -> 0 <= InFlight l db) -> cache_ok (stores (w_db w)) ->
  handleBlob L dh known got r q body db "/blob/write" now w = (w1, rp) ->
  let store := query_get q "store" in
  (w_refs w1 = w_refs w /\ lim_balanced w w1 /\ cache_ok (stores (w_db w1))) /\
  (forall n id, blobID q <> Ok id \/ n <> store -> objs (db_ (w_db w1)) n id = objs (db_ (w_db w)) n id) /\
  (forall j, rp = Json 200 j -> exists id, blobID q = Ok id /\ cut body = None /\ Z.of_nat (length (whole body)) <= maxBlob dh /\
     rp = jint "size" (Z.of_nat (length (whole body))) /\ objs (db_ (w_db w1)) store id = Some (whole body) /\
     forall got' r' body' now' w2 w3 name n b,
       (forall l, w_lim w2 = Some l -> 0 <= InFlight l db) -> cache_ok (stores (w_db w2)) ->
       objs (db_ (w_db w2)) store id = Some (whole body) ->
       handleBlob L dh known got' r' q body' db "/blob/read" now' w2 = (w3, Bytes name n b) ->
       n = Some (Z.of_nat (length (whole body))) /\ b = take (length b) (whole body) /\
       (b = whole body \/ exists st off m, (bs_read_at L (db_ (w_db w2)) st id bufsize off).2 = RFail m)).
Proof.
  intros Hmax Hpos Hok E store. apply handleBlob_cases in E; [|done]. cbv zeta in E.
  destruct E as [(E1 & E2 & _ & E4 & e & ->)|(_ & _ & _ & _ & _ & h & wa & wb & -> & Eh & D1 & D2 & _ & D4 & D5 & _ & D7)].
  { rewrite E1. split; [done|]. by split; [|intros j ?]. }
  unfold on_handle in Eh. cbn [String.eqb Ascii.eqb Bool.eqb mem_string write_endpoints existsb orb] in Eh. fold store in Eh.
  rewrite D1 in Eh. pose proof (blobStore_spec (w_db w) h store Hok) as Hst. destruct (blobStore L (w_db w) h store) as [bb [st|e]].
  2:{ injection Eh as <- <-. destruct Hst as (Hk & Hc & _). cbn [set_db w_db w_refs w_lim] in *. rewrite D4, D5, D2.
      split; [split; [lia|]; split; [by apply D7|done]|]. split; [by intros; apply Hk|done]. }
  destruct Hst as (Hk & Hc & Hnm). unfold on_store in Eh. cbn [String.eqb Ascii.eqb Bool.eqb] in Eh.
  pose proof (write_spec (maxBlob dh) st q body (set_db wa bb) Hmax) as Hw. rewrite Eh in Hw. cbv zeta in Hw. cbn [set_db w_db w_refs w_lim] in Hw.
  destruct Hw as ((F1 & F2 & _ & F4) & Hw). rewrite D4, D5, F1, D2, F4. split; [split; [lia|]; split; [by apply D7|done]|]. split.
  - intros n id Hne. destruct (blobID q) as [id'|rp']; [|rewrite (proj1 Hw); apply Hk]. destruct Hw as [Ho _]. rewrite Ho; [apply Hk|].
    rewrite Hnm. intros [= -> ->]. by destruct Hne.
  - intros j Hj. destruct (blobID q) as [id|rp'] eqn:Hid; [|by destruct Hw as [_ Hw]; apply Hw in Hj]. exists id. split; [done|].
    destruct Hw as [_ Hw]. destruct (Hw j Hj) as (Hcut & Hlen & -> & [Hput _]). rewrite Hnm in Hput. do 4 (split; [done|]).
    intros got' r' body' now' w2 w3 name n b Hpos2 Hok2 Hobj E. apply handleBlob_cases in E; [|done].
    destruct E as [(_ & _ & _ & _ & e & ?)|(_ & _ & _ & _ & _ & h2 & wc & wd & -> & Er & G1 & _)]; [done|].
    unfold on_handle in Er. cbn [String.eqb Ascii.eqb Bool.eqb mem_string write_endpoints existsb orb] in Er. fold store in Er.
    rewrite G1 in Er. destruct (readBlobStore L (w_db w2) h2 store) as [st2|] eqn:Es; [|done]. apply readBlobStore_spec in Es as Hnm2; [|done].
    unfold on_store, blob_read in Er. cbn [String.eqb Ascii.eqb Bool.eqb] in Er. rewrite Hid, G1 in Er.
    destruct (bs_size L _ st2 id) as [size|[]] eqn:Ez; [|done|done]. destruct (bs_reader L _ st2 id) as [u|[]]; [|done|done].
    apply (l_size laws) in Ez as (c & Hc2 & ->). rewrite Hnm2, Hobj in Hc2. injection Hc2 as <-. apply (f_equal (fun x => match x.2 with Bytes _ n b => (n, b) | _ => (None, []) end)) in Er.
    cbv beta iota delta [snd] in Er. apply pair_eq in Er as [<- <-].
    split; [done|]. pose proof (read_spec st2 id (db_ (w_db w2)) (whole body) (Datatypes.S (Z.to_nat (Z.of_nat (length (whole body))))) 0) as Hr.
    rewrite Hnm2 in Hr. specialize (Hr Hobj ltac:(lia) ltac:(lia)). cbv zeta in Hr. change (Z.to_nat 0) with 0%nat in Hr.
    rewrite drop_0 in Hr. destruct Hr as [Hr1 Hr2]. split; [done|]. destruct Hr2 as [|(off & m & Hm)]; [by left|right]. by exists st2, off, m.
Qed.
End Laws.

(** The options a store was provisioned with live in the cache, under the handle: on a
    handle the database is reopened on, the store is opened with none. *)
Lemma reopened_store_has_default_options {S St : Type} (L : library S St) b h h' name opts b1 st :
  provisionBlobStore L b h name opts = (b1, Ok st) -> h <> h' -> stores b !! (h', name) = None ->
  blobStore L (Blobs (db_ b1) (forgetBlobStores (stores b1) h)) h' name =
  match bs_open L (db_ b1) h' name [] with
  | (s', Ok st') => (Blobs s' (<[(h', name) := st']> (forgetBlobStores (stores b1) h)), Ok st')
  | (s', Err e) => (Blobs s' (forgetBlobStores (stores b1) h), Err e)
  end.
Proof.
  unfold provisionBlobStore. destruct (bs_open L (db_ b) h name opts) as [s1 [st1|e]]; [|done]. intros [= <- <-] Hne Hn. cbn [db_ stores].
  assert (Hnone : forgetBlobStores (<[(h, name) := st1]> (stores b)) h !! (h', name) = None).
  { unfold forgetBlobStores. apply map_lookup_filter_None_2. left. by rewrite lookup_insert_ne by congruence. }
  unfold blobStore. cbn [stores db_]. rewrite Hnone. destruct (bs_open L s1 h' name []) as [s2 [st2|e]]; [|done].
  unfold load_or_store. by rewrite Hnone.
Qed.

(** ** Witnesses *)

(** Stores as a map from store and id to bytes. *)
Definition demo_objects : Type := gmap (string * Z) (list byte).
Definition demo_update (s : demo_objects) (st : string) (id : Z) (f : list byte -> list byte) : demo_objects * result berr unit :=
  match s !! (st, id) with Some c => (<[(st, id) := f c]> s, Ok tt) | None => (s, Err ErrNotFound) end.
Definition demo_library : library demo_objects string := {|
  bs_open s _ n _ := (s, Ok n); bs_open_ro _ _ n := Ok n;
  bs_create s st := let id := Z.of_nat (size s) + 1 in
    match s !! (st, id) with None => (<[(st, id) := []]> s, Ok id) | Some _ => (s, Err (EBlob "id taken")) end;
  bs_writer s st id := match s !! (st, id) with Some _ => Ok tt | None => Err ErrNotFound end;
  bs_write_at s st id d off := demo_update s st id (fun c => overwritten c (Z.to_nat off) d);
  bs_close_writer s _ _ := s;
  bs_truncate s st id n := demo_update s st id (resized (Z.to_nat n));
  bs_size s st id := match s !! (st, id) with Some c => Ok (Z.of_nat (length c)) | None => Err ErrNotFound end;
  bs_reader s st id := match s !! (st, id) with Some _ => Ok tt | None => Err ErrNotFound end;
  bs_read_at s st id len off := match s !! (st, id) with
    | Some c => let d := take (Z.to_nat len) (drop (Z.to_nat off) c) in (d, if Z.of_nat (length d) =? len then RMore else REOF)
    | None => ([], RFail "gone") end;
  bs_delete s st id := match s !! (st, id) with Some _ => (delete (st, id) s, Ok tt) | None => (s, Err ErrNotFound) end
|}.
Definition demo_objs (s : demo_objects) (n : string) (id : Z) : option (list byte) := s !! (n, id).

Lemma demo_update_law s st id f c : demo_objs s st id = Some c ->
  match demo_update s st id f with (s', Ok _) => puts demo_objs s s' st id (Some (f c)) | (s', Err _) => others demo_objs s s' st id end.
Proof.
  unfold demo_update, demo_objs. intros ->. split; [apply lookup_insert_eq|]. intros n' id' Hne. by apply lookup_insert_ne.
Qed.
Lemma demo_library_laws : library_laws demo_library demo_objs (fun st => st).
Proof.
  constructor; cbn [demo_library bs_open bs_open_ro bs_create bs_writer bs_write_at bs_close_writer bs_truncate bs_size bs_read_at bs_delete].
  - done.
  - by intros s h n st [= <-].
  - intros s st. destruct (s !! _) eqn:E; [done|]. split; [done|]. split; [apply lookup_insert_eq|]. intros n' id' Hne. by apply lookup_insert_ne.
  - intros s st id. unfold demo_objs. by destruct (s !! _).
  - intros s st id d off c Hc _. by apply (demo_update_law s st id (fun c => overwritten c (Z.to_nat off) d)).
  - done.
  - intros s st id k c Hc _. by apply (demo_update_law s st id (resized (Z.to_nat k))).
  - intros s st id n. unfold demo_objs. destruct (s !! _) as [c|]; [intros [= <-]; by exists c|done].
  - intros s st id len off c Hc Hoff Hlen. unfold demo_objs in Hc. rewrite Hc. cbv zeta. rewrite length_take, length_drop.
    split; [|split; [lia|]].
    + destruct (Nat.le_gt_cases (Z.to_nat len) (length c - Z.to_nat off)); [by rewrite Nat.min_l by lia|].
      rewrite Nat.min_r by lia. rewrite !take_ge by (rewrite length_drop; lia). done.
    + destruct (Z.eqb_spec (Z.of_nat (Nat.min (Z.to_nat len) (length c - Z.to_nat off))) len); [done|]. lia.
  - intros s st id. destruct (s !! _) eqn:E; [|done]. split; [apply lookup_delete_eq|]. intros n' id' Hne. by apply lookup_delete_ne.
Qed.

Definition demo_blobs : world (@blobs demo_objects string) :=
  World (Some (Limits.New (S754_zero false) 4)) [] 0 [] (Blobs {[("media"%string, 1) := [zb 9; zb 9; zb 9]]} ∅).
Definition demo_blob_dh : data_handler := NewData demo_handler [WithMaxBlob 2].
Definition demo_upload (cs : list (list byte)) : world (@blobs demo_objects string) * reply :=
  handleBlob demo_library demo_blob_dh true (Ok 7%nat) (demo_body "bob" "POST" []) [("store", "media"); ("id", "1")]%string
    (Stream cs None) "app" "/blob/write" 0 demo_blobs.
Definition demo_download (w : world (@blobs demo_objects string)) : world (@blobs demo_objects string) * reply :=
  handleBlob demo_library demo_blob_dh true (Ok 7%nat) (demo_body "ann" "GET" []) [("store", "media"); ("id", "1")]%string
    (Stream [] None) "app" "/blob/read" 0 w.

Lemma blobs_roundtrip_witness :
  (demo_upload [[zb 1]; []; [zb 2]]).2 = jint "size" 2 /\
  (demo_download (demo_upload [[zb 1]; []; [zb 2]]).1).2 = Bytes None (Some 2) [zb 1; zb 2] /\
  reply_status (demo_upload [[zb 1]; [zb 2; zb 3]]).2 = 413 /\
  demo_objs (db_ (w_db (demo_upload [[zb 1]; []; [zb 2]]).1)) "media" 1 = Some [zb 1; zb 2].
Proof.
  split; [vm_compute; reflexivity|]. split; [vm_compute; reflexivity|]. split; [vm_compute; reflexivity|].
  assert (Hpos : forall l, w_lim demo_blobs = Some l -> 0 <= InFlight l "app") by (intros l [= <-]; done).
  assert (Hok : cache_ok (fun st : string => st) (stores (w_db demo_blobs))) by (intros h n st Hst; exact (False_ind _ (lookup_empty_Some _ _ Hst))).
  destruct (blobs_roundtrip demo_library demo_objs (fun st => st) demo_library_laws demo_blob_dh true (Ok 7%nat)
    (demo_body "bob" "POST" []) [("store", "media"); ("id", "1")]%string (Stream [[zb 1]; []; [zb 2]] None) "app" 0 demo_blobs
    (demo_upload [[zb 1]; []; [zb 2]]).1 (demo_upload [[zb 1]; []; [zb 2]]).2 ltac:(done) Hpos Hok (surjective_pairing _)) as (_ & _ & H).
  destruct (H (JObj [("size"%string, JNum "2")]) ltac:(vm_compute; reflexivity)) as (id & Hid & _ & _ & _ & Ho & _).
  vm_compute in Hid. injection Hid as <-. exact Ho.
Defined.
