(* ===== verification/BlobCache.v ===== *)
(** * httpapi and registry: the cache of blob stores and the life of handles

    [blobStores] of [src/httpapi/blob.go] is keyed by database handle; the registry
    ([src/registry/registry.go]) opens and closes those handles and fires the close hook
    ([forgetBlobStores]) before it closes one.  Here both run together: any interleaving of
    the registry's steps, of blob requests that hold a reference, and of the hook. *)
From S2P Require Import Prelude Blob Registry.

Section Cache.
Context {St : Type}.

(** The registry's world; the blob requests in flight, each with the entry its reference is
    on and the handle it got; the cache; the handles whose close hook has run. *)
Record cworld := CWorld { rw : world; users : list (nat * nat); stores : gmap (nat * string) St; hooked : list nat }.
Definition init_cworld (bs : gmap string backend) : cworld := CWorld (init_world bs) [] ∅ [].

(** A reference of one of [users] is nobody else's to release. *)
Definition held (u : list (nat * nat)) (w : world) : Prop := forall a, occurrences a u.*1 <= occurrences a (holders w).

(** A step, labelled with the store a provision names.  [closeHandle] is two statements on a
    detached handle: it fires the hook ([C_hook]), then closes ([C_close]); [hooked] holds
    the handles whose [closeHandle] is past its first statement. *)
Inductive cstep : cworld -> option (nat * string) -> cworld -> Prop :=
| C_registry w w' u c hk :
    step w w' -> held u w' -> closed w' = closed w ->
    cstep (CWorld w u c hk) None (CWorld w' u c hk)
| C_close w w' u c hk h :
    h ∈ hk -> step w w' -> held u w' -> closed w' = h :: closed w ->
    cstep (CWorld w u c hk) None (CWorld w' u c hk)
| C_enter w u c hk a e h :
    heap (reg w) !! a = Some e -> db e = Some h -> held ((a, h) :: u) w ->
    cstep (CWorld w u c hk) None (CWorld w ((a, h) :: u) c hk)
| C_leave r ho1 ho2 rs cg cd hn u1 u2 a h c hk now :
    cstep (CWorld (World r (ho1 ++ a :: ho2) rs cg cd hn) (u1 ++ (a, h) :: u2) c hk) None
          (CWorld (World (release r a now) (ho1 ++ ho2) rs cg cd hn) (u1 ++ u2) c hk)
| C_open w u c hk a h n st :
    (a, h) ∈ u -> cstep (CWorld w u c hk) None (CWorld w u (load_or_store c (h, n) st).1 hk)
| C_provision w u c hk a h n st :
    (a, h) ∈ u -> cstep (CWorld w u c hk) (Some (h, n)) (CWorld w u (<[(h, n) := st]> c) hk)
| C_hook w u c hk h :
    h ∈ closing w -> cstep (CWorld w u c hk) None (CWorld w u (forgetBlobStores c h) (h :: hk)).
Definition csteps : cworld -> cworld -> Prop := rtc (fun x y => exists l, cstep x l y).

(** ** What a registry step keeps *)

Definition published (r : registry) (a h : nat) : Prop := exists e, heap r !! a = Some e /\ db e = Some h.

Lemma put_published r a b e e' h : heap r !! b = Some e -> db e' = db e -> published r a h -> published (put r b e') a h.
Proof.
  intros Hb Hd (x & Hx & Hh). unfold published, put. cbn [heap]. destruct (decide (b = a)) as [->|].
  - exists e'. rewrite lookup_insert_eq. split; [done|]. congruence.
  - exists x. by rewrite lookup_insert_ne.
Qed.
Lemma new_published r a b e h : heap r !! b = None -> published r a h -> published (put r b e) a h.
Proof. intros Hb (x & Hx & Hh). exists x. split; [|done]. cbn. rewrite lookup_insert_ne; [done|]. congruence. Qed.
Lemma reap_heap now ttl l : forall x, heap (fold_left (reap_one now ttl) l x).1 = heap x.1.
Proof.
  induction l as [|[n a] l IH]; intros [r hs]; [done|]. cbn [fold_left]. rewrite IH. unfold reap_one. by repeat case_match.
Qed.
Lemma detach_heap r n r1 o : detachIdleLocked r n = Ok (r1, o) -> heap r1 = heap r.
Proof. intros [(_ & -> & _)|(a & e & _ & _ & _ & -> & _)]%detachIdleLocked_ok; done. Qed.

Lemma step_published w w' a h : step w w' -> a ∈ holders w -> rinv w -> published (reg w) a h -> published (reg w') a h.
Proof.
  intros Hs Ha Hr Hp. destruct Hs as [r r' ho rs cg cd hn n b Hn H|r r' ho rs cg cd hn b e g now He Ho Hg H|r r' ho rs cg cd hn b e m now x He Ho H
    |r r' ho rs cg cd hn n b e g now He Ho H|r h1 h2 rs cg cd hn b now|r r' ho rs cg cd hn n ph o Hph H|r ho r1 r2 cg cd hn n
    |r r' ho rs cg cd hn n be H|r r' ho rs cg cd hn n o H|r r' ho rs cg cd hn now ttl hs H|]; cbn [reg] in *.
  - revert H. unfold Get_lookup. repeat case_match; try done. intros [= <-]. by apply (new_published (set_entries r _)).
  - assert (a <> b).
    { intros ->. cbn in Ha. destruct (v_hold _ Hr b Ha) as (e' & ? & _ & ?). cbn in *. congruence. }
    revert H. unfold Get_opened. rewrite He. intros [= <-]. destruct Hp as (x & Hx & Hh). exists x. cbn. by rewrite lookup_insert_ne.
  - revert H. unfold Get_opened. rewrite He. intros [= <- _]. by eapply (put_published _ _ _ e).
  - revert H. unfold Get_recheck. rewrite He. repeat case_match; try done. intros [= <- _]. by eapply (put_published _ _ _ e).
  - unfold release. destruct (heap r !! b) as [e|] eqn:He; [|done]. by eapply (put_published _ _ _ e).
  - revert H. unfold Reserve. destruct (backends r !! n); [|done]. intros [[r1 o1] [Hd Hx]]%rbind_ok. injection Hx as <- <-.
    apply detach_heap in Hd. apply (new_published (set_entries r1 _)); [cbn; by rewrite Hd|]. unfold published in *. cbn. by rewrite Hd.
  - done.
  - revert H. unfold Add. case_match; [done|]. by intros [= <-].
  - revert H. unfold Remove. destruct (backends r !! n); [|done]. intros [[r1 o1] [Hd Hx]]%rbind_ok. injection Hx as <- <-.
    apply detach_heap in Hd. unfold published in *. cbn. by rewrite Hd.
  - revert H. unfold ReapIdle. destruct (ttl <=? 0); [by intros [= <- _]|]. intros H. apply (f_equal (fun x => heap x.1)) in H.
    rewrite reap_heap in H. cbn in H. unfold published in *. by rewrite <- H.
  - done.
Qed.
(** A handle on its way out stays there. *)
Lemma step_gone w w' h : step w w' -> h ∈ closing w ++ closed w -> h ∈ closing w' ++ closed w'.
Proof.
  intros Hs. destruct Hs; cbn [closing closed]; rewrite ?elem_of_app, ?elem_of_cons; try done; intros Hin; rewrite ?elem_of_app, ?elem_of_cons in Hin; tauto.
Qed.

(** ** The invariant *)

Record cinv (x : cworld) : Prop := {
  c_reg : rinv (rw x);
  c_held : held (users x) (rw x);
  c_users : forall a h, (a, h) ∈ users x -> published (reg (rw x)) a h;
  c_hooked : forall h, h ∈ hooked x -> h ∈ closing (rw x) ++ closed (rw x);
  c_closed : forall h, h ∈ closed (rw x) -> h ∈ hooked x;
  c_cache : forall h n st, stores x !! (h, n) = Some st -> h ∉ hooked x
}.

Lemma user_holds x a h : cinv x -> (a, h) ∈ users x -> a ∈ holders (rw x).
Proof.
  intros Hx Hin. apply occurrences_pos. pose proof (c_held _ Hx a) as H.
  enough (0 < occurrences a (users x).*1) by lia. apply occurrences_pos, list_elem_of_fmap. by exists (a, h).
Qed.
(** A request in flight works on a handle that is neither closed nor about to be. *)
Lemma user_live x a h : cinv x -> (a, h) ∈ users x -> h ∉ closing (rw x) ++ closed (rw x).
Proof.
  intros Hx Hin. destruct (holder_entry (rw x) a (c_reg _ Hx) (user_holds _ _ _ Hx Hin)) as (e & h' & He & _ & _ & Hd & _ & Hn).
  destruct (c_users _ Hx a h Hin) as (e' & He' & Hd'). congruence.
Qed.

Lemma held_app (u1 u2 : list (nat * nat)) a h ho1 ho2 b :
  occurrences b (u1 ++ (a, h) :: u2).*1 <= occurrences b (ho1 ++ a :: ho2) -> occurrences b (u1 ++ u2).*1 <= occurrences b (ho1 ++ ho2).
Proof. rewrite fmap_app. cbn. rewrite <- !Permutation_middle, !occurrences_cons, <- fmap_app. lia. Qed.

Lemma cinv_registry w w' u c hk : step w w' -> held u w' -> (forall h, h ∈ closed w' -> h ∈ closed w \/ h ∈ hk) ->
  cinv (CWorld w u c hk) -> cinv (CWorld w' u c hk).
Proof.
  intros Hst Hh Hcl Hx. pose proof Hx as [H1 H2 H3 H4 H5 H6]. cbn [rw users stores hooked] in *.
  constructor; cbn [rw users stores hooked]; [by eapply rinv_step|done| | | |done].
  - intros a h Hin. eapply step_published; [done| |done|by apply H3]. by apply (user_holds _ a h Hx).
  - intros h Hin. eapply step_gone; [done|by apply H4].
  - intros h [Hin|]%Hcl; [by apply H5|done].
Qed.
Lemma cinv_step x l y : cstep x l y -> cinv x -> cinv y.
Proof.
  intros Hs Hx. pose proof Hx as [H1 H2 H3 H4 H5 H6]. destruct Hs as [w w' u c hk Hst Hh Hcl|w w' u c hk h Hhk Hst Hh Hcl|w u c hk a e h He Hd Hh|r ho1 ho2 rs cg cd hn u1 u2 a h c hk now
    |w u c hk a h n st Hin|w u c hk a h n st Hin|w u c hk h Hin]; cbn [rw users stores hooked] in *.
  - apply (cinv_registry w); [done|done| |done]. intros h. rewrite Hcl. by left.
  - apply (cinv_registry w); [done|done| |done]. intros g. rewrite Hcl. intros [->|]%elem_of_cons; [by right|by left].
  - constructor; cbn [rw users stores hooked]; try done. intros b g [[= -> ->]|Hin]%elem_of_cons; [by exists e|by apply H3].
  - constructor; cbn [rw users stores hooked]; try done.
    + eapply rinv_step; [apply S_release|done].
    + intros b. cbn. eapply held_app, H2.
    + intros b g Hin. eapply step_published; [apply S_release| |done|apply H3; set_solver].
      apply (user_holds _ b g Hx). cbn. set_solver.
  - constructor; cbn [rw users stores hooked]; try done. intros g m st'. unfold load_or_store. destruct (c !! (h, n)); [apply H6|]. cbn [fst].
    rewrite lookup_insert. destruct (decide _) as [[= <- <-]|]; [|apply H6]. intros _ Hhk. by apply (user_live _ _ _ Hx Hin), H4.
  - constructor; cbn [rw users stores hooked]; try done. intros g m st'. rewrite lookup_insert. destruct (decide _) as [[= <- <-]|]; [|apply H6].
    intros _ Hhk. by apply (user_live _ _ _ Hx Hin), H4.
  - constructor; cbn [rw users stores hooked]; try done.
    + intros g [->|]%elem_of_cons; [apply elem_of_app; by left|by apply H4].
    + intros g Hg. apply elem_of_cons. right. by apply H5.
    + intros g m st [Hm Hne]%map_lookup_filter_Some [->|Hg]%elem_of_cons; [done|by apply (H6 g m st)].
Qed.
Lemma cinv_reachable bs x : csteps (init_cworld bs) x -> cinv x.
Proof.
  revert x. apply (rtc_ind_r cinv).
  - constructor; cbn; [apply rinv_init|done| | | |]; try by intros ? ?%not_elem_of_nil. by intros a h ?%not_elem_of_nil.
    intros h n st. by rewrite lookup_empty.
  - intros x y _ [l Hs] Hx. by eapply cinv_step.
Qed.

(** C26: (blob cache) In every state the registry, the blob requests and the close hook can
    reach together: a blob request in flight works on a handle that is not closed and not
    about to be; the cache names no store of a handle that is closed, or whose hook has
    run, so reopening a database never leaves an entry behind; and what is cached for a
    handle stays the store that is used until that handle's hook runs, unless a provision
    of the same store replaces it, so no concurrent open of the store undoes a provision. *)
Theorem blob_cache_follows_handles bs x : csteps (init_cworld bs) x ->
  (forall a h, (a, h) ∈ users x -> h ∉ closing (rw x) ++ closed (rw x)) /\
  (forall h n st, stores x !! (h, n) = Some st -> h ∉ hooked x /\ h ∉ closed (rw x)) /\
  (forall h n st l y, stores x !! (h, n) = Some st -> cstep x l y ->
     stores y !! (h, n) = Some st \/ h ∈ hooked y \/ l = Some (h, n)).
Proof.
  intros Hr%cinv_reachable. split; [intros a h; by apply user_live|]. split.
  { intros h n st Hst. pose proof (c_cache _ Hr h n st Hst) as Hn. split; [done|]. by intros ?%(c_closed _ Hr). }
  intros h n st l y Hst Hs. destruct Hs as [| | | |w u c hk a g m st' Hin|w u c hk a g m st' Hin|w u c hk g Hin]; cbn [stores hooked] in *; try by left.
  - left. unfold load_or_store. destruct (c !! (g, m)) as [st0|] eqn:E; [done|]. cbn [fst]. rewrite lookup_insert_ne; [done|]. intros [= -> ->]. congruence.
  - destruct (decide ((g, m) = (h, n))) as [->|Hne]; [by right; right|left]. by rewrite lookup_insert_ne.
  - destruct (decide (g = h)) as [->|Hne]; [right; left; by left|left]. by apply map_lookup_filter_Some_2.
Qed.
End Cache.

(** ** A concrete run *)

(** A provision on handle 9; then the request ends, the reaper detaches the handle, and the
    hook clears the cache before the handle is closed. *)
Definition demo_live : @cworld string := CWorld (World demo_r2 [0%nat] [] [] [] demo_hn) [(0%nat, 9%nat)] {[(9%nat, "media"%string) := "provisioned"%string]} [].
Definition demo_gone : @cworld string := CWorld (World demo_r4 [] [] [] [9%nat] demo_hn) [] ∅ [9%nat].

Lemma registry_run (w w' : world) c : rtc step w w' -> closed w' = [] ->
  csteps (CWorld w [] c []) (CWorld (St := string) w' [] c []).
Proof.
  intros H Hc. induction H as [x|x y z Hs H IH]; [apply rtc_refl|]. eapply rtc_l; [|by apply IH]. exists None.
  assert (Hnone : forall w, rtc step w z -> closed w = []).
  { intros w Hw. destruct (closed w) as [|h l] eqn:El; [done|]. assert (Hin : h ∈ closed w) by (rewrite El; left). exfalso.
    assert (Hall : h ∈ closed z) by (clear - Hw Hin; induction Hw as [|x y z Hs _ IH]; [done|]; apply IH; destruct Hs; cbn in *; try done; by right).
    rewrite Hc in Hall. by apply not_elem_of_nil in Hall. }
  apply C_registry; [done|by intros a; apply occurrences_nonneg|]. rewrite (Hnone y H), (Hnone x); [done|]. by eapply rtc_l.
Qed.
Lemma demo_live_run : csteps (init_cworld {["a"%string := demo_be]}) demo_live.
Proof.
  etrans; [apply (registry_run _ _ ∅ demo_open eq_refl)|].
  eapply rtc_l; [exists None; apply (C_enter _ _ _ _ 0%nat (Entry "a" false (Some 9%nat) None 1 5 false) 9%nat); [reflexivity|reflexivity|]|].
  { intros a. cbn [fmap list_fmap fst holders]. done. }
  eapply rtc_l; [eexists; apply (C_provision _ _ _ _ 0%nat 9%nat "media" "provisioned"), list_elem_of_here|].
  replace (<[(9%nat, "media"%string) := "provisioned"%string]> ∅) with ({[(9%nat, "media"%string) := "provisioned"%string]} : gmap (nat * string) string) by done.
  apply rtc_refl.
Qed.
Lemma demo_gone_run : csteps demo_live demo_gone.
Proof.
  eapply rtc_l; [eexists; apply (C_leave demo_r2 [] [] [] [] [] demo_hn [] [] 0%nat 9%nat _ _ 6)|]. cbn [app].
  eapply rtc_l; [exists None; apply (C_registry _ (World demo_r4 [] [] [9%nat] [] demo_hn)); [|done|done]|].
  { apply (S_reap demo_r3 demo_r4 [] [] [] [] demo_hn 100 10 [9%nat]). reflexivity. }
  eapply rtc_l; [exists None; apply (C_hook _ _ _ _ 9%nat), list_elem_of_here|].
  replace (forgetBlobStores {[(9%nat, "media"%string) := "provisioned"%string]} 9%nat) with (∅ : gmap (nat * string) string) by (vm_compute; reflexivity).
  eapply rtc_l; [exists None; apply (C_close _ (World demo_r4 [] [] [] [9%nat] demo_hn) _ _ _ 9%nat); [apply list_elem_of_here| |done|done]|apply rtc_refl].
  apply (S_closed demo_r4 [] [] [] [] [] demo_hn 9%nat).
Qed.

Lemma blob_cache_follows_handles_witness :
  stores demo_live !! (9%nat, "media"%string) = Some "provisioned"%string /\ 9%nat ∉ closed (rw demo_live) /\
  csteps (init_cworld {["a"%string := demo_be]}) demo_gone /\ 9%nat ∈ closed (rw demo_gone) /\
  (forall n, stores demo_gone !! (9%nat, n) = None).
Proof.
  split; [reflexivity|]. split.
  { destruct (blob_cache_follows_handles _ _ demo_live_run) as (_ & H & _). apply (H 9%nat "media"%string "provisioned"%string). reflexivity. }
  assert (Hg : csteps (init_cworld {["a"%string := demo_be]}) demo_gone) by (etrans; [apply demo_live_run|apply demo_gone_run]).
  split; [exact Hg|]. split; [apply list_elem_of_here|]. intros n.
  destruct (stores demo_gone !! (9%nat, n)) as [st|] eqn:E; [|reflexivity]. exfalso.
  destruct (blob_cache_follows_handles _ _ Hg) as (_ & H & _). destruct (H 9%nat n st E) as [_ Hn]. apply Hn, list_elem_of_here.
Defined.
