(* ===== verification/Changes.v ===== *)
(** * httpapi: the change stream

    [src/httpapi/changes.go] over the broker of [src/feed/feed.go]: admission, resumption
    and what a server-sent-event stream writes.  A stream is the list of frames written so
    far; what wakes the handler (an event, the keep-alive ticker, the end of the request or
    of the subscription), and whether each write succeeded, are its inputs. *)
From S2P Require Import Prelude GoStd Crypto Wire Authz Limits Session Config Hrana HttpApi Envelope Endpoints Feed.
From Stdlib Require Import Floats.SpecFloat.

(** ** Opening the stream *)

(** What the handler goes on with once it has subscribed. *)
Record opened_stream := OpenedStream { os_sub : nat; os_since : Z; os_tables : option (list string); os_answer : sub_result }.

Definition since_param (q : values) (lastEventID : string) : result reply Z :=
  let s := query_get q "since" in
  if negb (String.eqb s "") then match parse_uint64 s with Some v => Ok v | None => Err (fail 400 "since must be an unsigned integer") end
  else if negb (String.eqb lastEventID "") then Ok (default 0 (parse_uint64 lastEventID))
  else Ok 0.
Definition tables_param (q : values) : option (list string) :=
  let t := query_get q "tables" in if String.eqb t "" then None else Some (table_names t).

(** [limiter.Allow], its slot released at once: a stream takes a rate token only. *)
Definition connect_token (r : http_request) (db : string) (now : Z) (w : HttpApi.world broker) : HttpApi.world broker * result reply unit :=
  match w_lim w with
  | None => (w, Ok tt)
  | Some l =>
      let '(v, l') := Allow l (Authz.Name (FromContext (q_principal r))) db now in
      let set l := HttpApi.World (Some l) (w_met w) (w_refs w) (w_pool w) (w_db w) in
      match v with
      | RateLimited => (set l', Err (fail 429 "rate limit exceeded"))
      | Limits.Busy => (set l', Err (fail 503 "database busy: too many concurrent requests"))
      | Admitted_ => (set (Limits.release l' db), Ok tt)
      end
  end.

(** [id]: the address of the new subscriber. *)
Definition handleChanges (h : handler) (feed_on : bool) (r : http_request) (q : values) (lastEventID db : string) (id : nat) (now : Z)
    (w : HttpApi.world broker) : HttpApi.world broker * result reply opened_stream :=
  if negb (String.eqb (q_method r) "GET") then (w, Err (fail 405 "use GET")) else
  if negb feed_on then (w, Err (fail 404 "change feed not enabled")) else
  match authorize h r db with
  | Err resp => (w, Err (Plain resp))
  | Ok _ =>
      match connect_token r db now w with
      | (w1, Err rp) => (w1, Err rp)
      | (w1, Ok _) =>
          match since_param q lastEventID with
          | Err rp => (w1, Err rp)
          | Ok since =>
              let '(b, a) := Subscribe (w_db w1) db id since in
              let w2 := set_db w1 b in
              if negb (sr_ok a) then (w2, Err (fail 404 "change feed unavailable for this database (no stable path)"))
              else if sr_full a then (w2, Err (fail 503 "too many change-feed subscribers"))
              else (w2, Ok (OpenedStream id since (tables_param q) a))
          end
      end
  end.

(** ** What it writes *)

Inductive frame : Type :=
| FHead (reset : bool) (seq : Z)     (* event: ready | reset *)
| FChange (e : event)                (* id, event: change *)
| FReset (seq : Z)                   (* id, event: reset *)
| FPing.

Definition visible (tables : option (list string)) (e : event) : bool :=
  IsReset e || match tables with None => true | Some ts => mem_string (Table e) ts end.
Definition frame_of (e : event) : frame := if IsReset e then FReset (Seq e) else FChange e.

(** [written]: whether the write and the flush succeed; a filtered event writes nothing. *)
Definition change (tables : option (list string)) (e : event) (written : bool) : list frame * bool :=
  if visible tables e then (if written then [frame_of e] else [], written) else ([], true).

(** What a [select] of the follow loop came back with. *)
Inductive wake : Type :=
| WDone                                   (* the request's context *)
| WEvent (e : event) (written : bool)
| WClosed                                 (* the subscription was dropped *)
| WKeepalive (can_read written : bool).   (* the policy's answer at this tick *)

(** The frames so far, and whether the handler is still in its loop. *)
Definition on_wake (tables : option (list string)) (x : list frame * bool) (k : wake) : list frame * bool :=
  let '(fs, live) := x in
  if negb live then x else
  match k with
  | WDone | WClosed => (fs, false)
  | WEvent e written => let '(f, ok) := change tables e written in (fs ++ f, ok)
  | WKeepalive can_read written => if negb can_read then (fs, false) else (if written then fs ++ [FPing] else fs, written)
  end.
Definition on_replay (tables : option (list string)) (x : list frame * bool) (ew : event * bool) : list frame * bool :=
  let '(fs, live) := x in
  if negb live then x else let '(f, ok) := change tables ew.1 ew.2 in (fs ++ f, ok).

(** The head, the replayed events with the outcomes [ws] of their writes, then the wake-ups. *)
Definition stream_out (tables : option (list string)) (a : sub_result) (head : bool) (ws : list bool) (wakes : list wake) : list frame * bool :=
  let x0 := if head then ([FHead (sr_reset a) (sr_seq a)], true) else ([], false) in
  let x1 := fold_left (on_replay tables) (zip (sr_replay a) ws) x0 in
  fold_left (on_wake tables) wakes x1.
(** Every way out of the handler closes the subscription. *)
Definition close_sub (f : dbFeed) (id : nat) : dbFeed := unsubscribe f id.

(** The events the handler has taken off its channel. *)
Definition taken (wakes : list wake) : list event := omap (fun k => match k with WEvent e _ => Some e | _ => None end) wakes.
Definition payload_frames (fs : list frame) : list frame := List.filter (fun f => match f with FPing => false | _ => true end) fs.
Definition shown (tables : option (list string)) (es : list event) : list frame := map frame_of (List.filter (visible tables) es).

(** ** The stream is the committed log *)

Lemma shown_app tables x y : shown tables (x ++ y) = shown tables x ++ shown tables y.
Proof. unfold shown. by rewrite List.filter_app, map_app. Qed.
Lemma payload_app x y : payload_frames (x ++ y) = payload_frames x ++ payload_frames y.
Proof. apply List.filter_app. Qed.
Lemma change_frames tables e written : let '(f, ok) := change tables e written in
  (ok = true -> payload_frames f = shown tables [e]) /\ (ok = false -> f = []).
Proof.
  unfold change, shown. cbn [List.filter]. destruct (visible tables e), written; cbn [map]; unfold frame_of, payload_frames;
    (split; [|done]); destruct (IsReset e); done.
Qed.

(** A handler that left its loop writes nothing more. *)
Lemma replay_dead tables l fs : fold_left (on_replay tables) l (fs, false) = (fs, false).
Proof. by induction l. Qed.
Lemma wake_dead tables l fs : fold_left (on_wake tables) l (fs, false) = (fs, false).
Proof. by induction l. Qed.

(** Both loops show a prefix of their events: all of them while the handler is alive. *)
Definition shows (tables : option (list string)) (es : list event) (fs : list frame) (x : list frame * bool) : Prop :=
  exists k, (k <= length es)%nat /\ payload_frames x.1 = payload_frames fs ++ shown tables (take k es) /\ (x.2 = true -> k = length es).
Lemma shows_stop tables es fs : shows tables es fs (fs, false).
Proof. exists 0%nat. split; [lia|]. split; [by rewrite app_nil_r|done]. Qed.
Lemma shows_cons tables e es fs f written x : change tables e written = (f, true) -> shows tables es (fs ++ f) x -> shows tables (e :: es) fs x.
Proof.
  intros Hc (k & Hk & Hp & Hl). pose proof (change_frames tables e written) as H. rewrite Hc in H. destruct H as [H _].
  exists (S k). split; [cbn; lia|]. rewrite Hp, payload_app, H by done. split; [|intros ?; cbn; f_equal; by apply Hl].
  change (take (S k) (e :: es)) with ([e] ++ take k es). by rewrite shown_app, app_assoc.
Qed.
Lemma change_stop tables e written f : change tables e written = (f, false) -> f = [].
Proof. intros Hc. pose proof (change_frames tables e written) as H. rewrite Hc in H. by apply H. Qed.

Lemma replay_shows tables es : forall ws fs, length ws = length es -> shows tables es fs (fold_left (on_replay tables) (zip es ws) (fs, true)).
Proof.
  induction es as [|e es IH]; intros [|w ws] fs Hl; try done.
  { exists 0%nat. split; [done|]. by rewrite app_nil_r. }
  cbn [zip zip_with fold_left on_replay negb fst snd]. destruct (change tables e w) as [f ok] eqn:Hc. destruct ok.
  - eapply shows_cons; [exact Hc|]. apply IH. cbn in Hl. lia.
  - apply change_stop in Hc as ->. rewrite app_nil_r. rewrite replay_dead. apply shows_stop.
Qed.
Lemma wakes_show tables wakes : forall fs, shows tables (taken wakes) fs (fold_left (on_wake tables) wakes (fs, true)).
Proof.
  induction wakes as [|k wakes IH]; intros fs; [exists 0%nat; split; [done|]; by rewrite app_nil_r|].
  cbn [fold_left on_wake negb]. destruct k as [|e written| |[] []]; cbn [negb taken omap list_omap];
    try (rewrite wake_dead; apply shows_stop).
  - destruct (change tables e written) as [f ok] eqn:Hc. destruct ok; [eapply shows_cons; [exact Hc|apply IH]|].
    apply change_stop in Hc as ->. rewrite app_nil_r, wake_dead. apply shows_stop.
  - destruct (IH (fs ++ [FPing])) as (k & Hk & Hp & Hl). exists k. split; [done|]. split; [|done]. by rewrite Hp, payload_app, app_nil_r.
Qed.

(** The two loops together. *)
Lemma stream_shows tables a es ws wakes : length ws = length (sr_replay a) -> taken wakes = es ->
  shows tables (sr_replay a ++ es) [FHead (sr_reset a) (sr_seq a)] (stream_out tables a true ws wakes).
Proof.
  intros Hws Hgot. unfold stream_out.
  destruct (replay_shows tables (sr_replay a) ws [FHead (sr_reset a) (sr_seq a)] Hws) as (k & Hk & Hp & Hl).
  destruct (fold_left (on_replay tables) _ _) as [fs1 live1]. cbn [fst snd] in *. destruct live1.
  - specialize (Hl eq_refl) as ->. destruct (wakes_show tables wakes fs1) as (k & Hk2 & Hp2 & Hl2). rewrite Hgot in *.
    exists (length (sr_replay a) + k)%nat. rewrite length_app. split; [lia|]. split; [|intros Hv; rewrite (Hl2 Hv); done].
    rewrite Hp2, Hp, firstn_all, take_app_add, shown_app. by rewrite app_assoc.
  - rewrite wake_dead. exists k. rewrite length_app. split; [lia|]. split; [by rewrite take_app_le by lia|done].
Qed.
(** A head that could not be written leaves nothing. *)
Lemma headless tables a ws wakes : stream_out tables a false ws wakes = ([], false).
Proof. unfold stream_out. by rewrite replay_dead, wake_dead. Qed.

(** The log is numbered from 1. *)
Definition numbered (L : list event) : Prop := forall i e, L !! i = Some e -> Seq e = Z.of_nat i + 1.
Lemma numbered_append L es : numbered L -> numbered (append_log L es).
Proof.
  intros HL i e. rewrite append_log_app, lookup_app. destruct (L !! i) as [x|] eqn:E; [intros [= <-]; by apply HL|].
  rewrite list_lookup_imap. destruct (es !! _) as [y|] eqn:Ey; [|done]. intros [= <-]. cbn. apply lookup_ge_None in E. lia.
Qed.
Lemma run_numbered acts : numbered (slog (run_spec acts)).
Proof.
  unfold run_spec. assert (forall s, numbered (slog s) -> numbered (slog (fold_left spec_step acts s))) as H.
  { induction acts as [|a acts IH]; intros s Hs; [done|]. apply IH. destruct a; try done. by apply numbered_append. }
  apply H. by intros [] e.
Qed.
Lemma since_recv w id : (forall id cl, clients w !! id = Some cl -> 0 <= since_ cl) ->
  forall i c, clients (recv_step w id) !! i = Some c -> 0 <= since_ c.
Proof.
  intros Hw i c. unfold recv_step. destruct (clients w !! id) as [c0|] eqn:E; [|apply Hw].
  destruct (receive (fd w) id) as [f' [e|]]; [|apply Hw]. cbn [clients].
  rewrite lookup_insert. destruct (decide _); [|apply Hw]. intros [= <-]. by apply (Hw id c0).
Qed.
Lemma since_publish es : forall ms w, (forall id cl, clients w !! id = Some cl -> 0 <= since_ cl) ->
  forall i c, clients (publish_among ms es w) !! i = Some c -> 0 <= since_ c.
Proof.
  induction es as [|e es IH]; intros ms w Hw; [exact Hw|]. cbn [publish_among]. apply IH. cbn [clients].
  generalize (default [] (head ms)) as ids. intros ids. revert w Hw. induction ids as [|k ids IHi]; intros w Hw; [exact Hw|].
  cbn [fold_left]. apply IHi. by apply since_recv.
Qed.
Lemma since_range buffer max acts id cl : Forall act_ok acts -> clients (run_world buffer max acts) !! id = Some cl -> 0 <= since_ cl.
Proof.
  unfold run_world. assert (forall w, (forall id cl, clients w !! id = Some cl -> 0 <= since_ cl) -> Forall act_ok acts ->
    forall id cl, clients (fold_left (act_step max) acts w) !! id = Some cl -> 0 <= since_ cl) as H.
  { induction acts as [|a acts IH]; intros w Hw Hok; [done|]. inversion Hok as [|? ? Ha Hok']; subst. cbn [fold_left]. apply IH; [|done].
    intros i c. destruct a as [x d|x ms|x|since|x|x|]; cbn [act_step]; try apply Hw.
    - revert i c. unfold commit_hook. cbn. apply since_publish. exact Hw.
    - destruct (subscribe (fd w) (next_id w) since max) as [f1 r]. destruct (sr_sub r) as [j|]; cbn [clients]; [|apply Hw].
      rewrite lookup_insert. destruct (decide _); [|apply Hw]. intros [= <-]. apply Ha.
    - by apply since_recv. }
  intros Hok. apply H; [|done]. intros i c Hc. destruct (lookup_empty_Some _ _ Hc).
Qed.

(** C13: (change stream) After any interleaving of writers, commits, rollbacks, subscribers and
    shutdown, with [L] the log of committed events in commit order: what a /changes stream
    has written, keep-alives aside, is its head and then the visible part of an unbroken
    stretch of [L], in order and without repetition, that starts right after the sequence
    the client asked to resume from ([since] or Last-Event-ID), or after the sequence its
    head announces when it asked for none or was told to reset; while the handler is alive
    the stretch reaches to the last event taken off the subscription, and to the end of
    the log if the subscription holds no more; every event's id is its position in [L]; and
    the client is told to reset exactly when it asked for a future sequence or for one the
    ring no longer holds. *)
Theorem changes_stream_follows_log buffer max acts id cl tables head ws wakes :
  Forall act_ok acts -> Z.of_nat (length (slog (run_spec acts))) < two64 ->
  clients (run_world buffer max acts) !! id = Some cl ->
  length ws = length (sr_replay (answer cl)) -> taken wakes = got cl ->
  let L := slog (run_spec acts) in let a := answer cl in
  let start := Z.to_nat (if sr_reset a || (since_ cl =? 0) then sr_seq a else since_ cl) in
  let '(fs, live) := stream_out tables a head ws wakes in
  exists k, (start + k <= length L)%nat /\
    payload_frames fs = (if head then FHead (sr_reset a) (sr_seq a) :: shown tables (take k (drop start L)) else []) /\
    (live = true -> head = true /\ (Z.to_nat (sr_seq a) + length (got cl) = start + k)%nat /\
       (id ∈ subs (fd (run_world buffer max acts)) -> (exists ch, chans (fd (run_world buffer max acts)) !! id = Some ch /\ buf ch = []) ->
          take k (drop start L) = drop start L)) /\
    numbered L /\
    (sr_reset a = true <-> since_ cl > sr_seq a \/ (0 < since_ cl /\ since_ cl + Z.max 1 buffer < sr_seq a)).
Proof.
  intros Hok Hb Hid Hws Hgot L a start. destruct (client_view buffer max acts id cl Hok Hb Hid) as (ch & Hch & [Hseq Hpre Hlive _ Hreset Hreplay]).
  pose proof (since_range _ _ _ _ _ Hok Hid) as Hs0. fold L a in Hseq, Hpre, Hlive, Hreset, Hreplay.
  assert (Hseg : (start <= Z.to_nat (sr_seq a))%nat /\ sr_replay a = take (Z.to_nat (sr_seq a) - start) (drop start L)).
  { rewrite Hreplay. subst start. destruct (sr_reset a || (since_ cl =? 0)) eqn:E; [split; [done|]; by rewrite Nat.sub_diag|].
    apply orb_false_iff in E as [E _]. assert (~ since_ cl > sr_seq a) by (intros ?; enough (sr_reset a = true) by congruence; apply Hreset; by left).
    split; [lia|]. rewrite skipn_firstn_comm. done. }
  destruct Hseg as [Hle Hrep].
  assert (Hall : sr_replay a ++ got cl ++ buf ch `prefix_of` drop start L).
  { rewrite Hrep. rewrite <- (take_drop (Z.to_nat (sr_seq a) - start) (drop start L)) at 2. apply prefix_app.
    rewrite drop_drop. by replace (start + (Z.to_nat (sr_seq a) - start))%nat with (Z.to_nat (sr_seq a)) by lia. }
  assert (Hlen : length (sr_replay a) = (Z.to_nat (sr_seq a) - start)%nat) by (rewrite Hrep, length_take, length_drop; lia).
  destruct head.
  2:{ rewrite headless. exists 0%nat. split; [lia|]. split; [done|]. split; [done|]. split; [apply run_numbered|done]. }
  pose proof (stream_shows tables a (got cl) ws wakes Hws Hgot) as Hx. destruct (stream_out _ _ _ _ _) as [fs live]. destruct Hx as (k & Hk & Hp & Hl). cbn [fst snd] in *.
  destruct Hall as [rest Hall]. assert (Htk : take k (sr_replay a ++ got cl) = take k (drop start L)).
  { rewrite Hall, (app_assoc (sr_replay a) (got cl) (buf ch)), <- app_assoc. by rewrite (take_app_le (sr_replay a ++ got cl)). }
  rewrite length_app in Hk, Hl. apply (f_equal length) in Hall as Hlen2. rewrite !length_app, length_drop in Hlen2.
  exists k. split; [lia|]. split; [by rewrite Hp, Htk|]. split; [|split; [apply run_numbered|done]].
  intros Hv. specialize (Hl Hv). split; [done|]. split; [lia|]. intros Hin (ch' & Hch' & Hbuf). rewrite Hch in Hch'. injection Hch' as <-.
  destruct (Hlive Hin) as [Hfull _]. rewrite Hbuf, app_nil_r in Hfull. apply take_ge. rewrite Hl, Hfull, !length_drop. lia.
Qed.

(** ** Who gets a stream, and for how long *)

Lemma subscribe_bound f id since max f' a : subscribe f id since max = (f', a) -> sr_full a = false -> 0 < max ->
  Z.of_nat (size (subs f)) < max /\ Z.of_nat (size (subs f')) <= max.
Proof.
  unfold subscribe. destruct ((0 <? max) && _) eqn:E; [by intros [= <- <-]|]. intros H _ Hm.
  rewrite (proj2 (Z.ltb_lt _ _) Hm) in E. cbn in E. assert (Hlt : Z.of_nat (size (subs f)) < max) by lia. split; [done|].
  assert (subs f' = {[id]} ∪ subs f) as -> by (revert H; repeat case_match; by intros [= <- _]).
  pose proof (size_union_alt {[id]} (subs f)) as Hu. rewrite size_singleton in Hu.
  assert (size (subs f ∖ {[id]}) <= size (subs f))%nat by (apply subseteq_size; set_solver). lia.
Qed.

(** (change stream access) A stream opens only for a GET by a principal that may read the
    database and that the limiter admits; its slot is given back at once, so open streams
    hold none; the number of subscribers of a feed never passes the cap.  Whoever loses
    the read grant has the stream closed at the next keep-alive tick, nothing being
    written at it or after it; a request refused before subscribing leaves the broker as
    it was. *)
Theorem changes_are_gated h feed_on r q lastID db id now w :
  (forall l, w_lim w = Some l -> 0 <= InFlight l db) ->
  let '(w', res) := handleChanges h feed_on r q lastID db id now w in
  lim_balanced w w' /\ w_refs w' = w_refs w /\
  match res with
  | Err _ => byName (w_db w') = byName (w_db w) /\ byPath (w_db w') = byPath (w_db w)
  | Ok os =>
      feed_on = true /\ q_method r = "GET"%string /\ CanRead (Level (policy_ h) (Some (FromContext (q_principal r))) db) = true /\
      allowed w r db now /\ sr_ok (os_answer os) = true /\
      (0 < maxSubs (w_db w) -> exists ad f f', byName (w_db w') !! db = Some ad /\ feeds (w_db w) !! ad = Some f /\ feeds (w_db w') !! ad = Some f' /\
         Z.of_nat (size (subs f)) < maxSubs (w_db w) /\ Z.of_nat (size (subs f')) <= maxSubs (w_db w)) /\
      forall head ws before written after,
        stream_out (os_tables os) (os_answer os) head ws (before ++ WKeepalive false written :: after) =
        ((stream_out (os_tables os) (os_answer os) head ws before).1, false)
  end.
Proof.
  intros Hpos. unfold handleChanges, authorize.
  assert (Hsame : lim_balanced w w) by (intros l d Hl; by exists l).
  destruct (String.eqb_spec (q_method r) "GET") as [Hm|]; cbn [negb]; [|done]. destruct feed_on; cbn [negb]; [|done].
  destruct (CanRead _) eqn:Hr; [|done].
  assert (Htok : let '(w1, res) := connect_token r db now w in lim_balanced w w1 /\ w_refs w1 = w_refs w /\ w_db w1 = w_db w /\
    match res with Ok _ => allowed w r db now | Err _ => True end).
  { unfold connect_token, allowed. destruct (w_lim w) as [l|] eqn:Hl; [|done]. set (p := Authz.Name _).
    pose proof (Allow_inflight l p db now) as Ha. destruct (Allow l p db now) as [[] l'] eqn:Ea; cbn [w_refs w_db]; (split; [|split; [done|split; [done|try done]]]).
    - intros l0 d Hl0. rewrite Hl in Hl0. injection Hl0 as <-. eexists. split; [done|]. specialize (Ha d) as Hd. specialize (Ha db). rewrite decide_True in Ha by done.
      specialize (Hpos l eq_refl). unfold InFlight in *. unfold Limits.release. rewrite Ha, (proj2 (Z.ltb_lt _ _)) by lia. cbn [set_inflight inflight].
      rewrite zget_insert. destruct (decide (db = d)) as [<-|]; lia.
    - intros l0 [= <-]. by rewrite Ea.
    - intros l0 d Hl0. rewrite Hl in Hl0. injection Hl0 as <-. eexists. split; [done|]. apply Ha.
    - intros l0 d Hl0. rewrite Hl in Hl0. injection Hl0 as <-. eexists. split; [done|]. apply Ha. }
  destruct (connect_token r db now w) as [w1 [u|rp]]; destruct Htok as (Hb & Href & Hdb & Hal); [|by rewrite Hdb].
  destruct (since_param q lastID) as [since|rp]; [|by rewrite Hdb].
  rewrite Hdb. unfold Subscribe. destruct (byName (w_db w) !! db) as [ad|] eqn:Hn; [|done].
  destruct (feeds (w_db w) !! ad) as [f|] eqn:Hf; [|done]. destruct (subscribe f id since (maxSubs (w_db w))) as [f' a] eqn:Es.
  destruct (negb (sr_ok a)) eqn:Eok; [done|]. destruct (sr_full a) eqn:Efull; [done|]. cbn [set_db w_refs w_db byName feeds os_answer os_tables].
  split; [done|]. split; [done|]. do 4 (split; [done|]). split; [by destruct (sr_ok a)|]. split.
  - intros Hm0. exists ad, f, f'. rewrite lookup_insert_eq. do 3 (split; [done|]). by eapply subscribe_bound.
  - intros head ws before written after. unfold stream_out. rewrite fold_left_app. cbn [fold_left].
    destruct (fold_left (on_wake _) before _) as [fs live]. cbn [on_wake fst]. destruct live; cbn [negb]; apply wake_dead.
Qed.

(** ** Witnesses *)

Definition demo_acts : list act :=
  [APreUpdate 0 (PreUpdate 18 "a" 0 1); ACommit 0 []; APreUpdate 0 (PreUpdate 18 "b" 0 7); APreUpdate 0 (PreUpdate 9 "a" 1 0); ACommit 0 [];
   ASubscribe 1; APreUpdate 1 (PreUpdate 23 "a" 2 2); ARollback 1; APreUpdate 1 (PreUpdate 23 "a" 3 3); ACommit 1 []; AReceive 0].
Definition demo_client : client := default (Client 0 (SubResult None [] false false false 0) []) (clients (run_world 8 4 demo_acts) !! 0%nat).
Definition demo_wakes : list wake := [WKeepalive true true; WEvent (Event 4 "a" "update" 3 false) true].
Lemma changes_stream_follows_log_witness :
  stream_out (Some ["a"%string]) (answer demo_client) true [true; true] demo_wakes =
    ([FHead false 3; FChange (Event 3 "a" "delete" 1 false); FPing; FChange (Event 4 "a" "update" 3 false)], true) /\
  numbered (slog (run_spec demo_acts)).
Proof.
  split; [vm_compute; reflexivity|].
  assert (Hok : Forall act_ok demo_acts).
  { unfold demo_acts. repeat (apply Forall_cons_2; [first [exact I|split; reflexivity || discriminate]|]). apply Forall_nil_2. }
  pose proof (changes_stream_follows_log 8 4 demo_acts 0%nat demo_client (Some ["a"%string]) true [true; true] demo_wakes Hok
    ltac:(vm_compute; reflexivity) ltac:(vm_compute; reflexivity) ltac:(vm_compute; reflexivity) ltac:(vm_compute; reflexivity)) as H.
  cbv zeta in H. destruct (stream_out _ _ _ _ _) as [fs live]. destruct H as (k & _ & _ & _ & Hn & _). exact Hn.
Defined.

Definition demo_broker : broker := Register (fun p => p) (New 8 1) "app" "/data/app.db" 0.
Definition demo_stream (who : string) : HttpApi.world broker * result reply opened_stream :=
  handleChanges demo_handler true (HReq "GET" "/app/changes" "localhost" (Body [] false) (Some (MkPrincipal who "bearer" None)))
    [("since", "0")]%string "" "app" 5 0 (HttpApi.World (Some (Limits.New (S754_zero false) 4)) [] 0 [] demo_broker).
Lemma changes_are_gated_witness :
  match (demo_stream "ann").2 with Ok os => os_sub os = 5%nat | Err _ => False end /\
  match (demo_stream "eve").2 with Ok _ => False | Err rp => reply_status rp = 403 end /\
  lim_balanced (HttpApi.World (Some (Limits.New (S754_zero false) 4)) [] 0 [] demo_broker) (demo_stream "ann").1.
Proof.
  split; [vm_compute; reflexivity|]. split; [vm_compute; reflexivity|].
  pose proof (changes_are_gated demo_handler true (HReq "GET" "/app/changes" "localhost" (Body [] false) (Some (MkPrincipal "ann" "bearer" None)))
    [("since", "0")]%string "" "app" 5 0 (HttpApi.World (Some (Limits.New (S754_zero false) 4)) [] 0 [] demo_broker)
    ltac:(intros l [= <-]; vm_compute; discriminate)) as H.
  unfold demo_stream. destruct (handleChanges _ _ _ _ _ _ _ _ _) as [w' res]. exact (proj1 H).
Defined.
