(* ===== verification/Client.v ===== *)
(** * client: one server, one transport, one credential

    [src/client/client.go], [admin.go].  What happens on the wire is a history of requests
    and answers: the server and the network are a function of it, arbitrary and stateful,
    and so is the clock.  Bytes of a JSON body are read by [parse]. *)
From S2P Require Import Prelude GoStd Crypto Authz Token Auth Wire Engine Hrana HttpApi Envelope.

(** ** URLs *)

(** [url.QueryEscape] and the unescaping of a path. *)
Definition unreserved (c : ascii) : bool :=
  let n := nat_of_ascii c in
  ((48 <=? n) && (n <=? 57) || (65 <=? n) && (n <=? 90) || (97 <=? n) && (n <=? 122))%nat || mem_char c "-_.~".
Definition upper_hex (n : Z) : string := to_upper (String (hex_digit n) EmptyString).
Fixpoint QueryEscape (s : string) : string :=
  match s with
  | EmptyString => EmptyString
  | String c r =>
      if unreserved c then String c (QueryEscape r)
      else if Ascii.eqb c " " then String "+" (QueryEscape r)
      else let n := Z.of_nat (nat_of_ascii c) in "%" +:+ upper_hex (n / 16) +:+ upper_hex (n mod 16) +:+ QueryEscape r
  end.
Fixpoint path_unescape (s : string) : option string :=
  match s with
  | EmptyString => Some EmptyString
  | String c r =>
      if Ascii.eqb c "%" then
        match r with
        | String a (String b r') =>
            match hex_val a, hex_val b with
            | Some x, Some y => String (ascii_of_nat (Z.to_nat (16 * x + y))) <$> path_unescape r'
            | _, _ => None
            end
        | _ => None
        end
      else String c <$> path_unescape r
  end.
Definition control (c : ascii) : bool := (nat_of_ascii c <? 32)%nat || (nat_of_ascii c =? 127)%nat.
Fixpoint has_control (s : string) : bool :=
  match s with EmptyString => false | String c r => control c || has_control r end.
(** The path and the raw query of a reference below the base URL. *)
Definition parse_ref (s : string) : option (string * string) :=
  if has_control s then None else
  let '(s, _, _) := cut_char "#" s in
  let '(p, q, _) := cut_char "?" s in
  (fun p => (p, q)) <$> path_unescape p.

Inductive content : Type := NoBody | Doc (j : json) | Octets (b : list byte).
Record hreq := HRequest {
  h_method : string; h_path : string; h_query : string; h_headers : list (string * string); h_body : content
}.
(** [p_text] is the status line's text; reading the body may break off after [p_body]. *)
Record hresp := HResponse { p_status : Z; p_text : string; p_body : list byte; p_broken : bool }.
Definition history : Type := list (hreq * result string hresp).

Inductive cerr : Type :=
| ETransport (m : string)
| EURL
| EStatus (status : Z) (m : string)          (* the server refused the request *)
| ETooLarge (cap : Z)
| EDecode (m : string)
| EServer (m : string) (code ext : Z)        (* [*client.Error] *)
| EUnknown                                   (* a stream error without its cause *)
| EClosed
| ECount (got : nat)
| EChallenge
| EHealth (s : string)
| EIndexed (i : nat) (e : cerr).

(** ** Construction *)

Section Client.
Context {P : Type}.
Variable sign : P -> list byte -> list byte.      (* ed25519.Sign *)
Variable server : history -> hreq -> result string hresp.
Variable clock : history -> Z.
Variable parse : list byte -> option json.        (* json.Unmarshal, up to the tree *)
Context `{FT : FloatText}.

Record clientOpts := ClientOpts {
  o_token : string; o_user : string; o_pw : string; o_pubLine : string; o_priv : option P; o_maxResponse : Z
}.
Definition DefaultMaxResponse : Z := 2 ^ 30.
Definition option_ : Type := clientOpts -> clientOpts.
Definition WithBearer (t : string) : option_ := fun o => ClientOpts t (o_user o) (o_pw o) (o_pubLine o) (o_priv o) (o_maxResponse o).
Definition WithBasicAuth (u p : string) : option_ := fun o => ClientOpts (o_token o) u p (o_pubLine o) (o_priv o) (o_maxResponse o).
Definition WithMaxResponse (n : Z) : option_ := fun o => ClientOpts (o_token o) (o_user o) (o_pw o) (o_pubLine o) (o_priv o) n.
Definition WithEd25519 (l : string) (k : P) : option_ :=
  fun o => ClientOpts (o_token o) (o_user o) (o_pw o) l (Some k) (o_maxResponse o).
Definition apply (opts : list option_) : clientOpts :=
  fold_left (fun o f => f o) opts (ClientOpts "" "" "" "" None DefaultMaxResponse).
Definition hasCredential (o : clientOpts) : bool :=
  negb (String.eqb (o_token o) "") || negb (String.eqb (o_user o) "") || negb (String.eqb (o_pubLine o) "").

Inductive transport : Type := TH1 | TH2C | TH2 (insecure : bool) | TH3 (insecure : bool) | TUnix.
(** Whether the constructor logs a warning: the credential can be read off the wire. *)
Definition warnInsecureCredential (t : transport) (o : clientOpts) : bool :=
  hasCredential o && match t with TH1 | TH2C => true | TH2 i | TH3 i => i | TUnix => false end.

(** The client with its cached challenge. *)
Record client := Client { opts_ : clientOpts; chan_ : transport; chalStr : string; chalExp : Z }.
Definition bind (t : transport) (o : clientOpts) : client := Client o t "" 0.
Definition finish (t : transport) (opts : list option_) : client := bind t (apply opts).
(** The constructors: the client and whether a warning is logged. *)
Definition H1 (opts : list option_) : client * bool := let o := apply opts in (bind TH1 o, warnInsecureCredential TH1 o).
Definition H2C (opts : list option_) : client * bool := let o := apply opts in (bind TH2C o, warnInsecureCredential TH2C o).
Definition H2TLS (insecure : bool) (opts : list option_) : client * bool :=
  let o := apply opts in (bind (TH2 insecure) o, warnInsecureCredential (TH2 insecure) o).
Definition H3 (insecure : bool) (opts : list option_) : client * bool :=
  let o := apply opts in (bind (TH3 insecure) o, warnInsecureCredential (TH3 insecure) o).
Definition Unix (opts : list option_) : client * bool := (finish TUnix opts, false).

(** ** One round trip *)

Definition cst : Type := client * history.
Definition Do (s : cst) (q : hreq) : cst * result string hresp :=
  let a := server s.2 q in ((s.1, s.2 ++ [(q, a)]), a).

(** One byte past the cap is read, to tell an exactly full body from a longer one. *)
Definition readBody (c : client) (r : hresp) : result cerr (list byte) :=
  let max := o_maxResponse (opts_ c) in
  let n := Z.of_nat (length (p_body r)) in
  if max <=? 0 then if p_broken r then Err (ETransport "read") else Ok (p_body r) else
  let limit := if max <? two63 - 1 then max + 1 else max in
  let raw := if n >? limit then take (Z.to_nat limit) (p_body r) else p_body r in
  if p_broken r && (n <? limit) then Err (ETransport "read")
  else if Z.of_nat (length raw) >? max then Err (ETooLarge max) else Ok raw.

Record wireError := WireError { w_message : string; w_code : Z; w_ext : Z }.
Definition zero_wireError : wireError := WireError "" 0 0.
Definition dec_wireError (cur : wireError) (v : json) : result wire_err wireError :=
  let* kvs := members v in
  let* m := field "message" dec_string (w_message cur) kvs in
  let* c := field "code" dec_int64 (w_code cur) kvs in
  let* x := field "extended_code" dec_int64 (w_ext cur) kvs in Ok (WireError m c x).
Definition dec_error_field (kvs : list (string * json)) : result wire_err (option wireError) :=
  field "error" (dec_ptr zero_wireError dec_wireError) None kvs.

Definition firstMessage (body : list byte) : string :=
  match (j ← parse body; match (let* kvs := members j in dec_error_field kvs) with Ok (Some e) => Some (w_message e) | _ => None end) with
  | Some m => m
  | None => trim_space (string_of (take 200 body))
  end.

Definition challengeReuseWindow : Z := 45 * second.

Definition dec_challenge (j : json) : result wire_err string := let* kvs := members j in field "challenge" dec_string "" kvs.
Definition fetchChallenge (s : cst) : cst * result cerr string :=
  let '(s1, a) := Do s (HRequest "GET" "/_auth/challenge" "" [] NoBody) in
  (s1, match a with
       | Err m => Err (ETransport m)
       | Ok r =>
           match readBody s.1 r with
           | Err e => Err e
           | Ok body =>
               if negb (p_status r =? 200) then Err (EStatus (p_status r) "fetch challenge") else
               match dec_challenge <$> parse body with
               | Some (Ok ch) => if String.eqb ch "" then Err EChallenge else Ok ch
               | _ => Err EChallenge
               end
           end
       end).

Definition challenge (s : cst) : cst * result cerr string :=
  let c := s.1 in
  if negb (String.eqb (chalStr c) "") && (clock s.2 <? chalExp c) then (s, Ok (chalStr c)) else
  match fetchChallenge s with
  | (s1, Err e) => (s1, Err e)
  | (s1, Ok ch) => ((Client (opts_ c) (chan_ c) ch (clock s1.2 + challengeReuseWindow), s1.2), Ok ch)
  end.

Definition add_headers (q : hreq) (l : list (string * string)) : hreq :=
  HRequest (h_method q) (h_path q) (h_query q) (h_headers q ++ l) (h_body q).
Definition basic (u p : string) : string := "Basic " +:+ b64_encode StdEncoding (bytes_of (u +:+ ":" +:+ p)).

Definition authenticate (s : cst) (q : hreq) : cst * result cerr hreq :=
  let o := opts_ s.1 in
  match o_priv o with
  | Some k =>
      match challenge s with
      | (s1, Err e) => (s1, Err e)
      | (s1, Ok ch) =>
          let sig := sign k (KeyringSigningInput ch (h_method q) (h_path q) (h_query q)) in
          (s1, Ok (add_headers q [(Auth.HeaderKeyringKey, o_pubLine o); (Auth.HeaderKeyringChallenge, ch);
                                  (Auth.HeaderKeyringSignature, b64_encode StdEncoding sig)]))
      end
  | None =>
      (s, Ok (if negb (String.eqb (o_user o) "") then add_headers q [("Authorization"%string, basic (o_user o) (o_pw o))]
              else if negb (String.eqb (o_token o) "") then add_headers q [("Authorization"%string, "Bearer " +:+ o_token o)]
              else q))
  end.

(** Build, authenticate, send; the answer's status and body. *)
Definition send (s : cst) (method ref ctype : string) (b : content) : cst * result cerr hresp :=
  match parse_ref ref with
  | None => (s, Err EURL)
  | Some (p, q) =>
      let rq := HRequest method p q (if String.eqb ctype "" then [] else [("Content-Type"%string, ctype)]) b in
      match authenticate s rq with
      | (s1, Err e) => (s1, Err e)
      | (s1, Ok rq) => match Do s1 rq with
                       | (s2, Err m) => (s2, Err (ETransport m))
                       | (s2, Ok r) => (s2, Ok r)
                       end
      end
  end.
Definition request (s : cst) (method ref ctype : string) (b : content) : cst * result cerr (list byte) :=
  match send s method ref ctype b with
  | (s1, Err e) => (s1, Err e)
  | (s1, Ok r) =>
      (s1, match readBody s.1 r with
           | Err e => Err e
           | Ok raw => if negb (p_status r =? 200) then Err (EStatus (p_status r) (firstMessage raw)) else Ok raw
           end)
  end.

(** ** Statements *)

Record cresult := CResult {
  c_columns : list string; c_rows : list (list goany); c_affected : Z; c_lastid : Z; c_truncated : bool
}.

Definition encodeRequest (sql : string) (args : list goany) : json :=
  JObj ((if bool_decide (args = []) then [] else [("args"%string, JArr (map (fun a => NativeValue_MarshalJSON (FromGo a)) args))])
        ++ [("sql"%string, marshal_string sql)]).
Definition decodeCell (raw : json) : result wire_err goany := let* v := NativeValue_UnmarshalJSON raw in Ok (Go v).
Fixpoint decode_all {A B} (f : A -> result wire_err B) (l : list A) : result wire_err (list B) :=
  match l with
  | [] => Ok []
  | x :: r => let* y := f x in let* ys := decode_all f r in Ok (y :: ys)
  end.

Definition read_native (j : json) : result cerr cresult :=
  let lift {A} (x : result wire_err A) (m : string) : result cerr A := match x with Ok a => Ok a | Err _ => Err (EDecode m) end in
  let* kvs := lift (members j) "response"%string in
  let* cs := lift (field "columns" (dec_slice EmptyString dec_string) [] kvs) "response"%string in
  let* rs := lift (field "rows" dec_rows [] kvs) "response"%string in
  let* n := lift (field "rows_affected" dec_int64 0 kvs) "response"%string in
  let* i := lift (field "last_insert_id" dec_int64 0 kvs) "response"%string in
  let* t := lift (field "truncated" dec_bool false kvs) "response"%string in
  let* e := lift (dec_error_field kvs) "response"%string in
  match e with
  | Some w => Err (EServer (w_message w) (w_code w) (w_ext w))
  | None =>
      let* cells := lift (decode_all (decode_all decodeCell) rs) "cell"%string in
      Ok (CResult cs cells n i t)
  end.

(** [do]: Query and Exec. *)
Definition Query (s : cst) (db sql : string) (args : list goany) : cst * result cerr cresult :=
  match send s "POST" ("/" +:+ db +:+ "/query") "application/json" (Doc (encodeRequest sql args)) with
  | (s1, Err e) => (s1, Err e)
  | (s1, Ok r) =>
      (s1, match readBody s.1 r with
           | Err e => Err e
           | Ok body =>
               if negb (p_status r =? 200) then Err (EStatus (p_status r) (firstMessage body)) else
               match parse body with None => Err (EDecode "response") | Some j => read_native j end
           end)
  end.

(** ** Whole databases, changesets, blobs *)

Definition Export (s : cst) (db : string) : cst * result cerr (list byte) := request s "GET" ("/" +:+ db +:+ "/export") "" NoBody.
(** What reached the writer, and the count or the error. *)
Definition BackupTo (s : cst) (db : string) : cst * (list byte * result cerr Z) :=
  match send s "GET" ("/" +:+ db +:+ "/backup") "" NoBody with
  | (s1, Err e) => (s1, ([], Err e))
  | (s1, Ok r) =>
      (s1, if negb (p_status r =? 200) then
             ([], Err (EStatus (p_status r) (match readBody s.1 r with Ok raw => firstMessage raw | Err _ => firstMessage [] end)))
           else if p_broken r then (p_body r, Err (ETransport "read"))
           else (p_body r, Ok (Z.of_nat (length (p_body r)))))
  end.

Inductive ApplyOption : Type := OnConflict (policy : string) | ApplyToTables (tables : list string).
Definition set_option (q : gmap string string) (o : ApplyOption) : gmap string string :=
  match o with
  | OnConflict p => <["on_conflict"%string := p]> q
  | ApplyToTables ts => <["tables"%string := join "," ts]> q
  end.
(** [url.Values.Encode] sorts by key; [keys] lists the ones in use in that order. *)
Definition Encode (keys : list string) (q : gmap string string) : string :=
  join "&" (omap (fun k => (fun v => QueryEscape k +:+ "=" +:+ QueryEscape v) <$> q !! k) keys).
Definition apply_path (db : string) (opts : list ApplyOption) : string :=
  let enc := Encode ["on_conflict"; "tables"]%string (fold_left set_option opts ∅) in
  "/" +:+ db +:+ "/changeset/apply" +:+ (if String.eqb enc "" then "" else "?" +:+ enc).
Definition ApplyChangeset (s : cst) (db : string) (cs : list byte) (opts : list ApplyOption) : cst * result cerr unit :=
  let '(s1, r) := request s "POST" (apply_path db opts) "application/octet-stream" (Octets cs) in
  (s1, match r with Ok _ => Ok tt | Err e => Err e end).
Definition InvertChangeset (s : cst) (db : string) (cs : list byte) : cst * result cerr (list byte) :=
  request s "POST" ("/" +:+ db +:+ "/changeset/invert") "application/octet-stream" (Octets cs).
Definition concat_body (a b : list byte) : json :=
  JObj [("a", JStr (b64_encode StdEncoding a)); ("b", JStr (b64_encode StdEncoding b))]%string.
Definition ConcatChangesets (s : cst) (db : string) (a b : list byte) : cst * result cerr (list byte) :=
  request s "POST" ("/" +:+ db +:+ "/changeset/concat") "application/json" (Doc (concat_body a b)).

Definition blobPath (db op store : string) (id : Z) : string :=
  "/" +:+ db +:+ "/blob/" +:+ op +:+ "?store=" +:+ QueryEscape store +:+ "&id=" +:+ format_int id.
Definition provision_query (store : string) (chunk : Z) (compress : string) (dedup : bool) : gmap string string :=
  let q := {["store"%string := store]} in
  let q := if chunk >? 0 then <["chunk"%string := format_int chunk]> q else q in
  let q := if String.eqb compress "" then q else <["compress"%string := compress]> q in
  if dedup then <["dedup"%string := "1"%string]> q else q.
Definition discard {A} (x : cst * result cerr A) : cst * result cerr unit :=
  (x.1, match x.2 with Ok _ => Ok tt | Err e => Err e end).
Definition BlobProvision (s : cst) (db store : string) (chunk : Z) (compress : string) (dedup : bool) : cst * result cerr unit :=
  discard (request s "POST" ("/" +:+ db +:+ "/blob/provision?" +:+
    Encode ["chunk"; "compress"; "dedup"; "store"]%string (provision_query store chunk compress dedup)) "" NoBody).

(** A JSON answer decoded into a struct. *)
Definition fetch {A} (dec : list (string * json) -> result wire_err A) (x : cst * result cerr (list byte)) : cst * result cerr A :=
  (x.1, match x.2 with
        | Err e => Err e
        | Ok raw => match parse raw with
                    | None => Err (EDecode "response")
                    | Some j => match (let* kvs := members j in dec kvs) with Ok a => Ok a | Err _ => Err (EDecode "response") end
                    end
        end).
Definition BlobCreate (s : cst) (db store : string) : cst * result cerr Z :=
  fetch (field "id" dec_int64 0) (request s "POST" ("/" +:+ db +:+ "/blob/create?store=" +:+ QueryEscape store) "" NoBody).
Definition BlobWrite (s : cst) (db store : string) (id : Z) (data : list byte) : cst * result cerr Z :=
  fetch (field "size" dec_int64 0) (request s "POST" (blobPath db "write" store id) "application/octet-stream" (Octets data)).
Definition BlobRead (s : cst) (db store : string) (id : Z) : cst * result cerr (list byte) :=
  request s "GET" (blobPath db "read" store id) "" NoBody.
Definition BlobDelete (s : cst) (db store : string) (id : Z) : cst * result cerr unit :=
  discard (request s "POST" (blobPath db "delete" store id) "" NoBody).
Definition BlobSize (s : cst) (db store : string) (id : Z) : cst * result cerr Z :=
  fetch (field "size" dec_int64 0) (request s "GET" (blobPath db "size" store id) "" NoBody).

(** ** The control plane *)

Definition Health (s : cst) : cst * result cerr unit :=
  let '(s1, r) := fetch (field "status" dec_string "") (request s "GET" "/_health" "" NoBody) in
  (s1, match r with Err e => Err e | Ok x => if String.eqb x "ok" then Ok tt else Err (EHealth x) end).

Record AdminDatabase := MkAdminDatabase { ad_name : string; ad_kind : string; ad_open : bool; ad_refs : Z }.
Definition dec_AdminDatabase (cur : AdminDatabase) (v : json) : result wire_err AdminDatabase :=
  let* kvs := members v in
  let* n := field "name" dec_string (ad_name cur) kvs in let* k := field "kind" dec_string (ad_kind cur) kvs in
  let* o := field "open" dec_bool (ad_open cur) kvs in let* r := field "refs" dec_int64 (ad_refs cur) kvs in
  Ok (MkAdminDatabase n k o r).
Definition AdminDatabases (s : cst) : cst * result cerr (list AdminDatabase) :=
  fetch (field "databases" (dec_slice (MkAdminDatabase "" "" false 0) dec_AdminDatabase) []) (request s "GET" "/_admin/databases" "" NoBody).

Record AdminInfo_ := MkAdminInfo { ai_uptime : Z; ai_goroutines : Z; ai_heap : Z; ai_databases : Z; ai_open : Z; ai_sessions : Z }.
Definition dec_uint64 (cur : Z) (v : json) : result wire_err Z :=
  match v with JNum lit => of_opt ErrJSON (parse_uint64 lit) | JNull => Ok cur | _ => Err ErrJSON end.
Definition AdminInfo (s : cst) : cst * result cerr AdminInfo_ :=
  fetch (fun kvs =>
    let* u := field "uptime_seconds" dec_int64 0 kvs in let* g := field "goroutines" dec_int64 0 kvs in
    let* hb := field "heap_bytes" dec_uint64 0 kvs in let* d := field "databases" dec_int64 0 kvs in
    let* o := field "open_databases" dec_int64 0 kvs in let* a := field "active_sessions" dec_int64 0 kvs in
    Ok (MkAdminInfo u g hb d o a)) (request s "GET" "/_admin/info" "" NoBody).

Record AdminSession := MkAdminSession {
  as_id : string; as_database : string; as_principal : string; as_ro : bool; as_inflight : bool; as_age : Z; as_idle : Z
}.
Definition dec_AdminSession (cur : AdminSession) (v : json) : result wire_err AdminSession :=
  let* kvs := members v in
  let* i := field "id" dec_string (as_id cur) kvs in let* d := field "database" dec_string (as_database cur) kvs in
  let* p := field "principal" dec_string (as_principal cur) kvs in let* ro := field "read_only" dec_bool (as_ro cur) kvs in
  let* f := field "in_flight" dec_bool (as_inflight cur) kvs in let* a := field "age_seconds" dec_int64 (as_age cur) kvs in
  let* x := field "idle_seconds" dec_int64 (as_idle cur) kvs in Ok (MkAdminSession i d p ro f a x).
Definition AdminSessions (s : cst) : cst * result cerr (list AdminSession) :=
  fetch (field "sessions" (dec_slice (MkAdminSession "" "" "" false false 0 0) dec_AdminSession) []) (request s "GET" "/_admin/sessions" "" NoBody).

Record AdminPrincipal := MkAdminPrincipal { ap_name : string; ap_key : string; ap_created : Z; ap_seen : Z }.
Definition dec_AdminPrincipal (cur : AdminPrincipal) (v : json) : result wire_err AdminPrincipal :=
  let* kvs := members v in
  let* n := field "name" dec_string (ap_name cur) kvs in let* k := field "key" dec_string (ap_key cur) kvs in
  let* c := field "created_at" dec_int64 (ap_created cur) kvs in let* l := field "last_seen" dec_int64 (ap_seen cur) kvs in
  Ok (MkAdminPrincipal n k c l).
Definition AdminPrincipals (s : cst) : cst * result cerr (list AdminPrincipal) :=
  fetch (field "principals" (dec_slice (MkAdminPrincipal "" "" 0 0) dec_AdminPrincipal) []) (request s "GET" "/_admin/principals" "" NoBody).

Definition adminPost (s : cst) (ref : string) (v : json) : cst * result cerr unit := discard (request s "POST" ref "application/json" (Doc v)).
Definition AdminDeletePrincipal (s : cst) (n : string) : cst * result cerr unit :=
  adminPost s "/_admin/principals/delete" (JObj [("name"%string, marshal_string n)]).
Definition AdminMintEnrollCode (s : cst) : cst * result cerr (string * Z) :=
  fetch (fun kvs => let* c := field "code" dec_string "" kvs in let* e := field "expires_at" dec_int64 0 kvs in Ok (c, e))
    (request s "POST" "/_admin/enroll/codes" "" NoBody).
Definition AdminKill (s : cst) (session : string) : cst * result cerr unit :=
  adminPost s "/_admin/kill" (JObj [("session"%string, marshal_string session)]).
Definition AdminDetach (s : cst) (database : string) : cst * result cerr unit :=
  adminPost s "/_admin/detach" (JObj [("database"%string, marshal_string database)]).
Definition AdminCreate (s : cst) (spec : json) : cst * result cerr unit := adminPost s "/_admin/create" spec.
Definition AdminMaintenance (s : cst) (database op : string) (maxBytes : Z) (dest mode : string) : cst * result cerr (list byte) :=
  request s "POST" "/_admin/maintenance" "application/json"
    (Doc (JObj [("database", marshal_string database); ("dest", marshal_string dest); ("max_bytes", JNum (format_int maxBytes));
                ("mode", marshal_string mode); ("op", marshal_string op)]%string)).
Definition AdminRestore (s : cst) (database : string) (image : list byte) : cst * result cerr unit :=
  discard (request s "POST" ("/_admin/restore?" +:+ Encode ["database"%string] {["database"%string := database]})
    "application/octet-stream" (Octets image)).

(** ** The cap on answers *)

(** No body in memory is longer than [MaxInt64 - 1]. *)
Lemma readBody_spec c r : Z.of_nat (length (p_body r)) < two63 - 1 ->
  let max := o_maxResponse (opts_ c) in
  match readBody c r with
  | Ok raw => raw = p_body r /\ p_broken r = false /\ (0 < max -> Z.of_nat (length raw) <= max)
  | Err (ETooLarge n) => n = max /\ 0 < max < Z.of_nat (length (p_body r))
  | Err _ => p_broken r = true
  end.
Proof.
  unfold readBody. set (max := o_maxResponse (opts_ c)). set (n := Z.of_nat (length (p_body r))). cbv zeta. intros Hn.
  destruct (Z.leb_spec max 0); [destruct (p_broken r); [done|by split; [|split; [|lia]]]|].
  set (limit := if max <? two63 - 1 then max + 1 else max).
  assert (max = limit - 1 \/ limit = max /\ two63 - 1 <= max) as Hl.
  { unfold limit. destruct (Z.ltb_spec max (two63 - 1)); lia. }
  destruct (p_broken r && (n <? limit)) eqn:Hb; [by apply andb_true_iff in Hb as [-> _]|].
  destruct (Z.gtb_spec n limit).
  - rewrite length_take. replace (Z.of_nat (Z.to_nat limit `min` length (p_body r))) with limit by lia.
    rewrite (proj2 (Z.gtb_lt _ _)) by lia. split; [done|lia].
  - fold n. destruct (Z.gtb_spec n max); [split; [done|lia]|]. split; [done|]. split; [|lia].
    apply andb_false_iff in Hb as [Hb|Hb]; [done|]. apply Z.ltb_ge in Hb. lia.
Qed.

(** ** The keyring method, end to end *)

Section Keyring.
Variable parse_key : string -> option (string * string * string).
Variable verify_sig : string -> list byte -> list byte -> bool.
Variable a : authenticator.
Variable lat : Z.

(** The cached challenge is one the server minted, kept no longer than its window. *)
Definition cache_ok (c : client) : Prop := chalStr c = ""%string \/
  exists nonce t0, length nonce = nonceLen /\ in_i64 (t0 + challengeTTL) /\
    chalStr c = challenge_mint (challenger a) nonce t0 /\ chalExp c <= t0 + lat + challengeReuseWindow.

(** What the client relies on: the challenge endpoint answers with a challenge minted at
    most [lat] before the answer is in the client's hands. *)
Definition mints : Prop := forall h q r c body j ch, h_path q = "/_auth/challenge"%string -> server h q = Ok r ->
  readBody c r = Ok body -> parse body = Some j -> dec_challenge j = Ok ch -> p_status r = 200 ->
  exists nonce t0, length nonce = nonceLen /\ in_i64 (t0 + challengeTTL) /\
    ch = challenge_mint (challenger a) nonce t0 /\ clock (h ++ [(q, Ok r)]) <= t0 + lat.

(** The server sees the request that was sent. *)
Definition delivered (q : hreq) (r : Auth.request) : Prop :=
  r_method r = h_method q /\ r_path r = h_path q /\ r_rawquery r = h_query q /\
  forall k v, (k, v) ∈ h_headers q -> r_header r k = v.

Lemma challenge_spec s : mints -> cache_ok s.1 -> match challenge s with
  | (s', Ok ch) => cache_ok s'.1 /\ opts_ s'.1 = opts_ s.1 /\ ch = chalStr s'.1 /\ ch <> ""%string /\ clock s'.2 <= chalExp s'.1
  | (s', Err _) => cache_ok s'.1
  end.
Proof.
  intros Hm Hc. unfold challenge. destruct (String.eqb_spec (chalStr s.1) "") as [He|He]; cbn [negb andb].
  2: destruct (Z.ltb_spec (clock s.2) (chalExp s.1)); [by split; [|split; [|split; [|split; [|lia]]]]|].
  all: unfold fetchChallenge, Do; cbn [fst snd]; set (q := HRequest _ _ _ _ _);
    destruct (server s.2 q) as [r|m] eqn:Es; [|done];
    destruct (readBody s.1 r) as [body|e] eqn:Er; [|done];
    destruct (Z.eqb_spec (p_status r) 200) as [H200|]; [cbn [negb]|done];
    destruct (parse body) as [j|] eqn:Ep; [|done]; cbn [fmap option_fmap option_map];
    destruct (dec_challenge j) as [ch|] eqn:Ed; [|done];
    destruct (String.eqb_spec ch "") as [|Hne]; [done|];
    destruct (Hm s.2 q r s.1 body j ch eq_refl Es Er Ep Ed H200) as (nonce & t0 & H1 & H2 & H3 & H4); cbn [fst snd];
    (split; [right; exists nonce, t0; cbn; split; [done|]; split; [done|]; split; [done|lia]|];
     cbn; split; [done|]; split; [done|]; split; [done|unfold challengeReuseWindow, second; lia]).
Qed.

Definition newline_free (l : list string) : Prop := Forall (fun x => mem_char newline x = false) l.
(** What a request is signed for, as the server reads it. *)
Definition signed_for (r : Auth.request) : string * string * string * string :=
  (r_header r HeaderKeyringChallenge, r_method r, r_path r, r_rawquery r).

Lemma b64_encode_newline_free e l : mem_char newline (b64_encode e l) = false.
Proof.
  apply not_true_iff_false. intros H. pose proof (b64_enc_no_newline e l) as Hf. unfold b64_encode in H.
  assert (forall s, mem_char newline (string_of_list_ascii s) = true -> newline ∈ s) as Hin.
  { induction s as [|c s IH]; [done|]. cbn. intros [->%Ascii.eqb_eq|Hs]%orb_true_iff; [left|right; by apply IH]. }
  apply Hin in H. rewrite <- Hf in H. apply list_elem_of_In, filter_In in H as [_ H]. discriminate H.
Qed.
Lemma cached_challenge_newline_free c : cache_ok c -> mem_char newline (chalStr c) = false.
Proof.
  intros [->|(nonce & t0 & _ & _ & -> & _)]; [done|]. unfold challenge_mint. apply b64_encode_newline_free.
Qed.

(** A signature of one message is refused on a request that reads as another. *)
Lemma signature_is_bound pub cred (sgn : list byte) canon x t r (m : string * string * string * string) :
  let '(ch, me, pa, qu) := m in
  parse_key (r_header r HeaderKeyringKey) = Some (canon, pub, x) -> lookupKeyring a canon = Some cred ->
  sgn <> [] -> r_header r HeaderKeyringSignature = b64_encode StdEncoding sgn ->
  (forall msg, verify_sig (kc_pub cred) msg sgn = true -> msg = KeyringSigningInput ch me pa qu) ->
  newline_free [ch; me; qu; r_header r HeaderKeyringChallenge; r_method r; r_rawquery r] ->
  signed_for r <> m -> (tryKeyring parse_key verify_sig a t r).1 = Failed EInvalidCredential.
Proof.
  destruct m as [[[ch me] pa] qu]. intros Hp Hlk Hne Hsg Hb Hnl Hd. unfold tryKeyring. rewrite Hsg.
  rewrite (proj2 (String.eqb_neq _ _)) by (intros E; pose proof (b64_decode_encode StdEncoding sgn) as D; rewrite E in D; cbn in D; by injection D as D).
  destruct (_ || _); [done|]. rewrite Hp, Hlk, b64_decode_encode. destruct (verify_sig _ _ sgn) eqn:E; [|done]. exfalso. apply Hb in E.
  unfold newline_free in Hnl. rewrite !Forall_cons in Hnl. destruct Hnl as (H1 & H2 & H3 & H4 & H5 & H6 & _).
  apply KeyringSigningInput_injective in E as (E1 & E2 & E3 & E4); [|done..]. apply Hd. unfold signed_for. by rewrite E1, E2, E3, E4.
Qed.

(** C38: (authentication across the wire) A client holding the private key of a registered
    identity is granted that identity by the server's keyring method: each request it
    authenticates carries a signature over a challenge of this server and the request's own
    method, path and query, and is accepted as long as the way out and back takes no more
    than the 15 seconds between the reuse window and the challenge's life.  The signature
    is bound to that request: under the law that a signature verifies for no other message,
    a request that carries the captured key and signature with another method, path, query
    or challenge is refused at any time.  A challenge is fetched at most once per window. *)
Theorem keyring_client_authenticates s q k canon pub x cred tr :
  mints -> cache_ok s.1 -> o_priv (opts_ s.1) = Some k -> o_pubLine (opts_ s.1) <> ""%string ->
  parse_key (o_pubLine (opts_ s.1)) = Some (canon, pub, x) -> lookupKeyring a canon = Some cred ->
  (forall m, verify_sig (kc_pub cred) m (sign k m) = true) ->
  (forall m m', verify_sig (kc_pub cred) m' (sign k m) = true -> m' = m) -> (forall m, sign k m <> []) ->
  lat + tr <= 15 * second ->
  match authenticate s q with
  | (s', Err _) => cache_ok s'.1
  | (s', Ok q') =>
      cache_ok s'.1 /\ h_method q' = h_method q /\ h_path q' = h_path q /\ h_query q' = h_query q /\ h_body q' = h_body q /\
      (forall t r, delivered q' r -> in_i64 t -> t <= clock s'.2 + tr ->
         (tryKeyring parse_key verify_sig a t r).1 = Granted (MkPrincipal (kc_name cred) "keyring" None)) /\
      (exists ch sg, h_headers q' = h_headers q ++ [(HeaderKeyringKey, o_pubLine (opts_ s.1)); (HeaderKeyringChallenge, ch); (HeaderKeyringSignature, sg)] /\
         forall t r, r_header r HeaderKeyringKey = o_pubLine (opts_ s.1) -> r_header r HeaderKeyringSignature = sg ->
           newline_free [h_method q; h_query q; r_header r HeaderKeyringChallenge; r_method r; r_rawquery r] ->
           signed_for r <> (ch, h_method q, h_path q, h_query q) ->
           (tryKeyring parse_key verify_sig a t r).1 = Failed EInvalidCredential) /\
      (forall q2, clock s'.2 < chalExp s'.1 -> (authenticate s' q2).1 = s')
  end.
Proof.
  intros Hm Hc Hk Hl Hp Hlk Hv Hbind Hs Htr. unfold authenticate. rewrite Hk.
  pose proof (challenge_spec s Hm Hc) as H. destruct (challenge s) as [s' [ch|e]]; [|done].
  destruct H as (Hc' & Ho & Hch & Hne & Hexp). split; [done|]. do 4 (split; [done|]). split; [|split].
  - intros t r (Hr1 & Hr2 & Hr3 & Hr4) Ht Htt. cbn [h_method h_path h_query h_headers add_headers] in *.
    assert (forall kv, kv ∈ [(HeaderKeyringKey, o_pubLine (opts_ s.1)); (HeaderKeyringChallenge, ch);
      (HeaderKeyringSignature, b64_encode StdEncoding (sign k (KeyringSigningInput ch (h_method q) (h_path q) (h_query q))))] ->
      r_header r kv.1 = kv.2) as Hh by (intros [k0 v0] Hin; apply Hr4, elem_of_app; by right).
    pose proof (Hh _ ltac:(left)) as H1. pose proof (Hh _ ltac:(right; left)) as H2. pose proof (Hh _ ltac:(do 2 right; left)) as H3.
    cbn [fst snd] in H1, H2, H3. unfold tryKeyring. rewrite H1, H2, H3, Hr1, Hr2, Hr3.
    set (sig := sign k _). assert (b64_encode StdEncoding sig <> ""%string) as Hsig.
    { intros E. pose proof (b64_decode_encode StdEncoding sig) as D. rewrite E in D. cbn in D. injection D as D. by apply (Hs _ (eq_sym D)). }
    rewrite !(proj2 (String.eqb_neq _ _)) by done. cbn [orb].
    destruct Hc' as [He|(nonce & t0 & Hn & Hr & Hcm & Hce)]; [by rewrite Hch in Hne|].
    assert (challenge_valid (challenger a) t ch = true) as ->.
    { rewrite Hch, Hcm, (proj1 (challenge_window _ _)), unix_nano_id by done. apply Z.leb_le.
      unfold challengeTTL, challengeReuseWindow, second in *. lia. }
    cbn [negb]. rewrite Hp, Hlk, b64_decode_encode. unfold sig. by rewrite Hv.
  - eexists ch, _. split; [reflexivity|]. intros t r H1 H2 Hnl Hd. unfold newline_free in Hnl. rewrite !Forall_cons in Hnl.
    destruct Hnl as (N1 & N2 & N3 & N4 & N5 & _). apply (signature_is_bound pub cred _ canon x t r (ch, h_method q, h_path q, h_query q)) in H2; [done|by rewrite H1|done|apply Hs| | |done].
    + intros m. apply Hbind.
    + rewrite Hch. unfold newline_free. rewrite !Forall_cons. pose proof (cached_challenge_newline_free _ Hc'). done.
  - intros q2 Hlt. rewrite Ho, Hk. unfold challenge. rewrite Hch in Hne. rewrite (proj2 (String.eqb_neq _ _)) by done. cbn [negb andb].
    by rewrite (proj2 (Z.ltb_lt _ _)).
Qed.
End Keyring.
End Client.

(** ** A concrete server: it mints challenges and echoes their text *)

Definition demo_nonce : list byte := repeat (zb 5) 16.
Definition demo_sign (k : string) (m : list byte) : list byte := bytes_of k ++ m.
Definition demo_mint : string := challenge_mint (challenger demo_auth) demo_nonce 0.
Definition demo_server (h : history) (q : hreq) : result string hresp := Ok (HResponse 200 "200 OK" (bytes_of demo_mint) false).
Definition demo_clock (h : history) : Z := second.
Definition demo_parse (b : list byte) : option json := Some (JObj [("challenge"%string, JStr (string_of b))]).
Definition demo_ring : authenticator := AddKeyring demo_auth "c" "k" "u_ops".
Definition demo_client : client (P := string) := finish TUnix [WithEd25519 "c k" "k"%string].
Definition demo_q : hreq := HRequest "POST" "/db/query" "" [] NoBody.
Definition demo_parse_key (l : string) : option (string * string * string) := Some ("c"%string, "k"%string, ""%string).

Lemma demo_mints : mints (P := string) demo_server demo_clock demo_parse demo_ring second.
Proof.
  intros h q r c body j ch _ Hr Hb Hp Hd _. injection Hr as <-. exists demo_nonce, 0.
  split; [reflexivity|]. split; [split; [discriminate|reflexivity]|]. split; [|unfold demo_clock; lia].
  pose proof (readBody_spec c (HResponse 200 "200 OK" (bytes_of demo_mint) false) ltac:(vm_compute; reflexivity)) as H.
  rewrite Hb in H. destruct H as (-> & _). injection Hp as <-. cbn [p_body] in Hd.
  assert (string_of (bytes_of demo_mint) = demo_mint) as E by (vm_compute; reflexivity). rewrite E in Hd.
  injection Hd as <-. reflexivity.
Qed.

(** The second request replays the key and the signature of the first on another path. *)
Lemma keyring_client_authenticates_witness :
  exists s q', authenticate demo_sign demo_server demo_clock demo_parse (demo_client, []) demo_q = (s, Ok q') /\
    length s.2 = 1%nat /\
    (forall t r, delivered q' r -> in_i64 t -> t <= 15 * second ->
      (tryKeyring demo_parse_key demo_verify demo_ring t r).1 = Granted (MkPrincipal "u_ops" "keyring" None)) /\
    (forall t r, delivered q' (Request "POST" "/db/query" "" (r_header r) (fun _ => None) None None "" "" None) ->
      r_method r = "POST"%string -> r_path r = "/db/batch"%string -> r_rawquery r = ""%string ->
      (tryKeyring demo_parse_key demo_verify demo_ring t r).1 = Failed EInvalidCredential).
Proof.
  pose proof (keyring_client_authenticates demo_sign demo_server demo_clock demo_parse demo_parse_key demo_verify demo_ring second
    (demo_client, []) demo_q "k" "c" "k" "" (KeyringCred "k" "u_ops") (14 * second) demo_mints
    (or_introl eq_refl) eq_refl ltac:(discriminate) eq_refl ltac:(vm_compute; reflexivity)
    ltac:(intros m; unfold demo_verify, demo_sign; apply bool_decide_eq_true; reflexivity)
    ltac:(intros m m' Hm; unfold demo_verify, demo_sign in Hm; apply bool_decide_eq_true in Hm; by apply app_inv_head in Hm)
    ltac:(intros m; discriminate) ltac:(unfold second; lia)) as H.
  destruct (authenticate _ _ _ _ _ _) as [s [q'|e]] eqn:E.
  - exists s, q'. split; [reflexivity|]. destruct H as (_ & _ & _ & _ & _ & H & (ch & sg & Hh & Hb) & _). split; [|split].
    + vm_compute in E. injection E as <- _. reflexivity.
    + intros t r Hd Ht Hle. apply (H t r Hd Ht). unfold demo_clock, second in *. lia.
    + intros t r (_ & _ & _ & Hd) Hm Hp Hq. rewrite Hh in Hd. cbn [r_header] in Hd.
      pose proof (Hd HeaderKeyringKey _ ltac:(left)) as H1. pose proof (Hd HeaderKeyringChallenge ch ltac:(right; left)) as H2.
      pose proof (Hd HeaderKeyringSignature sg ltac:(do 2 right; left)) as H3.
      apply (Hb t r H1 H3).
      * assert (mem_char newline ch = false) as Hc by (vm_compute in E; injection E as _ <-; cbn in Hh; injection Hh as <- _; vm_compute; reflexivity).
        unfold newline_free. rewrite H2, Hm, Hq. repeat constructor. exact Hc.
      * unfold signed_for. rewrite Hp. intros [=].
  - vm_compute in E. discriminate E.
Defined.
