(* ===== verification/ClientStream.v ===== *)
(** * client: session-pinned streams

    [src/client/hrana.go]: a stream threads the baton of each answer into its next request,
    so that its statements run on one server-side connection; the codec of the pipeline
    requests and answers; [Batch]. *)
From S2P Require Import Prelude GoStd Crypto Authz Token Auth Wire Engine Session Hrana HttpApi Envelope Client.
From Stdlib Require Import Floats.SpecFloat.

Section Stream.
Context {P : Type}.
Variable sign : P -> list byte -> list byte.
Variable server : history -> hreq -> result string hresp.
Variable clock : history -> Z.
Variable parse : list byte -> option json.
Context `{FT : FloatText}.
Notation cst := (@Client.cst P).

Record stream := Stream { s_db : string; s_baton : option string; s_closed : bool }.
Definition OpenStream (db : string) : stream := Stream db None false.
Definition with_baton (s : stream) (b : option string) : stream := Stream (s_db s) b (s_closed s).

(** ** The pipeline *)

Record hpResult := HpResult { hp_type : string; hp_response : option json; hp_error : option hError }.
Record hpResp := HpResp { hp_baton : option string; hp_results : list hpResult }.

Definition zero_hError : hError := HError "" None.
Definition dec_hpError (cur : hError) (v : json) : result wire_err hError :=
  let* kvs := members v in
  let* m := field "message" dec_string (message cur) kvs in
  let* c := field "code" (dec_ptr EmptyString dec_string) (code cur) kvs in Ok (HError m c).
Definition zero_hpResult : hpResult := HpResult "" None None.
Definition dec_hpResult (cur : hpResult) (v : json) : result wire_err hpResult :=
  let* kvs := members v in
  let* t := field "type" dec_string (hp_type cur) kvs in
  let* e := field "error" (dec_ptr zero_hError dec_hpError) (hp_error cur) kvs in
  Ok (HpResult t (raw_field "response" (hp_response cur) kvs) e).
Definition dec_hpResp (v : json) : result wire_err hpResp :=
  let* kvs := members v in
  let* b := field "baton" (dec_ptr EmptyString dec_string) None kvs in
  let* rs := field "results" (dec_slice zero_hpResult dec_hpResult) [] kvs in Ok (HpResp b rs).

Definition pipeline_body (baton : option string) (requests : list json) : json :=
  JObj [("baton", jptr marshal_string baton); ("requests", JArr requests)]%string.
Definition pipeline (s : cst) (db : string) (baton : option string) (requests : list json) : cst * result cerr hpResp :=
  match send sign server clock parse s "POST" ("/" +:+ db +:+ "/v3/pipeline") "application/json" (Doc (pipeline_body baton requests)) with
  | (s1, Err e) => (s1, Err e)
  | (s1, Ok r) =>
      (s1, match readBody s.1 r with
           | Err e => Err e
           | Ok body =>
               if negb (p_status r =? 200) then Err (EStatus (p_status r) (firstMessage parse body)) else
               match dec_hpResp <$> parse body with
               | Some (Ok x) => Ok x
               | _ => Err (EDecode "pipeline response")
               end
           end)
  end.

(** ** The value codec and results *)

Definition encodeHValue (a : goany) : json := HranaValue_MarshalJSON (FromGo a).
Definition decodeHValue (raw : json) : result wire_err goany := let* v := HranaValue_UnmarshalJSON raw in Ok (Go v).

Definition executeRequest (sql : string) (args : list goany) : json :=
  JObj [("stmt", JObj ((if bool_decide (args = []) then [] else [("args", JArr (map encodeHValue args))])
                        ++ [("sql", marshal_string sql); ("want_rows", JBool true)]));
        ("type", JStr "execute")]%string.
Definition closeRequest : json := JObj [("type"%string, JStr "close")].
Definition sessionStartRequest (tables : list string) : json :=
  JObj ((if bool_decide (tables = []) then [] else [("tables"%string, JArr (map marshal_string tables))]) ++ [("type"%string, JStr "session_start")]).
Definition changesetRequest : json := JObj [("type"%string, JStr "session_changeset")].

Definition extendedFromName (name : option string) : Z := match name with None => 0 | Some n => CodeForName n end.
Definition hranaError (e : option hError) : cerr :=
  match e with
  | None => EUnknown
  | Some e => let ext := extendedFromName (code e) in EServer (message e) (Z.land ext 255) ext
  end.
Definition failed (r : hpResult) : bool := String.eqb (hp_type r) "error" || bool_decide (is_Some (hp_error r)).

Record hpStmtResult := HpStmtResult {
  hs_cols : list (option string); hs_rows : list (list json); hs_affected : Z; hs_lastid : option string; hs_truncated : bool
}.
Definition zero_hpStmtResult : hpStmtResult := HpStmtResult [] [] 0 None false.
Definition dec_col (cur : option string) (v : json) : result wire_err (option string) :=
  let* kvs := members v in field "name" (dec_ptr EmptyString dec_string) cur kvs.
Definition dec_hpStmtResult (cur : hpStmtResult) (v : json) : result wire_err hpStmtResult :=
  let* kvs := members v in
  let* cs := field "cols" (dec_slice None dec_col) (hs_cols cur) kvs in
  let* rs := field "rows" dec_rows (hs_rows cur) kvs in
  let* n := field "affected_row_count" dec_int64 (hs_affected cur) kvs in
  let* i := field "last_insert_rowid" (dec_ptr EmptyString dec_string) (hs_lastid cur) kvs in
  let* t := field "truncated" dec_bool (hs_truncated cur) kvs in Ok (HpStmtResult cs rs n i t).

Definition resultFromExecute (r : hpResult) : result cerr cresult :=
  if failed r then Err (hranaError (hp_error r)) else
  match hp_response r with
  | None => Err (EDecode "execute result")
  | Some j =>
      match (let* kvs := members j in field "result" (dec_ptr zero_hpStmtResult dec_hpStmtResult) None kvs) with
      | Err _ => Err (EDecode "execute result")
      | Ok None => Ok (CResult [] [] 0 0 false)
      | Ok (Some sr) =>
          match (match hs_lastid sr with None => Some 0 | Some t => parse_int64 t end) with
          | None => Err (EDecode "last_insert_rowid")
          | Some id =>
              match decode_all (decode_all decodeHValue) (hs_rows sr) with
              | Err _ => Err (EDecode "cell")
              | Ok cells => Ok (CResult (map (default EmptyString) (hs_cols sr)) cells (hs_affected sr) id (hs_truncated sr))
              end
          end
      end
  end.

(** ** Stream operations *)

(** Send [requests] on the stream; the answer's baton replaces the stream's. *)
Definition step (x : cst) (s : stream) (requests : list json) : cst * stream * result cerr (list hpResult) :=
  if s_closed s then (x, s, Err EClosed) else
  match pipeline x (s_db s) (s_baton s) requests with
  | (x1, Err e) => (x1, s, Err e)
  | (x1, Ok r) => (x1, with_baton s (hp_baton r), Ok (hp_results r))
  end.

Definition Exec (x : cst) (s : stream) (sql : string) (args : list goany) : cst * stream * result cerr cresult :=
  match step x s [executeRequest sql args] with
  | (x1, s1, Err e) => (x1, s1, Err e)
  | (x1, s1, Ok [r]) => (x1, s1, resultFromExecute r)
  | (x1, s1, Ok rs) => (x1, s1, Err (ECount (length rs)))
  end.
Definition SessionStart (x : cst) (s : stream) (tables : list string) : cst * stream * result cerr unit :=
  match step x s [sessionStartRequest tables] with
  | (x1, s1, Err e) => (x1, s1, Err e)
  | (x1, s1, Ok [r]) => (x1, s1, if failed r then Err (hranaError (hp_error r)) else Ok tt)
  | (x1, s1, Ok _) => (x1, s1, Ok tt)
  end.
Definition SessionChangeset (x : cst) (s : stream) : cst * stream * result cerr (list byte) :=
  match step x s [changesetRequest] with
  | (x1, s1, Err e) => (x1, s1, Err e)
  | (x1, s1, Ok [r]) =>
      (x1, s1,
       if failed r then Err (hranaError (hp_error r)) else
       match hp_response r with
       | None => Err (EDecode "changeset")
       | Some j => match (let* kvs := members j in field "changeset" dec_string "" kvs) with
                   | Err _ => Err (EDecode "changeset")
                   | Ok t => of_opt (EDecode "base64") (b64_decode StdEncoding t)
                   end
       end)
  | (x1, s1, Ok rs) => (x1, s1, Err (ECount (length rs)))
  end.
Definition Close (x : cst) (s : stream) : cst * stream * result cerr unit :=
  let s1 := Stream (s_db s) (s_baton s) true in
  if s_closed s || bool_decide (s_baton s = None) then (x, s1, Ok tt) else
  match pipeline x (s_db s) (s_baton s) [closeRequest] with
  | (x1, Err e) => (x1, s1, Err e)
  | (x1, Ok _) => (x1, s1, Ok tt)
  end.

Fixpoint collect (i : nat) (n : nat) (rs : list hpResult) : result cerr (list cresult) :=
  match n, rs with
  | O, _ | _, [] => Ok []
  | S m, r :: rest =>
      match resultFromExecute r with
      | Err e => Err (EIndexed i e)
      | Ok x => let* xs := collect (S i) m rest in Ok (x :: xs)
      end
  end.
Definition batch_requests (stmts : list (string * list goany)) : list json :=
  map (fun st => executeRequest st.1 st.2) stmts ++ [closeRequest].
Definition read_batch (n : nat) (rs : list hpResult) : result cerr (list cresult) :=
  if (length rs <? n)%nat then Err (ECount (length rs)) else collect 0 n rs.
Definition Batch (x : cst) (db : string) (stmts : list (string * list goany)) : cst * result cerr (list cresult) :=
  match stmts with
  | [] => (x, Ok [])
  | _ =>
      match pipeline x db None (batch_requests stmts) with
      | (x1, Err e) => (x1, Err e)
      | (x1, Ok r) => (x1, read_batch (length stmts) (hp_results r))
      end
  end.
End Stream.

(** ** The two endpoints agree *)

Section Agree.
Context `{FT : FloatText, FTL : !FloatTextLaws}.

(** What a caller sees of an engine result. *)
Definition client_view (r : qresult) : cresult :=
  CResult (map utf8_coerce (Columns r)) (map (map (fun v => Go (canon v))) (Rows r)) (RowsAffected r) (LastInsertID r) (Truncated r).
Definition wf_result (r : qresult) : Prop :=
  Forall (Forall wf_value) (Rows r) /\ in_i64 (RowsAffected r) /\ in_i64 (LastInsertID r).

Lemma decode_all_map {A B C} (f : A -> result wire_err B) (g : C -> A) (h : C -> B) l :
  (forall c, c ∈ l -> f (g c) = Ok (h c)) -> decode_all f (map g l) = Ok (map h l).
Proof.
  induction l as [|c l IH]; intros H; [done|]. cbn. rewrite H by left. cbn. rewrite IH; [done|]. intros d Hd. apply H. by right.
Qed.
Lemma cells_agree (enc : value -> json) (dec : json -> result wire_err goany) rows :
  (forall v, wf_value v -> dec (enc v) = Ok (Go (canon v))) -> Forall (Forall wf_value) rows ->
  decode_all (decode_all dec) (map (map enc) rows) = Ok (map (map (fun v => Go (canon v))) rows).
Proof.
  intros Hd Hr. apply decode_all_map. intros row Hrow. apply decode_all_map. intros v Hv. apply Hd.
  rewrite Forall_forall in Hr. specialize (Hr _ Hrow). rewrite Forall_forall in Hr. by apply Hr.
Qed.

Ltac reads :=
  repeat first
    [ progress walk
    | rewrite dec_strings | rewrite dec_rows_map | rewrite dec_int64_format by done
    | rewrite field_omit_miss by reflexivity | rewrite field_omit_hit by reflexivity
    | progress cbn [rbind members] ].

Lemma native_reads_result r : wf_result r -> read_native (marshal_resultJSON (toResultJSON r)) = Ok (client_view r).
Proof.
  intros (Hrows & Ha & Hl). unfold read_native, marshal_resultJSON, toResultJSON, dec_error_field.
  cbn [j_columns j_rows j_affected j_lastid j_truncated app]. reads.
  rewrite (cells_agree NativeValue_MarshalJSON decodeCell) by (try done; intros v Hv; unfold decodeCell; by rewrite native_roundtrip).
  done.
Qed.

Lemma dec_cols l cur : dec_slice None dec_col cur (JArr (map marshal_hCol (map (fun c => HCol (Some c) None) l))) =
  Ok (map (fun c => Some (utf8_coerce c)) l).
Proof. rewrite map_map. by apply dec_elems_map. Qed.
Lemma dec_hrows (rws : list (list value)) cur :
  dec_rows cur (JArr (map (fun row => JArr (map HranaValue_MarshalJSON row)) rws)) = Ok (map (map HranaValue_MarshalJSON) rws).
Proof. rewrite <- (map_map (map HranaValue_MarshalJSON) JArr). apply dec_rows_map. Qed.
Definition lastid_text (n : Z) : option string := if n =? 0 then None else Some (format_int n).

Lemma dec_stmtResult r : wf_result r ->
  dec_hpStmtResult zero_hpStmtResult (marshal_hStmtResult (toHStmtResult r (Some true))) =
  Ok (HpStmtResult (map (fun c => Some (utf8_coerce c)) (Columns r)) (map (map HranaValue_MarshalJSON) (Rows r)) (RowsAffected r)
        (lastid_text (LastInsertID r)) (Truncated r)).
Proof.
  intros (Hrows & Ha & Hl). unfold dec_hpStmtResult, marshal_hStmtResult, toHStmtResult.
  cbn [zero_hpStmtResult hs_cols hs_rows hs_affected hs_lastid hs_truncated cols rows affected_row_count last_insert_rowid truncated app default].
  change (Datatypes.id true) with true. cbv iota. fold (lastid_text (LastInsertID r)). reads. rewrite dec_cols. reads. rewrite dec_hrows. reads.
  unfold jptr. rewrite dec_ptr_string. reads. unfold lastid_text. case_match; [done|]. cbn. by rewrite utf8_coerce_format_int.
Qed.
Lemma stream_reads_result r : wf_result r ->
  resultFromExecute (HpResult "ok" (Some (marshal_response (executeResp (toHStmtResult r (Some true))))) None) = Ok (client_view r).
Proof.
  intros Hwf. pose proof (dec_stmtResult r Hwf) as Hd. destruct Hwf as (Hrows & Ha & Hl).
  unfold resultFromExecute, failed, marshal_response. cbn [hp_type hp_error hp_response].
  rewrite bool_decide_false by (by intros []). change ("ok" =? "error")%string with false. cbn [orb members rbind].
  walk. rewrite dec_ptr_some by done. cbn [default]. change (default zero_hpStmtResult None) with zero_hpStmtResult.
  rewrite Hd. cbn [rbind]. walk. cbn [hs_lastid hs_rows hs_cols hs_affected hs_truncated].
  assert (match lastid_text (LastInsertID r) with Some t => parse_int64 t | None => Some 0 end = Some (LastInsertID r)) as ->.
  { unfold lastid_text. destruct (Z.eqb_spec (LastInsertID r) 0) as [->|]; [done|]. by apply parse_format_int. }
  rewrite (cells_agree HranaValue_MarshalJSON decodeHValue) by (try done; intros v Hv; unfold decodeHValue; by rewrite hrana_roundtrip).
  unfold client_view. f_equal. f_equal. rewrite map_map. done.
Qed.

(** The pipeline envelope. *)
Definition heard (x : streamResult) : hpResult :=
  match x with
  | okStream y => HpResult "ok" (Some (marshal_response y)) None
  | errStream e => HpResult "error" None (Some (HError (utf8_coerce (message e)) (utf8_coerce <$> code e)))
  end.
Lemma dec_heard x : dec_hpResult zero_hpResult (marshal_streamResult x) = Ok (heard x).
Proof.
  destruct x as [y|e]; unfold dec_hpResult, marshal_streamResult; cbn [zero_hpResult hp_type hp_error hp_response]; reads; [done|].
  rewrite dec_ptr_some by done. cbn [default]. unfold dec_hpError, marshal_hError. cbn [Datatypes.id zero_hError message code]. reads.
  unfold jptr. rewrite dec_ptr_string. by reads.
Qed.
Lemma dec_pipeline b rs : dec_hpResp (marshal_pipelineResp b rs) = Ok (HpResp (utf8_coerce <$> b) (map heard rs)).
Proof.
  unfold dec_hpResp, marshal_pipelineResp. reads. unfold jptr. rewrite dec_ptr_string. reads.
  unfold dec_slice. rewrite (dec_elems_map _ _ marshal_streamResult heard) by (intros; apply dec_heard). by reads.
Qed.

(** Requests: what the server reads off the two encodings. *)
Lemma dec_hargs args cur : Forall wf_go args -> dec_slice VNull dec_hvalue cur (JArr (map encodeHValue args)) = Ok (map (fun a => canon (FromGo a)) args).
Proof.
  intros Ha. apply dec_elems_map. intros x Hx. unfold dec_hvalue, encodeHValue. apply hrana_roundtrip, FromGo_wf.
  rewrite Forall_forall in Ha. by apply Ha.
Qed.
Definition bound (sql : string) (args : list goany) : streamRequest :=
  StreamRequest "execute" (Some (HStmt (Some (utf8_coerce sql)) None (map (fun a => canon (FromGo a)) args) [] (Some true))) None None None [].
Lemma dec_execute fuel sql args : Forall wf_go args -> dec_streamRequest fuel zero_request (executeRequest sql args) = Ok (bound sql args).
Proof.
  intros Ha. unfold dec_streamRequest, executeRequest. cbn [zero_request s_type s_stmt s_batch s_sql s_sqlid s_tables]. reads.
  rewrite dec_ptr_some by done. change (default zero_stmt None) with zero_stmt. unfold dec_hStmt. cbn [zero_stmt h_sql h_sqlid h_args h_named h_want_rows].
  destruct (bool_decide_reflect (args = [])) as [->|]; cbn [app]; reads.
  - done.
  - rewrite dec_hargs by done. by reads.
Qed.
Lemma dec_close fuel : dec_streamRequest fuel zero_request closeRequest = Ok (StreamRequest "close" None None None None []).
Proof. done. Qed.
Lemma server_reads_batch fuel b stmts : Forall (fun st => Forall wf_go st.2) stmts ->
  unmarshal_pipelineReq fuel (pipeline_body b (batch_requests stmts)) =
  Ok (utf8_coerce <$> b, map (fun st => bound st.1 st.2) stmts ++ [StreamRequest "close" None None None None []]).
Proof.
  intros Hs. unfold unmarshal_pipelineReq, pipeline_body, batch_requests. reads. unfold jptr. rewrite dec_ptr_string. reads.
  unfold dec_slice. assert (forall l, dec_elems zero_request (dec_streamRequest fuel) (map (fun st => executeRequest st.1 st.2) l ++ [closeRequest]) =
    (let* xs := dec_elems zero_request (dec_streamRequest fuel) (map (fun st => executeRequest st.1 st.2) l) in
     Ok (xs ++ [StreamRequest "close" None None None None []]))) as ->.
  { induction l as [|st l IH]; [done|]. cbn [map app dec_elems]. destruct (dec_streamRequest _ _ _); [|done]. cbn [rbind]. rewrite IH.
    destruct (dec_elems zero_request _ (map _ l)); reflexivity. }
  rewrite (dec_elems_map _ _ _ (fun st => bound st.1 st.2)); [by reads|]. intros st Hst. apply dec_execute.
  rewrite Forall_forall in Hs. by apply Hs.
Qed.

Lemma code_name_ascii ext : utf8_coerce (ExtendedCodeName ext) = ExtendedCodeName ext.
Proof.
  apply utf8_coerce_ascii.
  assert (Forall (fun kn => is_ascii kn.2 = true) (extendedNames ++ primaryNames)) as Hall by (repeat constructor).
  rewrite Forall_forall in Hall. unfold ExtendedCodeName, CodeName.
  destruct (code_lookup ext extendedNames) as [n|] eqn:E1; [|destruct (code_lookup (Z.land ext 255) primaryNames) as [n|] eqn:E2; [|done]].
  - apply (Hall (ext, n)), list_elem_of_In, in_app_iff. left. by apply code_lookup_in.
  - apply (Hall (Z.land ext 255, n)), list_elem_of_In, in_app_iff. right. by apply code_lookup_in.
Qed.
Lemma engine_only e t : as_engine e = Some t -> is_denied e = false /\ is_ctx e = false.
Proof. by induction e. Qed.
Lemma code_recovered ext : is_Some (code_lookup ext extendedNames) \/ is_Some (code_lookup ext primaryNames) ->
  CodeForName (ExtendedCodeName ext) = ext.
Proof.
  rewrite CodeForName_ExtendedCodeName. intros [[n ->]|[n Hn]]; [done|].
  destruct (code_lookup ext extendedNames); [done|]. apply code_lookup_in in Hn as Hi.
  assert (Z.land ext 255 = ext) as ->; [|by rewrite Hn].
  repeat (destruct Hi as [[= <- _]|Hi]; [done|]). done.
Qed.
Lemma native_reads_error e c ext m : as_engine e = Some (c, ext, m) -> in_i64 c -> in_i64 ext -> forall f,
  read_native (marshal_errorEnvelope (toAPIError e) f) = Err (EServer (utf8_coerce m) c ext).
Proof.
  intros He Hc Hx f. unfold toAPIError. rewrite He. unfold read_native, marshal_errorEnvelope, dec_error_field. cbn [members rbind].
  assert (forall (A : Type) name (dec : A -> json -> result wire_err A) cur, key_matches name "failed_index" = false ->
    field name dec cur (match f with Some i => [("failed_index"%string, JNum (format_int (Z.of_nat i)))] | None => [] end) = Ok cur) as Hf.
  { intros A name dec cur Hn. destruct f; [|done]. by rewrite field_miss. }
  walk. rewrite !Hf by done. cbn [rbind].
  rewrite dec_ptr_some by done. change (default zero_wireError None) with zero_wireError.
  assert (dec_wireError zero_wireError (marshal_apiError (APIError m c ext)) = Ok (WireError (utf8_coerce m) c ext)) as ->.
  { unfold dec_wireError, marshal_apiError, jint_omit. cbn [members rbind zero_wireError w_message w_code w_ext a_message a_code a_extended].
    destruct (Z.eqb_spec c 0) as [->|], (Z.eqb_spec ext 0) as [->|]; cbn [app]; by reads. }
  cbn [rbind]. by rewrite Hf.
Qed.
Lemma stream_reads_error e c ext m : as_engine e = Some (c, ext, m) ->
  let x := CodeForName (ExtendedCodeName ext) in
  resultFromExecute (heard (errStream (hErrorFrom (XErr e)))) = Err (EServer (utf8_coerce m) (Z.land x 255) x).
Proof.
  intros He. unfold hErrorFrom, engine_hError. rewrite (proj1 (engine_only _ _ He)), He. unfold heard, resultFromExecute, failed, hranaError, extendedFromName.
  cbn [hp_type hp_error message code fmap option_fmap option_map]. by rewrite code_name_ascii.
Qed.

(** C39: (one statement, two endpoints) A statement binds and answers the same whether it
    runs in autocommit over the native endpoint or inside a transaction over the pipeline:
    the server reads the same text and the same values off both encodings, and the caller
    gets the same columns, cells, counts and truncation flag back from both.  An engine
    error keeps its message on both; its codes are exact in autocommit, and on the pipeline
    whenever the extended code has a name of its own. *)
Theorem autocommit_and_stream_agree sql args b fuel r :
  Forall wf_go args -> wf_result r ->
  let vals := map (fun a => canon (FromGo a)) args in
  (exists req, unmarshal_queryRequest (encodeRequest sql args) = Ok req /\ r_statements req = [] /\
     r_sql req = utf8_coerce sql /\ DecodeNativeArgs (r_args req) = Ok vals) /\
  (exists st, unmarshal_pipelineReq fuel (pipeline_body b [executeRequest sql args]) =
       Ok (utf8_coerce <$> b, [StreamRequest "execute" (Some st) None None None []]) /\
     h_want_rows st = Some true /\ stmtFromHrana (utf8_coerce sql) st false = Stmt (utf8_coerce sql) vals [] false) /\
  read_native (marshal_resultJSON (toResultJSON r)) = Ok (client_view r) /\
  (forall baton, exists x, dec_hpResp (marshal_pipelineResp baton [okStream (executeResp (toHStmtResult r (Some true)))]) =
       Ok (HpResp (utf8_coerce <$> baton) [x]) /\ resultFromExecute x = Ok (client_view r)) /\
  (forall e c ext m, as_engine e = Some (c, ext, m) -> in_i64 ext -> c = Z.land ext 255 -> c <> sqliteAuth ->
     is_Some (code_lookup ext extendedNames) \/ is_Some (code_lookup ext primaryNames) ->
     run_error e None = HttpApi.Resp 200 (PError (toAPIError e) None) /\
     read_native (marshal_errorEnvelope (toAPIError e) None) = Err (EServer (utf8_coerce m) c ext) /\
     resultFromExecute (heard (errStream (hErrorFrom (XErr e)))) = Err (EServer (utf8_coerce m) c ext)).
Proof.
  intros Ha Hr vals. split; [|split; [|split; [|split]]].
  - unfold unmarshal_queryRequest, encodeRequest. destruct (bool_decide_reflect (args = [])) as [->|]; cbn [app]; reads.
    + by eexists.
    + unfold dec_slice. rewrite (dec_elems_map _ _ _ (fun a => NativeValue_MarshalJSON (FromGo a))) by done. reads.
      eexists. split; [done|]. split; [done|]. split; [done|]. cbn [r_args]. apply DecodeNativeArgs_from_ok.
      clear -Ha FTL. unfold vals. induction Ha as [|a l Hw _ IH]; constructor; [|done]. by apply native_roundtrip, FromGo_wf.
  - unfold unmarshal_pipelineReq, pipeline_body. reads. unfold jptr. rewrite dec_ptr_string. reads. unfold dec_slice. cbn [dec_elems].
    rewrite dec_execute by done. reads. eexists. by split; [|split].
  - by apply native_reads_result.
  - intros baton. eexists. rewrite dec_pipeline. split; [done|]. by apply stream_reads_result.
  - intros e c ext m He Hx Hc Hauth Hk. destruct (engine_only _ _ He) as [Hd Hctx].
    assert (in_i64 c) as Hci.
    { subst c. change 255 with (Z.ones 8). rewrite Z.land_ones by lia. unfold in_i64, two63.
      pose proof (Z.mod_pos_bound ext (2 ^ 8) ltac:(lia)). lia. }
    split; [unfold run_error, IsNotAuthorized; rewrite Hd, Hctx, He; by rewrite (proj2 (Z.eqb_neq _ _))|].
    split; [by apply native_reads_error|]. rewrite (stream_reads_error e c ext m He). by rewrite code_recovered, Hc.
Qed.

(** Codes without a name of their own reach a stream's caller as another code. *)
Lemma stream_loses_other_codes :
  let full := ErrEngine 13 13 "database or disk is full" in let snap := ErrEngine 5 517 "database is locked" in
  read_native (marshal_errorEnvelope (toAPIError full) None) = Err (EServer "database or disk is full" 13 13) /\
  resultFromExecute (heard (errStream (hErrorFrom (XErr full)))) = Err (EServer "database or disk is full" 1 1) /\
  read_native (marshal_errorEnvelope (toAPIError snap) None) = Err (EServer "database is locked" 5 517) /\
  resultFromExecute (heard (errStream (hErrorFrom (XErr snap)))) = Err (EServer "database is locked" 5 5).
Proof. by vm_compute. Qed.

(** ** Batches, against the server's own pipeline *)

Section Batch.
Context {S : Type} (e : engine) (d : Conn S) (s : session).

(** Every statement in order, whatever the others did. *)
Fixpoint play (st : S) (stmts : list (string * list goany)) : S * list (result err qresult) :=
  match stmts with
  | [] => (st, [])
  | (sql, args) :: r =>
      let '(st1, x) := Run e (cq d) st (Stmt (utf8_coerce sql) (map (fun a => canon (FromGo a)) args) [] (attach s)) in
      let '(st2, xs) := play st1 r in (st2, x :: xs)
  end.
Definition told (x : result err qresult) : streamResult :=
  match x with Ok r => okStream (executeResp (toHStmtResult r (Some true))) | Err y => errStream (hErrorFrom (XErr y)) end.
Definition seen (x : result err qresult) : result cerr cresult :=
  match x with
  | Ok r => Ok (client_view r)
  | Err y => let h := hErrorFrom (XErr y) in Err (hranaError (Some (HError (utf8_coerce (message h)) (utf8_coerce <$> code h))))
  end.
(** The results, or the first error with its index. *)
Fixpoint first_error (i : nat) (l : list (result cerr cresult)) : result cerr (list cresult) :=
  match l with
  | [] => Ok []
  | Err x :: _ => Err (EIndexed i x)
  | Ok x :: r => let* xs := first_error (Datatypes.S i) r in Ok (x :: xs)
  end.

Lemma run_bound st sql args : runStreamRequest e d st s (bound sql args) =
  (let '(st1, x) := Run e (cq d) st (Stmt (utf8_coerce sql) (map (fun a => canon (FromGo a)) args) [] (attach s)) in Some (st1, s, told x, false)).
Proof.
  unfold runStreamRequest, bound. cbn [s_type s_stmt]. change ("execute" =? "execute")%string with true. cbv iota.
  unfold execStmt. cbn [h_sql resolveSQL h_sqlid h_want_rows]. unfold stmtFromHrana. cbn [h_named h_args].
  by destruct (Run _ _ _ _) as [st1 [r|x]].
Qed.
Lemma run_batch st stmts : run_requests e d st s false (map (fun x => bound x.1 x.2) stmts ++ [StreamRequest "close" None None None None []]) =
  (s, Some ((play st stmts).1, map told (play st stmts).2 ++ [okStream (simpleResp "close")], true)).
Proof.
  revert st. induction stmts as [|[sql args] l IH]; intros st; [done|]. cbn [map app run_requests fst snd play]. rewrite run_bound.
  destruct (Run _ _ _ _) as [st1 x]. rewrite IH. by destruct (play st1 l).
Qed.
Lemma reads_told x : match x with Ok r => wf_result r | Err _ => True end -> resultFromExecute (heard (told x)) = seen x.
Proof.
  destruct x as [r|y]; intros Hw; [by apply stream_reads_result|]. unfold told, heard, seen, resultFromExecute, failed.
  by cbn [hp_type hp_error].
Qed.
Lemma collect_told l rest : forall i, Forall (fun x => match x with Ok r => wf_result r | Err _ => True end) l ->
  collect i (length l) (map heard (map told l ++ rest)) = first_error i (map seen l).
Proof.
  induction l as [|x l IH]; intros i Hl; [by destruct rest|]. apply Forall_cons in Hl as [Hx Hl]. cbn [length map app collect first_error].
  rewrite (reads_told x Hx). destruct (seen x); [|done]. by rewrite IH.
Qed.
Lemma length_play stmts : forall st, length (play st stmts).2 = length stmts.
Proof.
  induction stmts as [|[sql args] l IH]; intros st; [done|]. cbn. destruct (Run _ _ _ _) as [st1 x]. specialize (IH st1).
  by destruct (play st1 l); cbn in *; f_equal.
Qed.

(** (batches) A client batch runs every one of its statements on the server, in order,
    on one connection and in one request, and the session it opened is closed by the same
    request.  It returns the statements' results if all succeed, and otherwise the error of
    the first one that failed, with its index; the statements after it have run all the
    same. *)
Theorem client_batch_runs_all fuel stmts st b :
  Forall (fun x => Forall wf_go x.2) stmts ->
  Forall (fun x => match x with Ok r => wf_result r | Err _ => True end) (play st stmts).2 ->
  exists reqs results,
    unmarshal_pipelineReq fuel (pipeline_body None (batch_requests stmts)) = Ok (None, reqs) /\
    run_requests e d st s false reqs = (s, Some ((play st stmts).1, results, true)) /\
    exists resp, dec_hpResp (marshal_pipelineResp b results) = Ok resp /\
      read_batch (length stmts) (hp_results resp) = first_error 0 (map seen (play st stmts).2).
Proof.
  intros Hgo Hwf. do 2 eexists. split; [by apply server_reads_batch|]. split; [apply run_batch|]. eexists. split; [apply dec_pipeline|].
  unfold read_batch. cbn [hp_results]. rewrite length_map, length_app, length_map, length_play.
  rewrite (proj2 (Nat.ltb_ge _ _)) by lia. rewrite <- (length_play stmts st). by apply collect_told.
Qed.
End Batch.
End Agree.

(** ** Concrete batches *)

Import DemoFloat.

Definition demo_play (stmts : list string) : demo * list (result err qresult) :=
  play (NewEngine 0 0) demo_conn demo_session (Demo [] ∅) (map (fun q => (q, [])) stmts).

Definition demo_stmts : list (string * list goany) := [("INSERT", [GInt 1]); ("bad", []); ("UPDATE", [])]%string.
Lemma client_batch_runs_all_witness :
  exists reqs results resp,
    run_requests (NewEngine 0 0) demo_conn (Demo [] ∅) demo_session false reqs =
      (demo_session, Some (Demo ["INSERT"; "UPDATE"]%string ∅, results, true)) /\
    dec_hpResp (marshal_pipelineResp (Some "b"%string) results) = Ok resp /\
    read_batch 3 (hp_results resp) = Err (EIndexed 1 (EServer "UNIQUE constraint failed" 19 2067)).
Proof.
  assert (Forall (fun x => Forall wf_go x.2) demo_stmts) as Ha
    by (apply Forall_cons_2; [apply Forall_cons_2; [split; [discriminate|reflexivity]|apply Forall_nil_2]|];
        do 2 (apply Forall_cons_2; [apply Forall_nil_2|]); apply Forall_nil_2).
  assert (play (NewEngine 0 0) demo_conn demo_session (Demo [] ∅) demo_stmts =
    (Demo ["INSERT"; "UPDATE"]%string ∅, [Ok (Result_ [] [] 1 7 false); Err (ErrEngine 19 2067 "UNIQUE constraint failed"); Ok (Result_ [] [] 1 7 false)]))
    as Hp by (vm_compute; reflexivity).
  assert (wf_result (Result_ [] [] 1 7 false)) as Hr by (split; [apply Forall_nil_2|split; (split; [discriminate|reflexivity])]).
  destruct (client_batch_runs_all (NewEngine 0 0) demo_conn demo_session 0 demo_stmts (Demo [] ∅) (Some "b"%string) Ha) as (reqs & results & _ & H1 & resp & H2 & H3).
  { rewrite Hp. cbn [snd]. apply Forall_cons_2; [exact Hr|]. apply Forall_cons_2; [exact I|]. apply Forall_cons_2; [exact Hr|apply Forall_nil_2]. }
  rewrite Hp in H1, H3. exists reqs, results, resp. split; [exact H1|]. split; [exact H2|]. etransitivity; [exact H3|reflexivity].
Defined.

Definition demo_args : list goany := [GInt 7; GFloat64 (S754_zero false); GString "x"].
Lemma autocommit_and_stream_agree_witness :
  exists req, unmarshal_queryRequest (encodeRequest "SELECT ?" demo_args) = Ok req /\
    DecodeNativeArgs (r_args req) = Ok [VInt 7; VFloat (S754_zero false); VText "x"].
Proof.
  assert (Forall wf_go demo_args) as Ha by (apply Forall_cons_2; [split; [discriminate|reflexivity]|]; apply Forall_cons_2; [reflexivity|]; apply Forall_cons_2; [exact I|]; apply Forall_nil_2).
  assert (wf_result (Result_ [] [] 0 0 false)) as Hr by (split; [apply Forall_nil_2|split; (split; [discriminate|reflexivity])]).
  destruct (autocommit_and_stream_agree "SELECT ?" demo_args None 0 _ Ha Hr) as [(req & H1 & _ & _ & H4) _].
  exists req. split; [exact H1|]. rewrite H4. vm_compute. reflexivity.
Defined.

(** BEGIN first and COMMIT last do not make a batch all-or-nothing: after a statement in the
    middle failed the COMMIT is still run, so what came before it is made durable. *)
Lemma begin_commit_batch_commits_after_failure :
  let '(st', outs) := demo_play ["BEGIN"; "INSERT"; "bad"; "COMMIT"]%string in
  log st' = ["BEGIN"; "INSERT"; "COMMIT"]%string /\
  first_error 0 (map seen outs) = Err (EIndexed 2 (EServer "UNIQUE constraint failed" 19 2067)).
Proof. by vm_compute. Qed.
