(* ===== verification/Driver.v ===== *)
(** * client/sqldriver: the database/sql driver

    [src/client/sqldriver/driver.go]: data source names and the refusal to expose a
    credential; the connection, whose statements go to the autocommit endpoint, or to the
    pinned stream of an open transaction or capture; rows and truncation.  Parsing a URL is
    [url.Parse], a parameter. *)
From S2P Require Import Prelude GoStd Crypto Authz Token Auth Wire Engine Session Hrana HttpApi Envelope Client ClientStream.

(** ** Data source names *)

Record url := Url {
  u_scheme : string; u_user : option (string * option string); u_host : string; u_path : string; u_query : list (string * string)
}.
(** [url.Values.Get] and [Set]. *)
Definition Get (q : list (string * string)) (k : string) : string :=
  match list_find (fun kv => kv.1 = k) q with Some (_, kv) => kv.2 | None => "" end.
Definition Has (q : list (string * string)) (k : string) : bool := existsb (fun kv => String.eqb kv.1 k) q.
Definition Set_ (q : list (string * string)) (k v : string) : list (string * string) :=
  (k, v) :: List.filter (fun kv => negb (String.eqb kv.1 k)) q.
Definition flag (q : list (string * string)) (k : string) : bool := String.eqb (Get q k) "1" || String.eqb (Get q k) "true".

Inductive oerr : Type :=
| EBadDSN (shown : option url)      (* the DSN as it is quoted: redacted, or a placeholder *)
| EScheme (s : string)
| EUserinfo
| ENoDatabase
| ECleartext (t : string)
| EUnverified (t : string)
| ENoSocket
| EUnknownTransport (t : string).

Section Open.
Context {P : Type}.
Variable parse_url : string -> option url.

Record connector := Connector { k_db : string; k_host : string; k_client : @client P; k_own : bool }.

Definition secret_params : list string := ["token"; "password"; "key"; "secret"]%string.
(** [None]: the placeholder of a DSN that does not parse. *)
Definition redactDSN (dsn : string) : option url :=
  (fun u =>
     let user := (fun up => (up.1, None)) <$> u_user u in
     let q := fold_left (fun q k => if Has q k then Set_ q k "REDACTED" else q) secret_params (u_query u) in
     Url (u_scheme u) user (u_host u) (u_path u) q) <$> parse_url dsn.

Definition transport_of (t : string) (insecure : bool) (socket : string) : result oerr (Client.transport) :=
  if String.eqb t "h1" then Ok TH1
  else if String.eqb t "h2c" then Ok TH2C
  else if String.eqb t "h2" then Ok (TH2 insecure)
  else if String.eqb t "h3" then Ok (TH3 insecure)
  else if String.eqb t "unix" then if String.eqb socket "" then Err ENoSocket else Ok TUnix
  else Err (EUnknownTransport t).

Definition mk (tr : Client.transport) (opts : list (@option_ P)) : client :=
  match tr with
  | TH1 => (H1 opts).1
  | TH2C => (H2C opts).1
  | TH2 insecure => (H2TLS insecure opts).1
  | TH3 insecure => (H3 insecure opts).1
  | TUnix => (Unix opts).1
  end.

Definition OpenConnector (dsn : string) : result oerr connector :=
  match parse_url dsn with
  | None => Err (EBadDSN (redactDSN dsn))
  | Some u =>
      if negb (String.eqb (u_scheme u) "quicsql") then Err (EScheme (u_scheme u)) else
      if bool_decide (is_Some (u_user u)) then Err EUserinfo else
      let q := u_query u in
      let insecure := flag q "insecure" in
      let hasCred := negb (String.eqb (Get q "token") "") || negb (String.eqb (Get q "user") "") in
      let opts := (if String.eqb (Get q "token") "" then [] else [WithBearer (Get q "token")])
                  ++ (if String.eqb (Get q "user") "" then [] else [WithBasicAuth (Get q "user") (Get q "password")]) in
      let db := default (u_path u) (cut_prefix "/" (u_path u)) in
      if String.eqb db "" then Err ENoDatabase else
      let t := if String.eqb (Get q "transport") "" then "h1"%string else Get q "transport" in
      if hasCred && negb (flag q "allow_insecure_auth") && (String.eqb t "h1" || String.eqb t "h2c") then Err (ECleartext t) else
      if hasCred && negb (flag q "allow_insecure_auth") && (String.eqb t "h2" || String.eqb t "h3") && insecure then Err (EUnverified t) else
      let* tr := transport_of t insecure (Get q "socket") in
      Ok (Connector db (u_host u) (mk tr opts) true)
  end.

(** A caller's own client, which the connector does not close. *)
Definition OpenConnectorClient (cl : @client P) (db : string) : connector := Connector db "" cl false.
Definition closes_client (k : connector) : bool := k_own k.
End Open.

(** ** Connections *)

(** [driver.NamedValue]: an empty name is positional. *)
Record NamedValue := Named { nv_name : string; nv_value : goany }.
Inductive derr : Type := EBusy | ENamed (n : string) | EFinished | ENoCapture | EBadConn | EClient (e : cerr).

Section Driver.
Context {P : Type}.
Variable sign : P -> list byte -> list byte.
Variable server : history -> hreq -> result string hresp.
Variable clock : history -> Z.
Variable parse : list byte -> option json.
Context `{FT : FloatText}.
Notation cst := (@Client.cst P).
Notation Exec := (ClientStream.Exec sign server clock parse).
Notation SClose := (ClientStream.Close sign server clock parse).

Record conn := Conn_ { n_db : string; n_tx : option stream; n_capture : option stream }.
Definition Connect (k : @connector P) : conn := Conn_ (k_db k) None None.
Definition set_tx (c : conn) (s : option stream) : conn := Conn_ (n_db c) s (n_capture c).
Definition set_capture (c : conn) (s : option stream) : conn := Conn_ (n_db c) (n_tx c) s.
Definition busy_ (c : conn) : bool := bool_decide (is_Some (n_tx c)) || bool_decide (is_Some (n_capture c)).
Definition client_err {A} (r : result cerr A) : result derr A := match r with Ok a => Ok a | Err e => Err (EClient e) end.

(** A refused connection is discarded by the pool, which closes it. *)
Definition ResetSession (c : conn) : result derr unit := if busy_ c then Err EBadConn else Ok tt.
Definition Close (x : cst) (c : conn) : cst * conn :=
  let '(x1, c1) := match n_tx c with Some s => ((SClose x s).1.1, set_tx c None) | None => (x, c) end in
  match n_capture c1 with Some s => ((SClose x1 s).1.1, set_capture c1 None) | None => (x1, c1) end.

Definition begin_ (x : cst) (c : conn) : cst * conn * result derr unit :=
  if busy_ c then (x, c, Err EBusy) else
  match Exec x (OpenStream (n_db c)) "BEGIN" [] with
  | (x1, s, Err e) => ((SClose x1 s).1.1, c, Err (EClient e))
  | (x1, s, Ok _) => (x1, set_tx c (Some s), Ok tt)
  end.
Definition finish (x : cst) (c : conn) (sql : string) : cst * conn * result derr unit :=
  match n_tx c with
  | None => (x, c, Err EFinished)
  | Some s =>
      let '(x1, s1, r) := Exec x s sql [] in
      let '(x2, _, rc) := SClose x1 s1 in
      (x2, set_tx c None, match r with Err e => Err (EClient e) | Ok _ => client_err rc end)
  end.
Definition Commit (x : cst) (c : conn) : cst * conn * result derr unit := finish x c "COMMIT".
Definition Rollback (x : cst) (c : conn) : cst * conn * result derr unit := finish x c "ROLLBACK".

Fixpoint values (args : list NamedValue) : result derr (list goany) :=
  match args with
  | [] => Ok []
  | a :: r => if String.eqb (nv_name a) "" then let* vs := values r in Ok (nv_value a :: vs) else Err (ENamed (nv_name a))
  end.
(** A result's stream is the connection's. *)
Definition run (x : cst) (c : conn) (sql : string) (vals : list goany) : cst * conn * result cerr cresult :=
  match n_capture c, n_tx c with
  | Some s, _ => let '(x1, s1, r) := Exec x s sql vals in (x1, set_capture c (Some s1), r)
  | None, Some s => let '(x1, s1, r) := Exec x s sql vals in (x1, set_tx c (Some s1), r)
  | None, None => let '(x1, r) := Client.Query sign server clock parse x (n_db c) sql vals in (x1, c, r)
  end.
(** [QueryContext] and [ExecContext] differ in how they wrap the result. *)
Definition QueryContext (x : cst) (c : conn) (sql : string) (args : list NamedValue) : cst * conn * result derr cresult :=
  match values args with
  | Err e => (x, c, Err e)
  | Ok vals => let '(x1, c1, r) := run x c sql vals in (x1, c1, client_err r)
  end.
Definition ExecContext := QueryContext.

Definition StartCapture (x : cst) (c : conn) (tables : list string) : cst * conn * result derr unit :=
  if busy_ c then (x, c, Err EBusy) else
  match SessionStart sign server clock parse x (OpenStream (n_db c)) tables with
  | (x1, s, Err e) => ((SClose x1 s).1.1, c, Err (EClient e))
  | (x1, s, Ok _) => (x1, set_capture c (Some s), Ok tt)
  end.
Definition CaptureChangeset (x : cst) (c : conn) : cst * conn * result derr (list byte) :=
  match n_capture c with
  | None => (x, c, Err ENoCapture)
  | Some s => let '(x1, s1, r) := SessionChangeset sign server clock parse x s in (x1, set_capture c (Some s1), client_err r)
  end.
Definition EndCapture (x : cst) (c : conn) : cst * conn * result derr unit :=
  match n_capture c with
  | None => (x, c, Ok tt)
  | Some s => let '(x1, _, r) := SClose x s in (x1, set_capture c None, client_err r)
  end.

(** The changeset and blob operations go to the client under the connection's database: they
    use neither stream, so they leave the connection as it is. *)
Definition ApplyChangeset (x : cst) (c : conn) (cs : list byte) : cst * result cerr unit :=
  Client.ApplyChangeset sign server clock parse x (n_db c) cs [].
Definition InvertChangeset (x : cst) (c : conn) (cs : list byte) : cst * result cerr (list byte) :=
  Client.InvertChangeset sign server clock parse x (n_db c) cs.
Definition ConcatChangesets (x : cst) (c : conn) (a b : list byte) : cst * result cerr (list byte) :=
  Client.ConcatChangesets sign server clock parse x (n_db c) a b.
Definition BlobProvision (x : cst) (c : conn) (store : string) (chunk : Z) (compress : string) (dedup : bool) : cst * result cerr unit :=
  Client.BlobProvision sign server clock parse x (n_db c) store chunk compress dedup.
Definition BlobCreate (x : cst) (c : conn) (store : string) : cst * result cerr Z :=
  Client.BlobCreate sign server clock parse x (n_db c) store.
Definition BlobWrite (x : cst) (c : conn) (store : string) (id : Z) (data : list byte) : cst * result cerr Z :=
  Client.BlobWrite sign server clock parse x (n_db c) store id data.
Definition BlobRead (x : cst) (c : conn) (store : string) (id : Z) : cst * result cerr (list byte) :=
  Client.BlobRead sign server clock parse x (n_db c) store id.
Definition BlobSize (x : cst) (c : conn) (store : string) (id : Z) : cst * result cerr Z :=
  Client.BlobSize sign server clock parse x (n_db c) store id.
Definition BlobDelete (x : cst) (c : conn) (store : string) (id : Z) : cst * result cerr unit :=
  Client.BlobDelete sign server clock parse x (n_db c) store id.

(** ** Results and rows *)

Definition LastInsertId (r : cresult) : Z := c_lastid r.
Definition RowsAffected (r : cresult) : Z := c_affected r.
Definition toDriverValue (v : goany) : goany :=
  match v with
  | GNumber lit => match parse_int64 lit with
                   | Some n => GInt n
                   | None => match parse_float lit with Some f => GFloat64 f | None => GString lit end
                   end
  | _ => v
  end.
Record rows_ := Rows_ { rs_res : cresult; rs_i : nat }.
Inductive next : Type := NRow (cells : list goany) | NEOF | ErrTruncated.
(** [n] is the length of the destination. *)
Definition Next (r : rows_) (n : nat) : rows_ * next :=
  match c_rows (rs_res r) !! rs_i r with
  | None => (r, if c_truncated (rs_res r) then ErrTruncated else NEOF)
  | Some row => (Rows_ (rs_res r) (S (rs_i r)), NRow (map (fun j => match row !! j with Some v => toDriverValue v | None => GNil end) (seq 0 n)))
  end.

(** Prepared statements are run by name; [Exec] and [Query] of a plain value list number it. *)
Record stmt_ := Stmt_ { st_query : string }.
Definition Prepare (c : conn) (query : string) : stmt_ := Stmt_ query.
Definition named (args : list goany) : list NamedValue := map (Named "") args.
Definition stmt_Query (x : cst) (c : conn) (s : stmt_) (args : list goany) := QueryContext x c (st_query s) (named args).
Definition stmt_QueryContext (x : cst) (c : conn) (s : stmt_) (args : list NamedValue) := QueryContext x c (st_query s) args.
End Driver.

(** ** The protocol a connection speaks *)

Section Protocol.
Context {P : Type}.
Variable sign : P -> list byte -> list byte.
Variable server : history -> hreq -> result string hresp.
Variable clock : history -> Z.
Variable parse : list byte -> option json.
Context `{FT : FloatText}.
Notation cst := (@Client.cst P).
Notation query := (Client.Query sign server clock parse).
Notation pipe := (pipeline sign server clock parse).

Inductive call : Type :=
| CNative (db sql : string)
| CPipe (db : string) (baton : option string) (reqs : list json) (answer : result cerr hpResp).

(** The exchanges that lead from one state of the wire to another. *)
Inductive talks : cst -> list call -> cst -> Prop :=
| talks_nil x : talks x [] x
| talks_native x x1 x2 db sql args r cs : query x db sql args = (x1, r) -> talks x1 cs x2 -> talks x (CNative db sql :: cs) x2
| talks_pipe x x1 x2 db b reqs r cs : pipe x db b reqs = (x1, r) -> talks x1 cs x2 -> talks x (CPipe db b reqs r :: cs) x2.

Definition next_baton (b : option string) (r : result cerr hpResp) : option string := match r with Ok x => hp_baton x | Err _ => b end.

(** [None]: idle; [Some b]: a stream is pinned and [b] is the baton to present.  An idle
    connection uses the autocommit endpoint, or opens a stream without a baton by a BEGIN or
    a capture; a pinned one sends each request with the baton it was last given and nothing
    else, until it closes the stream, which it does if it ever got a baton. *)
Inductive follows (db : string) : option (option string) -> list call -> option (option string) -> Prop :=
| fol_nil p : follows db p [] p
| fol_native sql cs p : follows db None cs p -> follows db None (CNative db sql :: cs) p
| fol_open req r cs p : req = executeRequest "BEGIN" [] \/ (exists ts, req = sessionStartRequest ts) ->
    follows db (Some (next_baton None r)) cs p -> follows db None (CPipe db None [req] r :: cs) p
| fol_run b req r cs p : req <> closeRequest -> follows db (Some (next_baton b r)) cs p -> follows db (Some b) (CPipe db b [req] r :: cs) p
| fol_close b r cs p : follows db None cs p -> follows db (Some (Some b)) (CPipe db (Some b) [closeRequest] r :: cs) p
| fol_drop cs p : follows db None cs p -> follows db (Some None) cs p.

Lemma talks_app x1 x2 x3 c1 c2 : talks x1 c1 x2 -> talks x2 c2 x3 -> talks x1 (c1 ++ c2) x3.
Proof. induction 1; intros; cbn; eauto using talks. Qed.
Lemma follows_app db p1 p2 p3 c1 c2 : follows db p1 c1 p2 -> follows db p2 c2 p3 -> follows db p1 (c1 ++ c2) p3.
Proof. induction 1; intros; cbn; eauto using follows. Qed.

(** A stream of the connection, and what the connection has pinned. *)
Definition own_stream (db : string) (s : stream) : Prop := s_db s = db /\ s_closed s = false.
Definition pinned (c : conn) : option (option string) :=
  match n_tx c, n_capture c with Some s, _ => Some (s_baton s) | None, Some s => Some (s_baton s) | None, None => None end.
Record conn_ok (c : conn) : Prop := {
  ok_one : n_tx c = None \/ n_capture c = None;
  ok_tx : forall s, n_tx c = Some s -> own_stream (n_db c) s;
  ok_capture : forall s, n_capture c = Some s -> own_stream (n_db c) s
}.

(** One step of the stream is one exchange. *)
Lemma step_talks x s reqs db x1 s1 r : own_stream db s -> ClientStream.step sign server clock parse x s reqs = (x1, s1, r) ->
  own_stream db s1 /\ exists a, talks x [CPipe db (s_baton s) reqs a] x1 /\ s_baton s1 = next_baton (s_baton s) a.
Proof.
  intros [Hd Hc] H. unfold ClientStream.step in H. rewrite Hc in H. destruct (pipe x (s_db s) (s_baton s) reqs) as [x2 [a|e]] eqn:E;
    injection H as <- <- <-; (split; [by split|]).
  - exists (Ok a). rewrite <- Hd. split; [|done]. eapply talks_pipe; [exact E|apply talks_nil].
  - exists (Err e). rewrite <- Hd. split; [|done]. eapply talks_pipe; [exact E|apply talks_nil].
Qed.
Lemma exec_talks x s sql args db x1 s1 r : own_stream db s -> ClientStream.Exec sign server clock parse x s sql args = (x1, s1, r) ->
  own_stream db s1 /\ exists a, talks x [CPipe db (s_baton s) [executeRequest sql args] a] x1 /\ s_baton s1 = next_baton (s_baton s) a.
Proof.
  intros Ho H. unfold ClientStream.Exec in H. destruct (ClientStream.step _ _ _ _ _ _ _) as [[x2 s2] r2] eqn:E.
  apply (step_talks _ _ _ db) in E; [|done]. destruct r2 as [[|y [|z l]]|e]; by injection H as <- <- <-.
Qed.
Lemma close_talks x s db x1 s1 r : own_stream db s -> ClientStream.Close sign server clock parse x s = (x1, s1, r) ->
  exists cs, talks x cs x1 /\ follows db (Some (s_baton s)) cs None.
Proof.
  intros [Hd Hc] H. unfold ClientStream.Close in H. rewrite Hc in H. cbn [orb] in H.
  destruct (s_baton s) as [b|] eqn:Eb.
  - rewrite bool_decide_false in H by done. destruct (pipe x (s_db s) (Some b) [closeRequest]) as [x2 a] eqn:E.
    assert (x2 = x1) as -> by (destruct a; by injection H as ->). exists [CPipe db (Some b) [closeRequest] a]. rewrite <- Hd.
    split; [eapply talks_pipe; [exact E|apply talks_nil]|]. apply fol_close, fol_nil.
  - rewrite bool_decide_true in H by done. injection H as <- _ _. exists []. split; [apply talks_nil|apply fol_drop, fol_nil].
Qed.
Lemma execute_not_close sql args : executeRequest sql args <> closeRequest.
Proof. done. Qed.
Lemma start_not_close ts : sessionStartRequest ts <> closeRequest.
Proof. unfold sessionStartRequest, closeRequest. by case_match. Qed.

Inductive op : Type :=
| OStmt (sql : string) (args : list NamedValue) | OBegin | OCommit | ORollback
| OStart (tables : list string) | OCapture | OEnd | OReset | OClose.
Definition do_op (xc : cst * conn) (o : op) : cst * conn :=
  let '(x, c) := xc in
  match o with
  | OStmt sql args => (QueryContext sign server clock parse x c sql args).1
  | OBegin => (begin_ sign server clock parse x c).1
  | OCommit => (Commit sign server clock parse x c).1
  | ORollback => (Rollback sign server clock parse x c).1
  | OStart ts => (StartCapture sign server clock parse x c ts).1
  | OCapture => (CaptureChangeset sign server clock parse x c).1
  | OEnd => (EndCapture sign server clock parse x c).1
  | OReset => (x, c)
  | OClose => Close sign server clock parse x c
  end.
Definition do_ops (xc : cst * conn) (ops : list op) : cst * conn := fold_left do_op ops xc.

(** What one operation does. *)
Definition speaks (x : cst) (c : conn) (x' : cst) (c' : conn) : Prop :=
  conn_ok c' /\ n_db c' = n_db c /\ exists cs, talks x cs x' /\ follows (n_db c) (pinned c) cs (pinned c').
Lemma speaks_refl x c : conn_ok c -> speaks x c x c.
Proof. intros H. split; [done|]. split; [done|]. exists []. split; [apply talks_nil|apply fol_nil]. Qed.
Lemma speaks_trans x1 c1 x2 c2 x3 c3 : speaks x1 c1 x2 c2 -> speaks x2 c2 x3 c3 -> speaks x1 c1 x3 c3.
Proof.
  intros (_ & Hd & cs1 & H1 & F1) (Hk & Hd2 & cs2 & H2 & F2). split; [done|]. split; [congruence|]. exists (cs1 ++ cs2).
  split; [by eapply talks_app|]. rewrite Hd in F2. by eapply follows_app.
Qed.

Lemma busy_pinned c : busy_ c = bool_decide (is_Some (pinned c)).
Proof. unfold busy_, pinned. by destruct (n_tx c), (n_capture c). Qed.
Lemma ok_idle db : conn_ok (Conn_ db None None).
Proof. split; [by left|done|done]. Qed.
Lemma idle_conn c : pinned c = None -> c = Conn_ (n_db c) None None.
Proof. destruct c as [d [s|] [t|]]; by cbn. Qed.
Lemma ok_set_tx c s : own_stream (n_db c) s -> n_capture c = None -> conn_ok (set_tx c (Some s)).
Proof. intros Ho Hc. split; [by right|by intros ? [= <-]|]. cbn. by rewrite Hc. Qed.
Lemma ok_set_capture c s : own_stream (n_db c) s -> n_tx c = None -> conn_ok (set_capture c (Some s)).
Proof. intros Ho Hc. split; [by left| |by intros ? [= <-]]. cbn. by rewrite Hc. Qed.

Lemma close_speaks c x s x1 s1 r : pinned c = Some (s_baton s) -> own_stream (n_db c) s ->
  ClientStream.Close sign server clock parse x s = (x1, s1, r) -> speaks x c x1 (Conn_ (n_db c) None None).
Proof.
  intros Hp Ho Hc. destruct (close_talks _ _ _ _ _ _ Ho Hc) as (cs & H1 & H2). split; [apply ok_idle|]. split; [done|].
  exists cs. split; [done|]. by rewrite Hp.
Qed.
(** What a request leaves on the wire, read off the protocol's rules. *)
Definition sent (x : cst) (db : string) (s : stream) (req : json) (x1 : cst) (s1 : stream) : Prop :=
  own_stream db s1 /\ exists a, talks x [CPipe db (s_baton s) [req] a] x1 /\ s_baton s1 = next_baton (s_baton s) a.
Lemma run_speaks c c1 x s req x1 s1 : pinned c = Some (s_baton s) -> req <> closeRequest -> sent x (n_db c) s req x1 s1 ->
  conn_ok c1 -> n_db c1 = n_db c -> pinned c1 = Some (s_baton s1) -> speaks x c x1 c1.
Proof.
  intros Hp Hr (_ & a & Ht & Hb) Hk Hd Hp1. split; [done|]. split; [done|]. eexists. split; [exact Ht|].
  rewrite Hp, Hp1, Hb. by apply fol_run, fol_nil.
Qed.
Definition opening (req : json) : Prop := req = executeRequest "BEGIN" [] \/ exists ts, req = sessionStartRequest ts.
Lemma open_speaks c c1 x req x1 s1 : pinned c = None -> opening req -> sent x (n_db c) (OpenStream (n_db c)) req x1 s1 ->
  conn_ok c1 -> n_db c1 = n_db c -> pinned c1 = Some (s_baton s1) -> speaks x c x1 c1.
Proof.
  intros Hp Hr (_ & a & Ht & Hb) Hk Hd Hp1. split; [done|]. split; [done|]. eexists. split; [exact Ht|].
  rewrite Hp, Hp1, Hb. apply fol_open; [done|apply fol_nil].
Qed.
(** An opening that failed: the stream is closed and the connection stays idle. *)
Lemma open_fails c x req x1 s1 : pinned c = None -> opening req -> sent x (n_db c) (OpenStream (n_db c)) req x1 s1 ->
  speaks x c (ClientStream.Close sign server clock parse x1 s1).1.1 c.
Proof.
  intros Hp Hr Hs. rewrite (idle_conn c Hp) at 2. destruct (ClientStream.Close _ _ _ _ _ _) as [[x2 s2] r] eqn:E.
  pose proof Hs as [Ho _].
  eapply speaks_trans; [apply (open_speaks c (Conn_ (n_db c) (Some s1) None) x req x1 s1 Hp Hr Hs); [|done|done]|].
  - split; [by right|by intros ? [= <-]|done].
  - by apply (close_speaks (Conn_ (n_db c) (Some s1) None) x1 s1 x2 s2 r).
Qed.

Lemma stmt_speaks x c sql vals : conn_ok c -> let '(x1, c1, _) := run sign server clock parse x c sql vals in speaks x c x1 c1.
Proof.
  intros Hk. unfold run. destruct (n_capture c) as [s|] eqn:Ec; [|destruct (n_tx c) as [s|] eqn:Et].
  - destruct (ok_one c Hk) as [Ht|]; [|congruence]. destruct (ClientStream.Exec _ _ _ _ _ _ _ _) as [[x1 s1] r] eqn:E.
    apply (exec_talks _ _ _ _ (n_db c)) in E; [|by apply (ok_capture c Hk)]. pose proof E as [Ho _].
    eapply run_speaks; [unfold pinned; by rewrite Ht, Ec|apply execute_not_close|exact E|by apply ok_set_capture|done|].
    unfold pinned. cbn. by rewrite Ht.
  - destruct (ClientStream.Exec _ _ _ _ _ _ _ _) as [[x1 s1] r] eqn:E.
    apply (exec_talks _ _ _ _ (n_db c)) in E; [|by apply (ok_tx c Hk)]. pose proof E as [Ho _].
    eapply run_speaks; [unfold pinned; by rewrite Et|apply execute_not_close|exact E|by apply ok_set_tx|done|done].
  - destruct (query x (n_db c) sql vals) as [x1 r] eqn:E. split; [done|]. split; [done|]. exists [CNative (n_db c) sql].
    split; [eapply talks_native; [exact E|apply talks_nil]|]. unfold pinned. rewrite Et, Ec. apply fol_native, fol_nil.
Qed.
Lemma sent_start x db ts : let '(x1, s1, _) := SessionStart sign server clock parse x (OpenStream db) ts in
  sent x db (OpenStream db) (sessionStartRequest ts) x1 s1.
Proof.
  unfold SessionStart. destruct (ClientStream.step _ _ _ _ _ _ _) as [[x2 s2] r2] eqn:E.
  apply (step_talks _ _ _ db) in E; [|done]. destruct r2 as [[|y [|z l]]|e]; exact E.
Qed.
Lemma sent_changeset x s db : own_stream db s -> let '(x1, s1, _) := SessionChangeset sign server clock parse x s in
  sent x db s changesetRequest x1 s1.
Proof.
  intros Ho. unfold SessionChangeset. destruct (ClientStream.step _ _ _ _ _ _ _) as [[x2 s2] r2] eqn:E.
  apply (step_talks _ _ _ db) in E; [|done]. destruct r2 as [[|y [|z l]]|e]; exact E.
Qed.

Lemma finish_speaks x c sql : conn_ok c -> let '(x1, c1, _) := finish sign server clock parse x c sql in speaks x c x1 c1 /\ n_tx c1 = None.
Proof.
  intros Hk. unfold finish. destruct (n_tx c) as [s|] eqn:Et; [|by split; [apply speaks_refl|]].
  destruct (ok_one c Hk) as [|Ec]; [congruence|].
  destruct (ClientStream.Exec _ _ _ _ _ _ _ _) as [[x1 s1] r] eqn:E.
  apply (exec_talks _ _ _ _ (n_db c)) in E; [|by apply (ok_tx c Hk)]. pose proof E as [Ho _].
  destruct (ClientStream.Close _ _ _ _ _ _) as [[x2 s2] rc] eqn:E2. split; [|done].
  eapply (speaks_trans _ _ _ (set_tx c (Some s1))).
  - eapply run_speaks; [unfold pinned; by rewrite Et|apply execute_not_close|exact E|by apply ok_set_tx|done|done].
  - replace (set_tx c None) with (Conn_ (n_db (set_tx c (Some s1))) None None) by (unfold set_tx; cbn; by rewrite Ec).
    by apply (close_speaks (set_tx c (Some s1)) x1 s1 x2 s2 rc).
Qed.

Lemma do_op_speaks x c o : conn_ok c -> let '(x1, c1) := do_op (x, c) o in speaks x c x1 c1.
Proof.
  intros Hk. destruct o as [sql args| | | |ts| | | |]; cbn [do_op].
  - unfold QueryContext. destruct (values args) as [vals|e]; [|by apply speaks_refl].
    pose proof (stmt_speaks x c sql vals Hk) as H. by destruct (run _ _ _ _ _ _ _ _) as [[x1 c1] r].
  - unfold begin_. rewrite busy_pinned. destruct (bool_decide_reflect (is_Some (pinned c))) as [|Hn]; [by apply speaks_refl|].
    apply eq_None_not_Some in Hn. destruct (ClientStream.Exec _ _ _ _ _ _ _ _) as [[x1 s1] r] eqn:E.
    apply (exec_talks _ _ _ _ (n_db c)) in E; [|done]. pose proof E as [Ho _]. rewrite (idle_conn c Hn) in Ho.
    destruct r as [r|e]; cbn [fst]; [|eapply open_fails; [done|by left|exact E]].
    eapply open_speaks; [done|by left|exact E| |done|done]. apply ok_set_tx; [done|]. by rewrite (idle_conn c Hn).
  - pose proof (finish_speaks x c "COMMIT" Hk) as H. unfold Commit. destruct (finish _ _ _ _ _ _ _) as [[x1 c1] r]. by destruct H.
  - pose proof (finish_speaks x c "ROLLBACK" Hk) as H. unfold Rollback. destruct (finish _ _ _ _ _ _ _) as [[x1 c1] r]. by destruct H.
  - unfold StartCapture. rewrite busy_pinned. destruct (bool_decide_reflect (is_Some (pinned c))) as [|Hn]; [by apply speaks_refl|].
    apply eq_None_not_Some in Hn. pose proof (sent_start x (n_db c) ts) as E.
    destruct (SessionStart _ _ _ _ _ _ _) as [[x1 s1] r]. pose proof E as [Ho _].
    assert (opening (sessionStartRequest ts)) as Hop by (right; by eexists).
    destruct r as [r|e]; cbn [fst]; [|by eapply open_fails].
    eapply open_speaks; [done|exact Hop|exact E| |done|]; [apply ok_set_capture; [done|]|unfold pinned; cbn]; by rewrite (idle_conn c Hn).
  - unfold CaptureChangeset. destruct (n_capture c) as [s|] eqn:Ec; [|by apply speaks_refl]. destruct (ok_one c Hk) as [Ht|]; [|congruence].
    pose proof (sent_changeset x s (n_db c) (ok_capture c Hk s Ec)) as E. destruct (SessionChangeset _ _ _ _ _ _) as [[x1 s1] r].
    pose proof E as [Ho _]. eapply run_speaks; [unfold pinned; by rewrite Ht, Ec| |exact E|by apply ok_set_capture|done|]; [done|].
    unfold pinned. cbn. by rewrite Ht.
  - unfold EndCapture. destruct (n_capture c) as [s|] eqn:Ec; [|by apply speaks_refl]. destruct (ok_one c Hk) as [Ht|]; [|congruence].
    destruct (ClientStream.Close _ _ _ _ _ _) as [[x1 s1] r] eqn:E. cbn [fst].
    replace (set_capture c None) with (Conn_ (n_db c) None None) by (unfold set_capture; by rewrite Ht).
    eapply close_speaks; [unfold pinned; by rewrite Ht, Ec|by apply (ok_capture c Hk)|exact E].
  - by apply speaks_refl.
  - unfold Close. destruct (n_tx c) as [s|] eqn:Et.
    + destruct (ok_one c Hk) as [|Ec]; [congruence|]. cbn. rewrite Ec. destruct (ClientStream.Close _ _ _ _ _ _) as [[x1 s1] r] eqn:E. cbn [fst].
      replace (set_tx c None) with (Conn_ (n_db c) None None) by (unfold set_tx; by rewrite Ec).
      eapply close_speaks; [unfold pinned; by rewrite Et|by apply (ok_tx c Hk)|exact E].
    + destruct (n_capture c) as [s|] eqn:Ec; [|by apply speaks_refl]. destruct (ClientStream.Close _ _ _ _ _ _) as [[x1 s1] r] eqn:E. cbn [fst].
      replace (set_capture c None) with (Conn_ (n_db c) None None) by (unfold set_capture; by rewrite Et).
      eapply close_speaks; [unfold pinned; by rewrite Et, Ec|by apply (ok_capture c Hk)|exact E].
Qed.

(** C37: (pinning) Whatever a program does with a driver connection and whatever the server
    answers, the exchanges follow the stream protocol: outside a transaction or capture
    every statement goes to the autocommit endpoint; from BEGIN (or a capture's start) to
    its end every request goes to the one stream, presents the baton that stream was last
    given and is never sent to the autocommit endpoint; a stream that was given a baton is
    closed before the connection is idle again and is not used afterwards.  COMMIT, ROLLBACK
    and closing the connection always end in the idle state, and the pool is handed back
    only idle connections. *)
Theorem driver_speaks_the_protocol x (k : @connector P) ops :
  let '(x', c') := do_ops (x, Connect k) ops in
  (exists cs, talks x cs x' /\ follows (k_db k) None cs (pinned c')) /\
  (ResetSession c' = Ok tt <-> pinned c' = None) /\
  pinned (do_op (x', c') OClose).2 = None /\
  n_tx (do_op (x', c') OCommit).2 = None /\ n_tx (do_op (x', c') ORollback).2 = None /\
  (forall o, n_tx c' = None -> n_capture c' <> None -> n_tx (do_op (x', c') o).2 = None).
Proof.
  assert (forall ops xc, conn_ok xc.2 -> let '(x', c') := do_ops xc ops in speaks xc.1 xc.2 x' c') as H.
  { induction ops0 as [|o l IH]; intros [y c] Hk; [by apply speaks_refl|]. cbn [do_ops fold_left].
    pose proof (do_op_speaks y c o Hk) as Ho. destruct (do_op (y, c) o) as [y1 c1]. pose proof Ho as [Hk1 _].
    specialize (IH (y1, c1) Hk1). unfold do_ops in IH. destruct (fold_left do_op l (y1, c1)) as [y2 c2]. by eapply speaks_trans. }
  specialize (H ops (x, Connect k) (ok_idle (k_db k))). destruct (do_ops (x, Connect k) ops) as [x' c'].
  destruct H as (Hk & Hd & cs & H1 & H2). cbn [fst snd Connect n_db] in *.
  split; [by exists cs|]. split.
  { unfold ResetSession. rewrite busy_pinned. destruct (pinned c') as [b|]; [rewrite bool_decide_true by done; by split|by rewrite bool_decide_false by (by intros [])]. }
  split.
  { cbn [do_op]. unfold Close, pinned. destruct c' as [db [t|] [s|]]; destruct (ok_one _ Hk) as [E|E]; try discriminate E; done. }
  split; [cbn [do_op]; pose proof (finish_speaks x' c' "COMMIT" Hk) as H; unfold Commit; destruct (finish _ _ _ _ _ _ _) as [[? ?] ?]; by destruct H|].
  split; [cbn [do_op]; pose proof (finish_speaks x' c' "ROLLBACK" Hk) as H; unfold Rollback; destruct (finish _ _ _ _ _ _ _) as [[? ?] ?]; by destruct H|].
  intros o Ht Hc. assert (busy_ c' = true) as Hb.
  { unfold busy_. apply orb_true_iff. right. apply bool_decide_eq_true. by destruct (n_capture c'). }
  destruct o; cbn [do_op]; unfold begin_, StartCapture, Commit, Rollback, finish, QueryContext, run, CaptureChangeset, EndCapture, Close;
    rewrite ?Hb, ?Ht; try done; repeat case_match; simplify_eq; done.
Qed.
End Protocol.

(** ** Credentials and truncation *)

Section Dsn.
Context {P : Type}.
Variable parse_url : string -> option url.

Lemma mk_credential t opts : hasCredential (opts_ (mk (P := P) t opts)) = hasCredential (apply opts).
Proof. by destruct t. Qed.
Lemma mk_chan t opts : chan_ (mk (P := P) t opts) = t.
Proof. by destruct t. Qed.

Definition redacted (k : string) (q : list (string * string)) : Prop := forall v, (k, v) ∈ q -> v = "REDACTED"%string.
Lemma redacted_Set k k' q : k' = k \/ redacted k q -> redacted k (Set_ q k' "REDACTED").
Proof.
  intros H v. unfold Set_. rewrite elem_of_cons. intros [[= _ ->]|Hin]; [done|].
  apply list_elem_of_In, filter_In in Hin as [Hin Hne]. apply list_elem_of_In in Hin. destruct H as [->|H]; [|by apply H].
  cbn in Hne. by rewrite String.eqb_refl in Hne.
Qed.
Lemma redacts_all ks : forall q k, k ∈ ks \/ redacted k q ->
  redacted k (fold_left (fun q k => if Has q k then Set_ q k "REDACTED" else q) ks q).
Proof.
  induction ks as [|k' ks IH]; intros q k H; [destruct H as [H|]; [by apply not_elem_of_nil in H|done]|].
  cbn [fold_left]. apply IH. destruct (decide (k ∈ ks)) as [|Hn]; [by left|right].
  assert (k' = k \/ redacted k q) as Hc by (destruct H as [H|]; [apply elem_of_cons in H as [->|]; [by left|done]|by right]).
  destruct (Has q k') eqn:Eh; [by apply redacted_Set|]. destruct Hc as [->|]; [|done]. intros v Hin. exfalso.
  unfold Has in Eh. enough (existsb (fun kv => String.eqb kv.1 k) q = true) by congruence.
  apply existsb_exists. exists (k, v). split; [by apply list_elem_of_In|apply String.eqb_refl].
Qed.

(** (credentials) A connector opened from a data source name never sends a credential
    where it can be read: if its client holds a token or a password, the transport is a Unix
    socket or TLS whose certificate is verified, unless the name itself carries the override.
    A name with credentials in the authority part is refused, and the name an error quotes
    has no password in its authority part and none of the secret parameters' values. *)
Theorem dsn_keeps_credentials_safe dsn :
  (forall k, OpenConnector (P := P) parse_url dsn = Ok k ->
     exists u, parse_url dsn = Some u /\ u_user u = None /\ k_db k <> ""%string /\
       (hasCredential (opts_ (k_client k)) = true <-> Get (u_query u) "token" <> ""%string \/ Get (u_query u) "user" <> ""%string) /\
       (hasCredential (opts_ (k_client k)) = true -> flag (u_query u) "allow_insecure_auth" = false ->
          chan_ (k_client k) = TUnix \/ chan_ (k_client k) = TH2 false \/ chan_ (k_client k) = TH3 false)) /\
  (forall u, redactDSN parse_url dsn = Some u ->
     (forall n p, u_user u = Some (n, p) -> p = None) /\
     forall k v, (k, v) ∈ u_query u -> k ∈ secret_params -> v = "REDACTED"%string).
Proof.
  split.
  - intros k. unfold OpenConnector. destruct (parse_url dsn) as [u|]; [|done]. destruct (negb _); [done|].
    destruct (bool_decide_reflect (is_Some (u_user u))) as [|Hu]; [done|]. cbv zeta.
    set (q := u_query u). set (opts := _ ++ _). destruct (String.eqb_spec (default (u_path u) (cut_prefix "/" (u_path u))) "") as [|Hdb]; [done|].
    set (t := if String.eqb (Get q "transport") "" then _ else _). set (cred := negb _ || negb _).
    assert (hasCredential (apply (P := P) opts) = cred) as Hcred.
    { unfold opts, cred, hasCredential. destruct (String.eqb_spec (Get q "token") "") as [E|E], (String.eqb_spec (Get q "user") "") as [E2|E2];
        cbn; rewrite ?E2; by rewrite ?(proj2 (String.eqb_neq _ _) E), ?(proj2 (String.eqb_neq _ _) E2), ?orb_true_r. }
    destruct (cred && negb (flag q "allow_insecure_auth") && (String.eqb t "h1" || String.eqb t "h2c")) eqn:E1; [done|].
    destruct (cred && negb (flag q "allow_insecure_auth") && (String.eqb t "h2" || String.eqb t "h3") && flag q "insecure") eqn:E2; [done|].
    destruct (transport_of t (flag q "insecure") (Get q "socket")) as [tr|] eqn:Et; [|done]. cbn [rbind]. intros [= <-]. cbn [k_client k_db].
    exists u. split; [done|]. split; [by apply eq_None_not_Some|]. split; [done|]. rewrite mk_credential, Hcred. split.
    { unfold cred. rewrite orb_true_iff, !negb_true_iff, !String.eqb_neq. done. }
    intros Hc Hf. fold q in Hf. rewrite Hc, Hf in E1, E2. cbn [andb negb] in E1, E2. rewrite mk_chan. unfold transport_of in Et.
    destruct (String.eqb t "h1"); [done|]. destruct (String.eqb t "h2c"); [done|].
    destruct (String.eqb t "h2"); [injection Et as <-; rewrite ?orb_true_r in E2; cbn [orb andb] in E2; rewrite E2; auto|].
    destruct (String.eqb t "h3"); [injection Et as <-; rewrite ?orb_true_r in E2; cbn [orb andb] in E2; rewrite E2; auto|].
    destruct (String.eqb t "unix"); [|done]. destruct (String.eqb (Get q "socket") ""); [done|]. injection Et as <-. by left.
  - intros u. unfold redactDSN. destruct (parse_url dsn) as [u0|]; [|done]. cbn. intros [= <-]. cbn [u_user u_query]. split.
    { intros n p. destruct (u_user u0) as [[a b]|]; cbn; by intros [= _ <-]. }
    intros k v.
    intros Hin Hk. by apply (redacts_all secret_params (u_query u0) k (or_introl Hk)).
Qed.
End Dsn.
