(* ===== verification/Streams.v ===== *)
(** * httpapi: the pipeline and cursor handlers

    [handlePipeline], [stream] and [writeStreamError] of [src/httpapi/hrana.go],
    [handleCursor] of [hrana_cursor.go], over the session store ([Session.v]), the request
    interpreter ([Hrana.v]) and the admission of [HttpApi.v]. *)
From S2P Require Import Prelude GoStd Crypto Wire Authz Limits Backend Engine Session Config Hrana Sqlite HttpApi.

(** The store next to what a request works on; the connections handed to teardown; and the
    mode each pinned connection is in. *)
Record swork (S : Type) := SWork { sv : world S; store_ : store; torn_ : list teardown; modes_ : gmap nat pconn }.
Arguments SWork {S}. Arguments sv {S}. Arguments store_ {S}. Arguments torn_ {S}. Arguments modes_ {S}.

Definition with_store {S} (w : swork S) (st : store) (ts : list teardown) : swork S :=
  SWork (sv w) st (torn_ w ++ ts) (modes_ w).
Definition with_sv {S} (w : swork S) (x : world S) : swork S := SWork x (store_ w) (torn_ w) (modes_ w).
Definition with_mode {S} (w : swork S) (cn : nat) (c : pconn) : swork S :=
  SWork (sv w) (store_ w) (torn_ w) (<[cn := c]> (modes_ w)).
(** What a statement on a session's connection works on: the database, and the connection
    as [Open] and the statements before it left it. *)
Definition on_conn {S} (w : swork S) (s : session) : S * pconn := (w_db (sv w), default base_conn (modes_ w !! conn s)).
Definition left_conn {S} (w : swork S) (s : session) (x : S * pconn) : swork S :=
  with_mode (with_sv w (set_db (sv w) x.1)) (conn s) x.2.

Inductive streamerr : Type := SSession (e : serr) | SGet (e : geterr).
Definition writeStreamError (e : streamerr) : response :=
  match e with
  | SSession ErrBadBaton => writeErr 400 "invalid or expired baton"
  | SSession ErrPrincipalMismatch => writeErr 403 "baton belongs to a different principal"
  | SSession ErrTooMany => writeErr 503 "too many open sessions"
  | SGet e => writeGetError e
  end.

(** What surrounds a stream request, besides [env]: the connection [Handle.Conn] pins, the
    id crypto/rand draws, and the operations of a pinned connection, whose state carries its
    mode. *)
Record stream_env (S : Type) := SEnv {
  base_env : env S;
  pin : result geterr (nat * pconn);
  rand_id : option (list byte);
  conn_ops : Conn (S * pconn)
}.
Arguments base_env {S}. Arguments pin {S}. Arguments rand_id {S}. Arguments conn_ops {S}.

(** The session is one object: what a request did to it is what the store holds. *)
Definition put (st : store) (s : session) : store := with_sessions st (<[id s := s]> (sessions st)).

Section Handlers.
Context `{FT : FloatText} (e : engine) {S : Type} (h : handler) (v : stream_env S).
Variable decode_pipeline : list byte -> result string (option string * list streamRequest).
Variable decode_cursor : list byte -> result string (option string * option hBatch).

(** [session.Store.Open] in full; a connection that is not kept goes back to the pool. *)
Definition Open_session (st : store) (now : Z) (db p : string) (readOnly allowAttach : bool)
    : store * list pconn * result streamerr (session * pconn) :=
  match Open_reserve st db with
  | Err x => (st, [], Err (SSession x))
  | Ok st1 =>
      match pin v with
      | Err x => (releaseSlot st1 db, [], Err (SGet x))
      | Ok (cn, c) =>
          match Open_mode (pragma_on (base_env v)) (up1 (base_env v)) (up2 (base_env v)) readOnly allowAttach c with
          | (c1, Err x) => (releaseSlot st1 db, [c1], Err (SGet (mode_err (base_env v) x)))
          | (c1, Ok _) =>   (* the mode the stream's statements run in *)
              match rand_id v with
              | None => (with_perDB st1 (<[db := zget (perDB st1) db - 1]> (perDB st1)), [c1], Err (SGet (GOther "rand")))
              | Some i => let '(st2, s) := Open_insert st1 db cn true p readOnly allowAttach i now in (st2, [], Ok (s, c1))
              end
          end
      end
  end.

Definition stream (w : swork S) (now : Z) (db : string) (baton : option string) (p : string) (lvl : level)
    : swork S * result streamerr session :=
  let fresh_stream :=
    match get (base_env v) db with
    | Err x => (w, Err (SGet x))
    | Ok _ =>
        let allowAttach := attachAllowed h && CanWrite lvl && bool_decide (p ∈ serverAdmins h) in
        match Open_session (store_ w) now db p (negb (CanWrite lvl)) allowAttach with
        | (st, cs, Err x) => (SWork (fold_left give_back cs (sv w)) st (torn_ w) (modes_ w), Err x)
        | (st, _, Ok (s, c)) => (with_mode (SWork (add_ref (sv w) 1) st (torn_ w) (modes_ w)) (conn s) c, Ok s)
        end
    end in
  match baton with
  | Some b =>
      if String.eqb b "" then fresh_stream
      else match Resume (store_ w) now b db p with
           | (st, ts, Ok s) => (with_store w st ts, Ok s)
           | (st, ts, Err x) => (with_store w st ts, Err (SSession x))
           end
  | None => fresh_stream
  end.

(** The end of a pipeline request: the session is closed or handed back with its baton;
    after a panic the deferred [Close] runs.  [now'] is the time it finishes. *)
Definition finish (w : swork S) (now' : Z) (s : session) (out : option ((S * pconn) * list streamResult * bool))
    : swork S * response :=
  let st := put (store_ w) s in
  match out with
  | None => let '(st', ts) := Close st s in (with_store w st' ts, Resp 0 PAborted)
  | Some (x, results, closed) =>
      let w1 := left_conn w s x in
      if closed then let '(st', ts) := Close st s in (with_store w1 st' ts, Resp 200 (PPipeline None results))
      else let '(st', b) := Baton st now' s in (with_store w1 st' [], Resp 200 (PPipeline (Some b) results))
  end.

Definition pipeline_admitted (w : swork S) (now now' : Z) (r : http_request) (db : string) (lvl : level)
    : swork S * response :=
  match readBody h (q_body r) with
  | Err x => (w, writeReadBodyErr x)
  | Ok bytes =>
      match decode_pipeline bytes with
      | Err m => (w, writeErr 400 ("invalid JSON: " +:+ m))
      | Ok (baton, reqs) =>
          match stream w now db baton (Authz.Name (FromContext (q_principal r))) lvl with
          | (w1, Err x) => (w1, writeStreamError x)
          | (w1, Ok s) =>
              let '(s', out) := run_requests e (conn_ops v) (on_conn w1 s) s false reqs in
              finish w1 now' s' out
          end
      end
  end.

(** The batch of a cursor request; [n]: how many lines the client takes. *)
Definition cursor_admitted (w : swork S) (now now' : Z) (n : nat) (r : http_request) (db : string) (lvl : level)
    : swork S * response :=
  match readBody h (q_body r) with
  | Err x => (w, writeReadBodyErr x)
  | Ok bytes =>
      match decode_cursor bytes with
      | Err m => (w, writeErr 400 ("invalid JSON: " +:+ m))
      | Ok (_, None) => (w, writeErr 400 "cursor requires a batch")
      | Ok (baton, Some b) =>
          match stream w now db baton (Authz.Name (FromContext (q_principal r))) lvl with
          | (w1, Err x) => (w1, writeStreamError x)
          | (w1, Ok s) =>
              let baton := PeekBaton (store_ w1) s in
              let finished w2 := with_store w2 (fst (Baton (store_ w2) now' s)) [] in
              match n with
              | O => (finished w1, Resp 200 PAborted)   (* the prelude itself could not be written *)
              | Datatypes.S k =>
                  match cursor_batch e (conn_ops v) (on_conn w1 s) s (Writer [] k) b with
                  | None => (finished w1, Resp 200 PAborted)
                  | Some (x, wr) =>
                      (finished (left_conn w1 s x), Resp 200 (PCursor baton (lines wr)))
                  end
              end
          end
      end
  end.

(** Both endpoints' frame: method, sessions enabled, capability, admission. *)
Definition admitted (run : swork S -> level -> swork S * response) (r : http_request) (db : string) (now : Z)
    (w : swork S) : swork S * response :=
  if negb (String.eqb (q_method r) "POST") then (w, writeErr 405 "use POST")
  else if negb (sessions_on h) then (w, writeErr 501 "sessions not enabled")
  else match HttpApi.authorize h r db with
       | Err resp => (w, resp)
       | Ok lvl =>
           match meter h (known (base_env v) db) r db now (sv w) with
           | (x, Err resp) => (with_sv w x, resp)
           | (x, Ok metered) =>
               let '(w2, resp) := run (with_sv w x) lvl in (with_sv w2 (done metered db (sv w2)), resp)
           end
       end.

Definition handlePipeline (r : http_request) (db : string) (now now' : Z) (w : swork S) : swork S * response :=
  admitted (fun w lvl => pipeline_admitted w now now' r db lvl) r db now w.
Definition handleCursor (r : http_request) (db : string) (now now' : Z) (n : nat) (w : swork S) : swork S * response :=
  admitted (fun w lvl => cursor_admitted w now now' n r db lvl) r db now w.
End Handlers.

(** ** Finalisation *)

Record store_ok (st : store) : Prop := {
  so_ids : forall i s, sessions st !! i = Some s -> id s = i /\ length i = idLen
}.

Section Finalise.
Context `{FT : FloatText} (e : engine) {S : Type} (h : handler) (v : stream_env S).
Variable decode_pipeline : list byte -> result string (option string * list streamRequest).
Variable decode_cursor : list byte -> result string (option string * option hBatch).

(** crypto/rand: an id of the right length that no live session has. *)
Definition id_fresh (st : store) : Prop :=
  forall i, rand_id v = Some i -> length i = idLen /\ sessions st !! i = None.

(** What [stream] hands a request: a session of this database and principal, in flight,
    that was not before; every other session is as it was. *)
Record handed (st st' : store) (db p : string) (s : session) : Prop := {
  ha_in : sessions st' !! id s = Some s;
  ha_busy : busy s = true;
  ha_len : length (id s) = idLen;
  ha_gen : in_u64 (gen s);
  ha_db : dbName s = db;
  ha_principal : principal s = p;
  ha_idle : forall s0, sessions st !! id s = Some s0 -> busy s0 = false;
  ha_others : forall i, i <> id s -> sessions st' !! i = sessions st !! i
}.

Lemma Open_session_ok st now db p ro aa st' cs s c :
  id_fresh st -> Open_session v st now db p ro aa = (st', cs, Ok (s, c)) ->
  handed st st' db p s /\ readOnly s = ro /\ attach s = aa && negb ro.
Proof.
  intros Hf. unfold Open_session, Open_reserve. destruct (_ >=? _); [done|].
  destruct (pin v) as [[cn c0]|]; [|done]. destruct (Open_mode _ _ _ _ _ _) as [c1 [u|]]; [|done].
  destruct (rand_id v) as [i|] eqn:Hi; [|done]. destruct (Hf i Hi) as [Hl Hn].
  unfold Open_insert. intros [= <- <- <- <-]. cbn [with_sessions with_perDB sessions readOnly attach]. split; [|done].
  constructor; cbn [id busy gen dbName principal sessions]; try done.
  - apply lookup_insert_eq.
  - intros s0. by rewrite Hn.
  - intros j Hj. cbn. by rewrite lookup_insert_ne.
Qed.

Lemma Open_session_err st now db p ro aa st' cs x :
  Open_session v st now db p ro aa = (st', cs, Err x) -> sessions st' = sessions st.
Proof.
  unfold Open_session, Open_reserve, releaseSlot. destruct (_ >=? _); [by intros [= <- <- <-]|].
  destruct (pin v) as [[cn c]|].
  - destruct (Open_mode _ _ _ _ _ _) as [c1 [u|]].
    + destruct (rand_id v) as [i|]; [done|]. by intros [= <- <- <-].
    + destruct (_ >? 0); by intros [= <- <- <-].
  - destruct (_ >? 0); by intros [= <- <- <-].
Qed.

Lemma u64_in z : in_u64 (u64 z).
Proof. unfold in_u64, u64. apply Z.mod_pos_bound. done. Qed.

Lemma stream_ok w now db baton p lvl w1 s :
  store_ok (store_ w) -> id_fresh (store_ w) -> stream h v w now db baton p lvl = (w1, Ok s) ->
  handed (store_ w) (store_ w1) db p s /\ torn_ w1 = torn_ w.
Proof.
  intros Hok Hf. unfold stream. cbv zeta.
  assert (Hopen : forall w2 s2,
    match get (base_env v) db with
    | Err x => (w, Err (SGet x))
    | Ok _ =>
        match Open_session v (store_ w) now db p (negb (CanWrite lvl))
                (attachAllowed h && CanWrite lvl && bool_decide (p ∈ serverAdmins h)) with
        | (st, cs, Err x) => (SWork (fold_left give_back cs (sv w)) st (torn_ w) (modes_ w), Err x)
        | (st, _, Ok (s, c)) => (with_mode (SWork (add_ref (sv w) 1) st (torn_ w) (modes_ w)) (conn s) c, Ok s)
        end
    end = (w2, Ok s2) -> handed (store_ w) (store_ w2) db p s2 /\ torn_ w2 = torn_ w).
  { intros w2 s2. destruct (get _ _); [|done]. destruct (Open_session _ _ _ _ _ _ _) as [[st cs] [[s' c']|x]] eqn:E; [|done].
    intros [= <- <-]. split; [|done]. by eapply Open_session_ok. }
  destruct baton as [b|]; [|apply Hopen]. destruct (String.eqb b ""); [apply Hopen|]. clear Hopen.
  destruct (Resume _ _ _ _ _) as [[st ts] [s'|x]] eqn:E; [|done]. intros [= <- <-].
  apply Resume_ok in E as (i & s0 & _ & Hi & Hb & _ & Hd & Hp & -> & -> & ->).
  destruct (so_ids _ Hok _ _ Hi) as [Hid Hl]. cbn [with_store store_ torn_]. rewrite app_nil_r. split; [|done].
  constructor; cbn [set_use id busy gen dbName principal sessions with_sessions]; rewrite ?Hid; try done.
  - apply lookup_insert_eq.
  - apply u64_in.
  - intros s1. rewrite Hi. by intros [= <-].
  - intros j Hj. cbn. by rewrite lookup_insert_ne.
Qed.

(** A stream that is refused starts nothing; at most it closes an idle session. *)
Lemma stream_err w now db baton p lvl w1 x i s :
  stream h v w now db baton p lvl = (w1, Err x) ->
  (sessions (store_ w1) !! i = Some s -> sessions (store_ w) !! i = Some s) /\
  (sessions (store_ w) !! i = Some s -> busy s = true -> sessions (store_ w1) !! i = Some s).
Proof.
  unfold stream. cbv zeta. intros H.
  assert (Hcase : store_ w1 = store_ w \/ sessions (store_ w1) = sessions (store_ w) \/
    exists j s0, sessions (store_ w) !! j = Some s0 /\ busy s0 = false /\ sessions (store_ w1) = delete j (sessions (store_ w))).
  { revert H. destruct baton as [b|]; [destruct (String.eqb b "")|].
    - destruct (get _ _); [|intros [= <- <-]; by left].
      destruct (Open_session _ _ _ _ _ _ _) as [[st cs] [[s' c']|y]] eqn:E; [done|].
      intros [= <- <-]. right; left. by eapply Open_session_err.
    - destruct (Resume _ _ _ _ _) as [[st ts] [s'|y]] eqn:E; [done|]. intros [= <- <-].
      apply Resume_err in E as [[-> _]|(j & s0 & Hj & Hb & _ & Hc)]; [by left|].
      right; right. exists j, s0. split; [done|]. split; [done|]. cbn [with_store store_].
      pose proof (sessions_closeLocked (store_ w) j) as Hs. by rewrite <- Hc in Hs.
    - destruct (get _ _); [|intros [= <- <-]; by left].
      destruct (Open_session _ _ _ _ _ _ _) as [[st cs] [[s' c']|y]] eqn:E; [done|].
      intros [= <- <-]. right; left. by eapply Open_session_err. }
  destruct Hcase as [->|[->|(j & s0 & Hj & Hb & ->)]]; [done|done|]. split.
  - by intros [_ ?]%lookup_delete_Some.
  - intros Hi Hbs. rewrite lookup_delete_ne; [done|]. intros ->. congruence.
Qed.

(** No session is left in flight that was not, and none in flight was touched. *)
Definition no_new_busy (st st' : store) : Prop :=
  (forall i s, sessions st' !! i = Some s -> busy s = true -> sessions st !! i = Some s) /\
  (forall i s, sessions st !! i = Some s -> busy s = true -> sessions st' !! i = Some s).

Lemma no_new_busy_refl st : no_new_busy st st.
Proof. by split. Qed.

(** A baton that resumes an idle session of this database and principal. *)
Definition resumable (st : store) (b db p : string) : Prop :=
  exists s, verify st b = Some (id s, gen s) /\ sessions st !! id s = Some s /\
    busy s = false /\ dbName s = db /\ principal s = p.

Lemma Baton_idle st st1 db p s s' now' :
  handed st st1 db p s -> same_stream s s' -> let st2 := put st1 s' in
  no_new_busy st (fst (Baton st2 now' s')) /\ resumable (fst (Baton st2 now' s')) (snd (Baton st2 now' s')) db p.
Proof.
  intros [Hin Hb Hl Hg Hd Hp Hidle Hoth] Hs st2.
  destruct Hs as (Hid & Hgen & _ & _ & Hdb & Hpr & _ & _ & _ & _ & _).
  unfold Baton, no_new_busy, resumable. cbn [fst snd with_sessions sessions]. unfold st2, put. cbn [with_sessions sessions].
  rewrite Hid, Hgen, alter_insert_eq. split; [split|].
  - intros i s1. destruct (decide (i = id s)) as [->|Hne].
    + rewrite lookup_insert_eq. by intros [= <-].
    + rewrite lookup_insert_ne by done. by rewrite Hoth.
  - intros i s1 Hi Hbs. destruct (decide (i = id s)) as [->|Hne].
    + by rewrite (Hidle _ Hi) in Hbs.
    + rewrite lookup_insert_ne by done. by rewrite Hoth.
  - exists (set_use s' (gen s') false now'). cbn [set_use id gen busy dbName principal]. rewrite Hid, Hgen, lookup_insert_eq.
    split; [|by rewrite Hdb, Hpr]. exact (verify_mint (with_sessions (put st1 s') _) (id s) (gen s) Hl Hg).
Qed.

Lemma Close_idle st st1 db p s s' :
  handed st st1 db p s -> same_stream s s' ->
  no_new_busy st (fst (Close (put st1 s') s')) /\ exists t, snd (Close (put st1 s') s') = [t] /\ td_conn t = conn s.
Proof.
  intros [Hin Hb Hl Hg Hd Hp Hidle Hoth] Hs. pose proof Hs as (Hid & _ & Hcn & _).
  unfold Close. split.
  - unfold no_new_busy. rewrite sessions_closeLocked. unfold put. cbn [with_sessions sessions]. rewrite Hid. split.
    + intros i s1 [Hne Hi]%lookup_delete_Some. rewrite lookup_insert_ne in Hi by done. by rewrite Hoth in Hi.
    + intros i s1 Hi Hbs. destruct (decide (i = id s)) as [->|Hne]; [by rewrite (Hidle _ Hi) in Hbs|].
      rewrite lookup_delete_ne, lookup_insert_ne by done. by rewrite Hoth.
  - unfold closeLocked, put. cbn [with_sessions sessions]. rewrite lookup_insert_eq. eexists. split; [done|]. exact Hcn.
Qed.

(** The verdict on a response and the state it leaves. *)
Definition finalised (w w' : swork S) (resp : response) (db p : string) : Prop :=
  no_new_busy (store_ w) (store_ w') /\
  match payload_ resp with
  | PPipeline (Some b) _ | PCursor b _ => resumable (store_ w') b db p
  | PPipeline None _ => exists t, torn_ w' = torn_ w ++ [t]
  | _ => True
  end.

Lemma finalised_error w w' st msg db p :
  no_new_busy (store_ w) (store_ w') -> finalised w w' (writeErr st msg) db p.
Proof. by split. Qed.

Lemma writeGetError_plain x : exists st msg, writeGetError x = writeErr st msg.
Proof. destruct x; by eexists _, _. Qed.
Lemma writeStreamError_plain x : exists st msg, writeStreamError x = writeErr st msg.
Proof. destruct x as [[]|x]; [by eexists _, _..|apply writeGetError_plain]. Qed.
Lemma writeReadBodyErr_plain x : exists st msg, writeReadBodyErr x = writeErr st msg.
Proof. destruct x; by eexists _, _. Qed.

Lemma stream_refused w now db baton p lvl w1 x p' :
  stream h v w now db baton p lvl = (w1, Err x) -> finalised w w1 (writeStreamError x) db p'.
Proof.
  intros H. destruct (writeStreamError_plain x) as (st & msg & ->). apply finalised_error.
  split; intros i s Hi Hb.
  - destruct (stream_err _ _ _ _ _ _ _ _ i s H) as [H1 _]. by apply H1.
  - destruct (stream_err _ _ _ _ _ _ _ _ i s H) as [_ H2]. by apply H2.
Qed.

Lemma pipeline_admitted_finalises w now now' r db lvl w' resp :
  store_ok (store_ w) -> id_fresh (store_ w) ->
  pipeline_admitted e h v decode_pipeline w now now' r db lvl = (w', resp) ->
  finalised w w' resp db (Authz.Name (FromContext (q_principal r))).
Proof.
  intros Hok Hf. unfold pipeline_admitted. set (p := Authz.Name (FromContext (q_principal r))).
  destruct (readBody h (q_body r)) as [bytes|x]; [|intros [= <- <-];
    destruct (writeReadBodyErr_plain x) as (? & ? & ->); by apply finalised_error].
  destruct (decode_pipeline bytes) as [[baton reqs]|]; [|intros [= <- <-]; by apply finalised_error].
  destruct (stream h v w now db baton p lvl) as [w1 [s|x]] eqn:Es;
    [|intros [= <- <-]; by eapply stream_refused].
  apply stream_ok in Es as [Hh Ht]; [|done|done].
  pose proof (run_requests_stream e (conn_ops v) reqs (on_conn w1 s) s false) as Hss.
  destruct (run_requests _ _ _ _ _ _) as [s' out]. cbn [fst] in Hss. unfold finish.
  destruct (Close_idle _ _ _ _ _ _ Hh Hss) as [Hc (t & Ht' & _)].
  destruct (Baton_idle _ _ _ _ _ _ now' Hh Hss) as [Hb Hres].
  destruct (Close _ _) as [st' ts]. cbn [fst snd] in *. subst ts.
  destruct out as [[[db' results] []]|].
  - intros [= <- <-]. split; [done|]. exists t. cbn [payload_ with_store torn_ left_conn with_mode with_sv]. by rewrite Ht.
  - destruct (Baton _ _ _) as [st2 b]. intros [= <- <-]. by split.
  - intros [= <- <-]. by split.
Qed.

Lemma cursor_admitted_finalises w now now' n r db lvl w' resp :
  store_ok (store_ w) -> id_fresh (store_ w) ->
  cursor_admitted e h v decode_cursor w now now' n r db lvl = (w', resp) ->
  finalised w w' resp db (Authz.Name (FromContext (q_principal r))).
Proof.
  intros Hok Hf. unfold cursor_admitted. set (p := Authz.Name (FromContext (q_principal r))).
  destruct (readBody h (q_body r)) as [bytes|x]; [|intros [= <- <-];
    destruct (writeReadBodyErr_plain x) as (? & ? & ->); by apply finalised_error].
  destruct (decode_cursor bytes) as [[baton [b|]]|]; [|intros [= <- <-]; by apply finalised_error..].
  destruct (stream h v w now db baton p lvl) as [w1 [s|x]] eqn:Es;
    [|intros [= <- <-]; by eapply stream_refused].
  apply stream_ok in Es as [Hh Ht]; [|done|done].
  assert (Hput : put (store_ w1) s = store_ w1).
  { unfold put. rewrite (insert_id _ _ _ (ha_in _ _ _ _ _ Hh)). by destruct (store_ w1). }
  destruct (Baton_idle _ _ _ _ _ s now' Hh ltac:(done)) as [Hb Hres]. rewrite Hput in Hb, Hres.
  cbv zeta. unfold PeekBaton. destruct n as [|k].
  - intros [= <- <-]. by split.
  - destruct (cursor_batch _ _ _ _ _ _) as [[db' wr]|]; intros [= <- <-]; by split.
Qed.

Lemma admitted_finalises (run : swork S -> level -> swork S * response) r db now w w' resp :
  (forall w0 lvl w1 rp, store_ w0 = store_ w -> torn_ w0 = torn_ w -> run w0 lvl = (w1, rp) ->
     finalised w0 w1 rp db (Authz.Name (FromContext (q_principal r)))) ->
  admitted h v run r db now w = (w', resp) ->
  finalised w w' resp db (Authz.Name (FromContext (q_principal r))).
Proof.
  intros Hrun. unfold admitted, HttpApi.authorize. destruct (negb (String.eqb _ _)); [intros [= <- <-]; by apply finalised_error|].
  destruct (negb (sessions_on h)); [intros [= <- <-]; by apply finalised_error|].
  destruct (CanRead _); [|intros [= <- <-]; by apply finalised_error]. unfold meter.
  assert (Hgo : forall x lvl (metered : bool) w2 rp, run (with_sv w x) lvl = (w2, rp) ->
    finalised w (with_sv w2 (done metered db (sv w2))) rp db (Authz.Name (FromContext (q_principal r)))).
  { intros x lvl metered w2 rp Hr. by apply (Hrun (with_sv w x) lvl w2 rp). }
  destruct (w_lim (sv w)) as [l|]; [destruct (Allow _ _ _ _) as [[] l']|].
  - destruct (run _ _) as [w2 rp] eqn:Er. intros [= <- <-]. by eapply Hgo.
  - intros [= <- <-]. by apply finalised_error.
  - intros [= <- <-]. by apply finalised_error.
  - destruct (run _ _) as [w2 rp] eqn:Er. intros [= <- <-]. by eapply Hgo.
Qed.

(** C7: (stream finalisation) However a pipeline or a cursor request ends (a normal answer, a
    [close], a refusal, a panic inside a statement or a batch), it leaves no session in
    flight that was not in flight before, and touches no other request's: the session it
    took is either handed to teardown or idle again.  The baton in the response, also the
    one the cursor announces before it runs, resumes exactly that idle session: its
    database, its principal, its current generation. *)
Theorem streams_are_finalised r db now now' n w w' resp :
  store_ok (store_ w) -> id_fresh (store_ w) ->
  (handlePipeline e h v decode_pipeline r db now now' w = (w', resp) \/
   handleCursor e h v decode_cursor r db now now' n w = (w', resp)) ->
  no_new_busy (store_ w) (store_ w') /\
  match payload_ resp with
  | PPipeline (Some b) _ | PCursor b _ =>
      resumable (store_ w') b db (Authz.Name (FromContext (q_principal r)))
  | PPipeline None _ => exists t, torn_ w' = torn_ w ++ [t]
  | _ => True
  end.
Proof.
  intros Hok Hf [H|H].
  - apply (admitted_finalises _ _ _ _ _ _ _) in H; [exact H|]. intros w0 lvl w1 rp Hst Ht Hr.
    eapply pipeline_admitted_finalises; rewrite ?Hst; done.
  - apply (admitted_finalises _ _ _ _ _ _ _) in H; [exact H|]. intros w0 lvl w1 rp Hst Ht Hr.
    eapply cursor_admitted_finalises; rewrite ?Hst; done.
Qed.

(** (capability of a stream) A stream opened without a baton runs on a read-only
    connection exactly when its principal may not write, and is attach-enabled exactly when
    the switch is on, the principal may write and is a named server admin; a resumed stream
    keeps the mode and the attach flag it was opened with. *)
Theorem stream_capability w now db baton p lvl w1 s :
  id_fresh (store_ w) ->
  stream h v w now db baton p lvl = (w1, Ok s) ->
  match baton with
  | None | Some ""%string =>
      readOnly s = negb (CanWrite lvl) /\
      (attach s = true <-> attachAllowed h = true /\ CanWrite lvl = true /\ p ∈ serverAdmins h)
  | Some b =>
      exists i s0, verify (store_ w) b = Some (i, gen s0) /\ sessions (store_ w) !! i = Some s0 /\
        readOnly s = readOnly s0 /\ attach s = attach s0
  end.
Proof.
  intros Hf. unfold stream. cbv zeta.
  assert (Hopen : match get (base_env v) db with
    | Err x => (w, Err (SGet x))
    | Ok _ =>
        match Open_session v (store_ w) now db p (negb (CanWrite lvl))
                (attachAllowed h && CanWrite lvl && bool_decide (p ∈ serverAdmins h)) with
        | (st, cs, Err x) => (SWork (fold_left give_back cs (sv w)) st (torn_ w) (modes_ w), Err x)
        | (st, _, Ok (s, c)) => (with_mode (SWork (add_ref (sv w) 1) st (torn_ w) (modes_ w)) (conn s) c, Ok s)
        end
    end = (w1, Ok s) -> readOnly s = negb (CanWrite lvl) /\
      (attach s = true <-> attachAllowed h = true /\ CanWrite lvl = true /\ p ∈ serverAdmins h)).
  { destruct (get _ _); [|done]. destruct (Open_session _ _ _ _ _ _ _) as [[st cs] [[s' c']|x]] eqn:E; [|done].
    intros [= <- <-]. apply Open_session_ok in E as (_ & -> & ->); [|done]. split; [done|].
    rewrite negb_involutive, !andb_true_iff, bool_decide_eq_true. tauto. }
  destruct baton as [[|c b]|]; [apply Hopen| |apply Hopen]. cbn [String.eqb].
  destruct (Resume _ _ _ _ _) as [[st ts] [s'|x]] eqn:E; [|done]. intros [= <- <-].
  apply Resume_ok in E as (i & s0 & Hv & Hi & _ & _ & _ & _ & _ & -> & _). by exists i, s0.
Qed.
(** *** What a stream may do to the content *)

(** A stream of this principal on this database, opened for writing and still there. *)
Definition writer_stream (st : store) (db p : string) : Prop :=
  exists i s, sessions st !! i = Some s /\ dbName s = db /\ principal s = p /\ readOnly s = false.

Lemma give_back_db (cs : list pconn) : forall x : world S, w_db (fold_left give_back cs x) = w_db x.
Proof. induction cs as [|c cs IH]; intros x; [done|]. cbn [fold_left]. by rewrite IH. Qed.
Lemma stream_db w now db baton p lvl w1 res : stream h v w now db baton p lvl = (w1, res) -> w_db (sv w1) = w_db (sv w).
Proof.
  unfold stream. cbv zeta. destruct baton as [b|]; [destruct (String.eqb b "")|].
  2:{ destruct (Resume _ _ _ _ _) as [[st ts] [s'|x]]; by intros [= <- <-]. }
  all: destruct (get _ _); [|by intros [= <- <-]]; destruct (Open_session _ _ _ _ _ _ _) as [[st cs] [[s' c']|x]];
    intros [= <- <-]; [done|apply give_back_db].
Qed.
Lemma Open_session_conn st now db p ro aa st' cs s c :
  Open_session v st now db p ro aa = (st', cs, Ok (s, c)) ->
  readOnly s = ro /\ rand_id v = Some (id s) /\ sessions st' = <[id s := s]> (sessions st) /\ exists c0, pin v = Ok (conn s, c0) /\
    Open_mode (pragma_on (base_env v)) (up1 (base_env v)) (up2 (base_env v)) ro aa c0 = (c, Ok tt).
Proof.
  unfold Open_session, Open_reserve. destruct (_ >=? _); [done|]. destruct (pin v) as [[cn c0]|]; [|done].
  destruct (Open_mode _ _ _ _ _ _) as [c1 [[]|]] eqn:Em; [|done]. destruct (rand_id v) as [i|]; [|done].
  unfold Open_insert. intros [= <- _ <- <-]. split; [done|]. split; [done|]. split; [done|]. by exists c0.
Qed.

(** Where the session of a stream comes from: opened for this request, on a connection that
    was pinned and put in its mode, or taken from the store as it was. *)
Lemma stream_origin w now db baton p lvl w1 s : store_ok (store_ w) -> stream h v w now db baton p lvl = (w1, Ok s) ->
  sessions (store_ w1) = <[id s := s]> (sessions (store_ w)) /\
  ((exists aa c0 c, readOnly s = negb (CanWrite lvl) /\ rand_id v = Some (id s) /\ pin v = Ok (conn s, c0) /\
      Open_mode (pragma_on (base_env v)) (up1 (base_env v)) (up2 (base_env v)) (readOnly s) aa c0 = (c, Ok tt) /\
      modes_ w1 = <[conn s := c]> (modes_ w)) \/
   (exists s0, sessions (store_ w) !! id s = Some s0 /\ dbName s0 = db /\ principal s0 = p /\
      readOnly s = readOnly s0 /\ conn s = conn s0 /\ modes_ w1 = modes_ w)).
Proof.
  intros Hok. unfold stream. cbv zeta. destruct baton as [b|]; [destruct (String.eqb b "")|].
  2:{ destruct (Resume _ _ _ _ _) as [[st ts] [s'|x]] eqn:E; [|done]. intros [= <- <-].
      apply Resume_ok in E as (i & s0 & _ & Hi & _ & _ & Hd & Hp & -> & -> & ->).
      destruct (so_ids _ Hok _ _ Hi) as [Hid _]. cbn [set_use id conn readOnly with_store store_ modes_ with_sessions sessions].
      rewrite Hid. split; [done|]. right. by exists s0. }
  all: destruct (get _ _); [|done]; destruct (Open_session _ _ _ _ _ _ _) as [[st cs] [[s' c]|x]] eqn:E; [|done];
    intros [= <- ->]; apply Open_session_conn in E as (Hro & Hr & Hs & c0 & Hpin & Hm); (split; [exact Hs|]); left;
    eexists _, c0, c; (split; [exact Hro|]); (split; [exact Hr|]); (split; [exact Hpin|]); (split; [|reflexivity]); rewrite Hro; exact Hm.
Qed.

(** ** Pinned connections and their modes *)

(** The sessions are filed under their ids; every session has a connection of its own, and
    that of a read-only one compiles its statements under the write-denying authorizer. *)
Record pinned_ok (st : store) (m : gmap nat pconn) : Prop := {
  pk_ids : store_ok st;
  pk_inj : forall i j s t, sessions st !! i = Some s -> sessions st !! j = Some t -> conn s = conn t -> i = j;
  pk_ro : forall i s, sessions st !! i = Some s -> readOnly s = true -> exists c, m !! conn s = Some c /\ guarded c
}.
(** [Handle.Conn] pins a connection of the pool, in the base mode, for this caller alone; an
    id is 16 bytes. *)
Definition pin_fresh (st : store) : Prop :=
  (forall cn c, pin v = Ok (cn, c) -> c = base_conn /\ forall i s, sessions st !! i = Some s -> conn s <> cn) /\
  forall i, rand_id v = Some i -> length i = idLen.

Lemma pinned_none m st : sessions st = ∅ -> pinned_ok st m.
Proof. intros H. constructor; [constructor|..]; intros *; rewrite H; intros Hi; exact (False_ind _ (lookup_empty_Some _ _ Hi)). Qed.

(** Sessions only leave or change within themselves, and the mode of one of them changes. *)
Definition shrinks (st st' : store) : Prop := forall j t, sessions st' !! j = Some t ->
  exists t0, sessions st !! j = Some t0 /\ id t = id t0 /\ conn t = conn t0 /\ readOnly t = readOnly t0.
Lemma shrinks_pinned st st' m : shrinks st st' -> pinned_ok st m -> pinned_ok st' m.
Proof.
  intros Hs [Ho Hi Hr]. constructor.
  - constructor. intros i s (s0 & Hs0 & -> & _)%Hs. by apply (so_ids _ Ho).
  - intros i j s t (s0 & Hs0 & _ & -> & _)%Hs (t0 & Ht0 & _ & -> & _)%Hs. by apply Hi.
  - intros i s (s0 & Hs0 & _ & -> & ->)%Hs. by apply (Hr i).
Qed.
Lemma mode_pinned st m i s c : pinned_ok st m -> sessions st !! i = Some s -> (readOnly s = true -> guarded c) ->
  pinned_ok st (<[conn s := c]> m).
Proof.
  intros [Ho Hi Hr] Hs Hg. constructor; [exact Ho|exact Hi|]. intros j t Ht Hro. destruct (decide (conn t = conn s)) as [E|E].
  - assert (j = i) as -> by (by eapply Hi). rewrite Hs in Ht. injection Ht as <-. exists c. rewrite lookup_insert_eq. auto.
  - rewrite lookup_insert_ne by done. by apply (Hr j).
Qed.
Lemma shrinks_trans st1 st2 st3 : shrinks st1 st2 -> shrinks st2 st3 -> shrinks st1 st3.
Proof. intros H1 H2 j t (t0 & (t1 & ? & ? & ? & ?)%H1 & ? & ? & ?)%H2. exists t1. split; [done|]. split; [|split]; congruence. Qed.
Lemma shrinks_put st s s' : sessions st !! id s = Some s -> same_stream s s' -> shrinks st (put st s').
Proof.
  intros Hs (Hid & _ & Hc & _ & _ & _ & Hro & _) j t. unfold put. cbn [with_sessions sessions]. rewrite Hid.
  destruct (decide (j = id s)) as [->|Hne].
  - rewrite lookup_insert_eq. intros [= <-]. by exists s.
  - rewrite lookup_insert_ne by done. intros Ht. by exists t.
Qed.
Lemma shrinks_Baton st now s : shrinks st (fst (Baton st now s)).
Proof.
  intros j t. unfold Baton. cbn [fst with_sessions sessions]. destruct (decide (j = id s)) as [->|Hne].
  - rewrite lookup_alter_eq. intros (t0 & Ht & ->)%fmap_Some. by exists t0.
  - rewrite lookup_alter_ne by done. intros Ht. by exists t.
Qed.
Lemma shrinks_Close st s : shrinks st (fst (Close st s)).
Proof. intros j t. unfold Close. rewrite sessions_closeLocked. intros [_ Ht]%lookup_delete_Some. by exists t. Qed.

(** *** Under SQLite *)

Section Content.
Context {D : Type} (lib : sqlite S) (content : S -> D) (clean : S -> Prop).
Hypothesis laws : sqlite_laws lib content clean.
Hypothesis ops_are : drives (pragma_on (base_env v)) lib (conn_ops v).
Hypothesis reads_on : pragma_on (base_env v) "ON" = true.

(** The stream a request is handed is one of the store's own, in its mode. *)
Lemma stream_pinned w now db baton p lvl w1 s : pinned_ok (store_ w) (modes_ w) -> pin_fresh (store_ w) ->
  stream h v w now db baton p lvl = (w1, Ok s) ->
  pinned_ok (store_ w1) (modes_ w1) /\ sessions (store_ w1) !! id s = Some s /\ (readOnly s = true -> guarded (on_conn w1 s).2) /\
  (readOnly s = true \/ CanWrite lvl = true \/ writer_stream (store_ w) db p).
Proof using reads_on.
  intros Hp [Hf Hrand] Hs. apply stream_origin in Hs as [Hss H]; [|apply Hp].
  assert (Hin : sessions (store_ w1) !! id s = Some s) by (rewrite Hss; apply lookup_insert_eq).
  assert (Hw : pinned_ok (store_ w1) (modes_ w1) /\ (readOnly s = true \/ CanWrite lvl = true \/ writer_stream (store_ w) db p)).
  { destruct H as [(aa & c0 & c & Hro & Hid & Hpin & Hm & Hmo)|(s0 & H0 & Hd & Hpr & Hro & Hc & Hmo)].
    - destruct (Hf _ _ Hpin) as [-> Hnew]. split; [|rewrite Hro; destruct (CanWrite lvl); auto].
      assert (Hg : readOnly s = true -> guarded c).
      { intros E. rewrite E in Hm. unfold Open_mode in Hm. by eapply SetConnMode_readonly in Hm as [? _]. }
      rewrite Hmo. constructor.
      + constructor. intros i t. rewrite Hss, lookup_insert_Some. intros [[<- <-]|[? Ht]]; [by split; [|apply Hrand]|].
        by apply (so_ids _ (pk_ids _ _ Hp)).
      + intros i j t u. rewrite Hss, !lookup_insert_Some. intros [[<- <-]|[? Ht]] [[<- <-]|[? Hu]] E; [done|..].
        * by destruct (Hnew _ _ Hu).
        * by destruct (Hnew _ _ Ht).
        * by eapply (pk_inj _ _ Hp).
      + intros i t. rewrite Hss, lookup_insert_Some. intros [[<- <-]|[? Ht]] E.
        * exists c. rewrite lookup_insert_eq. auto.
        * rewrite lookup_insert_ne by (intros Heq; by destruct (Hnew _ _ Ht)). by apply (pk_ro _ _ Hp i).
    - split.
      + rewrite Hmo. eapply shrinks_pinned; [|exact Hp]. intros j t. rewrite Hss, lookup_insert_Some.
        intros [[<- <-]|[? Ht]]; [|by exists t]. exists s0. by destruct (so_ids _ (pk_ids _ _ Hp) _ _ H0) as [-> _].
      + rewrite Hro. destruct (readOnly s0) eqn:E; [by left|right; right]. by exists (id s), s0. }
  destruct Hw as [Hp1 Hcap]. split; [done|]. split; [done|]. split; [|done].
  intros E. destruct (pk_ro _ _ Hp1 _ _ Hin E) as (c & Hc & Hg). unfold on_conn. by rewrite Hc.
Qed.
Lemma stream_err_pinned w now db baton p lvl w1 x : pinned_ok (store_ w) (modes_ w) ->
  stream h v w now db baton p lvl = (w1, Err x) -> pinned_ok (store_ w1) (modes_ w1).
Proof.
  intros Hp H. assert (Hm : modes_ w1 = modes_ w).
  { revert H. unfold stream. cbv zeta. destruct baton as [b|]; [destruct (String.eqb b "")|].
    2:{ destruct (Resume _ _ _ _ _) as [[st ts] [s'|y]]; [done|]. by intros [= <- _]. }
    all: destruct (get _ _); [|by intros [= <- _]]; destruct (Open_session _ _ _ _ _ _ _) as [[st cs] [[s' c']|y]]; [done|];
      by intros [= <- _]. }
  rewrite Hm. eapply shrinks_pinned; [|exact Hp]. intros j t Ht.
  destruct (stream_err _ _ _ _ _ _ _ _ j t H) as [Hj _]. exists t. auto.
Qed.

(** What a request may do: to the content, and to the connections. *)
Definition stream_effect (w w' : swork S) (db p : string) (lvl : level) : Prop :=
  pinned_ok (store_ w') (modes_ w') /\
  (content (w_db (sv w')) = content (w_db (sv w)) \/ CanWrite lvl = true \/ writer_stream (store_ w) db p).

(** What the statements of a request leave, run on the session's connection. *)
Lemma run_on_conn w w1 s db p lvl y :
  (forall P, conn_keeps (conn_ops v) P -> P (on_conn w1 s) -> P y) ->
  w_db (sv w1) = w_db (sv w) -> clean (w_db (sv w)) -> (readOnly s = true -> guarded (on_conn w1 s).2) ->
  (readOnly s = true \/ CanWrite lvl = true \/ writer_stream (store_ w) db p) ->
  (readOnly s = true -> guarded y.2) /\ (content y.1 = content (w_db (sv w)) \/ CanWrite lvl = true \/ writer_stream (store_ w) db p).
Proof using laws ops_are.
  intros Hrun Hdb Hcl Hg Hcap.
  assert (Hro : readOnly s = true -> reader content clean (content (w_db (sv w))) y).
  { intros E. apply Hrun; [eapply drives_keeps; [by apply reader_survives|exact ops_are]|].
    split; [|split; [|by apply Hg]]; unfold on_conn; cbn [fst]; by rewrite Hdb. }
  split; [by intros (_ & _ & ?)%Hro|]. destruct Hcap as [E|?]; [left|by right]. by apply Hro.
Qed.

(** The session's own turn ends: its connection is as it was left, its entry changed or gone. *)
Lemma left_pinned (w1 : swork S) s s' y st' : pinned_ok (store_ w1) (modes_ w1) -> sessions (store_ w1) !! id s = Some s -> same_stream s s' ->
  (readOnly s = true -> guarded y.2) -> shrinks (put (store_ w1) s') st' -> pinned_ok st' (modes_ (left_conn w1 s' y)).
Proof.
  intros Hp Hin Hss Hg Hsh. pose proof Hss as (_ & _ & Hc & _). cbn [left_conn with_mode modes_]. rewrite Hc.
  eapply shrinks_pinned; [eapply shrinks_trans; [by apply (shrinks_put _ s)|exact Hsh]|]. by eapply mode_pinned.
Qed.

Lemma pipeline_effect w now now' r db lvl w' resp :
  pinned_ok (store_ w) (modes_ w) -> pin_fresh (store_ w) -> clean (w_db (sv w)) ->
  pipeline_admitted e h v decode_pipeline w now now' r db lvl = (w', resp) ->
  stream_effect w w' db (Authz.Name (FromContext (q_principal r))) lvl.
Proof using laws ops_are reads_on.
  intros Hp Hf Hcl. unfold pipeline_admitted, stream_effect. set (p := Authz.Name _).
  destruct (readBody h (q_body r)) as [bytes|x]; [|intros [= <- <-]; by auto].
  destruct (decode_pipeline bytes) as [[baton reqs]|]; [|intros [= <- <-]; by auto].
  destruct (stream h v w now db baton p lvl) as [w1 [s|x]] eqn:Es; pose proof (stream_db _ _ _ _ _ _ _ _ Es) as Hdb.
  2:{ intros [= <- <-]. rewrite Hdb. split; [by eapply stream_err_pinned|by left]. }
  apply stream_pinned in Es as (Hp1 & Hin & Hg & Hcap); [|done..].
  pose proof (run_requests_stream e (conn_ops v) reqs (on_conn w1 s) s false) as Hss.
  destruct (run_requests e (conn_ops v) (on_conn w1 s) s false reqs) as [s' out] eqn:Er. cbn [fst] in Hss.
  unfold finish. destruct out as [[[y results] closed]|].
  - destruct (run_on_conn w w1 s db p lvl y) as [Hgy Hc]; [|done..|].
    { intros P Hk HP. by eapply run_requests_keeps in Er. }
    destruct closed.
    + pose proof (shrinks_Close (put (store_ w1) s') s') as Hsh. destruct (Close _ _) as [st' ts]. intros [= <- <-].
      split; [|exact Hc]. by eapply left_pinned.
    + pose proof (shrinks_Baton (put (store_ w1) s') now' s') as Hsh. destruct (Baton _ _ _) as [st' b]. intros [= <- <-].
      split; [|exact Hc]. by eapply left_pinned.
  - pose proof (shrinks_Close (put (store_ w1) s') s') as Hsh. destruct (Close _ _) as [st' ts]. intros [= <- <-].
    cbn [with_store sv store_ modes_]. rewrite Hdb. split; [|by left].
    eapply shrinks_pinned; [eapply shrinks_trans; [by apply (shrinks_put _ s)|exact Hsh]|exact Hp1].
Qed.

Lemma cursor_effect w now now' n r db lvl w' resp :
  pinned_ok (store_ w) (modes_ w) -> pin_fresh (store_ w) -> clean (w_db (sv w)) ->
  cursor_admitted e h v decode_cursor w now now' n r db lvl = (w', resp) ->
  stream_effect w w' db (Authz.Name (FromContext (q_principal r))) lvl.
Proof using laws ops_are reads_on.
  intros Hp Hf Hcl. unfold cursor_admitted, stream_effect. set (p := Authz.Name _).
  destruct (readBody h (q_body r)) as [bytes|x]; [|intros [= <- <-]; by auto].
  destruct (decode_cursor bytes) as [[baton [b|]]|]; [|intros [= <- <-]; by auto..].
  destruct (stream h v w now db baton p lvl) as [w1 [s|x]] eqn:Es; pose proof (stream_db _ _ _ _ _ _ _ _ Es) as Hdb.
  2:{ intros [= <- <-]. rewrite Hdb. split; [by eapply stream_err_pinned|by left]. }
  apply stream_pinned in Es as (Hp1 & Hin & Hg & Hcap); [|done..]. cbv zeta.
  pose proof (shrinks_Baton (store_ w1) now' s) as Hsh.
  assert (Hput : put (store_ w1) s = store_ w1) by (unfold put; rewrite (insert_id _ _ _ Hin); by destruct (store_ w1)).
  assert (Hidle : pinned_ok (fst (Baton (store_ w1) now' s)) (modes_ w1) /\ content (w_db (sv w1)) = content (w_db (sv w)))
    by (rewrite Hdb; split; [by eapply shrinks_pinned|done]).
  destruct n as [|k]; [intros [= <- <-]; split; [apply Hidle|left; apply Hidle]|].
  destruct (cursor_batch _ _ _ _ _ _) as [[y wr]|] eqn:Er; intros [= <- <-]; [|split; [apply Hidle|left; apply Hidle]].
  destruct (run_on_conn w w1 s db p lvl y) as [Hgy Hc]; [|done..|].
  { intros P Hk HP. by eapply cursor_batch_keeps in Er. }
  split; [|exact Hc]. cbn [with_store store_ left_conn with_mode with_sv modes_].
  apply (left_pinned w1 s s y (fst (Baton (store_ w1) now' s)) Hp1 Hin); [done|done|]. by rewrite Hput.
Qed.

(** (streams and capability) A pipeline or cursor request is answered with success only to
    a principal that may read the database, and changes its content only for one that may
    write it, or through a stream this principal opened for writing; the connections of
    the streams stay in their modes. *)
Theorem streams_are_gated r db now now' n w w' resp :
  let p := FromContext (q_principal r) in let lvl := Level (policy_ h) (Some p) db in
  pinned_ok (store_ w) (modes_ w) -> pin_fresh (store_ w) -> clean (w_db (sv w)) ->
  (handlePipeline e h v decode_pipeline r db now now' w = (w', resp) \/
   handleCursor e h v decode_cursor r db now now' n w = (w', resp)) ->
  (status resp < 400 -> CanRead lvl = true) /\ pinned_ok (store_ w') (modes_ w') /\
  (content (w_db (sv w')) <> content (w_db (sv w)) -> CanRead lvl = true /\ (CanWrite lvl = true \/ writer_stream (store_ w) db (Authz.Name p))).
Proof using laws ops_are reads_on.
  intros p lvl Hp Hf Hcl Hrun.
  assert (Hframe : forall run, (forall w0 w1 rp, store_ w0 = store_ w -> modes_ w0 = modes_ w -> w_db (sv w0) = w_db (sv w) ->
      run w0 lvl = (w1, rp) -> stream_effect w0 w1 db (Authz.Name p) lvl) ->
    admitted h v run r db now w = (w', resp) -> (status resp < 400 -> CanRead lvl = true) /\ pinned_ok (store_ w') (modes_ w') /\
    (content (w_db (sv w')) <> content (w_db (sv w)) -> CanRead lvl = true /\ (CanWrite lvl = true \/ writer_stream (store_ w) db (Authz.Name p)))).
  { intros run Hr. unfold admitted, HttpApi.authorize. fold p lvl.
    destruct (negb (String.eqb _ _)); [by intros [= <- <-]|]. destruct (negb (sessions_on h)); [by intros [= <- <-]|].
    destruct (CanRead lvl); [|by intros [= <- <-]]. unfold meter. intros H. split; [done|]. revert H.
    destruct (w_lim (sv w)) as [l|]; [destruct (Allow _ _ _ _) as [[] l']|];
      try (intros [= <- <-]; by split).
    all: destruct (run _ _) as [w2 rp] eqn:E; intros [= <- <-]; apply Hr in E as [Hp2 E]; [|done..]; (split; [exact Hp2|]);
      intros Hne; (split; [done|]); destruct E as [E|E]; [by destruct Hne|exact E]. }
  destruct Hrun as [H|H]; revert H; apply Hframe; intros w0 w1 rp Hst Hm Hdb E.
  - eapply pipeline_effect; rewrite ?Hst, ?Hm, ?Hdb; done.
  - eapply cursor_effect; rewrite ?Hst, ?Hm, ?Hdb; done.
Qed.
End Content.
End Finalise.

(** A live stream outlives its principal's capability: the level of the resuming request
    is not compared with the stream's, so a principal reduced to read-only goes on writing
    on the stream it opened before, up to the stream's lifetime. *)
Lemma downgraded_principal_keeps_writer_stream {S} h (v : stream_env S) w now db b p s0 i :
  verify (store_ w) b = Some (i, gen s0) -> sessions (store_ w) !! i = Some s0 -> busy s0 = false ->
  reapable (store_ w) now s0 = false -> dbName s0 = db -> principal s0 = p -> readOnly s0 = false ->
  b <> ""%string ->
  exists w1 s, stream h v w now db (Some b) p Authz.ReadOnly = (w1, Ok s) /\ readOnly s = false.
Proof.
  intros Hv Hi Hb Hr <- <- Hro Hne. unfold stream. rewrite (proj2 (String.eqb_neq b "")) by done.
  unfold Resume. rewrite Hv, Hi, Z.eqb_refl, Hb, Hr, !String.eqb_refl. cbn [negb]. by eexists _, _.
Qed.

(** ** Witnesses *)

Import DemoFloat.

Definition demo_id : list byte := replicate idLen Byte.x07.
Definition demo_senv : stream_env (list string) :=
  SEnv (list string) demo_env (Ok (3%nat, base_conn)) (Some demo_id)
    (demo_conn documented_bool).
Definition demo_swork : swork (list string) := SWork demo_world (NewStore (bytes_of "key") 0 0 0) [] ∅.
(** The body names a statement to execute on a new stream. *)
Definition demo_pipeline (b : list byte) : result string (option string * list streamRequest) :=
  Ok (None, [StreamRequest "execute" (Some (demo_stmt (string_of b))) None None None []]).
Definition demo_cursor (b : list byte) : result string (option string * option hBatch) := Ok (None, None).

Definition demo_pipe (who : string) : swork (list string) * response :=
  handlePipeline (NewEngine 0 0) demo_handler demo_senv demo_pipeline
    (demo_request who "INSERT INTO t VALUES (1)") "app" 0 5 demo_swork.

Lemma demo_store_ok : store_ok (store_ demo_swork).
Proof. constructor. intros i s. cbn. by rewrite lookup_empty. Qed.
Lemma demo_id_fresh : id_fresh demo_senv (store_ demo_swork).
Proof. intros i [= <-]. by split. Qed.

Lemma streams_are_finalised_witness :
  w_db (sv (demo_pipe "bob").1) = ["written"%string] /\
  exists b rs, payload_ (demo_pipe "bob").2 = PPipeline (Some b) rs /\
    resumable (store_ (demo_pipe "bob").1) b "app" "bob".
Proof.
  split; [vm_compute; reflexivity|].
  destruct (demo_pipe "bob") as [w' resp] eqn:E.
  destruct (streams_are_finalised (NewEngine 0 0) demo_handler demo_senv demo_pipeline demo_cursor
    (demo_request "bob" "INSERT INTO t VALUES (1)") "app" 0 5 0 demo_swork w' resp
    demo_store_ok demo_id_fresh (or_introl E)) as [_ H].
  assert (Hp : match payload_ (demo_pipe "bob").2 with PPipeline (Some _) _ => true | _ => false end = true)
    by (vm_compute; reflexivity).
  rewrite E in Hp. cbn [snd] in Hp. cbn [fst snd]. destruct (payload_ resp) as [| | |[b|] rs| |]; try discriminate Hp.
  exists b, rs. split; [reflexivity|exact H].
Defined.

Lemma stream_capability_witness :
  exists w1 s, stream demo_handler demo_senv demo_swork 0 "app" None "bob" Authz.ReadWrite = (w1, Ok s) /\
    readOnly s = false /\ attach s = true.
Proof.
  destruct (stream demo_handler demo_senv demo_swork 0 "app" None "bob" Authz.ReadWrite) as [w1 [s|x]] eqn:E;
    [|vm_compute in E; discriminate E].
  exists w1, s. split; [reflexivity|].
  destruct (stream_capability demo_handler demo_senv demo_swork 0 "app" None "bob" Authz.ReadWrite w1 s demo_id_fresh E) as [Hr Ha].
  split; [exact Hr|]. apply Ha. split; [reflexivity|]. split; [reflexivity|]. set_solver.
Defined.
