(* ===== verification/Meta.v ===== *)
(** * meta: the server's own store

    [src/meta/meta.go], [schema.sql].  The store is a SQLite database of four tables; a
    table is the list of its rows in insertion order and a method is the meaning of the
    statement it runs, constraints included.  Any statement may fail in the driver: [io] is
    its outcome, and a failed statement changes nothing.  The JSON text of a database
    specification is a parameter ([encode], [decode]). *)
From S2P Require Import Prelude GoStd.
From stdpp Require Import sorting.
#[local] Open Scope Z_scope.

Inductive merr : Type := MetaErr (op : string).

Record dbrow := DBRow { d_name : string; d_spec : string; d_created : Z }.
Record enrolled_row := ERow { er_name : string; er_key : string; er_created : Z; er_seen : option Z }.
Record code := Code { c_hash : string; c_created : Z; c_expires : Z; c_used : option Z }.
Record AuditEntry := AuditRow { At : Z; Principal : string; Action : string; DB : string; Detail : string }.

(** The struct the listing returns; [LastSeen] is [COALESCE(last_seen, created_at)]. *)
Record Enrolled := MkEnrolled { Name : string; Key : string; CreatedAt : Z; LastSeen : Z }.

Record store := Store {
  databases : list dbrow;
  enrolled : list enrolled_row;
  enroll_codes : list code;
  audit : list AuditEntry
}.
Definition empty_store : store := Store [] [] [] [].

Definition set_databases (s : store) (l : list dbrow) : store := Store l (enrolled s) (enroll_codes s) (audit s).
Definition set_enrolled (s : store) (l : list enrolled_row) : store := Store (databases s) l (enroll_codes s) (audit s).
Definition set_codes (s : store) (l : list code) : store := Store (databases s) (enrolled s) l (audit s).
Definition set_audit (s : store) (l : list AuditEntry) : store := Store (databases s) (enrolled s) (enroll_codes s) l.

(** A statement: its effect if the driver ran it. *)
Definition exec {A} (io : bool) (op : string) (a : A) : result merr A :=
  if io then Ok a else Err (MetaErr op).

Lemma exec_ok {A} io op (a b : A) : exec io op a = Ok b <-> io = true /\ a = b.
Proof. destruct io; cbn; [|by split; [|intros []]]. split; [by intros [= ->]|by intros [_ ->]]. Qed.

(** ** The databases table *)

Definition by_name (a b : dbrow) : Prop := String.leb (d_name a) (d_name b) = true.
#[export] Instance by_name_dec a b : Decision (by_name a b).
Proof. unfold by_name. apply _. Defined.
#[export] Instance by_name_total : Total by_name.
Proof. intros a b. unfold by_name. apply String.leb_total. Qed.

Section Databases.
Context {A : Type} (encode : A -> option string) (decode : string -> option A) (spec_name : A -> string).

(** An entry that no longer decodes, or decodes to another name, is skipped. *)
Definition decode_row (r : dbrow) : option A :=
  match decode (d_spec r) with
  | Some db => if String.eqb (spec_name db) (d_name r) then Some db else None
  | None => None
  end.
Definition Databases (io : bool) (s : store) : result merr (list A) :=
  exec io "list databases" (omap decode_row (merge_sort by_name (databases s))).

Definition upsert (name spec : string) (now : Z) (l : list dbrow) : list dbrow :=
  if existsb (fun r => String.eqb (d_name r) name) l then
    map (fun r => if String.eqb (d_name r) name then DBRow name spec (d_created r) else r) l
  else l ++ [DBRow name spec now].

Definition Put (io : bool) (now : Z) (s : store) (db : A) : result merr store :=
  match encode db with
  | None => Err (MetaErr "encode spec")
  | Some spec => exec io "put" (set_databases s (upsert (spec_name db) spec now (databases s)))
  end.

Definition Delete (io : bool) (s : store) (name : string) : result merr store :=
  exec io "delete" (set_databases s (filter (fun r => d_name r <> name) (databases s))).
End Databases.

(** ** The enrolled table *)

Definition last_seen (r : enrolled_row) : Z := default (er_created r) (er_seen r).

Definition by_age (a b : enrolled_row) : Prop :=
  er_created a < er_created b \/ er_created a = er_created b /\ String.leb (er_name a) (er_name b) = true.
#[export] Instance by_age_dec a b : Decision (by_age a b).
Proof. unfold by_age. apply _. Defined.
#[export] Instance by_age_total : Total by_age.
Proof.
  intros a b. unfold by_age.
  destruct (String.leb_total (er_name a) (er_name b)), (Z.lt_trichotomy (er_created a) (er_created b)) as [|[|]]; auto.
Qed.

Definition EnrolledList (io : bool) (s : store) : result merr (list Enrolled) :=
  exec io "list enrolled"
    (map (fun r => MkEnrolled (er_name r) (er_key r) (er_created r) (last_seen r)) (merge_sort by_age (enrolled s))).

(** The prepared UPDATE of one name. *)
Definition touch_row (name : string) (at_ : Z) (r : enrolled_row) : enrolled_row :=
  if String.eqb (er_name r) name && match er_seen r with None => true | Some t => t <? at_ end
  then ERow (er_name r) (er_key r) (er_created r) (Some at_) else r.
Definition touch (l : list enrolled_row) (na : string * Z) : list enrolled_row := map (touch_row na.1 na.2) l.

(** One transaction: [bad] are the names whose UPDATE fails, and any failure rolls back. *)
Definition TouchEnrolled (io_begin io_commit : bool) (bad : string -> bool) (s : store) (seen : list (string * Z))
    : result merr store :=
  match seen with
  | [] => Ok s
  | _ =>
      if negb io_begin || existsb (fun na => bad na.1) seen || negb io_commit then Err (MetaErr "touch enrolled")
      else Ok (set_enrolled s (fold_left touch seen (enrolled s)))
  end.

Definition IdleEnrolled (io : bool) (s : store) (cutoff : Z) : result merr (list string) :=
  exec io "idle enrolled" (map er_name (filter (fun r => last_seen r < cutoff) (enrolled s))).

Definition EnrolledByKey (io : bool) (s : store) (key : string) : result merr (option string) :=
  exec io "enrolled by key" ((fun p => er_name p.2) <$> list_find (fun r => er_key r = key) (enrolled s)).

(** INSERT under the PRIMARY KEY on [name] and the UNIQUE on [key]. *)
Definition PutEnrolled (io : bool) (now : Z) (s : store) (name key : string) : result merr store :=
  if existsb (fun r => String.eqb (er_name r) name || String.eqb (er_key r) key) (enrolled s)
  then Err (MetaErr "enroll")
  else exec io "enroll" (set_enrolled s (enrolled s ++ [ERow name key now None])).

Definition DeleteEnrolled (io : bool) (s : store) (name : string) : result merr (store * bool) :=
  exec io "delete enrolled"
    (set_enrolled s (filter (fun r => er_name r <> name) (enrolled s)),
     existsb (fun r => String.eqb (er_name r) name) (enrolled s)).

(** ** Single-use codes *)

Definition PutEnrollCode (io : bool) (s : store) (hash : string) (createdAt expiresAt : Z) : result merr store :=
  if existsb (fun c => String.eqb (c_hash c) hash) (enroll_codes s) then Err (MetaErr "put enroll code")
  else exec io "put enroll code" (set_codes s (enroll_codes s ++ [Code hash createdAt expiresAt None])).

(** The WHERE clause both the check and the consume use. *)
Definition live (hash : string) (now : Z) (c : code) : bool :=
  String.eqb (c_hash c) hash && bool_decide (c_used c = None) && (c_expires c >? now).

Definition EnrollCodeValid (io : bool) (s : store) (hash : string) (now : Z) : result merr bool :=
  exec io "enroll code valid" (existsb (live hash now) (enroll_codes s)).

Definition ConsumeEnrollCode (io : bool) (s : store) (hash : string) (now : Z) : result merr (store * bool) :=
  exec io "consume enroll code"
    (set_codes s (map (fun c => if live hash now c then Code (c_hash c) (c_created c) (c_expires c) (Some now) else c)
                      (enroll_codes s)),
     existsb (live hash now) (enroll_codes s)).

(** Best-effort: a failure is only logged. *)
Definition ReleaseEnrollCode (io : bool) (s : store) (hash : string) : store :=
  if io then
    set_codes s (map (fun c => if String.eqb (c_hash c) hash then Code (c_hash c) (c_created c) (c_expires c) None else c)
                     (enroll_codes s))
  else s.
Definition GCEnrollCodes (io : bool) (s : store) (now : Z) : store :=
  if io then set_codes s (filter (fun c => c_used c = None /\ now < c_expires c) (enroll_codes s)) else s.

(** ** The audit log; a stateless server has no store *)

Definition Audit (io : bool) (now : Z) (s : option store) (principal action db detail : string) : option store :=
  match s with
  | None => None
  | Some s => Some (if io then set_audit s (audit s ++ [AuditRow now principal action db detail]) else s)
  end.

Definition limit_or (dflt limit : Z) : nat := Z.to_nat (if limit <=? 0 then dflt else limit).

Definition AuditEntries (io : bool) (s : option store) (limit : Z) : result merr (list AuditEntry) :=
  match s with
  | None => Ok []
  | Some s => exec io "audit" (take (limit_or 100 limit) (rev (audit s)))
  end.

(** [LIKE 'account.%'] folds ASCII case; [<>] does not. *)
Definition account_event (principal : string) (e : AuditEntry) : bool :=
  String.eqb (Principal e) principal && has_prefix "account." (to_lower (Action e)) &&
  negb (String.eqb (Action e) "account.idle_gc").
Definition AccountActivityEntries (io : bool) (s : option store) (principal : string) (limit : Z)
    : result merr (list AuditEntry) :=
  match s with
  | None => Ok []
  | Some s =>
      if String.eqb principal "" then Ok []
      else exec io "activity" (take (limit_or 50 limit) (rev (filter (account_event principal) (audit s))))
  end.

(** ** Runs of the store *)

Inductive op : Type :=
| OPut (name spec : string) (now : Z)
| ODelete (name : string)
| OEnroll (now : Z) (name key : string)
| OUnenroll (name : string)
| OTouch (seen : list (string * Z))
| OMint (hash : string) (created expires : Z)
| OConsume (hash : string) (now : Z)
| ORelease (hash : string)
| OGC (now : Z)
| OAudit (now : Z) (principal action db detail : string).

Definition keep {A} (s : store) (r : result merr A) (f : A -> store * bool) : store * bool :=
  match r with Ok a => f a | Err _ => (s, false) end.

(** A call against the store; the flag is what the method reports. *)
Definition mstep (s : store) (c : bool * op) : store * bool :=
  let io := c.1 in
  match c.2 with
  | OPut name spec now => keep s (Put (fun _ => Some spec) (fun _ => name) io now s tt) (fun s' => (s', true))
  | ODelete name => keep s (Delete io s name) (fun s' => (s', true))
  | OEnroll now name key => keep s (PutEnrolled io now s name key) (fun s' => (s', true))
  | OUnenroll name => keep s (DeleteEnrolled io s name) id
  | OTouch seen => keep s (TouchEnrolled io true (fun _ => false) s seen) (fun s' => (s', true))
  | OMint h c e => keep s (PutEnrollCode io s h c e) (fun s' => (s', true))
  | OConsume h now => keep s (ConsumeEnrollCode io s h now) id
  | ORelease h => (ReleaseEnrollCode io s h, io)
  | OGC now => (GCEnrollCodes io s now, io)
  | OAudit now p a d x => (default s (Audit io now (Some s) p a d x), io)
  end.
Definition run (s : store) (cs : list (bool * op)) : store := fold_left (fun s c => (mstep s c).1) cs s.

(** Successful consumptions of one code, and what entitles to them: its minting and its
    releases. *)
Fixpoint consumed (h : string) (s : store) (cs : list (bool * op)) : Z :=
  match cs with
  | [] => 0
  | c :: r =>
      (match c.2 with OConsume h' _ => if String.eqb h' h && (mstep s c).2 then 1 else 0 | _ => 0 end) +
      consumed h (mstep s c).1 r
  end.
Fixpoint issued (h : string) (s : store) (cs : list (bool * op)) : Z :=
  match cs with
  | [] => 0
  | c :: r =>
      (match c.2 with
       | OMint h' _ _ | ORelease h' => if String.eqb h' h && (mstep s c).2 then 1 else 0
       | _ => 0
       end) + issued h (mstep s c).1 r
  end.

(** The uniqueness constraints of the schema. *)
Record store_wf (s : store) : Prop := {
  wf_databases : NoDup (map d_name (databases s));
  wf_names : NoDup (map er_name (enrolled s));
  wf_keys : NoDup (map er_key (enrolled s));
  wf_hashes : NoDup (map c_hash (enroll_codes s))
}.

Lemma NoDup_map_filter {A B} (f : A -> B) (P : A -> Prop) `{forall x, Decision (P x)} l :
  NoDup (map f l) -> NoDup (map f (filter P l)).
Proof.
  intros Hl. apply (sublist_NoDup _ _ Hl). apply (fmap_sublist f), sublist_filter.
Qed.
Lemma map_same {A B} (f : A -> B) (g : A -> A) l : (forall x, f (g x) = f x) -> map f (map g l) = map f l.
Proof. intros Hg. rewrite map_map. by apply map_ext. Qed.
Lemma NoDup_snoc {A B} (f : A -> B) l x : NoDup (map f l) -> f x ∉ map f l -> NoDup (map f (l ++ [x])).
Proof.
  intros Hl Hx. rewrite map_app. apply NoDup_app. split; [done|]. split; [|apply NoDup_singleton].
  intros y Hy ->%list_elem_of_singleton. done.
Qed.
Lemma not_exists_map {A} (f : A -> string) l x : existsb (fun r => String.eqb (f r) x) l = false -> x ∉ map f l.
Proof.
  intros Hl (r & -> & Hr)%list_elem_of_fmap. enough (existsb (fun r => String.eqb (f r) (f r)) l = true).
  { revert Hl. apply eq_true_false_abs, existsb_exists. exists r. by rewrite <- list_elem_of_In, String.eqb_refl. }
  apply existsb_exists. exists r. by rewrite <- list_elem_of_In, String.eqb_refl.
Qed.

Lemma existsb_orb {A} (p q : A -> bool) l :
  existsb (fun x => p x || q x) l = existsb p l || existsb q l.
Proof. induction l as [|x l IH]; cbn; [done|]. rewrite IH. by destruct (p x), (q x), (existsb p l). Qed.

Lemma touch_fields seen l : map er_name (fold_left touch seen l) = map er_name l /\
                            map er_key (fold_left touch seen l) = map er_key l.
Proof.
  revert l. induction seen as [|na seen IH]; intros l; [done|]. cbn. destruct (IH (touch l na)) as [-> ->].
  unfold touch. split; apply map_same; intros r; unfold touch_row; by destruct (_ && _).
Qed.

Lemma upsert_names name spec now l : NoDup (map d_name l) -> NoDup (map d_name (upsert name spec now l)).
Proof.
  intros Hl. unfold upsert. destruct (existsb _ _) eqn:E; [|by apply NoDup_snoc, not_exists_map].
  rewrite map_map. erewrite map_ext; [apply Hl|]. intros r. cbn.
  destruct (String.eqb_spec (d_name r) name); by cbn.
Qed.

Lemma mstep_wf s c : store_wf s -> store_wf (mstep s c).1.
Proof.
  intros W. pose proof W as [W1 W2 W3 W4].
  destruct c as [io [name spec now|name|now name key|name|seen|h cr ex|h now|h|now|now p a d x]]; cbn.
  - destruct io; cbn; [|done]. split; [by apply upsert_names|done..].
  - destruct io; cbn; [|done]. split; [by apply NoDup_map_filter|done..].
  - unfold PutEnrolled. rewrite existsb_orb.
    destruct (existsb _ _ || existsb _ _) eqn:E; [done|]. apply orb_false_iff in E as [E1 E2].
    destruct io; cbn; [|done]. split; cbn; [done| | |done]; by apply NoDup_snoc, not_exists_map.
  - destruct io; cbn; [|done]. split; [done|by apply NoDup_map_filter..|done].
  - unfold TouchEnrolled. destruct seen as [|na seen]; [done|].
    destruct (negb io || _ || _); [done|]. destruct (touch_fields (na :: seen) (enrolled s)) as [H1 H2].
    split; cbn -[fold_left]; [done|by rewrite H1|by rewrite H2|done].
  - unfold PutEnrollCode. destruct (existsb _ _) eqn:E; [done|].
    destruct io; cbn; [|done]. split; cbn; [done..|]. by apply NoDup_snoc, not_exists_map.
  - destruct io; cbn; [|done]. split; cbn; [done..|]. rewrite map_same; [done|]. intros r. by destruct (live _ _ r).
  - destruct io; cbn; [|done]. split; cbn; [done..|]. rewrite map_same; [done|]. intros r. by destruct (String.eqb _ _).
  - destruct io; cbn; [|done]. split; cbn; [done..|]. by apply NoDup_map_filter.
  - destruct io; done.
Qed.

Lemma run_wf s cs : store_wf s -> store_wf (run s cs).
Proof.
  unfold run. revert s. induction cs as [|c cs IH]; intros s W; [done|]. cbn. by apply IH, mstep_wf.
Qed.

(** The unconsumed rows of one code. *)
Definition unused (h : string) (l : list code) : Z :=
  Z.of_nat (length (filter (fun c => c_hash c = h /\ c_used c = None) l)).

Lemma unused_cons h c l :
  unused h (c :: l) = (if bool_decide (c_hash c = h /\ c_used c = None) then 1 else 0) + unused h l.
Proof.
  unfold unused. destruct (decide (c_hash c = h /\ c_used c = None)) as [E|E].
  - rewrite (bool_decide_true _ E), filter_cons_True by done. cbn [length]. lia.
  - by rewrite (bool_decide_false _ E), filter_cons_False.
Qed.
Lemma unused_app h l k : unused h (l ++ k) = unused h l + unused h k.
Proof. unfold unused. rewrite filter_app, length_app. lia. Qed.
Lemma unused_nonneg h l : 0 <= unused h l.
Proof. unfold unused. lia. Qed.
#[local] Hint Resolve unused_nonneg : quic.

(** A rewrite of the rows that keeps hashes and, row by row, does not add unused ones. *)
Lemma unused_map_le h (g : code -> code) l :
  (forall c, c_hash (g c) = c_hash c) -> (forall c, c_hash c = h -> c_used (g c) = None -> c_used c = None) ->
  unused h (map g l) <= unused h l.
Proof.
  intros Hh Hu. induction l as [|c l IH]; [cbn; lia|]. cbn [map]. rewrite !unused_cons, Hh.
  assert (c_hash c = h /\ c_used (g c) = None -> c_hash c = h /\ c_used c = None) as Himp by naive_solver.
  repeat case_bool_decide; try lia. exfalso. auto.
Qed.

Lemma unused_filter_le h (P : code -> Prop) `{forall c, Decision (P c)} l : unused h (filter P l) <= unused h l.
Proof.
  induction l as [|c l IH]; [cbn; lia|]. rewrite filter_cons, unused_cons.
  case_decide; rewrite ?unused_cons; case_bool_decide; lia.
Qed.

Lemma unused_bound h l : NoDup (map c_hash l) -> unused h l <= 1.
Proof.
  induction l as [|c l IH]; [intros _; change (unused h []) with 0; lia|]. cbn [map]. rewrite unused_cons. intros [Hc Hl]%NoDup_cons.
  specialize (IH Hl). case_bool_decide as E; [|lia]. destruct E as [E _].
  assert (unused h l = 0) as ->; [|lia]. unfold unused.
  enough (filter (fun c => c_hash c = h /\ c_used c = None) l = []) as -> by done.
  apply elem_of_nil_inv. intros x [[Hx _] Hxl]%list_elem_of_filter. apply Hc. apply list_elem_of_fmap.
  exists x. by rewrite Hx.
Qed.

(** Consuming takes one unused row at least. *)
Lemma consume_uses h now l : existsb (live h now) l = true ->
  unused h (map (fun c => if live h now c then Code (c_hash c) (c_created c) (c_expires c) (Some now) else c) l) + 1 <= unused h l.
Proof.
  set (g := fun c => _).
  assert (forall c, c_hash (g c) = c_hash c) as Hh by (intros c; unfold g; by destruct (live h now c)).
  assert (forall c, c_hash c = h -> c_used (g c) = None -> c_used c = None) as Hu.
  { intros c _. unfold g. by destruct (live h now c). }
  induction l as [|c l IH]; [done|]. cbn [existsb map]. rewrite !unused_cons, Hh. intros [Hc|Hl]%orb_true_iff.
  - pose proof (unused_map_le h g l Hh Hu).
    assert (c_used (g c) = Some now) as Hg by (unfold g; by rewrite Hc). unfold live in Hc. bool_to_prop.
    rewrite bool_decide_false by (rewrite Hg; naive_solver). rewrite bool_decide_true by done. lia.
  - specialize (IH Hl). pose proof (Hu c). repeat case_bool_decide; try lia. exfalso. naive_solver.
Qed.

Lemma mstep_unused h s c : store_wf s ->
  (match c.2 with OConsume h' _ => if String.eqb h' h && (mstep s c).2 then 1 else 0 | _ => 0 end) +
  unused h (enroll_codes (mstep s c).1) <=
  unused h (enroll_codes s) +
  (match c.2 with
   | OMint h' _ _ | ORelease h' => if String.eqb h' h && (mstep s c).2 then 1 else 0
   | _ => 0
   end).
Proof.
  intros W. pose proof (unused_nonneg h (enroll_codes s)) as H0.
  destruct c as [io [name spec now|name|now name key|name|seen|h' cr ex|h' now|h'|now|now p a d x]]; cbn -[unused];
    try (destruct io; cbn -[unused]; lia).
  - unfold PutEnrolled. destruct (existsb _ _), io; cbn -[unused]; lia.
  - unfold TouchEnrolled. destruct seen; [cbn; lia|]. destruct (_ || _); cbn -[unused fold_left]; lia.
  - unfold PutEnrollCode. destruct (existsb _ _); [cbn; rewrite andb_false_r; lia|].
    destruct io; cbn -[unused]; [|rewrite andb_false_r; lia]. rewrite unused_app, unused_cons. cbn -[unused].
    change (unused h []) with 0. destruct (String.eqb_spec h' h) as [->|Hne]; cbn.
    + case_bool_decide; lia.
    + rewrite bool_decide_false by naive_solver. lia.
  - destruct io; cbn -[unused]; [|rewrite andb_false_r; lia].
    destruct (String.eqb_spec h' h) as [->|Hne]; cbn -[unused].
    + destruct (existsb (live h now) (enroll_codes s)) eqn:E; [pose proof (consume_uses h now _ E); lia|].
      assert (forall P Q R : Z, P <= Q -> 0 + P <= Q + 0) as Hz by lia. apply Hz; [done|].
      apply unused_map_le; intros c; by destruct (live h now c).
    + assert (forall P Q : Z, P <= Q -> 0 + P <= Q + 0) as Hz by lia. apply Hz.
      apply unused_map_le; intros c; by destruct (live h' now c).
  - destruct io; cbn -[unused]; [|rewrite andb_false_r; lia].
    destruct (String.eqb_spec h' h) as [->|Hne]; cbn -[unused].
    + set (l := map _ _). enough (unused h l <= 1) by lia. apply unused_bound. unfold l. rewrite map_same; [apply W|].
      intros c. by destruct (String.eqb _ _).
    + assert (forall P Q : Z, P <= Q -> 0 + P <= Q + 0) as Hz by lia. apply Hz.
      apply unused_map_le; intros c; [by destruct (String.eqb _ _)|]. intros Hc.
      destruct (String.eqb_spec (c_hash c) h'); [congruence|done].
  - destruct io; cbn -[unused]; [|lia]. pose proof (unused_filter_le h (fun c => c_used c = None /\ now < c_expires c) (enroll_codes s)). lia.
Qed.

(** (single use) Over any sequence of calls to the store, failing statements included, the
    number of times one enrollment code is consumed never exceeds the number of times it was
    made available: the times its minting or a release of it succeeded (plus one if the
    sequence starts with the code minted and unconsumed).  In particular a code that is
    minted once and never released admits at most one enrollment, whatever calls race for
    it, and the schema's uniqueness constraints survive every call. *)
Theorem code_single_use s cs h : store_wf s ->
  store_wf (run s cs) /\ consumed h s cs <= unused h (enroll_codes s) + issued h s cs /\ unused h (enroll_codes s) <= 1.
Proof.
  intros W. split; [by apply run_wf|]. split; [|apply unused_bound, W].
  revert s W. induction cs as [|c cs IH]; intros s W; cbn -[mstep].
  - pose proof (unused_nonneg h (enroll_codes s)). lia.
  - specialize (IH _ (mstep_wf s c W)). pose proof (mstep_unused h s c W). lia.
Qed.

Lemma empty_wf : store_wf empty_store.
Proof. split; apply NoDup_nil_2. Qed.

Definition demo_calls : list (bool * op) :=
  [(true, OMint "h" 0 100); (true, OConsume "h" 10); (true, OConsume "h" 11); (true, ORelease "h"); (true, OConsume "h" 12);
   (true, OConsume "h" 100)]%string.
Lemma code_single_use_witness :
  store_wf empty_store /\ consumed "h" empty_store demo_calls = 2 /\ issued "h" empty_store demo_calls = 2 /\
  consumed "h" empty_store demo_calls <= unused "h" (enroll_codes empty_store) + issued "h" empty_store demo_calls.
Proof.
  split; [apply empty_wf|]. split; [reflexivity|]. split; [reflexivity|].
  destruct (code_single_use empty_store demo_calls "h" empty_wf) as (_ & H & _). exact H.
Defined.

(** What a successful consumption found, and that it leaves nothing to consume. *)
Lemma ConsumeEnrollCode_spec s h now s' : ConsumeEnrollCode true s h now = Ok (s', true) ->
  (exists c, c ∈ enroll_codes s /\ c_hash c = h /\ c_used c = None /\ now < c_expires c) /\
  (forall io' now', now <= now' -> EnrollCodeValid io' s' h now' <> Ok true).
Proof.
  unfold ConsumeEnrollCode, exec. intros [= <- E]. split.
  - apply existsb_exists in E as (c & Hc & Hl). apply list_elem_of_In in Hc. unfold live in Hl. bool_to_prop. eauto 6.
  - intros io' now' Hle [_ H]%exec_ok. cbn in H. apply existsb_exists in H as (c & Hc & Hl).
    apply list_elem_of_In, list_elem_of_fmap in Hc as (c0 & -> & _).
    destruct (live h now c0) eqn:E0; unfold live in *; cbn in *; bool_to_prop; [done|].
    assert (String.eqb (c_hash c0) h && bool_decide (c_used c0 = None) && (c_expires c0 >? now) = true); [|congruence].
    rewrite bool_decide_true by done. subst. rewrite String.eqb_refl. cbn. rewrite Z.gtb_ltb. apply Z.ltb_lt. lia.
Qed.

(** ** Database specifications *)

Section Specs.
Context {A : Type} (encode : A -> option string) (decode : string -> option A) (spec_name : A -> string).

Lemma Databases_elem s l db : Databases decode spec_name true s = Ok l ->
  db ∈ l <-> exists r, r ∈ databases s /\ decode (d_spec r) = Some db /\ spec_name db = d_name r.
Proof.
  unfold Databases. intros [_ <-]%exec_ok. rewrite list_elem_of_omap. split.
  - intros (r & Hr & Hd). exists r. rewrite merge_sort_Permutation in Hr. split; [done|].
    unfold decode_row in Hd. destruct (decode (d_spec r)) as [db'|]; [|done].
    destruct (String.eqb_spec (spec_name db') (d_name r)); simplify_eq. done.
  - intros (r & Hr & Hd & Hn). exists r. rewrite merge_sort_Permutation. split; [done|].
    unfold decode_row. by rewrite Hd, Hn, String.eqb_refl.
Qed.

Lemma upsert_elem name spec now l r :
  r ∈ upsert name spec now l -> d_name r = name /\ d_spec r = spec \/ d_name r <> name /\ r ∈ l.
Proof.
  unfold upsert. destruct (existsb _ l) eqn:E.
  - intros (r0 & -> & Hr)%list_elem_of_fmap. destruct (String.eqb_spec (d_name r0) name); [by left|by right].
  - intros [Hr| ->%list_elem_of_singleton]%elem_of_app; [|by left]. right. split; [|done]. intros Hn.
    apply not_exists_map in E. apply E. apply list_elem_of_fmap. by exists r.
Qed.
Lemma upsert_has name spec now l : exists r, r ∈ upsert name spec now l /\ d_name r = name /\ d_spec r = spec.
Proof.
  unfold upsert. destruct (existsb _ l) eqn:E.
  - apply existsb_exists in E as (r & Hr & Hn%String.eqb_eq). exists (DBRow name spec (d_created r)).
    split; [|done]. apply list_elem_of_fmap. exists r. by rewrite list_elem_of_In, Hn, String.eqb_refl.
  - exists (DBRow name spec now). split; [|done]. apply elem_of_app. right. by apply list_elem_of_singleton.
Qed.
Lemma upsert_keeps name spec now l r : d_name r <> name -> r ∈ l -> r ∈ upsert name spec now l.
Proof.
  intros Hn Hr. unfold upsert. destruct (existsb _ l); [|apply elem_of_app; by left].
  apply list_elem_of_fmap. exists r. destruct (String.eqb_spec (d_name r) name); done.
Qed.

(** (round trip) A specification that was put is listed at the next start: the listing
    after a successful [Put] holds exactly the new specification and every specification of
    another name it held before, so a replaced one is gone and an undecodable neighbour
    hides nothing; after [Delete] it holds exactly the others.  The JSON law is assumed for
    the specification at hand only. *)
Theorem databases_roundtrip s db spec now s1 s2 l l1 l2 :
  encode db = Some spec -> decode spec = Some db ->
  Put encode spec_name true now s db = Ok s1 -> Delete true s1 (spec_name db) = Ok s2 ->
  Databases decode spec_name true s = Ok l -> Databases decode spec_name true s1 = Ok l1 ->
  Databases decode spec_name true s2 = Ok l2 ->
  (forall db', db' ∈ l1 <-> db' = db \/ spec_name db' <> spec_name db /\ db' ∈ l) /\
  (forall db', db' ∈ l2 <-> spec_name db' <> spec_name db /\ db' ∈ l).
Proof.
  intros He Hd Hp Hdel H0 H1 H2. unfold Delete in Hdel. apply exec_ok in Hdel as [_ <-]. unfold Put in Hp. rewrite He in Hp. apply exec_ok in Hp as [_ <-].
  split; intros db'.
  - rewrite (Databases_elem _ _ _ H1), (Databases_elem _ _ _ H0). cbn. split.
    + intros (r & [[Hn Hs]|[Hn Hr]]%upsert_elem & Hdr & Hnr); [left; congruence|right]. split; [congruence|eauto].
    + intros [->|(Hn & r & Hr & Hdr & Hnr)].
      * destruct (upsert_has (spec_name db) spec now (databases s)) as (r & Hr & Hn & Hs).
        exists r. split; [done|]. split; congruence.
      * exists r. split; [apply upsert_keeps; congruence|done].
  - rewrite (Databases_elem _ _ _ H2), (Databases_elem _ _ _ H0). cbn. setoid_rewrite list_elem_of_filter. split.
    + intros (r & (Hne & [[Hn Hs]|[Hn Hr]]%upsert_elem) & Hdr & Hnr); [done|]. split; [congruence|eauto].
    + intros (Hn & r & Hr & Hdr & Hnr). exists r. split; [|done]. split; [congruence|]. apply upsert_keeps; congruence.
Qed.
End Specs.

Definition demo_store : store := Store [DBRow "b" "b" 1; DBRow "a" "a" 2; DBRow "c" "junk" 3] [] [] [].
Lemma databases_roundtrip_witness :
  let '(s1, s2) := (Store [DBRow "b" "b" 1; DBRow "a" "a" 2; DBRow "c" "c" 3] [] [] [],
                    Store [DBRow "b" "b" 1; DBRow "a" "a" 2] [] [] []) in
  (forall db', db' ∈ ["a"; "b"; "c"]%string <-> db' = "c"%string \/ db' <> "c"%string /\ db' ∈ ["a"; "b"]%string) /\
  (forall db', db' ∈ ["a"; "b"]%string <-> db' <> "c"%string /\ db' ∈ ["a"; "b"]%string).
Proof.
  cbn zeta. apply (databases_roundtrip Some Some id demo_store "c" "c" 9
    (Store [DBRow "b" "b" 1; DBRow "a" "a" 2; DBRow "c" "c" 3] [] [] []) (Store [DBRow "b" "b" 1; DBRow "a" "a" 2] [] [] []));
    vm_compute; reflexivity.
Defined.

(** ** Last-seen times and idleness *)

Lemma touch_row_seen n t r : er_name (touch_row n t r) = er_name r /\
  (er_name r = n -> exists t', er_seen (touch_row n t r) = Some t' /\ t <= t') /\
  (forall t0, er_seen r = Some t0 -> exists t', er_seen (touch_row n t r) = Some t' /\ t0 <= t').
Proof.
  unfold touch_row. destruct (String.eqb_spec (er_name r) n) as [Hn|Hn], (er_seen r) as [t0|] eqn:E; cbn.
  - destruct (Z.ltb_spec t0 t); cbn; (split; [done|]); rewrite ?E; split; intros; simplify_eq; eauto with lia.
  - split; [done|]. split; intros; simplify_eq; eauto with lia.
  - split; [done|]. split; intros; simplify_eq; rewrite ?E; eauto with lia.
  - split; [done|]. split; intros; simplify_eq.
Qed.

Lemma touch_fold_seen seen l r : r ∈ fold_left touch seen l ->
  exists r0, r0 ∈ l /\ er_name r = er_name r0 /\
    (forall t0, er_seen r0 = Some t0 -> exists t', er_seen r = Some t' /\ t0 <= t') /\
    (forall t, (er_name r, t) ∈ seen -> exists t', er_seen r = Some t' /\ t <= t').
Proof.
  revert l. induction seen as [|[n t] seen IH]; intros l Hr; cbn in Hr.
  - exists r. split; [done|]. split; [done|]. split; [eauto with lia|]. by intros t Ht%not_elem_of_nil.
  - destruct (IH _ Hr) as (r1 & Hr1 & Hn & Hm & Hs). unfold touch in Hr1. cbn in Hr1.
    apply list_elem_of_fmap in Hr1 as (r0 & -> & Hr0). destruct (touch_row_seen n t r0) as (Hn0 & Ht0 & Hm0).
    exists r0. split; [done|]. split; [congruence|]. split.
    + intros t0 Ht. destruct (Hm0 _ Ht) as (t1 & Ht1 & ?). destruct (Hm _ Ht1) as (t2 & ? & ?). eauto with lia.
    + intros t' [[= Hn' ->]|Hin]%elem_of_cons; [|by apply Hs].
      destruct Ht0 as (t1 & Ht1 & ?); [congruence|]. destruct (Hm _ Ht1) as (t2 & ? & ?). eauto with lia.
Qed.

(** Touching changes no name or key. *)
Lemma touch_row_same n t r : er_name (touch_row n t r) = er_name r /\ er_key (touch_row n t r) = er_key r.
Proof. unfold touch_row. by destruct (_ && _). Qed.
Lemma touch_fold_same seen l r : r ∈ fold_left touch seen l ->
  exists r0, r0 ∈ l /\ er_name r = er_name r0 /\ er_key r = er_key r0.
Proof.
  revert l. induction seen as [|[n t] seen IH]; intros l Hr; cbn in Hr; [by exists r|].
  destruct (IH _ Hr) as (r1 & (r0 & -> & Hr0)%list_elem_of_fmap & Hn & Hk). destruct (touch_row_same n t r0) as [H1 H2].
  exists r0. cbn in *. split; [done|]. split; congruence.
Qed.
Lemma touch_fold_back seen l r : r ∈ l ->
  exists r', r' ∈ fold_left touch seen l /\ er_name r' = er_name r /\ er_key r' = er_key r.
Proof.
  revert l r. induction seen as [|[n t] seen IH]; intros l r Hr; cbn; [by exists r|].
  destruct (IH (touch l (n, t)) (touch_row n t r)) as (r' & Hr' & Hn & Hk).
  - unfold touch. apply list_elem_of_fmap. by exists r.
  - destruct (touch_row_same n t r) as [H1 H2]. exists r'. split; [done|]. split; congruence.
Qed.

(** A flushed activity protects its principal: an idle scan never returns a name touched at
    or after the cutoff. *)
Lemma touched_not_idle b c bad s seen s' cutoff l n t :
  TouchEnrolled b c bad s seen = Ok s' -> IdleEnrolled true s' cutoff = Ok l -> (n, t) ∈ seen -> cutoff <= t -> n ∉ l.
Proof.
  unfold IdleEnrolled. intros Ht [_ <-]%exec_ok Hin Hc (r & -> & [Hlt Hr]%list_elem_of_filter)%list_elem_of_fmap.
  assert (enrolled s' = fold_left touch seen (enrolled s)) as He.
  { unfold TouchEnrolled in Ht. destruct seen; [by apply not_elem_of_nil in Hin|].
    destruct (_ || _); simplify_eq. done. }
  rewrite He in Hr. destruct (touch_fold_seen _ _ _ Hr) as (r0 & _ & _ & _ & Hs).
  destruct (Hs _ Hin) as (t' & E & ?). unfold last_seen in Hlt. rewrite E in Hlt. cbn in Hlt. lia.
Qed.
