(* ===== verification/Provision.v ===== *)
(** * provision: creating and dropping a database at run time

    [src/provision/provision.go].  [Create] and [Drop] over the real registry, change feed
    and meta store, in the order the code calls them; what the outside answers (the open,
    the meta write, the secret resolver, the file system, the files an open creates) is an
    argument.  Each call runs
    here without interference on its name, which is how the enrollment gate runs it. *)
From S2P Require Import Prelude GoStd Config Secret Storage Registry Feed Meta.

Inductive perr : Type := ErrBadSpec | EReg (e : Registry.rerr) | EPersist.
#[export] Instance rerr_eq_dec : EqDecision Registry.rerr.
Proof. solve_decision. Defined.
#[export] Instance perr_eq_dec : EqDecision perr.
Proof. solve_decision. Defined.

(** What a provisioner reaches: the registry, the optional meta store, change feed and
    metrics, the files on disk, and the handles it closed. *)
Record pworld := PWorld {
  w_reg : Registry.registry;
  w_store : option Meta.store;
  w_feed : option Feed.broker;
  w_series : option (gset string);
  w_files : gset string;
  w_closed : list nat
}.
Definition set_reg (w : pworld) (r : Registry.registry) : pworld :=
  PWorld r (w_store w) (w_feed w) (w_series w) (w_files w) (w_closed w).
Definition set_feed (w : pworld) (f : option Feed.broker) : pworld :=
  PWorld (w_reg w) (w_store w) f (w_series w) (w_files w) (w_closed w).
Definition make_files (w : pworld) (fs : gset string) : pworld :=
  PWorld (w_reg w) (w_store w) (w_feed w) (w_series w) (w_files w ∪ fs) (w_closed w).
Definition set_store (w : pworld) (s : option Meta.store) : pworld :=
  PWorld (w_reg w) s (w_feed w) (w_series w) (w_files w) (w_closed w).

(** The answers of one [Create]: addresses of the new entry and feed, what opening the
    database gives, whether the meta write succeeds, the time, and which of the database's
    own files the open creates (SQLite creates a database opened "rwc", and its sidecars,
    whether or not what follows succeeds). *)
Record answers := Answers { a_entry : nat; a_feed : nat; a_open : result string nat; a_put : bool; a_now : Z; a_made : string -> bool }.
(** The files of a database: the file and its sidecars, those [ok] selects. *)
Definition own_files (ok : string -> bool) (path : option string) : gset string :=
  match path with
  | Some p => if String.eqb p "" then ∅ else filter (fun f => ok f = true) {[ p; p +:+ "-wal"; p +:+ "-shm" ]}
  | None => ∅
  end.

Section Provision.
Context {K : Type}.
Variable RecommendedPragmas : pragma_set.
Variable canonicalPath : string -> string.
Variable encode : database -> option string.
Variable sec : Resolver K.
Variable dataDir : string.

Definition file_exists (w : pworld) (p : string) : bool := bool_decide (p ∈ w_files w).
Definition reg_view (be : Storage.backend K) : Registry.backend :=
  Registry.Backend_ (Storage.Kind be) (Storage.ReadOnly be) (Storage.Path be).

(** [_ = p.reg.Remove(name)]: the handle it detaches is closed, a refusal is ignored. *)
Definition remove_ignoring (w : pworld) (n : string) : pworld :=
  match Registry.Remove (w_reg w) n with
  | Ok (r, h) => PWorld r (w_store w) (w_feed w) (w_series w) (w_files w) (opt_list h ++ w_closed w)
  | Err _ => w
  end.

Definition feed_register (w : pworld) (n : string) (be : Storage.backend K) (addr : nat) : pworld :=
  match w_feed w, Storage.Path be with
  | Some f, Some p => set_feed w (Some (Feed.Register canonicalPath f n p addr))
  | _, _ => w
  end.
Definition feed_rollback (w : pworld) (n : string) (be : Storage.backend K) : pworld :=
  match w_feed w, Storage.Path be with
  | Some f, Some _ => set_feed w (Some (Feed.Forget f n))
  | _, _ => w
  end.

Definition spec_ok (db : database) : bool :=
  is_ok (ValidateDatabase db) &&
  negb (UsesPath (db_backend db) && negb (String.eqb (db_path db) "") && bool_decide (WithinDir dataDir (db_path db) = None)).

Definition Create (a : answers) (w : pworld) (db : database) : pworld * result perr unit :=
  let n := db_name db in
  if negb (spec_ok db) then (w, Err ErrBadSpec) else
  match Storage.For RecommendedPragmas (file_exists w) db sec dataDir with
  | Err _ => (w, Err ErrBadSpec)
  | Ok be =>
      match Registry.Add (w_reg w) n (reg_view be) with
      | Err e => (w, Err (EReg e))
      | Ok r1 =>
          let w0 := feed_register (set_reg w r1) n be (a_feed a) in
          let w1 := make_files w0 (own_files (a_made a) (Storage.Path be)) in
          match Registry.Get (w_reg w1) n (a_entry a) (a_open a) (a_now a) with
          | (r2, Err _) => (feed_rollback (remove_ignoring (set_reg w1 r2) n) n be, Err ErrBadSpec)
          | (r2, Ok e) =>
              let w3 := set_reg w1 (Registry.release r2 e (a_now a)) in
              match w_store w3 with
              | None => (w3, Ok tt)
              | Some s =>
                  match Meta.Put encode db_name (a_put a) (a_now a) s db with
                  | Ok s' => (set_store w3 (Some s'), Ok tt)
                  | Err _ => (feed_rollback (remove_ignoring w3 n) n be, Err EPersist)
                  end
              end
          end
      end
  end.

(** [io_del], [io_rm]: whether the meta store's delete and each file removal succeed; a
    failure is only logged. *)
Definition Drop (io_del : bool) (io_rm : string -> bool) (w : pworld) (n : string) (deleteFile : bool) : pworld * result perr unit :=
  let path := if deleteFile then Registry.Backend (w_reg w) n ≫= Registry.BPath else None in
  match Registry.Remove (w_reg w) n with
  | Err e => (w, Err (EReg e))
  | Ok (r, h) =>
      let st := match w_store w with
                | Some s => Some (match Meta.Delete io_del s n with Ok s' => s' | Err _ => s end)
                | None => None
                end in
      let files := w_files w ∖ own_files io_rm path in
      (PWorld r st ((fun f => Feed.Forget f n) <$> w_feed w) ((fun s => s ∖ {[ n ]}) <$> w_series w) files
         (opt_list h ++ w_closed w), Ok tt)
  end.

(** ** All or nothing *)

(** Every live entry and every observed name belongs to a served database. *)
Record pinv (w : pworld) : Prop := {
  pi_entries : forall n, is_Some (entries (w_reg w) !! n) -> is_Some (backends (w_reg w) !! n);
  pi_heap : forall n a, entries (w_reg w) !! n = Some a -> is_Some (heap (w_reg w) !! a);
  pi_feed : forall f n, w_feed w = Some f -> is_Some (byName f !! n) -> is_Some (backends (w_reg w) !! n)
}.
(** The addresses a call allocates are new. *)
Definition fresh_answers (a : answers) (w : pworld) : Prop := heap (w_reg w) !! a_entry a = None.

(** The address of the new feed is no other feed's. *)
Definition fresh_feed (a : answers) (w : pworld) : Prop := forall f, w_feed w = Some f -> forall p, byPath f !! p <> Some (a_feed a).

(** What is served, observed, persisted and counted is what it was; files are only added. *)
Record same_state (w w' : pworld) : Prop := {
  ss_backends : backends (w_reg w') = backends (w_reg w);
  ss_entries : entries (w_reg w') = entries (w_reg w);
  ss_store : w_store w' = w_store w;
  ss_names : byName <$> w_feed w' = byName <$> w_feed w;
  ss_series : w_series w' = w_series w;
  ss_files : w_files w ⊆ w_files w';
  ss_heap : forall x, is_Some (heap (w_reg w) !! x) -> is_Some (heap (w_reg w') !! x)
}.

Lemma same_state_refl w : same_state w w.
Proof. by split. Qed.

(** What a create that opened the database leaves when it is rolled back: the files the open
    made, the closed handle, and in the feed the loss of whatever the database's path
    reported to; nothing else. *)
Record rolled_back (a : answers) (be : Storage.backend K) (w w' : pworld) : Prop := {
  rb_same : same_state w w';
  rb_files : w_files w' = w_files w ∪ own_files (a_made a) (Storage.Path be);
  rb_closed : w_closed w' = match a_open a with Ok h => [h] | Err _ => [] end ++ w_closed w;
  rb_feed : match w_feed w, w_feed w' with
            | None, None => True
            | Some f, Some f' =>
                byPath f' = match Storage.Path be with
                            | Some p => if String.eqb p "" then byPath f else filter (fun pf => pf.2 <> a_feed a) (delete (canonicalPath p) (byPath f))
                            | None => byPath f
                            end /\
                (forall x, x <> a_feed a -> feeds f' !! x = feeds f !! x)
            | _, _ => False
            end
}.

Lemma opt_byName_none w n : pinv w -> backends (w_reg w) !! n = None -> forall f, w_feed w = Some f -> byName f !! n = None.
Proof.
  intros P Hn f Hf. destruct (byName f !! n) as [a|] eqn:E; [|done].
  destruct (pi_feed w P f n Hf) as [b Hb]; [by eexists|]. congruence.
Qed.

(** Registering a feed for a new name and forgetting it leaves the names as they were. *)
Lemma feed_undo w w' n be a : w_feed w' = w_feed (feed_register w n be a) ->
  (forall f, w_feed w = Some f -> byName f !! n = None) ->
  byName <$> w_feed (feed_rollback w' n be) = byName <$> w_feed w.
Proof.
  intros Hw Hn. unfold feed_rollback, feed_register in *. destruct (w_feed w) as [f|] eqn:Ef.
  - destruct (Storage.Path be) as [p|]; cbn in *; [|rewrite Hw, Ef; cbn; by rewrite Hw, Ef]. rewrite Hw. cbn. f_equal.
    unfold Feed.Register. destruct (String.eqb p ""); cbn; [by rewrite delete_id by (by apply Hn)|].
    rewrite delete_insert_eq. by apply delete_id, Hn.
  - cbn in Hw. assert (w_feed w' = None) as E by congruence. rewrite E. cbn. by rewrite E.
Qed.

Lemma feed_undo_paths w w' n be a : w_feed w' = w_feed (feed_register w n be a) ->
  (forall f, w_feed w = Some f -> byName f !! n = None) ->
  match w_feed w, w_feed (feed_rollback w' n be) with
  | None, None => True
  | Some f, Some f' =>
      byPath f' = match Storage.Path be with
                  | Some p => if String.eqb p "" then byPath f else filter (fun pf => pf.2 <> a) (delete (canonicalPath p) (byPath f))
                  | None => byPath f
                  end /\
      (forall x, x <> a -> feeds f' !! x = feeds f !! x)
  | _, _ => False
  end.
Proof.
  intros Hw Hn. unfold feed_rollback, feed_register in *. destruct (w_feed w) as [f|] eqn:Ef.
  - specialize (Hn f eq_refl). destruct (Storage.Path be) as [p|]; cbn in *; [|rewrite Hw, Ef; cbn; rewrite Hw, Ef; done]. rewrite Hw. cbn.
    unfold Feed.Register. destruct (String.eqb p ""); cbn; [by rewrite Hn|]. rewrite lookup_insert_eq. split.
    + rewrite map_filter_insert_False by (cbn; naive_solver). done.
    + intros x Hx. by rewrite lookup_alter_ne, lookup_insert_ne by done.
  - cbn in Hw. assert (w_feed w' = None) as E by congruence. rewrite E. cbn. by rewrite E.
Qed.

Lemma undone a be w w2 n : pinv w -> backends (w_reg w) !! n = None ->
  w_feed w2 = w_feed (feed_register w n be (a_feed a)) -> w_store w2 = w_store w -> w_series w2 = w_series w ->
  w_files w2 = w_files w ∪ own_files (a_made a) (Storage.Path be) ->
  w_closed w2 = match a_open a with Ok h => [h] | Err _ => [] end ++ w_closed w ->
  backends (w_reg w2) = backends (w_reg w) -> entries (w_reg w2) = entries (w_reg w) ->
  (forall x, is_Some (heap (w_reg w) !! x) -> is_Some (heap (w_reg w2) !! x)) ->
  rolled_back a be w (feed_rollback w2 n be).
Proof.
  intros P Hb H1 H2 H3 H4 H0 H5 H6 H7. pose proof (opt_byName_none w n P Hb) as Hno.
  pose proof (feed_undo w w2 n be (a_feed a) H1 Hno) as Hnm. pose proof (feed_undo_paths w w2 n be (a_feed a) H1 Hno) as Hpa.
  assert (forall A (g : pworld -> A), (forall w f, g (set_feed w f) = g w) -> g (feed_rollback w2 n be) = g w2) as Hg
    by (intros A g Hset; unfold feed_rollback; destruct (w_feed w2), (Storage.Path be); by rewrite ?Hset).
  split; [split|..|exact Hpa]; try (rewrite (Hg _ (fun w => w_files w)) by done; rewrite H4; set_solver); try exact Hnm.
  - by rewrite (Hg _ (fun w => backends (w_reg w))).
  - by rewrite (Hg _ (fun w => entries (w_reg w))).
  - by rewrite (Hg _ w_store).
  - by rewrite (Hg _ w_series).
  - by rewrite (Hg _ (fun w => heap (w_reg w))).
  - by rewrite (Hg _ w_closed).
Qed.

(** A create fails in one of two ways: it refuses and changes nothing, or it rolls back. *)
Definition failed (a : answers) (w : pworld) (db : database) (w' : pworld) (e : perr) : Prop :=
  let built := Storage.For RecommendedPragmas (file_exists w) db sec dataDir in
  w' = w /\ (spec_ok db = false \/ is_ok built = false \/ is_Some (backends (w_reg w) !! db_name db)) \/
  exists be, spec_ok db = true /\ built = Ok be /\ backends (w_reg w) !! db_name db = None /\ rolled_back a be w w' /\
    e = match a_open a with Ok _ => EPersist | Err _ => ErrBadSpec end.

(** What a finished [Create] did, in one place: either it refused before touching anything,
    or it added the name and then went one of three ways. *)
Lemma Create_cases a w db : pinv w -> fresh_answers a w ->
  let n := db_name db in
  match Create a w db with
  | (w', Err e) =>
      same_state w w' /\ (e = ErrBadSpec \/ e = EPersist \/ e = EReg Registry.ErrExists) /\
      (e = EReg Registry.ErrExists <-> spec_ok db = true /\
         is_ok (Storage.For RecommendedPragmas (file_exists w) db sec dataDir) = true /\ is_Some (backends (w_reg w) !! n)) /\
      failed a w db w' e
  | (w', Ok _) =>
      spec_ok db = true /\ backends (w_reg w) !! n = None /\
      exists be h, Storage.For RecommendedPragmas (file_exists w) db sec dataDir = Ok be /\
        backends (w_reg w') = <[n := reg_view be]> (backends (w_reg w)) /\
        entries (w_reg w') = <[n := a_entry a]> (entries (w_reg w)) /\
        heap (w_reg w') = <[a_entry a := Registry.Entry n false (Some h) None 0 (a_now a) false]> (heap (w_reg w)) /\
        w_feed w' = w_feed (feed_register w n be (a_feed a)) /\
        (w_store w' = None /\ w_store w = None \/
         exists s s', w_store w = Some s /\ w_store w' = Some s' /\ Meta.Put encode db_name (a_put a) (a_now a) s db = Ok s') /\
        w_series w' = w_series w /\ w_files w' = w_files w ∪ own_files (a_made a) (Storage.Path be) /\ w_closed w' = w_closed w
  end.
Proof.
  intros P Ha n. unfold Create. fold n.
  destruct (spec_ok db) eqn:Es; cbn [negb];
    [|split; [apply same_state_refl|]; split; [by left|]; split; [split; [done|by intros (? & _)]|left; auto]].
  destruct (Storage.For _ _ db sec dataDir) as [be|e] eqn:Ef;
    [|split; [apply same_state_refl|]; split; [by left|]; split; [split; [done|by intros (_ & ? & _)]|left; rewrite Ef; auto]].
  unfold Registry.Add. destruct (backends (w_reg w) !! n) as [b|] eqn:Hb.
  { split; [apply same_state_refl|]. split; [by auto|]. split; [|left; split; [done|right; right; by eexists]]. split; [|done]. intros _. split; [done|]. by split; [|eexists]. }
  assert (entries (w_reg w) !! n = None) as Hn.
  { destruct (entries (w_reg w) !! n) eqn:E; [|done]. destruct (pi_entries w P n); [by eexists|congruence]. }
  set (w1 := make_files (feed_register _ n be (a_feed a)) _).
  assert (w_reg w1 = Registry.Registry (entries (w_reg w)) (heap (w_reg w)) (<[n := reg_view be]> (backends (w_reg w))) /\
          w_store w1 = w_store w /\ w_series w1 = w_series w /\ w_files w1 = w_files w ∪ own_files (a_made a) (Storage.Path be) /\ w_closed w1 = w_closed w /\
          w_feed w1 = w_feed (feed_register w n be (a_feed a))) as (Hr & Hst & Hse & Hfi & Hcl & Hfe).
  { unfold w1, feed_register, set_reg, make_files. cbn. destruct (w_feed w) eqn:E, (Storage.Path be); cbn; by rewrite ?E. }
  clearbody w1.
  assert (forall w2, w_feed w2 = w_feed w1 -> w_store w2 = w_store w -> w_series w2 = w_series w -> w_files w2 = w_files w1 ->
    w_closed w2 = match a_open a with Ok h => [h] | Err _ => [] end ++ w_closed w ->
    backends (w_reg w2) = backends (w_reg w) -> entries (w_reg w2) = entries (w_reg w) ->
    (forall x, is_Some (heap (w_reg w) !! x) -> is_Some (heap (w_reg w2) !! x)) ->
    rolled_back a be w (feed_rollback w2 n be)) as Hundo by (intros; apply undone; congruence || done).
  assert (forall e x, is_Some (heap (w_reg w) !! x) -> is_Some (<[a_entry a := e]> (heap (w_reg w)) !! x)) as Hheap.
  { intros e x Hx. destruct (decide (a_entry a = x)) as [<-|]; [by rewrite lookup_insert_eq|by rewrite lookup_insert_ne]. }
  assert (delete n (<[n := reg_view be]> (backends (w_reg w))) = backends (w_reg w)) as Hdel by (by apply delete_insert_id).
  assert (delete n (<[n := a_entry a]> (entries (w_reg w))) = entries (w_reg w)) as Hden by (by apply delete_insert_id).
  rewrite (Registry.Get_new (w_reg w1) n _ _ _ (reg_view be)) by (rewrite Hr; cbn; by rewrite ?lookup_insert_eq).
  rewrite Hr. cbn [entries heap backends].
  assert (forall w' e, rolled_back a be w w' -> e = match a_open a with Ok _ => EPersist | Err _ => ErrBadSpec end ->
    same_state w w' /\ (e = ErrBadSpec \/ e = EPersist \/ e = EReg Registry.ErrExists) /\
    (e = EReg Registry.ErrExists <-> true = true /\ is_ok (Ok be : result Storage.berr _) = true /\ is_Some (None : option Registry.backend)) /\ failed a w db w' e) as Hfail.
  { intros w' e Hrb He. split; [apply Hrb|]. split; [rewrite He; destruct (a_open a); auto|]. split; [rewrite He; split; [by destruct (a_open a)|by intros (_ & _ & [])]|].
    right. exists be. auto. }
  destruct (a_open a) as [h|m] eqn:Eo.
  - rewrite (Registry.release_one _ n _ h) by apply lookup_insert_eq. cbn [entries heap backends]. rewrite insert_insert_eq.
    unfold set_reg at 1. cbn [w_store]. rewrite Hst. destruct (w_store w) as [s|] eqn:Ews.
    + destruct (Meta.Put encode db_name (a_put a) (a_now a) s db) as [s'|e] eqn:Ep.
      * split; [done|]. split; [done|]. exists be, h. cbn. rewrite Hse, Hfi, Hcl, Hfe.
        split; [done|]. split; [done|]. split; [done|]. split; [done|]. split; [done|]. split; [|done]. right. eauto.
      * apply Hfail; [|done]. unfold remove_ignoring, set_reg. cbn [w_reg].
        rewrite (Registry.Remove_idle _ n (reg_view be) (a_entry a) (Registry.Entry n false (Some h) None 0 (a_now a) false))
          by (cbn; rewrite ?lookup_insert_eq; done).
        apply Hundo; cbn; try congruence. by apply Hheap.
    + split; [done|]. split; [done|]. exists be, h. cbn. rewrite Hst, Hse, Hfi, Hcl, Hfe. auto 10.
  - apply Hfail; [|done]. unfold remove_ignoring, set_reg. cbn [w_reg].
    rewrite (Registry.Remove_absent _ n (reg_view be)) by (cbn; rewrite ?lookup_insert_eq; done).
    apply Hundo; cbn; try congruence. by apply Hheap.
Qed.

(** Connections to files of another path keep reporting where they did. *)
Lemma register_other f n p a q : canonicalPath q <> canonicalPath p ->
  Feed.connect_hook canonicalPath (Feed.Register canonicalPath f n p a) q = Feed.connect_hook canonicalPath f q.
Proof.
  intros Hq. unfold Feed.connect_hook, Feed.Register. destruct (String.eqb q ""); [done|].
  destruct (String.eqb p ""); [done|]. cbn. by rewrite lookup_insert_ne by congruence.
Qed.

Lemma Drop_cases io rm w n del : pinv w -> match Drop io rm w n del with
  | (w', Err e) => w' = w /\ e <> ErrBadSpec /\ e <> EPersist /\
      (e = EReg Registry.ErrUnknownDB <-> backends (w_reg w) !! n = None)
  | (w', Ok _) =>
      is_Some (backends (w_reg w) !! n) /\
      backends (w_reg w') = delete n (backends (w_reg w)) /\ entries (w_reg w') = delete n (entries (w_reg w)) /\
      heap (w_reg w') = heap (w_reg w) /\
      byName <$> w_feed w' = (fun f => delete n (byName f)) <$> w_feed w /\
      w_store w' = (fun s => match Meta.Delete io s n with Ok s' => s' | Err _ => s end) <$> w_store w /\
      w_series w' = (fun s => s ∖ {[ n ]}) <$> w_series w /\
      w_files w' = w_files w ∖ own_files rm (if del then Registry.Backend (w_reg w) n ≫= Registry.BPath else None)
  end.
Proof.
  intros P. unfold Drop, Registry.Remove, Registry.Backend.
  destruct (backends (w_reg w) !! n) as [b|] eqn:Hb; [|split; [done|]; split; [done|]; split; done].
  destruct (Registry.detachIdleLocked (w_reg w) n) as [[r h]|e] eqn:E; cbn [rbind].
  - assert (entries r = delete n (entries (w_reg w)) /\ heap r = heap (w_reg w) /\ backends r = backends (w_reg w)) as (H1 & H2 & H3).
    { unfold Registry.detachIdleLocked in E. destruct (entries (w_reg w) !! n) as [a|] eqn:En; cbn in E.
      - destruct (pi_heap w P n a En) as [x Hx]. rewrite Hx in E. destruct (Registry.busy_entry x); [done|]. by injection E as <- _.
      - injection E as <- _. by rewrite delete_id. }
    cbn. rewrite H1, H2, H3. split; [by eexists|]. split; [done|]. split; [done|]. split; [done|].
    split; [by destruct (w_feed w)|]. split; [by destruct (w_store w)|]. split; [done|].
    done.
  - split; [done|]. unfold Registry.detachIdleLocked in E. destruct (_ ≫= _) as [x|]; [|done].
    destruct (Registry.busy_entry x); [|done]. injection E as <-. done.
Qed.

Lemma same_state_pinv w w' : same_state w w' -> pinv w -> pinv w'.
Proof.
  intros [H1 H2 H3 H4 H5 H6 H7] [P1 P2 P3].
  split; [by rewrite H1, H2|intros n a; rewrite H2; intros Hn; by apply H7, (P2 n)|].
  intros f n Hf Hn. rewrite H1. destruct (w_feed w) as [f0|] eqn:E; [|rewrite Hf in H4; done].
  rewrite Hf in H4. cbn in H4. injection H4 as H4. apply (P3 f0 n eq_refl). by rewrite <- H4.
Qed.

(** A name is observed when the feed is on and the backend has a path. *)
Definition observed (w : pworld) (n : string) : Prop := exists f, w_feed w = Some f /\ Feed.Observed f n = true.

Lemma register_names f n p a m : byName (Feed.Register canonicalPath f n p a) !! m =
  if negb (String.eqb p "") && bool_decide (n = m) then Some a else byName f !! m.
Proof.
  unfold Feed.Register. destruct (String.eqb p ""); [done|]. cbn. rewrite lookup_insert. by case_decide; case_bool_decide.
Qed.

Notation connect_hook := (Feed.connect_hook canonicalPath).
(** A rolled back create can only take a feed away from its own path. *)
Lemma rolled_back_hook a be w w' f f' : rolled_back a be w w' -> fresh_feed a w -> w_feed w = Some f -> w_feed w' = Some f' ->
  forall q, connect_hook f' q = connect_hook f q \/ connect_hook f' q = None /\ exists p, Storage.Path be = Some p /\ canonicalPath q = canonicalPath p.
Proof.
  intros [_ _ _ H] Ha Hf Hf' q. specialize (Ha f Hf). rewrite Hf, Hf' in H. destruct H as [H _]. unfold Feed.connect_hook.
  destruct (String.eqb q ""); [by left|]. rewrite H. destruct (Storage.Path be) as [p|]; [|by left]. destruct (String.eqb p ""); [by left|].
  destruct (decide (canonicalPath q = canonicalPath p)) as [E|E].
  - right. split; [|by exists p]. rewrite E. apply map_lookup_filter_None. left. apply lookup_delete_eq.
  - left. apply option_eq. intros x. rewrite map_lookup_filter_Some, lookup_delete_ne by congruence. cbn. split; [by intros [? _]|].
    intros Hx. split; [done|]. intros ->. by apply (Ha (canonicalPath q)).
Qed.

Lemma Create_pinv a w db : pinv w -> fresh_answers a w -> pinv (Create a w db).1.
Proof.
  intros P Ha. pose proof (Create_cases a w db P Ha) as H. destruct (Create a w db) as [w' [u|e]]; cbn.
  - destruct H as (_ & Hb & be & h & _ & Hbe & Hen & Hhe & Hfe & _). split.
    + intros n. rewrite Hbe, Hen, !lookup_insert. case_decide; [by intros _; eexists|apply (pi_entries w P)].
    + intros n x. rewrite Hen, Hhe, !lookup_insert. case_decide; [intros [= <-]; rewrite decide_True by done; by eexists|].
      intros Hx. case_decide; [by eexists|by apply (pi_heap w P n)].
    + intros f n Hf Hn. rewrite Hbe, lookup_insert. case_decide as E; [by eexists|].
      unfold feed_register in Hfe. destruct (w_feed w) as [f0|] eqn:Ef.
      * destruct (Storage.Path be) as [p|]; cbn in Hfe; rewrite Hf in Hfe.
        -- injection Hfe as ->. rewrite register_names, bool_decide_false, andb_false_r in Hn by done.
           by apply (pi_feed w P f0 n Ef).
        -- rewrite Ef in Hfe. injection Hfe as ->. by apply (pi_feed w P f0 n Ef).
      * cbn in Hfe. congruence.
  - destruct H as [H _]. by apply (same_state_pinv w).
Qed.

Lemma Drop_pinv io rm w n del : pinv w -> pinv (Drop io rm w n del).1.
Proof.
  intros P. pose proof (Drop_cases io rm w n del P) as H. destruct (Drop io rm w n del) as [w' [u|e]]; cbn; [|by destruct H as [-> _]].
  destruct H as (_ & Hb & He & Hh & Hf & _). split.
  - intros m. rewrite Hb, He, !lookup_delete. case_decide; [by intros []|apply (pi_entries w P)].
  - intros m x. rewrite He, Hh. intros [_ Hm]%lookup_delete_Some. by apply (pi_heap w P m).
  - intros f m Hfm Hm. rewrite Hb. rewrite Hfm in Hf. destruct (w_feed w) as [f0|] eqn:E; [|done]. cbn in Hf. injection Hf as Hf.
    rewrite Hf in Hm. destruct (decide (n = m)) as [->|Hne]; [by rewrite lookup_delete_eq in Hm; destruct Hm|].
    rewrite lookup_delete_ne in Hm by done. rewrite lookup_delete_ne by done. by apply (pi_feed w P f0 m E).
Qed.

(** C23: (atomicity, containment) [Create] either fails or serves the database.

    A failure before the open (the specification is refused, no backend can be built from
    it, or the name is served) changes nothing at all; a name clash is reported as such and
    only then.  A failure of the open or of the persisting rolls back: the served databases
    and their handles, the observed names, the persisted specifications and the metrics are
    what they were, the handle the open gave is closed and no other.  Two things are left
    behind, and only these: the files the open created (the code deletes none), which are
    the database's own file and sidecars, and, when the path already had a feed, because
    another served database has the same file, that path's registration, so that new
    connections to that file report nowhere; every other path reports where it did.

    A success means: the name was free and is served by the backend of its specification,
    whose path (if it has one) lies below the data directory; the database has been opened
    once and is idle; the name is observed exactly when the feed is on and the backend has a
    path, and new connections to that path report to its feed; a specification that survives
    JSON is listed by the meta store at the next start; and no file but the database's own
    is created. *)
Theorem create_is_all_or_nothing (decode : string -> option database) a w db : pinv w -> fresh_answers a w -> fresh_feed a w ->
  let n := db_name db in
  match Create a w db with
  | (w', Err e) =>
      same_state w w' /\
      (failed a w db w' e /\
       forall be f f', Storage.For RecommendedPragmas (file_exists w) db sec dataDir = Ok be -> w_feed w = Some f -> w_feed w' = Some f' ->
         forall q, connect_hook f' q = connect_hook f q \/
           connect_hook f' q = None /\ exists p, Storage.Path be = Some p /\ canonicalPath q = canonicalPath p) /\
      (e = EReg Registry.ErrExists <-> spec_ok db = true /\
         is_ok (Storage.For RecommendedPragmas (file_exists w) db sec dataDir) = true /\ is_Some (backends (w_reg w) !! n))
  | (w', Ok _) =>
      pinv w' /\ backends (w_reg w) !! n = None /\
      exists be h, Storage.For RecommendedPragmas (file_exists w) db sec dataDir = Ok be /\
        backends (w_reg w') = <[n := reg_view be]> (backends (w_reg w)) /\
        (forall p, Storage.Path be = Some p -> p = ""%string \/ Below dataDir (Clean p)) /\
        (exists x, entries (w_reg w') !! n = Some x /\
           heap (w_reg w') !! x = Some (Registry.Entry n false (Some h) None 0 (a_now a) false)) /\
        (observed w' n <-> w_feed w <> None /\ exists p, Storage.Path be = Some p /\ p <> ""%string) /\
        (forall f p, w_feed w' = Some f -> Storage.Path be = Some p -> p <> ""%string -> connect_hook f p = Some (a_feed a)) /\
        w_files w' = w_files w ∪ own_files (a_made a) (Storage.Path be) /\
        (forall s' spec l, w_store w' = Some s' -> encode db = Some spec -> decode spec = Some db ->
           Meta.Databases decode db_name true s' = Ok l -> db ∈ l)
  end.
Proof.
  intros P Ha Hff n. pose proof (Create_cases a w db P Ha) as H. pose proof (Create_pinv a w db P Ha) as Pw.
  destruct (Create a w db) as [w' [u|e]].
  2:{ destruct H as (Hs & _ & Hx & Hf). split; [done|]. split; [|done]. split; [done|]. intros be f f' Hbe Hf0 Hf1.
      destruct Hf as [[-> _]|(be0 & _ & Hb0 & _ & Hrb & _)]; [intros q; left; congruence|]. rewrite Hb0 in Hbe. injection Hbe as ->. by eapply rolled_back_hook. }
  destruct H as (Hs & Hb & be & h & Hf & Hbe & Hen & Hhe & Hfe & Hst & _ & Hfi & _). split; [done|]. split; [done|].
  exists be, h. split; [done|]. split; [done|]. split.
  { intros p Hp. unfold spec_ok in Hs. apply andb_true_iff in Hs as [Hv Hw].
    destruct (ValidateDatabase db) as [[]|] eqn:Ev; [|done].
    pose proof (For_validated RecommendedPragmas (file_exists w) db sec dataDir Ev) as Hq. rewrite Hf in Hq.
    destruct Hq as (_ & _ & _ & Hq). rewrite Hq in Hp. destruct (UsesPath (db_backend db)); [|done]. injection Hp as <-.
    destruct (String.eqb_spec (db_path db) "") as [E|E].
    - left. rewrite E. done.
    - right. cbn in Hw. apply negb_true_iff, bool_decide_eq_false in Hw.
      destruct (WithinDir dataDir (db_path db)) as [abs|] eqn:Ew; [|done].
      rewrite (resolvePath_below _ _ _ Ew). by eapply WithinDir_below. }
  split; [exists (a_entry a); by rewrite Hen, Hhe, !lookup_insert_eq|]. split.
  - unfold observed, Feed.Observed. rewrite Hfe. unfold feed_register. destruct (w_feed w) as [f|] eqn:Ef.
    + assert (byName f !! n = None) as Hn by (by apply (opt_byName_none w n P Hb)).
      destruct (Storage.Path be) as [p|]; cbn.
      * split.
        -- intros (f' & [= <-] & Ho). split; [done|]. exists p. split; [done|]. intros ->.
           rewrite register_names in Ho. cbn in Ho. by rewrite Hn in Ho.
        -- intros (_ & p' & [= <-] & Hp). eexists. split; [done|]. rewrite register_names.
           rewrite (proj2 (String.eqb_neq _ _)) by done. by rewrite bool_decide_true.
      * split; [|by intros (_ & p & ? & _)]. intros (f' & Hf' & Ho). rewrite Ef in Hf'. injection Hf' as <-. by rewrite Hn in Ho.
    + cbn. split; [intros (f' & Hf' & _); congruence|by intros [? _]].
  - split; [|split; [done|]].
    { intros f p Hw Hp Hne. rewrite Hfe in Hw. unfold feed_register in Hw. destruct (w_feed w) as [f0|] eqn:Ef; [|cbn in Hw; congruence].
      rewrite Hp in Hw. cbn in Hw. injection Hw as <-. unfold Feed.connect_hook, Feed.Register. rewrite (proj2 (String.eqb_neq _ _)) by done. cbn. by rewrite lookup_insert_eq. }
    intros s' spec l Hs' He Hd Hl. destruct Hst as [[? _]|(s0 & s1 & _ & Hs1 & Hp)]; [congruence|].
    rewrite Hs' in Hs1. injection Hs1 as <-. apply (Databases_elem decode db_name _ _ _ Hl).
    unfold Meta.Put in Hp. rewrite He in Hp. apply exec_ok in Hp as [_ <-]. cbn.
    destruct (upsert_has (db_name db) spec (a_now a) (databases s0)) as (r & Hr & Hn & Hsp). exists r. by rewrite Hsp.
Qed.

Lemma files_undone (made rm : string -> bool) (p : option string) (del : bool) (fs fs' : gset string) :
  fs' = (fs ∪ own_files made p) ∖ own_files rm (if del then p else None) ->
  fs' = (fs ∪ own_files made p) ∖ own_files rm (if del then p else None) /\ (del = true -> (forall f, rm f = true) -> fs' ⊆ fs).
Proof.
  intros ->. split; [done|]. intros -> Hrm f. unfold own_files. destruct p as [p|]; [|set_solver]. destruct (String.eqb p ""); [set_solver|].
  rewrite elem_of_difference, elem_of_union, !elem_of_filter. intros [[?|[_ ?]] Hn]; [done|]. destruct Hn. by split; [apply Hrm|].
Qed.

(** (round trip) Dropping what was just created restores what was served: the registry's
    databases and entries and the observed names are those of before, no persisted
    specification of the name is left; with file deletion, when the removals succeed, the
    files the create made are gone again, and no file but the database's own is touched.  A
    drop that fails changes nothing at all, and it fails as unknown exactly for a name that
    is not served. *)
Theorem create_then_drop a w db w1 io rm del : pinv w -> fresh_answers a w ->
  Create a w db = (w1, Ok tt) ->
  let n := db_name db in
  (exists w2, Drop io rm w1 n del = (w2, Ok tt) /\
     backends (w_reg w2) = backends (w_reg w) /\ entries (w_reg w2) = entries (w_reg w) /\
     byName <$> w_feed w2 = byName <$> w_feed w /\
     (io = true -> forall s r, w_store w2 = Some s -> r ∈ databases s -> d_name r <> n) /\
     exists be, Storage.For RecommendedPragmas (file_exists w) db sec dataDir = Ok be /\
       w_files w2 = (w_files w ∪ own_files (a_made a) (Storage.Path be)) ∖ own_files rm (if del then Storage.Path be else None) /\
       (del = true -> (forall f, rm f = true) -> w_files w2 ⊆ w_files w)) /\
  (forall m, match Drop io rm w1 m del with
             | (w', Err e) => w' = w1 /\ (e = EReg Registry.ErrUnknownDB <-> backends (w_reg w1) !! m = None)
             | (_, Ok _) => is_Some (backends (w_reg w1) !! m)
             end).
Proof.
  intros P Ha Hc n. pose proof (Create_cases a w db P Ha) as H. pose proof (Create_pinv a w db P Ha) as P1.
  rewrite Hc in H, P1. cbn in P1. destruct H as (_ & Hb & be & h & Hfor & Hbe & Hen & Hhe & Hfe & Hst & Hse & Hfi & _).
  split; [|intros m; pose proof (Drop_cases io rm w1 m del P1) as H; destruct (Drop io rm w1 m del) as [w' [u|e]]; [by destruct H|];
           by destruct H as (? & _ & _ & ?)].
  fold n in Hb, Hbe, Hen, Hhe, Hfe.
  assert (entries (w_reg w) !! n = None) as Hn.
  { destruct (entries (w_reg w) !! n) eqn:E; [|done]. destruct (pi_entries w P n); [by eexists|congruence]. }
  pose proof (Drop_cases io rm w1 n del P1) as H. destruct (Drop io rm w1 n del) as [w2 [[]|e]] eqn:Ed.
  - exists w2. split; [done|]. destruct H as (_ & H1 & H2 & _ & H4 & H5 & _ & H6).
    split; [rewrite H1, Hbe; by apply delete_insert_id|]. split; [rewrite H2, Hen; by apply delete_insert_id|].
    split; [|split; [|exists be; split; [done|apply files_undone; [by rewrite H6, Hfi; unfold Registry.Backend; rewrite Hbe, lookup_insert_eq]]]].
    + rewrite H4, Hfe. unfold feed_register. destruct (w_feed w) as [f|] eqn:Ef; [|by cbn; rewrite Ef].
      assert (byName f !! n = None) as Hfn by (by apply (opt_byName_none w n P Hb)).
      destruct (Storage.Path be) as [p|]; cbn; [|rewrite Ef; cbn; by rewrite delete_id]. f_equal.
      unfold Feed.Register. destruct (String.eqb p ""); cbn; [by apply delete_id|by apply delete_insert_id].
    + intros -> s r Hs Hr. rewrite Hs in H5. destruct (w_store w1) as [s1|]; [|done]. cbn in H5. injection H5 as ->.
      cbn in Hr. apply list_elem_of_filter in Hr as [Hr _]. done.
  - exfalso. unfold Drop, Registry.Remove, Registry.detachIdleLocked in Ed.
    rewrite Hbe, Hen, Hhe, !lookup_insert_eq in Ed. cbn in Ed. rewrite lookup_insert_eq in Ed. cbn in Ed. done.
Qed.
End Provision.

(** ** A concrete server *)

Definition demo_file (n p : string) : database := Database n "file" p "rwc" (Pool 0 "" 0) "" ∅ None [].
Definition demo_world : pworld :=
  PWorld (Registry.New ∅) (Some empty_store) (Some (Feed.New 16 4)) (Some ∅) ∅ [].
Definition demo_encode (db : database) : option string := Some (db_name db).
Definition demo_decode (s : string) : option database := Some (demo_file s (s +:+ ".db")).
Definition demo_create (ans : answers) (w : pworld) (db : database) : pworld * result perr unit :=
  Create no_pragmas id demo_encode demo_resolver "/data" ans w db.
Definition demo_ok (k : nat) : answers := Answers k k (Ok k) true 7 (String.eqb "/data/a.db").
Definition demo_after : pworld := (demo_create (demo_ok 1) demo_world (demo_file "a" "a.db")).1.

Lemma demo_world_pinv : pinv demo_world.
Proof.
  split; intros.
  - match goal with H : is_Some _ |- _ => destruct H as [x H]; vm_compute in H; discriminate H end.
  - match goal with H : _ = Some _ |- _ => vm_compute in H; discriminate H end.
  - match goal with H : w_feed _ = Some ?f, H' : is_Some _ |- _ => injection H as <-; destruct H' as [x H']; vm_compute in H'; discriminate H' end.
Qed.

(** A create whose persisting fails: the file stays. *)
Definition demo_unpersisted : pworld * result perr unit :=
  demo_create (Answers 1 1 (Ok 1%nat) false 7 (String.eqb "/data/a.db")) demo_world (demo_file "a" "a.db").

Lemma create_is_all_or_nothing_witness :
  pinv demo_world /\ (demo_create (demo_ok 1) demo_world (demo_file "a" "a.db")).2 = Ok tt /\ observed demo_after "a" /\
  (demo_create (demo_ok 1) demo_world (demo_file "a" "../a.db")).2 = Err ErrBadSpec /\
  demo_unpersisted.2 = Err EPersist /\ same_state demo_world demo_unpersisted.1 /\ "/data/a.db"%string ∈ w_files demo_unpersisted.1.
Proof.
  split; [exact demo_world_pinv|]. split; [vm_compute; reflexivity|].
  assert (forall a, fresh_feed a demo_world) as Hff by (intros a f Hf p Hp; injection Hf as <-; vm_compute in Hp; discriminate Hp).
  split; [|split; [vm_compute; reflexivity|split; [vm_compute; reflexivity|]]].
  - pose proof (create_is_all_or_nothing no_pragmas id demo_encode demo_resolver "/data" demo_decode (demo_ok 1) demo_world
      (demo_file "a" "a.db") demo_world_pinv eq_refl (Hff _)) as H.
    unfold demo_after, demo_create.
    destruct (Create no_pragmas id demo_encode demo_resolver "/data" (demo_ok 1) demo_world (demo_file "a" "a.db")) as [w' [u|e]] eqn:E.
    + destruct H as (_ & _ & be & h & Hf & _ & _ & _ & Ho & _). cbn [fst]. apply Ho. split; [discriminate|].
      exists "/data/a.db"%string. split; [|discriminate]. vm_compute in Hf. injection Hf as <-. reflexivity.
    + vm_compute in E. discriminate E.
  - pose proof (create_is_all_or_nothing no_pragmas id demo_encode demo_resolver "/data" demo_decode
      (Answers 1 1 (Ok 1%nat) false 7 (String.eqb "/data/a.db")) demo_world (demo_file "a" "a.db") demo_world_pinv eq_refl (Hff _)) as H.
    unfold demo_unpersisted, demo_create. destruct (Create _ _ _ _ _ _ demo_world _) as [w' [u|e]] eqn:E.
    + vm_compute in E. discriminate E.
    + split; [exact (proj1 H)|]. cbn [fst]. vm_compute in E. injection E as <- _. apply (bool_decide_unpack _). vm_compute. exact I.
Defined.

Lemma create_then_drop_witness :
  exists w2, Drop true (fun _ => true) demo_after "a" true = (w2, Ok tt) /\ backends (w_reg w2) = backends (w_reg demo_world).
Proof.
  destruct (create_then_drop no_pragmas id demo_encode demo_resolver "/data" (demo_ok 1) demo_world (demo_file "a" "a.db")
    demo_after true (fun _ => true) true demo_world_pinv eq_refl ltac:(vm_compute; reflexivity)) as [(w2 & H1 & H2 & _) _].
  exists w2. split; [exact H1|exact H2].
Defined.

(** The feed is keyed by path: creating a second database over the file of a served one
    takes over its feed, and when the create fails the rollback forgets it, so the first
    database stays observed by name while no new connection to its file reports anywhere. *)
Lemma failed_create_detaches_served_feed :
  let ans := Answers 2 2 (Err "locked"%string) true 8 (fun _ => false) in
  let '(w', r) := demo_create ans demo_after (demo_file "b" "a.db") in
  r = Err ErrBadSpec /\ observed demo_after "a" /\ observed w' "a" /\
  (forall f, w_feed demo_after = Some f -> Feed.connect_hook id f "/data/a.db" = Some 1%nat) /\
  (forall f, w_feed w' = Some f -> Feed.connect_hook id f "/data/a.db" = None).
Proof.
  cbv zeta. destruct (demo_create _ demo_after _) as [w' r] eqn:E. vm_compute in E. injection E as <- <-.
  split; [reflexivity|]. split; [eexists; split; reflexivity|]. split; [eexists; split; reflexivity|].
  split; intros f Hf; vm_compute in Hf; injection Hf as <-; reflexivity.
Qed.
