(* ===== verification/Enroll.v ===== *)
(** * enroll: self-service enrollment

    [src/enroll/enroll.go].  A caller that proves possession of a key becomes a principal
    with a server-assigned name, the template's grants, and (if configured) a database of
    its own.  The service's own mutex protects the count and the rate limiter; a gate per
    principal serialises provisioning against revocation.  The provisioner is used through
    the interface [Provisioner]; the meta store, the authenticator and the policy are the
    real ones.  Every database statement may fail: an [io] gives the outcomes. *)
From S2P Require Import Prelude GoStd Crypto Wire Config Meta Authz Token Auth Limits Storage Registry Provision.
From Stdlib Require Import Floats.SpecFloat.

(** ** What the service needs of a provisioner *)

Class Provisioner (W A : Type) := {
  prov_inv : W -> Prop;
  prov_ready : A -> W -> Prop;              (* the call's allocations are new *)
  prov_served : W -> string -> bool;
  prov_create : A -> W -> database -> W * result perr unit;
  prov_drop : A -> W -> string -> W * result perr unit;   (* with the file *)
  prov_create_inv : forall a w db, prov_inv w -> prov_ready a w -> prov_inv (prov_create a w db).1;
  prov_drop_inv : forall a w n, prov_inv w -> prov_inv (prov_drop a w n).1;
  prov_create_served : forall a w db m, prov_inv w -> prov_ready a w ->
    prov_served (prov_create a w db).1 m =
      (if is_ok (prov_create a w db).2 then String.eqb m (db_name db) || prov_served w m else prov_served w m);
  prov_create_exists : forall a w db, prov_inv w -> prov_ready a w ->
    (prov_create a w db).2 = Err (EReg Registry.ErrExists) -> prov_served w (db_name db) = true;
  prov_drop_served : forall a w n m, prov_inv w ->
    prov_served (prov_drop a w n).1 m =
      (if is_ok (prov_drop a w n).2 then negb (String.eqb m n) && prov_served w m else prov_served w m);
  prov_drop_unknown : forall a w n, prov_inv w ->
    (prov_drop a w n).2 = Err (EReg Registry.ErrUnknownDB) -> prov_served w n = false
}.

(** The provisioner of [Provision.v] keeps that promise. *)
Section Instance.
Context {K : Type} (RecommendedPragmas : pragma_set) (canonicalPath : string -> string)
        (encode : database -> option string) (sec : Secret.Resolver K) (dataDir : string).

Definition served (w : pworld) (n : string) : bool := bool_decide (is_Some (backends (w_reg w) !! n)).
Definition create_call (a : answers * (bool * (string -> bool))) (w : pworld) (db : database) :=
  Provision.Create RecommendedPragmas canonicalPath encode sec dataDir a.1 w db.
Definition drop_call (a : answers * (bool * (string -> bool))) (w : pworld) (n : string) :=
  Provision.Drop a.2.1 a.2.2 w n true.

#[export] Program Instance provision_provisioner : Provisioner pworld (answers * (bool * (string -> bool))) := {
  prov_inv := pinv;
  prov_ready a w := fresh_answers a.1 w;
  prov_served := served;
  prov_create := create_call;
  prov_drop := drop_call
}.
Next Obligation. intros a w db P Ha. by apply Create_pinv. Qed.
Next Obligation. intros a w n P. by apply Drop_pinv. Qed.
Next Obligation.
  intros a w db m P Ha. unfold create_call, served.
  pose proof (Create_cases RecommendedPragmas canonicalPath encode sec dataDir a.1 w db P Ha) as H.
  destruct (Create _ _ _ _ _ a.1 w db) as [w' [u|e]]; cbn.
  - destruct H as (_ & _ & be & h & _ & -> & _). rewrite lookup_insert.
    destruct (String.eqb_spec m (db_name db)) as [->|Hne]; [rewrite decide_True by done|rewrite decide_False by congruence]; [|done].
    by apply bool_decide_eq_true.
  - destruct H as [H _]. by rewrite (ss_backends _ _ H).
Qed.
Next Obligation.
  intros a w db P Ha He. unfold create_call, served in *.
  pose proof (Create_cases RecommendedPragmas canonicalPath encode sec dataDir a.1 w db P Ha) as H.
  destruct (Create _ _ _ _ _ a.1 w db) as [w' [u|e]]; cbn in He; [done|]. injection He as ->.
  destruct H as (_ & _ & [H _]). apply bool_decide_eq_true. by apply H.
Qed.
Next Obligation.
  intros a w n m P. unfold drop_call, served. pose proof (Drop_cases a.2.1 a.2.2 w n true P) as H.
  destruct (Drop _ _ w n true) as [w' [u|e]]; cbn; [|by destruct H as [-> _]].
  destruct H as (_ & -> & _). rewrite lookup_delete.
  destruct (String.eqb_spec m n) as [->|Hne]; [rewrite decide_True by done|rewrite decide_False by congruence]; [|done].
  by apply bool_decide_eq_false; intros [].
Qed.
Next Obligation.
  intros a w n P He. unfold drop_call, served in *. pose proof (Drop_cases a.2.1 a.2.2 w n true P) as H.
  destruct (Drop _ _ w n true) as [w' [u|e]]; cbn in He; [done|]. injection He as ->. destruct H as (_ & _ & _ & [H _]).
  apply bool_decide_eq_false. rewrite H by done. by intros [].
Qed.
End Instance.

(** ** Names *)

(** [base32.StdEncoding] without padding, lower-cased: five bits a letter, first bit first. *)
Definition b32_alphabet : string := "abcdefghijklmnopqrstuvwxyz234567".
Definition byte_bits (b : byte) : list bool := map (fun i => Z.testbit (bz b) (7 - Z.of_nat i)) (seq 0 8).
Definition quintet (l : list bool) : Z := fold_left (fun acc i => 2 * acc + (if nth i l false then 1 else 0)) (seq 0 5) 0.
Definition b32_letter (n : Z) : ascii := default "a"%char (String.get (Z.to_nat n) b32_alphabet).
Fixpoint b32_bits (fuel : nat) (l : list bool) : string :=
  match fuel, l with
  | S k, _ :: _ => String (b32_letter (quintet l)) (b32_bits k (drop 5 l))
  | _, _ => EmptyString
  end.
Definition base32_lower (l : list byte) : string := b32_bits (8 * length l) (flat_map byte_bits l).

Definition enrolledPrefix : string := "u_".
Definition PrincipalName (canonicalKey : string) : string :=
  enrolledPrefix +:+ base32_lower (take 10 (Sha256.sum (bytes_of canonicalKey))).

(** [strings.ReplaceAll] for a non-empty pattern. *)
Fixpoint replace_fuel (fuel : nat) (old new s : string) : string :=
  match fuel, s with
  | S k, String c r =>
      match cut_prefix old s with
      | Some t => new +:+ replace_fuel k old new t
      | None => String c (replace_fuel k old new r)
      end
  | _, _ => s
  end.
Definition ReplaceAll (s old new : string) : string := replace_fuel (String.length s) old new s.

(** ** The per-address token bucket *)

Definition bucketBurst : spec_float := f64_of_Z 3.
Definition maxBuckets : nat := 4096.

(** [time.Duration(f)]: truncation; out of range is the amd64 answer, the least int64. *)
Definition f_to_int64 (f : spec_float) : Z :=
  match f with
  | S754_zero _ => 0
  | S754_finite s m e =>
      let n := if 0 <=? e then Z.pos m * 2 ^ e else Z.pos m / 2 ^ (- e) in
      let z := if s then - n else n in
      if (- two63 <=? z) && (z <? two63) then z else - two63
  | _ => - two63
  end.

Record service := Service {
  cfg : Config.enroll;
  tokens : list string;                     (* hex(sha256) of the static tokens *)
  prov_wired : bool;
  count : Z;
  buckets : gmap string bucket;
  seen : gmap string Z
}.
Definition set_count (s : service) (n : Z) : service :=
  Service (cfg s) (tokens s) (prov_wired s) n (buckets s) (seen s).
Definition set_buckets (s : service) (b : gmap string bucket) : service :=
  Service (cfg s) (tokens s) (prov_wired s) (count s) b (seen s).
Definition set_seen (s : service) (m : gmap string Z) : service :=
  Service (cfg s) (tokens s) (prov_wired s) (count s) (buckets s) m.

(** Go's [min] on float64: a NaN wins. *)
Definition f_min (a b : spec_float) : spec_float :=
  match a, b with S754_nan, _ => S754_nan | _, S754_nan => S754_nan | _, _ => if SFltb b a then b else a end.

Definition evict_idle (s : service) : Z := i64 (f_to_int64 (f_div bucketBurst (e_rate (cfg s))) * second).

Definition allow (s : service) (now : Z) (ip : string) : service * bool :=
  if SFleb (e_rate (cfg s)) (S754_zero false) then (s, true) else
  match buckets s !! ip with
  | Some b =>
      let t := f_min bucketBurst (f_add (Limits.tokens b) (f_mul (Seconds (time_sub now (Limits.last b))) (e_rate (cfg s)))) in
      if SFltb t f_one then (set_buckets s (<[ip := Bucket t now]> (buckets s)), false)
      else (set_buckets s (<[ip := Bucket (f_sub t f_one) now]> (buckets s)), true)
  | None =>
      let m := if (maxBuckets <=? size (buckets s))%nat
               then filter (fun kb => time_sub now (Limits.last kb.2) <= evict_idle s) (buckets s)
               else buckets s in
      if (maxBuckets <=? size m)%nat then (set_buckets s m, false)
      else (set_buckets s (<[ip := Bucket (f_sub bucketBurst f_one) now]> m), true)
  end.

(** ** The service over its collaborators *)

Inductive reply : Type :=
| Created (principal : string) (created : bool)    (* 200 *)
| Refused (status : Z).
#[export] Instance reply_eq_dec : EqDecision reply.
Proof. solve_decision. Defined.

(** What one request finds outside: its remote address ([remoteIP]), the text of a
    provisioning error, and the outcome of each statement it runs. *)
Record io := IO {
  i_ip : string; i_errtext : string;
  i_lookup : bool; i_code : bool; i_consume : bool; i_put : bool;
  i_recheck : bool; i_delete : bool; i_release : bool; i_audit : bool
}.
Definition io_fine : io := IO "10.0.0.1" "" true true true true true true true true.

Section Enroll.
Context {W A : Type} `{!Provisioner W A}.
Variable sec_bytes : string -> result Secret.secerr string.
Variable parse_key : string -> option (string * string * string).
Variable verify_sig : string -> list byte -> list byte -> bool.
Variable decode_token : string -> option string.     (* the body's enroll_token *)

Record eworld := EWorld {
  e_svc : service;
  e_store : Meta.store;
  e_auth : Auth.authenticator;
  e_pol : Authz.policy;
  e_db : W
}.
Definition set_svc (w : eworld) (s : service) : eworld := EWorld s (e_store w) (e_auth w) (e_pol w) (e_db w).
Definition set_estore (w : eworld) (s : Meta.store) : eworld := EWorld (e_svc w) s (e_auth w) (e_pol w) (e_db w).
Definition set_auth (w : eworld) (a : Auth.authenticator) : eworld := EWorld (e_svc w) (e_store w) a (e_pol w) (e_db w).
Definition set_pol (w : eworld) (p : Authz.policy) : eworld := EWorld (e_svc w) (e_store w) (e_auth w) p (e_db w).
Definition set_db (w : eworld) (d : W) : eworld := EWorld (e_svc w) (e_store w) (e_auth w) (e_pol w) d.

(** [New]: the tokens are resolved eagerly; one that resolves to nothing fails startup. *)
Fixpoint resolve_tokens (refs : list string) : option (list string) :=
  match refs with
  | [] => Some []
  | r :: rs =>
      match Auth.resolve sec_bytes r, resolve_tokens rs with
      | Ok h, Some l => if String.eqb h "" then None else Some (to_lower h :: l)
      | _, _ => None
      end
  end.
Definition New (c : Config.enroll) (wired : bool) : option service :=
  match resolve_tokens (e_tokens c) with Some l => Some (Service c l wired 0 ∅ ∅) | None => None end.

Definition audit_as (o : io) (now : Z) (w : eworld) (principal action detail : string) : eworld :=
  set_estore w (default (e_store w) (Meta.Audit (i_audit o) now (Some (e_store w)) principal action "" detail)).

Definition apply_grant (name : string) (p : Authz.policy) (g : enrollGrant) : Authz.policy :=
  match ParseLevel (eg_level g) with (lvl, true) => Authz.Grant p (eg_db g) name lvl | (_, false) => p end.
Definition applyGrants (s : service) (p : Authz.policy) (name : string) : Authz.policy :=
  fold_left (apply_grant name) (e_grants (cfg s)) p.

(** Startup: every row whose key still parses is admitted again; [key_of] is
    [ParseEd25519PublicKey]. *)
Definition load_one (key_of : string -> option string) (acc : eworld * Z) (r : Meta.Enrolled) : eworld * Z :=
  let '(w, n) := acc in
  match key_of (Meta.Key r) with
  | None => (w, n)
  | Some pub =>
      (set_pol (set_auth w (Auth.AddKeyring (e_auth w) (Meta.Key r) pub (Meta.Name r)))
         (applyGrants (e_svc w) (e_pol w) (Meta.Name r)), n + 1)
  end.
Definition LoadExisting (key_of : string -> option string) (io_list : bool) (w : eworld) : eworld * result merr Z :=
  match Meta.EnrolledList io_list (e_store w) with
  | Err e => (w, Err e)
  | Ok l =>
      let '(w1, n) := fold_left (load_one key_of) l (w, 0) in
      (set_svc w1 (set_count (e_svc w1) n), Ok n)
  end.

(** ** Tokens and codes *)

Definition maxBodyBytes : nat := 4096.
Definition readEnrollToken (body : string) : string := default ""%string (decode_token (substring 0 maxBodyBytes body)).

Definition token_hash (token : string) : string := hex_encode (Sha256.sum (bytes_of token)).

(** Valid tokens: [Some ""] for a static one, [Some hash] for a single-use code. *)
Definition validateToken (o : io) (now : Z) (w : eworld) (token : string) : option string :=
  if String.eqb token "" then None else
  if mem_string (token_hash token) (tokens (e_svc w)) then Some ""%string
  else if e_codes (cfg (e_svc w)) then
    match Meta.EnrollCodeValid (i_code o) (e_store w) (token_hash token) now with
    | Ok true => Some (token_hash token)
    | _ => None
    end
  else None.

Inductive merror : Type := ErrCodesDisabled | ErrStore.
(** [raw] is what the random source gives. *)
Definition MintCode (io_gc io_put : bool) (now : Z) (raw : list byte) (w : eworld) : eworld * result merror (string * Z) :=
  if negb (e_codes (cfg (e_svc w))) then (w, Err ErrCodesDisabled) else
  let code := "ec_" +:+ base32_lower raw in
  let s1 := Meta.GCEnrollCodes io_gc (e_store w) (now / second) in
  let expires := (now + e_codes_ttl (cfg (e_svc w))) / second in
  match Meta.PutEnrollCode io_put s1 (token_hash code) (now / second) expires with
  | Ok s2 => (set_estore w s2, Ok (code, expires))
  | Err _ => (set_estore w s1, Err ErrStore)
  end.

(** ** Enrolling: the section under the service mutex *)

Inductive outcome : Type := Done (r : reply) | EnrolledNow (codeHash : string).

Definition consume_code (o : io) (now : Z) (s : Meta.store) (h : string) : result merr (Meta.store * bool) :=
  if String.eqb h "" then Ok (s, true) else Meta.ConsumeEnrollCode (i_consume o) s h now.
Definition release_code (o : io) (w : eworld) (h : string) : eworld :=
  if String.eqb h "" then w else set_estore w (Meta.ReleaseEnrollCode (i_release o) (e_store w) h).

Definition at_capacity (s : service) : bool := (e_max (cfg s) >? 0) && (count s >=? e_max (cfg s)).

Definition enroll_locked (o : io) (now : Z) (w : eworld) (canon pub presented : string) : eworld * outcome :=
  let name := PrincipalName canon in
  match Meta.EnrolledByKey (i_lookup o) (e_store w) canon with
  | Err _ => (w, Done (Refused 500))
  | Ok (Some existing) => (w, Done (Created existing false))
  | Ok None =>
      match (if String.eqb (e_policy (cfg (e_svc w))) "token" then validateToken o now w presented else Some ""%string) with
      | None => (audit_as o now w "" "enroll.denied" ("missing/invalid enrollment token ip=" +:+ i_ip o), Done (Refused 403))
      | Some h =>
          if at_capacity (e_svc w) then (audit_as o now w "" "enroll.denied" ("max_principals reached ip=" +:+ i_ip o), Done (Refused 429)) else
          match consume_code o now (e_store w) h with
          | Err _ => (w, Done (Refused 500))
          | Ok (s1, false) =>
              (audit_as o now (set_estore w s1) "" "enroll.denied" ("enrollment code already used or expired ip=" +:+ i_ip o), Done (Refused 403))
          | Ok (s1, true) =>
              match Meta.PutEnrolled (i_put o) now s1 name canon with
              | Err _ => (release_code o (set_estore w s1) h, Done (Refused 500))
              | Ok s2 =>
                  (EWorld (set_count (e_svc w) (count (e_svc w) + 1)) s2 (Auth.AddKeyring (e_auth w) canon pub name)
                     (applyGrants (e_svc w) (e_pol w) name) (e_db w), EnrolledNow h)
              end
          end
      end
  end.

(** ** Provisioning, under the principal's gate *)

Definition provisionEnabled (s : service) : bool := prov_wired s && pv_enabled (e_provision (cfg s)).
Definition provisionName (s : service) (principal : string) : string :=
  ReplaceAll (pv_template (e_provision (cfg s))) "{principal}" principal.

Definition provisionSpec (s : service) (principal : string) : option database :=
  let p := e_provision (cfg s) in
  let name := provisionName s principal in
  if negb (ValidDBName name) then None else
  let on_disk := UsesPath (pv_backend p) in
  let pragmas := if pv_max_bytes p >? 0
                 then <["max_page_count"%string := PInt (pv_max_bytes p / ProvisionPageSize)]> (pv_pragmas p)
                 else pv_pragmas p in
  Some (Database name (pv_backend p)
          (if on_disk then name +:+ (if String.eqb (pv_backend p) "vault" then ".vault" else ".db") else "")
          (if on_disk then "rwc" else "") (Pool 0 "" 0) (pv_preset p) pragmas (pv_vault p)
          [Config.Grant principal (pv_level p)]).

Definition provisionFor (a : A) (w : eworld) (principal : string) : eworld * bool :=
  match provisionSpec (e_svc w) principal with
  | None => (w, false)
  | Some spec =>
      let '(d, r) := prov_create a (e_db w) spec in
      let w1 := set_db w d in
      let granted := match ParseLevel (pv_level (e_provision (cfg (e_svc w)))) with
                     | (lvl, true) => set_pol w1 (Authz.Grant (e_pol w1) (db_name spec) principal lvl)
                     | (_, false) => w1
                     end in
      match r with
      | Ok _ => (granted, true)
      | Err (EReg Registry.ErrExists) => (granted, true)
      | Err _ => (w1, false)
      end
  end.

(** [rollbackEnroll]: the part under the mutex, then the code. *)
Definition rollback_locked (o : io) (w : eworld) (name : string) : eworld :=
  let w1 := match Meta.DeleteEnrolled (i_delete o) (e_store w) name with
            | Ok (s, true) => EWorld (set_count (e_svc w) (count (e_svc w) - 1)) s (e_auth w) (e_pol w) (e_db w)
            | Ok (s, false) => set_estore w s
            | Err _ => w
            end in
  set_pol (set_auth w1 (Auth.RemoveKeyringName (e_auth w1) name)) (Authz.RevokePrincipal (e_pol w1) name).
Definition rollbackEnroll (o : io) (w : eworld) (name codeHash : string) : eworld :=
  release_code o (rollback_locked o w name) codeHash.

(** The recheck of the row once the gate is held. *)
Definition still_enrolled (o : io) (w : eworld) (canon : string) : bool :=
  match Meta.EnrolledByKey (i_recheck o) (e_store w) canon with Ok (Some _) => true | _ => false end.

Definition provision_gated (o : io) (now : Z) (a : A) (w : eworld) (canon name codeHash : string) : eworld * reply :=
  if negb (still_enrolled o w canon) then
    (audit_as o now (rollbackEnroll o w name codeHash) name "enroll.failed" "revoked or unconfirmed before provisioning", Refused 409)
  else
    match provisionFor a w name with
    | (w1, false) => (audit_as o now (rollbackEnroll o w1 name codeHash) name "enroll.failed" ("provision: " +:+ i_errtext o), Refused 500)
    | (w1, true) => (audit_as o now w1 name "enroll.created" ("ip=" +:+ i_ip o), Created name true)
    end.

Definition remoteIP (r : Auth.request) : string :=
  match SplitHostPort (r_remote r) with Some (host, _) => host | None => r_remote r end.

(** ** The handler, run alone *)

Record request_in := RequestIn {
  q_req : Auth.request; q_body : string
}.

(** [now] in nanoseconds; the store takes seconds. *)
Definition ServeHTTP (o : io) (now : Z) (a : A) (w : eworld) (q : request_in) : eworld * reply :=
  if negb (String.eqb (r_method (q_req q)) "POST") then (w, Refused 405) else
  let '(s1, ok) := allow (e_svc w) now (i_ip o) in
  let w1 := set_svc w s1 in
  if negb ok then (w1, Refused 429) else
  match Auth.VerifyPresented parse_key verify_sig (e_auth w1) now (q_req q) with
  | Err _ => (audit_as o (now / second) w1 "" "enroll.denied" ("invalid possession proof ip=" +:+ i_ip o), Refused 401)
  | Ok (canon, pub) =>
      let presented := if String.eqb (e_policy (cfg s1)) "token" then readEnrollToken (q_body q) else ""%string in
      match enroll_locked o (now / second) w1 canon pub presented with
      | (w2, Done r) => (w2, r)
      | (w2, EnrolledNow h) =>
          if provisionEnabled (e_svc w2) then provision_gated o (now / second) a w2 canon (PrincipalName canon) h
          else (audit_as o (now / second) w2 (PrincipalName canon) "enroll.created" ("ip=" +:+ i_ip o), Created (PrincipalName canon) true)
      end
  end.

(** ** Revocation and idleness *)

Inductive delerr : Type := DBusy | DProvision (e : perr) | DStore.

(** The drop comes first and may refuse; an unknown database is tolerated. *)
Definition delete_drop (a : A) (w : eworld) (name : string) : eworld * option delerr :=
  if provisionEnabled (e_svc w) && String.eqb (pv_on_revoke (e_provision (cfg (e_svc w)))) "drop" then
    let '(d, r) := prov_drop a (e_db w) (provisionName (e_svc w) name) in
    (set_db w d, match r with
                 | Ok _ => None
                 | Err (EReg Registry.ErrUnknownDB) => None
                 | Err (EReg Registry.ErrBusy) => Some DBusy
                 | Err e => Some (DProvision e)
                 end)
  else (w, None).

Definition Delete (io_del : bool) (a : A) (w : eworld) (name : string) : eworld * result delerr bool :=
  match delete_drop a w name with
  | (w1, Some e) => (w1, Err e)
  | (w1, None) =>
      match Meta.DeleteEnrolled io_del (e_store w1) name with
      | Err _ => (w1, Err DStore)
      | Ok (s, false) => (set_estore w1 s, Ok false)
      | Ok (s, true) =>
          (EWorld (set_count (e_svc w1) (count (e_svc w1) - 1)) s (Auth.RemoveKeyringName (e_auth w1) name)
             (Authz.RevokePrincipal (e_pol w1) name) (e_db w1), Ok true)
      end
  end.

Definition Touch (w : eworld) (now : Z) (name : string) : eworld :=
  if e_idle (cfg (e_svc w)) <=? 0 then w
  else if negb (has_prefix enrolledPrefix name) then w
  else set_svc w (set_seen (e_svc w) (<[name := now]> (seen (e_svc w)))).

(** [concurrent]: what [Touch] buffered between the two critical sections; a batch that
    could not be written is buffered again, the newer time winning. *)
Definition rebuffer (batch cur : gmap string Z) : gmap string Z :=
  union_with (fun a b => Some (if a >? b then a else b)) batch cur.
Definition flushSeen (io_begin io_commit : bool) (bad : string -> bool) (concurrent : gmap string Z) (w : eworld) : eworld :=
  if bool_decide (seen (e_svc w) = ∅) then w else
  match Meta.TouchEnrolled io_begin io_commit bad (e_store w) (map_to_list (seen (e_svc w))) with
  | Ok s => set_estore (set_svc w (set_seen (e_svc w) concurrent)) s
  | Err _ => set_svc w (set_seen (e_svc w) (rebuffer (seen (e_svc w)) concurrent))
  end.

(** [ttl]: [int64(IdleTTL.Seconds())]. *)
Definition ttl_seconds (s : service) : Z := f_to_int64 (Seconds (e_idle (cfg s))).

Fixpoint reap_each (io_del : string -> bool) (a : A) (now : Z) (w : eworld) (names : list string) : eworld * Z :=
  match names with
  | [] => (w, 0)
  | n :: r =>
      match Delete (io_del n) a w n with
      | (w1, Ok true) =>
          let '(w2, k) := reap_each io_del a now (audit_as io_fine now w1 n "enroll.idle_gc" "") r in (w2, k + 1)
      | (w1, _) => reap_each io_del a now w1 r
      end
  end.
Definition reap (io_begin io_commit io_scan : bool) (io_del : string -> bool) (a : A) (w : eworld) (now : Z) : eworld * Z :=
  if e_idle (cfg (e_svc w)) <=? 0 then (w, 0) else
  let w1 := flushSeen io_begin io_commit (fun _ => false) ∅ w in
  match Meta.IdleEnrolled io_scan (e_store w1) (now - ttl_seconds (e_svc w1)) with
  | Err _ => (w1, 0)
  | Ok idle => reap_each io_del a now w1 idle
  end.

(** [StartIdleReaper]: the tick is a twentieth of the time to live, at least [floor] and at
    most an hour; a tick brings its time and what the statements of [reap] answer. *)
Record reap_io := ReapIO { ri_now : Z; ri_begin : bool; ri_commit : bool; ri_scan : bool; ri_del : string -> bool; ri_prov : A }.
Definition idle_interval (s : service) (floor : Z) : Z := Z.min (Z.max (e_idle (cfg s) ÷ 20) floor) (3600 * second).
Definition StartIdleReaper (last_begin last_commit : bool) (w : eworld) (ss : list (signal reap_io)) : eworld * bool :=
  if e_idle (cfg (e_svc w)) <=? 0 then (w, false) else
  ticker (fun w t => (reap (ri_begin t) (ri_commit t) (ri_scan t) (ri_del t) (ri_prov t) w (ri_now t)).1)
         (flushSeen last_begin last_commit (fun _ => false) ∅) w ss.

(** [List], for the control plane. *)
Definition List_ (io_list : bool) (w : eworld) : result merr (list Enrolled) := Meta.EnrolledList io_list (e_store w).

(** *** The mutex section *)

Lemma audit_fields o now w p x d : let w' := audit_as o now w p x d in
  e_svc w' = e_svc w /\ e_auth w' = e_auth w /\ e_pol w' = e_pol w /\ e_db w' = e_db w /\
  enrolled (e_store w') = enrolled (e_store w) /\ enroll_codes (e_store w') = enroll_codes (e_store w) /\
  databases (e_store w') = databases (e_store w).
Proof. unfold audit_as, Meta.Audit. cbn. by destruct (i_audit o). Qed.

Lemma PutEnrolled_ok io now s n k s' : Meta.PutEnrolled io now s n k = Ok s' ->
  enrolled s' = enrolled s ++ [ERow n k now None] /\ enroll_codes s' = enroll_codes s /\ databases s' = databases s /\
  n ∉ map er_name (enrolled s) /\ k ∉ map er_key (enrolled s).
Proof.
  unfold Meta.PutEnrolled. rewrite existsb_orb. destruct (existsb _ _ || existsb _ _) eqn:E; [done|].
  apply orb_false_iff in E as [E1 E2]. intros [_ <-]%exec_ok. cbn. split; [done|]. split; [done|]. split; [done|].
  split; by apply not_exists_map.
Qed.

Lemma consume_code_fields o now s h s' b : consume_code o now s h = Ok (s', b) ->
  enrolled s' = enrolled s /\ databases s' = databases s /\ (b = false -> enroll_codes s' = enroll_codes s).
Proof.
  unfold consume_code. destruct (String.eqb h ""); [by intros [= <- <-]|].
  unfold Meta.ConsumeEnrollCode. intros [_ [= <- <-]]%exec_ok. cbn. split; [done|]. split; [done|]. intros Hn.
  rewrite <- (map_id (enroll_codes s)) at 2. apply map_ext_in. intros c Hc.
  destruct (live h now c) eqn:El; [|done]. assert (existsb (live h now) (enroll_codes s) = true); [|congruence].
  apply existsb_exists. by exists c.
Qed.

(** Releasing what was just consumed restores the table. *)
Lemma release_consumed o now s h s' : store_wf s -> i_release o = true -> consume_code o now s h = Ok (s', true) ->
  forall w, e_store w = s' -> enroll_codes (e_store (release_code o w h)) = enroll_codes s.
Proof.
  intros Hs Hr Hc w Hw. unfold consume_code, release_code in *. destruct (String.eqb h ""); [injection Hc as <-; by rewrite Hw|].
  unfold Meta.ConsumeEnrollCode in Hc. apply exec_ok in Hc as [_ [= <- Hl]]. rewrite Hw. unfold Meta.ReleaseEnrollCode.
  rewrite Hr. cbn. rewrite map_map. apply existsb_exists in Hl as (c0 & Hc0 & Hl0).
  assert (c_hash c0 = h /\ c_used c0 = None) as [Hh Hu] by (unfold live in Hl0; bool_to_prop; done).
  rewrite <- (map_id (enroll_codes s)) at 2. apply map_ext_in. intros c Hin.
  assert (c_hash c = h -> c = c0) as Huniq.
  { intros Hch. pose proof (wf_hashes s Hs) as Hnd. apply list_elem_of_In in Hin, Hc0.
    apply list_elem_of_lookup in Hin as [i Hi]. apply list_elem_of_lookup in Hc0 as [j Hj].
    assert (i = j) as ->; [|congruence]. eapply NoDup_lookup; [exact Hnd| |].
    - rewrite list_lookup_fmap, Hi. done.
    - rewrite list_lookup_fmap, Hj. cbn. congruence. }
  destruct (live h now c) eqn:El; cbn.
  - unfold live in El. bool_to_prop. match goal with H : c_hash c = h |- _ => rewrite (proj2 (String.eqb_eq _ _) H) end.
    destruct c; cbn in *; congruence.
  - destruct (String.eqb_spec (c_hash c) h) as [Hch|]; [|done]. rewrite (Huniq Hch) in *. destruct c0; cbn in *; congruence.
Qed.

(** What an idle service keeps: the schema's constraints, server-assigned names, a count
    that is the number of rows, and a dynamic keyring that holds enrolled keys only. *)
Record ewf (w : eworld) : Prop := {
  ew_store : store_wf (e_store w);
  ew_names : forall r, r ∈ enrolled (e_store w) -> er_name r = PrincipalName (er_key r);
  ew_count : count (e_svc w) = Z.of_nat (length (enrolled (e_store w)));
  ew_keys : forall c cr, dynKeyring (e_auth w) !! c = Some cr ->
    exists r, r ∈ enrolled (e_store w) /\ er_key r = c /\ er_name r = kc_name cr;
  ew_prov : prov_inv (e_db w)
}.

(** Everything an enrollment could have left behind is as it was. *)
Record untouched (name : string) (w w' : eworld) : Prop := {
  un_rows : enrolled (e_store w') = enrolled (e_store w);
  un_codes : enroll_codes (e_store w') = enroll_codes (e_store w);
  un_specs : databases (e_store w') = databases (e_store w);
  un_count : count (e_svc w') = count (e_svc w);
  un_auth : e_auth w' = e_auth w;
  un_grants : forall db subj, subj <> name -> stored (e_pol w') db subj = stored (e_pol w) db subj;
  un_level : forall db, stored (e_pol w') db name = stored (e_pol w) db name \/ stored (e_pol w') db name = LNone;
  un_served : forall m, prov_served (e_db w') m = prov_served (e_db w) m;
  un_inv : prov_inv (e_db w) -> prov_inv (e_db w')
}.

Lemma untouched_audit name o now w w' p x d : untouched name w w' -> untouched name w (audit_as o now w' p x d).
Proof.
  intros []. destruct (audit_fields o now w' p x d) as (H1 & H2 & H3 & H4 & H5 & H6 & H7).
  split; rewrite ?H1, ?H2, ?H3, ?H4, ?H5, ?H6, ?H7; done.
Qed.
Lemma untouched_refl name w : untouched name w w.
Proof. split; auto. Qed.

Lemma revoke_frame p name db subj :
  stored (Authz.RevokePrincipal p name) db subj = if String.eqb subj name then LNone else stored p db subj.
Proof. exact (stored_step p (OpRevokePrincipal name) db subj). Qed.
Lemma grant_frame p d name lvl db subj :
  stored (Authz.Grant p d name lvl) db subj =
    if String.eqb db d && String.eqb subj name then max_level lvl (stored p db subj) else stored p db subj.
Proof. exact (stored_step p (OpGrant d name lvl) db subj). Qed.

Lemma grants_frame s name p db subj :
  (subj <> name -> stored (applyGrants s p name) db subj = stored p db subj) /\
  (stored (applyGrants s p name) db name <> stored p db name -> exists g, g ∈ e_grants (cfg s) /\ eg_db g = db).
Proof.
  unfold applyGrants. generalize (e_grants (cfg s)) as l. intros l. revert p.
  induction l as [|g l IH]; intros p; [done|]. cbn [fold_left].
  assert (forall db subj, stored (apply_grant name p g) db subj = stored p db subj \/ subj = name /\ db = eg_db g) as Hg.
  { intros db' subj'. unfold apply_grant. destruct (ParseLevel (eg_level g)) as [lvl []]; [|by left].
    rewrite grant_frame.
    destruct (String.eqb_spec db' (eg_db g)), (String.eqb_spec subj' name); cbn; auto. }
  destruct (IH (apply_grant name p g)) as [H1 H2]. split.
  - intros Hne. rewrite H1 by done. destruct (Hg db subj) as [|[? _]]; [done|congruence].
  - intros Hd. destruct (decide (stored (fold_left (apply_grant name) l (apply_grant name p g)) db name = stored (apply_grant name p g) db name)) as [E|E].
    + destruct (Hg db name) as [H|[_ ->]]; [congruence|]. exists g. split; [by left|done].
    + destruct (H2 E) as (g' & ? & ?). exists g'. split; [by right|done].
Qed.


(** The mutex section: a refusal leaves no trace (its own undo succeeding); an admission
    adds one row, one key and the template's grants. *)
Lemma enroll_locked_cases o now w canon pub presented : store_wf (e_store w) -> i_release o = true ->
  let name := PrincipalName canon in
  match enroll_locked o now w canon pub presented with
  | (w', Done r) => untouched name w w' /\
      (forall n c, r = Created n c -> c = false /\ exists x, x ∈ enrolled (e_store w) /\ er_key x = canon /\ er_name x = n)
  | (w', EnrolledNow h) =>
      enrolled (e_store w') = enrolled (e_store w) ++ [ERow name canon now None] /\
      name ∉ map er_name (enrolled (e_store w)) /\ canon ∉ map er_key (enrolled (e_store w)) /\
      at_capacity (e_svc w) = false /\
      e_svc w' = set_count (e_svc w) (count (e_svc w) + 1) /\
      e_auth w' = Auth.AddKeyring (e_auth w) canon pub name /\
      e_pol w' = applyGrants (e_svc w) (e_pol w) name /\ e_db w' = e_db w /\
      (e_policy (cfg (e_svc w)) = "token"%string -> validateToken o now w presented = Some h) /\
      (e_policy (cfg (e_svc w)) <> "token"%string -> h = ""%string) /\
      databases (e_store w') = databases (e_store w) /\
      exists s1, consume_code o now (e_store w) h = Ok (s1, true) /\ enroll_codes (e_store w') = enroll_codes s1
  end.
Proof.
  intros Wf Hrel name. unfold enroll_locked. fold name.
  destruct (Meta.EnrolledByKey (i_lookup o) (e_store w) canon) as [[n|]|e] eqn:Ek;
    [|..|split; [apply untouched_refl|by intros]].
  - split; [apply untouched_refl|]. intros n' c [= <- <-]. split; [done|].
    unfold Meta.EnrolledByKey in Ek. apply exec_ok in Ek as [_ Ek].
    apply fmap_Some in Ek as ([i x] & Hx & ->). apply list_find_Some in Hx as (Hi & Hkey & _).
    exists x. split; [by eapply list_elem_of_lookup_2|done].
  - destruct (if String.eqb _ _ then _ else _) as [h|] eqn:Ev;
      [|split; [apply untouched_audit, untouched_refl|by intros]].
    destruct (at_capacity (e_svc w)) eqn:Ec; [split; [apply untouched_audit, untouched_refl|by intros]|].
    destruct (consume_code o now (e_store w) h) as [[s1 []]|e] eqn:Eco; [| |split; [apply untouched_refl|by intros]].
    + destruct (consume_code_fields _ _ _ _ _ _ Eco) as (Hr1 & Hd1 & _).
      destruct (Meta.PutEnrolled (i_put o) now s1 name canon) as [s2|e] eqn:Ep.
      * apply PutEnrolled_ok in Ep as (Hp1 & Hp2 & Hp3 & Hp4 & Hp5). rewrite Hr1 in Hp1, Hp4, Hp5. cbn.
        repeat (split; [done|]). split; [intros Hpol; by rewrite Hpol in Ev|]. split.
        -- intros Hpol. rewrite (proj2 (String.eqb_neq _ _) Hpol) in Ev. by injection Ev as <-.
        -- split; [congruence|]. by exists s1.
      * split; [|by intros]. assert (enroll_codes (e_store (release_code o (set_estore w s1) h)) = enroll_codes (e_store w)) as Hco.
        { eapply release_consumed; [exact Wf|done|exact Eco|done]. }
        unfold release_code in *. destruct (String.eqb h ""); split; cbn in *; auto; unfold Meta.ReleaseEnrollCode; rewrite Hrel; done.
    + destruct (consume_code_fields _ _ _ _ _ _ Eco) as (Hr1 & Hd1 & Hc1). split; [|by intros].
      apply untouched_audit. split; cbn; auto.
Qed.

(** *** Provisioning and its undo *)

Lemma provisionFor_cases a w name : prov_inv (e_db w) -> prov_ready a (e_db w) ->
  let '(w', ok) := provisionFor a w name in
  e_store w' = e_store w /\ e_auth w' = e_auth w /\ e_svc w' = e_svc w /\ prov_inv (e_db w') /\
  (forall db subj, subj <> name \/ db <> provisionName (e_svc w) name -> stored (e_pol w') db subj = stored (e_pol w) db subj) /\
  (ok = false -> e_pol w' = e_pol w /\ forall m, prov_served (e_db w') m = prov_served (e_db w) m) /\
  (ok = true -> forall m, prov_served (e_db w') m = String.eqb m (provisionName (e_svc w) name) || prov_served (e_db w) m).
Proof.
  intros P Ha. unfold provisionFor, provisionSpec.
  destruct (negb (ValidDBName (provisionName (e_svc w) name))); [by auto 10|].
  set (spec := Database _ _ _ _ _ _ _ _ _).
  pose proof (prov_create_inv a (e_db w) spec P Ha) as Hinv.
  pose proof (fun m => prov_create_served a (e_db w) spec m P Ha) as Hsv.
  pose proof (prov_create_exists a (e_db w) spec P Ha) as Hex.
  destruct (prov_create a (e_db w) spec) as [d r]. cbn [fst snd] in *.
  set (granted := match ParseLevel _ with (lvl, true) => _ | (_, false) => _ end).
  assert (e_store granted = e_store w /\ e_auth granted = e_auth w /\ e_svc granted = e_svc w /\ e_db granted = d /\
    (forall db subj, subj <> name \/ db <> provisionName (e_svc w) name -> stored (e_pol granted) db subj = stored (e_pol w) db subj))
    as (Hg1 & Hg2 & Hg3 & Hg4 & Hg5).
  { unfold granted. destruct (ParseLevel _) as [lvl []]; cbn; (split; [done|]; split; [done|]; split; [done|]; split; [done|]); [|done].
    intros db subj Hne. rewrite grant_frame. cbn [spec db_name].
    destruct (String.eqb_spec db (provisionName (e_svc w) name)), (String.eqb_spec subj name); cbn; try done. by destruct Hne. }
  assert (forall m, is_ok r = true \/ r = Err (EReg Registry.ErrExists) ->
    prov_served d m = String.eqb m (provisionName (e_svc w) name) || prov_served (e_db w) m) as Hok.
  { intros m Hr. rewrite Hsv. destruct Hr as [->| ->]; [done|]. cbn [is_ok].
    destruct (String.eqb_spec m (provisionName (e_svc w) name)) as [->|]; [|done]. cbn. by apply Hex. }
  assert (forall m, is_ok r = false -> prov_served d m = prov_served (e_db w) m) as Hbad.
  { intros m Hr. by rewrite Hsv, Hr. }
  assert (is_ok r = true \/ r = Err (EReg Registry.ErrExists) \/ is_ok r = false /\ r <> Err (EReg Registry.ErrExists)) as Hcase.
  { destruct (decide (r = Err (EReg Registry.ErrExists))); [by auto|]. destruct r; auto. }
  assert ((match r with
           | Ok _ => (granted, true)
           | Err (EReg Registry.ErrExists) => (granted, true)
           | Err _ => (set_db w d, false)
           end) = if is_ok r || bool_decide (r = Err (EReg Registry.ErrExists)) then (granted, true) else (set_db w d, false)) as ->.
  { destruct r as [u|[|[]|]]; reflexivity. }
  destruct Hcase as [Hr|[Hr|[Hr Hne]]].
  - rewrite Hr. cbn [orb]. rewrite Hg1, Hg2, Hg3, Hg4. repeat (split; [done|]). intros _ m. apply Hok. by left.
  - rewrite (bool_decide_true _ Hr), orb_true_r. rewrite Hg1, Hg2, Hg3, Hg4. repeat (split; [done|]).
    intros _ m. apply Hok. by right.
  - rewrite Hr, (bool_decide_false _ Hne). cbn. repeat (split; [done|]). split; [|done]. intros _. split; [done|].
    intros m. by apply Hbad.
Qed.

Lemma filter_other {X} (f : X -> string) l n : n ∉ map f l -> filter (fun x => f x <> n) l = l.
Proof.
  induction l as [|x l IH]; [done|]. cbn [map]. intros [Hx Hl]%not_elem_of_cons.
  rewrite filter_cons_True by congruence. by rewrite IH.
Qed.

Lemma add_remove_key a canon pub name :
  (forall c cr, dynKeyring a !! c = Some cr -> kc_name cr <> name) -> dynKeyring a !! canon = None ->
  Auth.RemoveKeyringName (Auth.AddKeyring a canon pub name) name = a.
Proof.
  intros Hn Hc. unfold Auth.RemoveKeyringName, Auth.AddKeyring.
  assert (filter (fun kv : string * keyringCred => kc_name kv.2 <> name) (dynKeyring a) = dynKeyring a) as Hid.
  { apply map_filter_id. intros c cr H. by apply (Hn c). }
  destruct (Auth.keyring a !! canon); [rewrite Hid; by destruct a|].
  unfold set_dyn. cbn [dynKeyring]. rewrite map_filter_insert_False by (cbn; auto). rewrite delete_id by done.
  rewrite Hid. by destruct a.
Qed.

(** The undo of an admitted enrollment whose provisioning did not come about. *)
Lemma rollback_untouched o now w canon pub h presented w1 w2 : ewf w ->
  i_delete o = true -> i_release o = true ->
  enroll_locked o now w canon pub presented = (w1, EnrolledNow h) ->
  e_store w2 = e_store w1 -> e_auth w2 = e_auth w1 -> e_svc w2 = e_svc w1 -> e_pol w2 = e_pol w1 ->
  (forall m, prov_served (e_db w2) m = prov_served (e_db w) m) -> prov_inv (e_db w2) ->
  databases (e_store w1) = databases (e_store w) ->
  untouched (PrincipalName canon) w (rollbackEnroll o w2 (PrincipalName canon) h).
Proof.
  intros Wf Hdel Hrel Hl Hst Hau Hsv Hpo Hdb Hinv Hspecs. set (name := PrincipalName canon).
  pose proof (enroll_locked_cases o now w canon pub presented (ew_store w Wf) Hrel) as H. rewrite Hl in H. cbn zeta in H.
  destruct H as (Hrows & Hname & Hkey & _ & Hsvc & Hauth & Hpol & _ & _ & _ & _ & s1 & Hco & Hcodes). fold name in Hrows, Hname, Hauth, Hpol.
  unfold rollbackEnroll, rollback_locked, Meta.DeleteEnrolled. rewrite Hdel, Hst. cbn [exec].
  assert (existsb (fun r => String.eqb (er_name r) name) (enrolled (e_store w1)) = true) as Hex.
  { apply existsb_exists. exists (ERow name canon now None). rewrite Hrows. split; [apply in_app_iff; right; by left|apply String.eqb_refl]. }
  rewrite Hex.
  set (s' := set_enrolled (e_store w1) _).
  assert (enrolled s' = enrolled (e_store w)) as Hrows'.
  { unfold s'. cbn. rewrite Hrows, filter_app, filter_other by done. rewrite filter_cons_False by (cbn; auto). by rewrite app_nil_r. }
  assert (enroll_codes s' = enroll_codes s1) as Hcodes' by done.
  assert (Auth.RemoveKeyringName (e_auth w2) name = e_auth w) as Hk.
  { rewrite Hau, Hauth. apply add_remove_key.
    - intros c cr Hc Hn. destruct (ew_keys w Wf c cr Hc) as (r & Hr & _ & Hrn). apply Hname. apply list_elem_of_fmap.
      exists r. split; [congruence|done].
    - destruct (dynKeyring (e_auth w) !! canon) as [cr|] eqn:E; [|done]. exfalso. apply Hkey.
      destruct (ew_keys w Wf canon cr E) as (r & Hr & Hrk & _). apply list_elem_of_fmap. by exists r. }
  assert (enroll_codes (e_store (release_code o (set_estore w s') h)) = enroll_codes (e_store w)) as Hrc.
  { pose proof (release_consumed o now (e_store w) h s1 (ew_store w Wf) Hrel Hco (set_estore w s1) eq_refl) as Hr.
    unfold release_code, Meta.ReleaseEnrollCode in *. destruct (String.eqb h ""); cbn in *; [by rewrite Hcodes|]. rewrite Hrel in *. cbn in *.
    by rewrite Hcodes. }
  split.
  - unfold release_code. destruct (String.eqb h ""); cbn; [done|]. unfold Meta.ReleaseEnrollCode. by destruct (i_release o).
  - unfold release_code in *. destruct (String.eqb h ""); cbn in *; done.
  - unfold release_code. destruct (String.eqb h ""); cbn; [done|]. unfold Meta.ReleaseEnrollCode. by destruct (i_release o).
  - unfold release_code. destruct (String.eqb h ""); cbn; rewrite Hsv, Hsvc; cbn; lia.
  - unfold release_code. destruct (String.eqb h ""); cbn; done.
  - intros db subj Hne. assert (stored (Authz.RevokePrincipal (e_pol w2) name) db subj = stored (e_pol w) db subj) as Hs.
    { rewrite revoke_frame. rewrite (proj2 (String.eqb_neq _ _)) by done. rewrite Hpo, Hpol. by apply grants_frame. }
    unfold release_code. destruct (String.eqb h ""); cbn; exact Hs.
  - intros db. right. unfold release_code. destruct (String.eqb h ""); cbn; rewrite revoke_frame, String.eqb_refl; done.
  - intros m. unfold release_code. destruct (String.eqb h ""); cbn; apply Hdb.
  - intros _. unfold release_code. destruct (String.eqb h ""); cbn; exact Hinv.
Qed.

(** *** The handler *)

Definition presented_key (o : io) (now : Z) (w : eworld) (q : request_in) : result Auth.autherr (string * string) :=
  Auth.VerifyPresented parse_key verify_sig (e_auth w) now (q_req q).
Definition presented_name (o : io) (now : Z) (w : eworld) (q : request_in) : string :=
  match presented_key o now w q with Ok (canon, _) => PrincipalName canon | Err _ => "" end.

Lemma allow_fields s now ip : let s' := (allow s now ip).1 in
  cfg s' = cfg s /\ tokens s' = tokens s /\ count s' = count s /\ seen s' = seen s /\ prov_wired s' = prov_wired s.
Proof. unfold allow. repeat case_match; done. Qed.

Lemma allow_untouched name w now ip : untouched name w (set_svc w (allow (e_svc w) now ip).1).
Proof. destruct (allow_fields (e_svc w) now ip) as (_ & _ & H & _). split; cbn; auto. Qed.
Lemma allow_wf w now ip : ewf w -> ewf (set_svc w (allow (e_svc w) now ip).1).
Proof. intros [H1 H2 H3 H4 H5]. destruct (allow_fields (e_svc w) now ip) as (_ & _ & H & _). split; cbn; [..|done|done]; congruence || done. Qed.

Lemma untouched_trans name w1 w2 w3 : untouched name w1 w2 -> untouched name w2 w3 -> untouched name w1 w3.
Proof.
  intros [] []. split; [congruence..| | | |auto].
  - intros db subj Hs. by rewrite un_grants1, un_grants0.
  - intros db. destruct (un_level1 db) as [-> |]; [apply un_level0|by right].
  - intros m. by rewrite un_served1.
Qed.

Lemma untouched_wf name w w' : untouched name w w' -> ewf w -> ewf w'.
Proof.
  intros [] [[S1 S2 S3 S4] H2 H3 H4 H5]. split; [|by rewrite un_rows0|by rewrite un_rows0, un_count0| |auto].
  - split; rewrite ?un_rows0, ?un_codes0, ?un_specs0; done.
  - rewrite un_rows0, un_auth0. done.
Qed.

(** C24: (error handling) Whatever refuses an enrollment (wrong method, rate limit, missing
    proof, bad token, capacity, a spent code, a store error, an invalid provisioning
    template, a failed database creation, a revocation that came first) leaves nothing
    behind, provided the statements of the undo run: the enrolled rows, the single-use
    codes (a consumed one is released), the count, the credentials and the served databases
    are those of before, and so is every grant of every other principal. *)
Theorem refused_enrollment_leaves_nothing o now a w q w' st : ewf w -> prov_ready a (e_db w) ->
  i_delete o = true -> i_release o = true ->
  ServeHTTP o now a w q = (w', Refused st) -> untouched (presented_name o now (set_svc w (allow (e_svc w) now (i_ip o)).1) q) w w' /\ ewf w'.
Proof.
  intros Wf Ha Hdel Hrel H. set (w1 := set_svc w (allow (e_svc w) now (i_ip o)).1) in *.
  enough (untouched (presented_name o now w1 q) w w') by (split; [done|by eapply untouched_wf]).
  unfold ServeHTTP in H. destruct (negb (String.eqb _ "POST")); [injection H as <- _; apply untouched_refl|].
  pose proof (allow_untouched (presented_name o now w1 q) w now (i_ip o)) as Hal. fold w1 in Hal.
  pose proof (allow_wf w now (i_ip o) Wf) as Wf1. fold w1 in Wf1.
  destruct (allow (e_svc w) now (i_ip o)) as [s1 ok] eqn:Eal. cbn [fst] in w1, Hal, Wf1. fold w1 in H.
  destruct (negb ok); [by injection H as <- _|].
  apply (untouched_trans _ _ w1); [done|]. clear Hal.
  unfold presented_name, presented_key.
  destruct (Auth.VerifyPresented _ _ (e_auth w1) now (q_req q)) as [[canon pub]|e] eqn:Ev;
    [|injection H as <- _; by apply untouched_audit, untouched_refl].
  set (presented := if String.eqb _ "token" then _ else _) in H.
  pose proof (enroll_locked_cases o (now / second) w1 canon pub presented (ew_store w1 Wf1) Hrel) as Hc. cbn zeta in Hc.
  destruct (enroll_locked o (now / second) w1 canon pub presented) as [w2 [r|h]] eqn:El.
  { injection H as <- ->. by destruct Hc. }
  destruct (provisionEnabled (e_svc w2)); [|done].
  destruct Hc as (_ & _ & _ & _ & _ & _ & _ & Hdb & _ & _ & Hsp & _).
  unfold provision_gated in H. destruct (negb (still_enrolled o w2 canon)).
  - injection H as <- _. apply untouched_audit. eapply rollback_untouched; try done.
    + intros m. by rewrite Hdb.
    + rewrite Hdb. apply Wf1.
  - assert (prov_ready a (e_db w2) /\ prov_inv (e_db w2)) as [Hr2 Hi2] by (rewrite Hdb; split; [done|apply Wf1]).
    pose proof (provisionFor_cases a w2 (PrincipalName canon) Hi2 Hr2) as Hp.
    destruct (provisionFor a w2 (PrincipalName canon)) as [w3 []]; [done|].
    destruct Hp as (H1 & H2 & H3 & H4 & _ & H6 & _). destruct (H6 eq_refl) as [H7 H8].
    injection H as <- _. apply untouched_audit. eapply rollback_untouched; try done.
    intros m. by rewrite H8, Hdb.
Qed.

Lemma locked_wf o now w canon pub presented w' h : ewf w -> i_release o = true ->
  enroll_locked o now w canon pub presented = (w', EnrolledNow h) -> ewf w'.
Proof.
  intros Wf Hrel Hl. pose proof (enroll_locked_cases o now w canon pub presented (ew_store w Wf) Hrel) as H. rewrite Hl in H. cbn zeta in H.
  destruct H as (Hrows & Hname & Hkey & _ & Hsvc & Hauth & _ & Hdb & _ & _ & Hsp & s1 & Hco & Hcodes).
  destruct Wf as [[S1 S2 S3 S4] H2 H3 H4 H5]. split.
  - split; [by rewrite Hsp|by rewrite Hrows; apply NoDup_snoc|by rewrite Hrows; apply NoDup_snoc|].
    rewrite Hcodes. unfold consume_code in Hco. destruct (String.eqb h ""); [by injection Hco as <-|].
    unfold Meta.ConsumeEnrollCode in Hco. apply exec_ok in Hco as [_ [= <- _]]. cbn. rewrite map_same; [done|].
    intros c. by destruct (live h now c).
  - intros r. rewrite Hrows. intros [Hr| ->%list_elem_of_singleton]%elem_of_app; [by apply H2|done].
  - rewrite Hsvc, Hrows, length_app. cbn. lia.
  - intros c cr. rewrite Hauth, Hrows. unfold Auth.AddKeyring.
    destruct (Auth.keyring (e_auth w) !! canon).
    + intros Hc. destruct (H4 c cr Hc) as (r & Hr & ? & ?). exists r. split; [apply elem_of_app; by left|done].
    + cbn. intros [[<- <-]|[Hne Hc]]%lookup_insert_Some.
      * eexists. split; [apply elem_of_app; right; by apply list_elem_of_singleton|done].
      * destruct (H4 c cr Hc) as (r & Hr & ? & ?). exists r. split; [apply elem_of_app; by left|done].
  - by rewrite Hdb.
Qed.

Lemma audit_wf o now w p x d : ewf w -> ewf (audit_as o now w p x d).
Proof. intros Wf. by eapply untouched_wf, Wf; apply untouched_audit, untouched_refl with (name := ""%string). Qed.

Lemma token_hash_nonempty t : token_hash t <> ""%string.
Proof.
  unfold token_hash. pose proof (Sha256.length_sum (bytes_of t)) as Hl.
  destruct (Sha256.sum (bytes_of t)) as [|b l]; [done|]. by unfold hex_encode.
Qed.

Lemma validateToken_spec o now w token h : validateToken o now w token = Some h ->
  token <> ""%string /\
  (h = ""%string /\ token_hash token ∈ tokens (e_svc w) \/
   h = token_hash token /\ e_codes (cfg (e_svc w)) = true /\ Meta.EnrollCodeValid (i_code o) (e_store w) h now = Ok true).
Proof.
  unfold validateToken. destruct (String.eqb_spec token ""); [done|].
  destruct (mem_string _ _) eqn:Em; [intros [= <-]; split; [done|left]; split; [done|by apply mem_string_elem]|].
  destruct (e_codes _); [|done]. destruct (Meta.EnrollCodeValid _ _ _ _) as [[]|] eqn:Ev; try done.
  intros [= <-]. auto.
Qed.

Lemma EnrollCodeValid_codes io s s' h now : enroll_codes s = enroll_codes s' ->
  Meta.EnrollCodeValid io s h now = Meta.EnrollCodeValid io s' h now.
Proof. unfold Meta.EnrollCodeValid. by intros ->. Qed.

(** A token that let an enrollment through: configured, or a code that is spent now. *)
Lemma token_earned o now w t h s s2 : validateToken o now w t = Some h ->
  consume_code o now (e_store w) h = Ok (s2, true) -> enroll_codes s = enroll_codes s2 ->
  t <> ""%string /\
  (token_hash t ∈ tokens (e_svc w) \/
   e_codes (cfg (e_svc w)) = true /\ Meta.EnrollCodeValid (i_code o) (e_store w) (token_hash t) now = Ok true /\
   forall io later, now <= later -> Meta.EnrollCodeValid io s (token_hash t) later <> Ok true).
Proof.
  intros Hvt Hco Hs. apply validateToken_spec in Hvt as (Ht & [[-> Hin]|(-> & Hcd & Hvalid)]); (split; [done|]); [by left|right].
  split; [done|]. split; [done|]. intros io later Hle. rewrite (EnrollCodeValid_codes io s s2) by done.
  unfold consume_code in Hco. destruct (String.eqb_spec (token_hash t) "") as [E|E]; [by apply token_hash_nonempty in E|].
  unfold Meta.ConsumeEnrollCode in Hco. destruct (i_consume o); [|done].
  by apply (ConsumeEnrollCode_spec (e_store w) _ now).
Qed.

Lemma capacity_left s (l : nat) : at_capacity s = false -> count s = Z.of_nat l -> e_max (cfg s) > 0 -> Z.of_nat l + 1 <= e_max (cfg s).
Proof.
  unfold at_capacity. intros Hc Hn Hm. rewrite (proj2 (Z.gtb_lt _ _)) in Hc by lia. cbn in Hc.
  rewrite Z.geb_leb in Hc. apply Z.leb_gt in Hc. lia.
Qed.

(** After the locked part, provisioning only adds the database and its one grant. *)
Lemma created_step o now a w2 canon h w' n c : prov_inv (e_db w2) -> prov_ready a (e_db w2) ->
  (if provisionEnabled (e_svc w2) then provision_gated o now a w2 canon (PrincipalName canon) h
   else (audit_as o now w2 (PrincipalName canon) "enroll.created" ("ip=" +:+ i_ip o), Created (PrincipalName canon) true)) = (w', Created n c) ->
  exists w3, w' = audit_as o now w3 (PrincipalName canon) "enroll.created" ("ip=" +:+ i_ip o) /\ n = PrincipalName canon /\ c = true /\
    e_store w3 = e_store w2 /\ e_auth w3 = e_auth w2 /\ e_svc w3 = e_svc w2 /\ prov_inv (e_db w3) /\
    (forall db subj, subj <> n \/ provisionEnabled (e_svc w2) = false \/ db <> provisionName (e_svc w2) n ->
       stored (e_pol w3) db subj = stored (e_pol w2) db subj) /\
    (provisionEnabled (e_svc w2) = true -> prov_served (e_db w3) (provisionName (e_svc w2) n) = true).
Proof.
  intros Hi2 Hr2 H. destruct (provisionEnabled (e_svc w2)) eqn:Epe.
  - unfold provision_gated in H. destruct (negb (still_enrolled o w2 canon)); [done|].
    pose proof (provisionFor_cases a w2 (PrincipalName canon) Hi2 Hr2) as Hp.
    destruct (provisionFor a w2 (PrincipalName canon)) as [w3 []]; [|done]. injection H as <- <- <-.
    destruct Hp as (P1 & P2 & P3 & P4 & P5 & _ & P7). exists w3.
    repeat (split; [done|]). split; [intros db subj [?|[?|?]]; [apply P5; by left|done|apply P5; by right]|].
    intros _. rewrite P7 by done. by rewrite String.eqb_refl.
  - injection H as <- <- <-. exists w2. by repeat (split; [done|]).
Qed.

(** C10: (safety) A caller that is told it is a principal has earned it: it proved possession
    of the key it presented, and either that key was enrolled already (and nothing changed)
    or a new principal was created whose name is derived from that key, never chosen; then
    exactly one row was added and the configured maximum still holds; under the token policy
    the caller presented a configured token or a single-use code, which is no longer valid;
    the principal received grants from the template and on its own database only, nobody
    else's changed; and with provisioning its database is served.  The service's invariant
    is preserved. *)
Theorem enrollment_is_earned o now a w q w' n c : ewf w -> prov_ready a (e_db w) -> i_release o = true ->
  ServeHTTP o now a w q = (w', Created n c) ->
  let w1 := set_svc w (allow (e_svc w) now (i_ip o)).1 in
  let conf := cfg (e_svc w) in
  ewf w' /\
  exists canon pub, presented_key o now w1 q = Ok (canon, pub) /\ n = PrincipalName canon /\
    (c = false /\ (exists x, x ∈ enrolled (e_store w) /\ er_key x = canon /\ er_name x = n) /\ untouched n w w' \/
     c = true /\ enrolled (e_store w') = enrolled (e_store w) ++ [ERow n canon (now / second) None] /\
     (e_max conf > 0 -> Z.of_nat (length (enrolled (e_store w'))) <= e_max conf) /\
     (e_policy conf = "token"%string -> let t := readEnrollToken (q_body q) in
        t <> ""%string /\
        (token_hash t ∈ tokens (e_svc w) \/
         e_codes conf = true /\ Meta.EnrollCodeValid (i_code o) (e_store w) (token_hash t) (now / second) = Ok true /\
         forall io later, now / second <= later -> Meta.EnrollCodeValid io (e_store w') (token_hash t) later <> Ok true)) /\
     (forall db subj, subj <> n -> stored (e_pol w') db subj = stored (e_pol w) db subj) /\
     (forall db, stored (e_pol w') db n <> stored (e_pol w) db n ->
        (exists g, g ∈ e_grants conf /\ eg_db g = db) \/ provisionEnabled (e_svc w) = true /\ db = provisionName (e_svc w) n) /\
     (provisionEnabled (e_svc w) = true -> prov_served (e_db w') (provisionName (e_svc w) n) = true)).
Proof.
  intros Wf Ha Hrel H w1 conf. unfold ServeHTTP in H.
  destruct (negb (String.eqb _ "POST")); [done|].
  pose proof (allow_untouched (presented_name o now w1 q) w now (i_ip o)) as Hal. fold w1 in Hal.
  pose proof (allow_wf w now (i_ip o) Wf) as Wf1. fold w1 in Wf1.
  destruct (allow_fields (e_svc w) now (i_ip o)) as (Hcfg & Htok & Hcnt & _ & Hwired).
  destruct (allow (e_svc w) now (i_ip o)) as [s1 ok] eqn:Eal. cbn [fst] in *. fold w1 in H.
  destruct (negb ok); [done|]. unfold presented_name, presented_key in *.
  destruct (Auth.VerifyPresented _ _ (e_auth w1) now (q_req q)) as [[canon pub]|e] eqn:Ev; [|done].
  set (presented := if String.eqb _ "token" then _ else _) in H.
  pose proof (enroll_locked_cases o (now / second) w1 canon pub presented (ew_store w1 Wf1) Hrel) as Hc. cbn zeta in Hc.
  destruct (enroll_locked o (now / second) w1 canon pub presented) as [w2 [r|h]] eqn:El.
  { injection H as <- ->. destruct Hc as [Hu Hx]. destruct (Hx n c eq_refl) as (-> & x & Hin & Hk & Hn).
    assert (n = PrincipalName canon) as -> by (rewrite <- Hn, <- Hk; by apply (ew_names w Wf)).
    assert (untouched (PrincipalName canon) w w2) as Hu2 by (by apply (untouched_trans _ _ w1)).
    split; [by eapply untouched_wf|]. exists canon, pub. split; [done|]. split; [done|]. left.
    split; [done|]. split; [by exists x|done]. }
  pose proof (locked_wf _ _ _ _ _ _ _ _ Wf1 Hrel El) as Wf2.
  destruct Hc as (Hrows & Hname & Hkey & Hcap & Hsvc & Hauth & Hpol & Hdb & Htk & _ & Hsp & s2 & Hco & Hcodes).
  assert (e_svc w1 = s1) as Hs1 by done. rewrite Hs1 in *.
  assert (provisionEnabled (e_svc w2) = provisionEnabled (e_svc w) /\
          forall x, provisionName (e_svc w2) x = provisionName (e_svc w) x) as [Hpe Hpn].
  { rewrite Hsvc. unfold provisionEnabled, provisionName. cbn. by rewrite Hcfg, Hwired. }
  apply created_step in H as (w3 & -> & -> & -> & G1 & G2 & G3 & G4 & G5 & G6); [|rewrite Hdb; apply Wf1|by rewrite Hdb].
  rewrite Hpe, Hpn in G5, G6.
  assert (ewf w3) as Wf3.
  { destruct Wf2 as [A1 A2 A3 A4 A5]. split; rewrite ?G1, ?G2, ?G3; done. }
  destruct (audit_fields o (now / second) w3 (PrincipalName canon) "enroll.created" ("ip=" +:+ i_ip o)) as (B1 & B2 & B3 & B4 & B5 & B6 & B7).
  split; [by apply audit_wf|]. exists canon, pub. split; [done|]. split; [done|]. right. split; [done|].
  rewrite B3, B4, B5. split; [by rewrite G1, Hrows|]. split; [|split; [|split; [|split]]].
  - intros Hmax. rewrite G1, Hrows, length_app. cbn [length]. rewrite Nat2Z.inj_add.
    unfold conf in *. rewrite <- Hcfg in Hmax |- *. apply capacity_left; [done|by rewrite Hcnt; apply (ew_count w Wf)|done].
  - intros Hp. assert (presented = readEnrollToken (q_body q)) as Hpr by (unfold presented; rewrite Hcfg; fold conf; by rewrite Hp).
    unfold conf. rewrite <- Hpr, <- Htok, <- Hcfg. apply (token_earned o (now / second) w1 presented h _ s2); [apply Htk; by rewrite Hcfg|done|].
    by rewrite B6, G1.
  - intros db subj Hne. rewrite G5 by auto. rewrite Hpol. apply grants_frame. done.
  - intros db Hd. destruct (decide (stored (e_pol w3) db (PrincipalName canon) = stored (e_pol w2) db (PrincipalName canon))) as [E|E].
    + left. rewrite E, Hpol in Hd. apply (grants_frame _ _ _ _ ""%string) in Hd as (g & Hg & Hgd). exists g. rewrite Hcfg in Hg. done.
    + right. destruct (provisionEnabled (e_svc w)) eqn:Epe; [|destruct E; apply G5; auto]. split; [done|].
      destruct (decide (db = provisionName (e_svc w) (PrincipalName canon))); [done|]. destruct E. apply G5. auto.
  - intros Hp. by apply G6.
Qed.

(** *** Revocation and the idle collector *)

Lemma delete_drop_cases a w name : let '(w', r) := delete_drop a w name in
  e_store w' = e_store w /\ e_auth w' = e_auth w /\ e_svc w' = e_svc w /\ e_pol w' = e_pol w /\
  (prov_inv (e_db w) -> prov_inv (e_db w') /\
     forall m, prov_served (e_db w') m = true -> prov_served (e_db w) m = true).
Proof.
  unfold delete_drop. destruct (_ && _); [|by auto 10].
  pose proof (fun P => prov_drop_inv a (e_db w) (provisionName (e_svc w) name) P) as Hi.
  pose proof (fun m P => prov_drop_served a (e_db w) (provisionName (e_svc w) name) m P) as Hs.
  destruct (prov_drop a (e_db w) _) as [d r]. cbn in *. repeat (split; [done|]). intros P. split; [by apply Hi|].
  intros m. rewrite Hs by done. destruct (is_ok r); [|done]. by intros [_ ?]%andb_true_iff.
Qed.

Lemma filter_name_length {X} (f : X -> string) l n : NoDup (map f l) ->
  Z.of_nat (length (filter (fun x => f x <> n) l)) =
    Z.of_nat (length l) - (if existsb (fun x => String.eqb (f x) n) l then 1 else 0).
Proof.
  induction l as [|x l IH]; [done|]. cbn [map]. intros [Hx Hl]%NoDup_cons. cbn [existsb].
  destruct (String.eqb_spec (f x) n) as [Heq|Hne].
  - rewrite filter_cons_False by auto. rewrite filter_other by (by rewrite <- Heq). cbn [orb length]. lia.
  - rewrite filter_cons_True by done. cbn [orb length]. rewrite Nat2Z.inj_succ, IH by done. lia.
Qed.

Lemma DeleteEnrolled_wf io w s name b : ewf w -> Meta.DeleteEnrolled io (e_store w) name = Ok (s, b) ->
  enrolled s = filter (fun r => er_name r <> name) (enrolled (e_store w)) /\ store_wf s /\
  enroll_codes s = enroll_codes (e_store w) /\ databases s = databases (e_store w) /\
  Z.of_nat (length (enrolled s)) = Z.of_nat (length (enrolled (e_store w))) - (if b then 1 else 0) /\
  (b = false -> enrolled s = enrolled (e_store w)).
Proof.
  intros Wf [_ [= <- <-]]%exec_ok. cbn. destruct (ew_store w Wf) as [S1 S2 S3 S4].
  split; [done|]. split; [split; cbn; [done|by apply NoDup_map_filter..|done]|]. split; [done|]. split; [done|].
  split; [by apply filter_name_length|]. intros Hb. by apply filter_other, not_exists_map.
Qed.

(** One revocation: refused with everything kept, of no one, or the row, the credential and
    the grants of that name go and nothing else does. *)
Lemma Delete_cases io a w name : ewf w ->
  let '(w', r) := Delete io a w name in
  ewf w' /\ cfg (e_svc w') = cfg (e_svc w) /\ seen (e_svc w') = seen (e_svc w) /\
  match r with
  | Ok true => enrolled (e_store w') = filter (fun x => er_name x <> name) (enrolled (e_store w)) /\
      name ∈ map er_name (enrolled (e_store w)) /\
      (forall c cr, dynKeyring (e_auth w') !! c = Some cr -> kc_name cr <> name) /\
      (forall db subj, stored (e_pol w') db subj = if String.eqb subj name then LNone else stored (e_pol w) db subj)
  | Ok false => enrolled (e_store w') = enrolled (e_store w) /\ name ∉ map er_name (enrolled (e_store w)) /\
      e_auth w' = e_auth w /\ e_pol w' = e_pol w
  | Err _ => e_store w' = e_store w /\ e_auth w' = e_auth w /\ e_pol w' = e_pol w
  end.
Proof.
  intros Wf. unfold Delete. pose proof (delete_drop_cases a w name) as Hd.
  destruct (delete_drop a w name) as [w1 r1]. destruct Hd as (D1 & D2 & D3 & D4 & D5).
  assert (ewf w1) as Wf1 by (destruct Wf; split; rewrite ?D1, ?D2, ?D3; auto; by apply D5).
  destruct r1 as [e|]; [by rewrite D3|].
  destruct (Meta.DeleteEnrolled io (e_store w1) name) as [[s b]|e] eqn:Ed; [|by rewrite D3].
  destruct (DeleteEnrolled_wf io w1 s name b Wf1 Ed) as (H1 & H2 & H3 & H4 & H5 & H6).
  assert (existsb (fun r => String.eqb (er_name r) name) (enrolled (e_store w1)) = b) as Hex
    by (apply exec_ok in Ed as [_ Ed]; by injection Ed).
  destruct b; cbn.
  - split; [|rewrite D3; split; [done|]; split; [done|]].
    + destruct Wf1 as [W1 W2 W3 W4 W5]. split; cbn; [done|..|done].
      * intros r. rewrite H1. intros [_ Hr]%list_elem_of_filter. by apply W2.
      * rewrite W3, H5. done.
      * intros c cr [Hc Hn]%map_lookup_filter_Some. destruct (W4 c cr Hc) as (r & Hr & Hk & Hrn). exists r. rewrite H1.
        split; [apply list_elem_of_filter; split; [cbn in Hn; congruence|done]|done].
    + rewrite H1, D1. split; [done|]. split; [|split].
      * rewrite D1 in Hex. apply existsb_exists in Hex as (r & Hr & E%String.eqb_eq). apply list_elem_of_fmap. exists r.
        split; [done|by apply list_elem_of_In].
      * by intros c cr [_ Hn]%map_lookup_filter_Some.
      * intros db subj. rewrite D4. apply revoke_frame.
  - split; [|rewrite D3; split; [done|]; split; [done|]].
    + destruct Wf1 as [W1 W2 W3 W4 W5]. split; cbn; [done|by rewrite (H6 eq_refl)|by rewrite (H6 eq_refl)|by rewrite (H6 eq_refl)|done].
    + rewrite D2, D4, (H6 eq_refl), D1. split; [done|]. split; [|done]. rewrite D1 in Hex. by apply not_exists_map.
Qed.
(** [n]'s own revocation, when its turn in [names] came, was refused. *)
Definition refused (io_del : string -> bool) (a : A) (now : Z) (w : eworld) (names : list string) (n : string) : Prop :=
  exists i e, names !! i = Some n /\ (Delete (io_del n) a (reap_each io_del a now w (take i names)).1 n).2 = Err e.

Lemma reap_each_spec io_del a now names w : ewf w ->
  let '(w', k) := reap_each io_del a now w names in
  ewf w' /\ cfg (e_svc w') = cfg (e_svc w) /\ seen (e_svc w') = seen (e_svc w) /\
  (forall r, r ∈ enrolled (e_store w') -> r ∈ enrolled (e_store w)) /\
  (forall r, r ∈ enrolled (e_store w) -> er_name r ∉ names -> r ∈ enrolled (e_store w')) /\
  k = Z.of_nat (length (enrolled (e_store w))) - Z.of_nat (length (enrolled (e_store w'))) /\
  (forall r, r ∈ enrolled (e_store w') -> er_name r ∈ names -> refused io_del a now w names (er_name r)).
Proof.
  revert w. induction names as [|n names IH]; intros w Wf; cbn [reap_each].
  { repeat (split; [done|]). split; [lia|]. intros r _ Hr. by apply not_elem_of_nil in Hr. }
  pose proof (Delete_cases (io_del n) a w n Wf) as Hd. destruct (Delete (io_del n) a w n) as [w1 res] eqn:Ed.
  destruct Hd as (Wf1 & Hc1 & Hs1 & Hd).
  assert (forall w2, (forall l, (reap_each io_del a now w (n :: l)).1 = (reap_each io_del a now w2 l).1) -> ewf w2 -> cfg (e_svc w2) = cfg (e_svc w) -> seen (e_svc w2) = seen (e_svc w) ->
    (forall r, r ∈ enrolled (e_store w2) -> r ∈ enrolled (e_store w)) ->
    (forall r, r ∈ enrolled (e_store w) -> er_name r <> n -> r ∈ enrolled (e_store w2)) ->
    (forall r, r ∈ enrolled (e_store w2) -> er_name r = n -> exists e, res = Err e) ->
    forall d, d = Z.of_nat (length (enrolled (e_store w))) - Z.of_nat (length (enrolled (e_store w2))) ->
    let '(w', k) := reap_each io_del a now w2 names in
    ewf w' /\ cfg (e_svc w') = cfg (e_svc w) /\ seen (e_svc w') = seen (e_svc w) /\
    (forall r, r ∈ enrolled (e_store w') -> r ∈ enrolled (e_store w)) /\
    (forall r, r ∈ enrolled (e_store w) -> er_name r ∉ n :: names -> r ∈ enrolled (e_store w')) /\
    k + d = Z.of_nat (length (enrolled (e_store w))) - Z.of_nat (length (enrolled (e_store w'))) /\
    (forall r, r ∈ enrolled (e_store w') -> er_name r ∈ n :: names -> refused io_del a now w (n :: names) (er_name r))) as Hstep.
  { intros w2 Hpre Wf2 Hc2 Hs2 Hsub Hkeep Hn d ->. specialize (IH w2 Wf2). destruct (reap_each io_del a now w2 names) as [w' k].
    destruct IH as (I1 & I2 & I3 & I4 & I5 & I6 & I7). rewrite I2, I3.
    repeat (split; [by auto|]). split; [|split; [lia|]].
    - intros r Hr [Hrn Hrs]%not_elem_of_cons. auto.
    - intros r Hr [E|Hrs]%elem_of_cons.
      + destruct (Hn r (I4 r Hr) E) as [e ->]. rewrite E. exists 0%nat, e. split; [done|]. cbn. by rewrite Ed.
      + destruct (I7 r Hr Hrs) as (i & e & Hi & He). exists (S i), e. split; [done|]. cbn [take]. by rewrite Hpre. }
  destruct res as [[]|e].
  - destruct Hd as (Hrows & Hin & _). pose proof (filter_name_length er_name (enrolled (e_store w)) n (wf_names _ (ew_store w Wf))) as Hlen.
    replace (existsb (fun x => String.eqb (er_name x) n) (enrolled (e_store w))) with true in Hlen.
    2:{ symmetry. apply existsb_exists. apply list_elem_of_fmap in Hin as (x & -> & Hx). exists x.
        split; [by apply list_elem_of_In|apply String.eqb_refl]. }
    destruct (audit_fields io_fine now w1 n "enroll.idle_gc" "") as (B1 & _ & _ & _ & B5 & _).
    specialize (Hstep (audit_as io_fine now w1 n "enroll.idle_gc" "")
      ltac:(intros l; cbn [reap_each]; rewrite Ed; by destruct (reap_each _ _ _ _ l)) (audit_wf _ _ _ _ _ _ Wf1)). rewrite B1, B5, Hrows in Hstep.
    specialize (Hstep Hc1 Hs1 ltac:(by intros r [_ ?]%list_elem_of_filter) ltac:(by intros r ? ?; apply list_elem_of_filter)
      ltac:(by intros r [? _]%list_elem_of_filter) 1 ltac:(lia)).
    destruct (reap_each _ _ _ _ names) as [w' k]. done.
  - destruct Hd as (Hrows & Hnin & _). specialize (Hstep w1 ltac:(intros l; cbn [reap_each]; by rewrite Ed) Wf1 Hc1 Hs1). rewrite Hrows in Hstep.
    specialize (Hstep ltac:(done) ltac:(done) ltac:(intros r Hr <-; destruct Hnin; apply list_elem_of_fmap; by exists r) 0 ltac:(lia)).
    destruct (reap_each _ _ _ w1 names) as [w' k]. rewrite Z.add_0_r in Hstep. done.
  - destruct Hd as (Hst & _). specialize (Hstep w1 ltac:(intros l; cbn [reap_each]; by rewrite Ed) Wf1 Hc1 Hs1). rewrite Hst in Hstep.
    specialize (Hstep ltac:(done) ltac:(done) ltac:(intros r _ _; by exists e) 0 ltac:(lia)).
    destruct (reap_each _ _ _ w1 names) as [w' k]. rewrite Z.add_0_r in Hstep. done.
Qed.

Lemma flushSeen_cases b w : ewf w -> let w1 := flushSeen b b (fun _ => false) ∅ w in
  ewf w1 /\ cfg (e_svc w1) = cfg (e_svc w) /\
  map er_name (enrolled (e_store w1)) = map er_name (enrolled (e_store w)) /\
  (b = true -> seen (e_svc w1) = ∅ /\ enrolled (e_store w1) = fold_left touch (map_to_list (seen (e_svc w))) (enrolled (e_store w))) /\
  (b = false -> seen (e_svc w1) = seen (e_svc w) /\ e_store w1 = e_store w).
Proof.
  intros Wf. unfold flushSeen. destruct (bool_decide (seen (e_svc w) = ∅)) eqn:E.
  { apply bool_decide_eq_true in E. repeat (split; [done|]). split; [|done]. intros _. split; [done|]. by rewrite E, map_to_list_empty. }
  apply bool_decide_eq_false in E. unfold Meta.TouchEnrolled.
  destruct (map_to_list (seen (e_svc w))) as [|na l] eqn:El; [by apply map_to_list_empty_iff in El|]. rewrite <- El in *.
  replace (existsb (fun _ => false) (map_to_list (seen (e_svc w)))) with false
    by (clear; generalize (map_to_list (seen (e_svc w))) as l; intros l; by induction l).
  destruct b; cbn [negb orb].
  - cbn -[fold_left]. destruct (touch_fields (map_to_list (seen (e_svc w))) (enrolled (e_store w))) as [Hn Hk]. rewrite Hn.
    split; [|done]. destruct Wf as [[S1 S2 S3 S4] W2 W3 W4 W5]. split; cbn -[fold_left].
    + split; cbn -[fold_left]; rewrite ?Hn, ?Hk; done.
    + intros r Hr. destruct (touch_fold_same _ _ _ Hr) as (r0 & Hr0 & Hrn & Hrk). rewrite Hrn, Hrk. by apply W2.
    + rewrite W3. f_equal. rewrite <- (length_map er_name), <- Hn. by rewrite length_map.
    + intros c cr Hc. destruct (W4 c cr Hc) as (r & Hr & Hrk & Hrn).
      destruct (touch_fold_back (map_to_list (seen (e_svc w))) _ r Hr) as (r' & Hr' & H1 & H2). exists r'. split; [done|]. by rewrite H1, H2.
    + done.
  - cbn. split; [by destruct Wf; split|]. repeat (split; [done|]). intros _. split; [|done]. unfold rebuffer. apply map_eq. intros k.
    rewrite lookup_union_with, lookup_empty. by destruct (seen (e_svc w) !! k).
Qed.

(** C32: (liveness) One tick of the idle collector: the service's invariant is kept; a
    principal active within the time to live by its row is never removed; one active by the
    buffer of authentications still to be written is not removed when the flush that opens
    the tick succeeds ([fl]).  When the flush fails the buffer is kept for a later flush but
    does not count in this tick: the rows decide as they stand, so a principal whose recent
    activity is only in the buffer is removed ([failed_flush_evicts_active] shows it).  When
    the scan runs, every principal idle by the rows is removed unless its own revocation was
    refused (a busy database), in which case it stays enrolled for the next tick; the answer
    is the number removed. *)
Theorem idle_principals_are_collected fl sc io_del a w now : ewf w -> e_idle (cfg (e_svc w)) > 0 ->
  let cutoff := now - ttl_seconds (e_svc w) in
  let w1 := flushSeen fl fl (fun _ => false) ∅ w in
  let rows0 := enrolled (e_store w1) in
  let '(w', n) := reap fl fl sc io_del a w now in
  ewf w' /\ map er_name rows0 = map er_name (enrolled (e_store w)) /\
  (forall r, r ∈ rows0 -> cutoff <= last_seen r -> r ∈ enrolled (e_store w')) /\
  (forall name t, fl = true -> seen (e_svc w) !! name = Some t -> cutoff <= t ->
     name ∈ map er_name (enrolled (e_store w)) -> name ∈ map er_name (enrolled (e_store w'))) /\
  (sc = true -> forall r, r ∈ enrolled (e_store w') -> last_seen r < cutoff ->
     refused io_del a now w1 (map er_name (filter (fun r => last_seen r < cutoff) rows0)) (er_name r)) /\
  n = Z.of_nat (length rows0) - Z.of_nat (length (enrolled (e_store w'))) /\
  (fl = false -> seen (e_svc w') = seen (e_svc w) /\ rows0 = enrolled (e_store w)).
Proof.
  intros Wf Hidle cutoff w1 rows0. unfold reap. rewrite (proj2 (Z.leb_gt _ _)) by lia.
  destruct (flushSeen_cases fl w Wf) as (Wf1 & Hcfg & Hnames & Ht & Hf).
  fold w1 in Wf1, Hcfg, Hnames, Ht, Hf |- *. fold rows0 in Hnames, Ht.
  assert (now - ttl_seconds (e_svc w1) = cutoff) as -> by (unfold cutoff, ttl_seconds; by rewrite Hcfg).
  assert (forall w', (forall r, r ∈ rows0 -> cutoff <= last_seen r -> r ∈ enrolled (e_store w')) ->
    forall name t, fl = true -> seen (e_svc w) !! name = Some t -> cutoff <= t ->
     name ∈ map er_name (enrolled (e_store w)) -> name ∈ map er_name (enrolled (e_store w'))) as Hbuf.
  { intros w' Hkeep name t -> Hs Hc Hin. destruct (Ht eq_refl) as [_ Hrows]. rewrite <- Hnames in Hin.
    apply list_elem_of_fmap in Hin as (r & -> & Hr). apply list_elem_of_fmap. exists r. split; [done|]. apply Hkeep; [done|].
    rewrite Hrows in Hr. destruct (touch_fold_seen _ _ _ Hr) as (r0 & _ & _ & _ & Hseen).
    destruct (Hseen t) as (t' & E & ?); [by apply elem_of_map_to_list|]. unfold last_seen. rewrite E. cbn. lia. }
  destruct (Meta.IdleEnrolled sc (e_store w1) cutoff) as [idle|e] eqn:Ei.
  - apply exec_ok in Ei as [-> <-].
    set (idle := map er_name (filter (fun r => last_seen r < cutoff) (enrolled (e_store w1)))) in *.
    pose proof (reap_each_spec io_del a now idle w1 Wf1) as Hr. destruct (reap_each io_del a now w1 idle) as [w' n].
    destruct Hr as (R1 & R2 & R3 & R4 & R5 & R6 & R7). fold rows0 in R4, R5, R6.
    assert (forall r, r ∈ rows0 -> cutoff <= last_seen r -> r ∈ enrolled (e_store w')) as Hkeep.
    { intros r Hr Hc. apply R5; [done|]. intros (r' & Hn & [Hlt Hr']%list_elem_of_filter)%list_elem_of_fmap.
      assert (r = r') as ->; [|lia].
      apply list_elem_of_lookup in Hr as [i Hi], Hr' as [j Hj]. fold rows0 in Hj.
      assert (i = j) as ->; [|congruence]. eapply NoDup_lookup; [exact (wf_names _ (ew_store w1 Wf1))|..]; rewrite list_lookup_fmap.
      - fold rows0. rewrite Hi. done.
      - fold rows0. rewrite Hj. cbn. congruence. }
    split; [done|]. split; [done|]. split; [done|]. split; [by apply Hbuf|]. split; [|split; [done|]].
    + intros _ r Hr Hlt. apply R7; [done|]. apply list_elem_of_fmap. exists r. split; [done|]. apply list_elem_of_filter. auto.
    + intros ->. rewrite R3. destruct (Hf eq_refl) as [Hf1 Hf2]. split; [done|]. unfold rows0. by rewrite Hf2.
  - destruct sc; [done|]. split; [done|]. split; [done|]. split; [by intros|]. split; [by apply Hbuf|]. split; [done|].
    split; [unfold rows0; lia|]. intros ->. destruct (Hf eq_refl) as [Hf1 Hf2]. split; [done|]. unfold rows0. by rewrite Hf2.
Qed.
End Enroll.
Arguments EWorld {W}.

(** ** The per-address limiter *)

(** Attempts of one address at one instant. *)
Fixpoint admissions (k : nat) (s : service) (now : Z) (ip : string) : nat :=
  match k with
  | O => 0
  | S k => let '(s', b) := allow s now ip in ((if b then 1 else 0) + admissions k s' now ip)%nat
  end.

Lemma f_add_zero f : (exists m e, f = S754_finite false m e) \/ f = S754_zero false -> f_add f (S754_zero false) = f.
Proof. by intros [(m & e & ->)| ->]. Qed.

(** At the instant of its last attempt a bucket of [n <= 2] tokens is spent one by one. *)
Lemma spend (n : nat) s now ip : (exists m e, e_rate (cfg s) = S754_finite false m e) -> (n <= 2)%nat ->
  buckets s !! ip = Some (Bucket (f64_of_Z (Z.of_nat n)) now) ->
  forall k, (admissions k s now ip <= n)%nat.
Proof.
  intros (m & e & Hr) Hn Hb k. revert s n Hr Hn Hb. induction k as [|k IH]; intros s n Hr Hn Hb; [cbn; lia|].
  cbn [admissions]. unfold allow. rewrite Hr, Hb. cbn [SFleb SFcompare Limits.tokens Limits.last].
  assert (f_mul (Seconds (time_sub now now)) (S754_finite false m e) = S754_zero false) as ->.
  { unfold time_sub. rewrite Z.sub_diag. reflexivity. }
  rewrite f_add_zero by (destruct n as [|[|[|]]]; [by right|left; by do 2 eexists|left; by do 2 eexists|lia]).
  destruct n as [|[|[|]]]; [..|lia].
  all: cbn -[admissions f_sub]; repeat apply le_n_S.
  - apply (IH _ 0%nat); [done|lia|]. by apply lookup_insert_eq.
  - apply (IH _ 0%nat); [done|lia|]. by apply lookup_insert_eq.
  - apply (IH _ 1%nat); [done|lia|]. by apply lookup_insert_eq.
Qed.

(** (bounds) The limiter of the unauthenticated endpoint: the bucket table never grows
    past its cap, whatever addresses call; at the cap an unknown address for which nothing
    can be evicted is refused; an attempt changes no other address's bucket (it may evict
    it); and with a positive finite rate a new address is admitted exactly once more than
    its remaining burst at one instant: three attempts, however many it makes. *)
Theorem enroll_attempts_are_bounded s now ip :
  ((size (buckets s) <= maxBuckets)%nat -> (size (buckets (allow s now ip).1) <= maxBuckets)%nat) /\
  (SFleb (e_rate (cfg s)) (S754_zero false) = false -> (maxBuckets <= size (buckets s))%nat -> buckets s !! ip = None ->
     (forall a b, buckets s !! a = Some b -> time_sub now (Limits.last b) <= evict_idle s) ->
     (allow s now ip).2 = false /\ buckets (allow s now ip).1 = buckets s) /\
  (forall other, other <> ip -> buckets (allow s now ip).1 !! other = buckets s !! other \/
                               buckets (allow s now ip).1 !! other = None) /\
  ((exists m e, e_rate (cfg s) = S754_finite false m e) -> buckets s !! ip = None ->
     forall k, (admissions k s now ip <= 3)%nat).
Proof.
  assert (forall (P : string * bucket -> Prop) `{forall x, Decision (P x)}, size (filter P (buckets s)) <= size (buckets s))%nat as Hfl
    by (intros; apply map_size_filter).
  split; [|split; [|split]].
  - intros Hs. unfold allow. destruct (SFleb _ _); [done|]. destruct (buckets s !! ip) as [b|] eqn:Eb.
    + assert (forall x, size (<[ip := x]> (buckets s)) = size (buckets s)) as Hsz by (intros; by rewrite map_size_insert, Eb).
      destruct (SFltb _ _); cbn; by rewrite Hsz.
    + set (m := if (maxBuckets <=? size (buckets s))%nat then _ else _).
      assert (size m <= maxBuckets)%nat as Hm by (unfold m; case_match; [etransitivity; [apply Hfl|done]|done]).
      destruct (Nat.leb_spec maxBuckets (size m)); cbn [fst set_buckets buckets]; [done|].
      rewrite map_size_insert. destruct (m !! ip); cbn; lia.
  - intros Hr Hs Hn Hidle. unfold allow. rewrite Hr, Hn, (proj2 (Nat.leb_le _ _) Hs).
    rewrite map_filter_id by (intros a b Hb; by apply (Hidle a)). by rewrite (proj2 (Nat.leb_le _ _) Hs).
  - intros other Hne. unfold allow. destruct (SFleb _ _); [by left|]. destruct (buckets s !! ip) as [b|] eqn:Eb.
    + destruct (SFltb _ _); cbn; rewrite lookup_insert_ne by done; by left.
    + set (m := if (maxBuckets <=? size (buckets s))%nat then _ else _).
      assert (m !! other = buckets s !! other \/ m !! other = None) as Hm.
      { unfold m. case_match; [|by left]. destruct (buckets s !! other) as [b|] eqn:Eo.
        - destruct (decide (time_sub now (Limits.last b) <= evict_idle s)).
          + left. by apply map_lookup_filter_Some.
          + right. apply map_lookup_filter_None. right. intros x ?. by simplify_eq.
        - right. apply map_lookup_filter_None. by left. }
      destruct (_ <=? size m)%nat; cbn; [done|]. by rewrite lookup_insert_ne.
  - intros Hr Hn k. destruct k as [|k]; [cbn; lia|]. cbn [admissions]. unfold allow. destruct Hr as (m & e & Hr). rewrite Hr, Hn.
    cbn [SFleb SFcompare]. set (t := if (maxBuckets <=? size (buckets s))%nat then _ else _).
    destruct (maxBuckets <=? size t)%nat eqn:Et.
    + assert (t !! ip = None) as Htn by (unfold t; case_match; [apply map_lookup_filter_None; by left|done]).
      cbn [fst snd]. enough (admissions k (set_buckets s t) now ip <= 0)%nat by lia.
      assert (filter (fun kb : string * bucket => time_sub now (Limits.last kb.2) <= evict_idle s) t = t) as Hid.
      { apply map_filter_id. intros a b Hb. unfold t in Hb. case_match; [by apply map_lookup_filter_Some in Hb as [_ Hb]|].
        unfold t in Et. congruence. }
      clear Hfl. clearbody t. induction k as [|k IH]; [done|]. cbn [admissions]. unfold allow. cbn [set_buckets cfg buckets].
      rewrite Hr, Htn. cbn [SFleb SFcompare]. change (evict_idle (set_buckets s t)) with (evict_idle s). rewrite Et, Hid, Et. exact IH.
    + pose proof (spend 2 (set_buckets s (<[ip := Bucket (f_sub bucketBurst f_one) now]> t)) now ip) as Hsp.
      specialize (Hsp (ex_intro _ m (ex_intro _ e Hr)) (le_n 2)). apply le_n_S, Hsp. cbn -[f_sub]. by rewrite lookup_insert_eq.
Qed.

(** The eviction age is a whole number of seconds: at four attempts a second it is zero, so
    a saturated table evicts buckets that have not refilled. *)
Lemma eviction_forgets_spent_buckets (s : service) ip : e_rate (cfg s) = f64_of_Z 4 ->
  size (buckets s) = maxBuckets -> buckets s !! "flooder"%string = Some (Bucket (S754_zero false) 0) -> ip <> "flooder"%string ->
  buckets s !! ip = None ->
  buckets (allow s (second / 100) ip).1 !! "flooder"%string = None.
Proof.
  intros Hr Hs Hf Hne Hn. unfold allow. rewrite Hr, Hn, Hs, Nat.leb_refl.
  assert (evict_idle s = 0) as -> by (unfold evict_idle; rewrite Hr; vm_compute; reflexivity).
  change (SFleb (f64_of_Z 4) (S754_zero false)) with false. cbn iota.
  set (m := filter _ (buckets s)).
  assert (m !! "flooder"%string = None) as Hm.
  { apply map_lookup_filter_None. right. intros x Hx. rewrite Hf in Hx. injection Hx as <-. cbn -[time_sub]. vm_compute. intros H. by apply H. }
  destruct (maxBuckets <=? size m)%nat; cbn; [done|]. by rewrite lookup_insert_ne.
Qed.

(** ** A concrete service *)

Definition demo_challenge : string := challenge_mint [] (repeat (zb 3) 16) 1000.
Definition demo_sig : string :=
  b64_encode StdEncoding (bytes_of "alice" ++ KeyringSigningInput demo_challenge "POST" "/_auth/enroll" "").
Definition demo_enroll (key : string) : Auth.request :=
  Request "POST" "/_auth/enroll" ""
    (fun h => if String.eqb h HeaderKeyringKey then key
              else if String.eqb h HeaderKeyringChallenge then demo_challenge
              else if String.eqb h HeaderKeyringSignature then demo_sig else ""%string)
    (fun _ => None) None None "" "" None.
Definition demo_provision : Config.provision :=
  Provision true "db-{principal}" "file" None "" ∅ "readwrite" (64 * 4096) "drop".
Definition demo_conf : Config.enroll :=
  Enroll true "token" [] 2 (S754_zero false) [EnrollGrant "shared" "read"] (3600 * second) demo_provision true (3600 * second).
Definition demo_service : service := Service demo_conf [token_hash "s3cret"] true 0 ∅ ∅.
Definition demo_eworld : eworld :=
  EWorld demo_service
    (Meta.Store [] [] [Meta.Code (token_hash "ec_one") 0 4000 None] [])
    Auth.demo_auth (Authz.NewPolicy false) demo_world.
Definition demo_answers (k : nat) : answers * (bool * (string -> bool)) := (demo_ok k, (true, fun _ => true)).
Definition demo_body (b : string) : option string := Some b.

#[local] Instance demo_prov : Provisioner pworld (answers * (bool * (string -> bool))) :=
  provision_provisioner no_pragmas id demo_encode demo_resolver "/data".

Definition demo_serve (o : io) (k : nat) (w : eworld) (key token : string) : eworld * reply :=
  ServeHTTP Auth.demo_key Auth.demo_verify demo_body o 2000 (demo_answers k) w (RequestIn (demo_enroll key) token).

Lemma demo_ewf : ewf demo_eworld.
Proof.
  split; cbn.
  - split; cbn; [constructor|constructor|constructor|]. apply NoDup_singleton.
  - intros r Hr. by apply not_elem_of_nil in Hr.
  - done.
  - intros c cr H. vm_compute in H. discriminate H.
  - exact demo_world_pinv.
Qed.

Definition demo_name : string := PrincipalName "alice".
Definition demo_enrolled : eworld := (demo_serve io_fine 1 demo_eworld "alice" "ec_one").1.
Definition demo_failing : answers * (bool * (string -> bool)) :=
  (Answers 1 1 (Err "locked"%string) true 7 (fun _ => false), (true, fun _ => true)).

Lemma enrollment_is_earned_witness :
  (demo_serve io_fine 1 demo_eworld "alice" "ec_one").2 = Created demo_name true /\ ewf demo_enrolled /\
  prov_served (e_db demo_enrolled) (provisionName demo_service demo_name) = true.
Proof.
  assert (demo_serve io_fine 1 demo_eworld "alice" "ec_one" = (demo_enrolled, Created demo_name true)) as E
    by (vm_compute; reflexivity).
  split; [by rewrite E|].
  destruct (enrollment_is_earned Auth.demo_key Auth.demo_verify demo_body io_fine 2000 (demo_answers 1) demo_eworld
    (RequestIn (demo_enroll "alice") "ec_one") demo_enrolled demo_name true demo_ewf eq_refl eq_refl E)
    as (Wf & canon & pub & _ & _ & [(Hf & _)|(_ & _ & _ & _ & _ & _ & H)]); [discriminate Hf|].
  split; [exact Wf|]. by apply H.
Defined.

Lemma refused_enrollment_leaves_nothing_witness :
  let r := ServeHTTP Auth.demo_key Auth.demo_verify demo_body io_fine 2000 demo_failing demo_eworld
             (RequestIn (demo_enroll "alice") "ec_one") in
  r.2 = Refused 500 /\ untouched demo_name demo_eworld r.1 /\ ewf r.1.
Proof.
  cbv zeta. destruct (ServeHTTP _ _ _ _ _ _ _ _) as [w' rep] eqn:E. cbn [fst snd].
  assert (rep = Refused 500) as -> by (change rep with (w', rep).2; rewrite <- E; vm_compute; reflexivity).
  split; [reflexivity|].
  pose proof (refused_enrollment_leaves_nothing Auth.demo_key Auth.demo_verify demo_body io_fine 2000 demo_failing demo_eworld
    (RequestIn (demo_enroll "alice") "ec_one") w' 500 demo_ewf eq_refl eq_refl eq_refl E) as H.
  assert (presented_name Auth.demo_key Auth.demo_verify io_fine 2000
            (set_svc demo_eworld (allow (e_svc demo_eworld) 2000 "10.0.0.1").1)
            (RequestIn (demo_enroll "alice") "ec_one") = demo_name) as Hn by (vm_compute; reflexivity).
  rewrite <- Hn. exact H.
Defined.

Lemma demo_enrolled_wf : ewf demo_enrolled.
Proof.
  assert (enrolled (e_store demo_enrolled) = [Meta.ERow demo_name "alice" 0 None]) as Hr by (vm_compute; reflexivity).
  split; rewrite ?Hr.
  - assert (databases (e_store demo_enrolled) = [] /\ map c_hash (enroll_codes (e_store demo_enrolled)) = [token_hash "ec_one"]) as [Hd Hc]
      by (vm_compute; by split).
    split; rewrite ?Hr, ?Hd, ?Hc; [constructor|apply NoDup_singleton..].
  - by intros r ->%list_elem_of_singleton.
  - vm_compute. reflexivity.
  - assert (dynKeyring (e_auth demo_enrolled) = {["alice"%string := KeyringCred "alice" demo_name]}) as -> by (vm_compute; reflexivity).
    intros c cr [<- <-]%lookup_singleton_Some. eexists. split; [by apply list_elem_of_singleton|]. by split.
  - assert (exists spec, e_db demo_enrolled = (demo_create (demo_ok 1) demo_world spec).1) as [spec ->].
    { destruct (provisionSpec demo_service demo_name) as [spec|] eqn:E; [|vm_compute in E; discriminate E]. exists spec.
      vm_compute in E. injection E as <-. vm_compute. reflexivity. }
    apply Create_pinv; [exact demo_world_pinv|reflexivity].
Qed.

(** An hour later the principal that never authenticated is gone, with its database. *)
Lemma idle_principals_are_collected_witness :
  let r := reap true true true (fun _ => true) (demo_answers 2) demo_enrolled 10000 in
  r.2 = 1 /\ ewf r.1 /\ enrolled (e_store r.1) = [] /\ prov_served (e_db r.1) ("db-" +:+ demo_name) = false.
Proof.
  pose proof (idle_principals_are_collected true true (fun _ => true) (demo_answers 2) demo_enrolled 10000 demo_enrolled_wf ltac:(vm_compute; reflexivity)) as H.
  cbv zeta in *. destruct (reap _ _ _ _ _ _ _) as [w' n] eqn:E. destruct H as (H1 & _). cbn [fst snd].
  assert (n = 1) as -> by (change n with (w', n).2; rewrite <- E; vm_compute; reflexivity).
  assert (enrolled (e_store w') = [] /\ prov_served (e_db w') ("db-" +:+ demo_name) = false) as H2
    by (change w' with (w', 1).1; rewrite <- E; vm_compute; by split).
  destruct H2 as [H2 H3]. exact (conj eq_refl (conj H1 (conj H2 H3))).
Defined.

(** The same principal has just authenticated, and the write of the buffered activity fails:
    it is removed all the same, with its database; its activity is still in the buffer. *)
Lemma failed_flush_evicts_active :
  let active := set_svc demo_enrolled (set_seen (e_svc demo_enrolled) {[ demo_name := 9999 ]}) in
  let r := reap false false true (fun _ => true) (demo_answers 2) active 10000 in
  (9999 >=? 10000 - ttl_seconds (e_svc active)) = true /\ r.2 = 1 /\ enrolled (e_store r.1) = [] /\
  prov_served (e_db r.1) ("db-" +:+ demo_name) = false /\ seen (e_svc r.1) !! demo_name = Some 9999 /\
  (reap true true true (fun _ => true) (demo_answers 2) active 10000).2 = 0.
Proof. vm_compute. repeat split. Qed.

(** Revoking a name nobody holds drops the database the template gives for that name, file
    included, before it finds out: with the template ["{principal}"] an operator's database
    is one call away. *)
Definition bare_conf : Config.enroll :=
  Enroll true "open" [] 0 (S754_zero false) [] 0 (Provision true "{principal}" "file" None "" ∅ "readwrite" 0 "drop") false 0.
Lemma unknown_principal_costs_a_database :
  let w := EWorld (Service bare_conf [] true 0 ∅ ∅) empty_store Auth.demo_auth (Authz.NewPolicy false)
             (demo_create (demo_ok 1) demo_world (demo_file "books" "books.db")).1 in
  let r := Delete true (demo_answers 2) w "books" in
  prov_served (e_db w) "books" = true /\ r.2 = Ok false /\ prov_served (e_db r.1) "books" = false.
Proof. vm_compute. by split. Qed.
