(* ===== verification/EnrollGate.v ===== *)
(** * enroll: the gate of a principal

    [ServeHTTP] provisions a database outside the service mutex and [Delete] drops it; the
    two are kept apart by a gate per principal, a reference-counted mutex in a table
    ([lockGate] of [src/enroll/enroll.go]).  Here any number of enrollments and revocations
    run interleaved: a thread's step is one critical section, one statement or one call of
    the provisioner, in the code's order, and its environment gives the outcomes, failures of
    the store included. *)
From S2P Require Import Prelude GoStd Config Meta Authz Auth Registry Provision Enroll.

(** ** The name template is injective *)

Lemma sapp_inj a b x y : String.length a = String.length b -> (a ++ x)%string = (b ++ y)%string -> a = b /\ x = y.
Proof.
  revert b. induction a as [|c a IH]; intros [|d b] Hl; try done. rewrite !sapp_cons. intros [= -> H].
  injection Hl as Hl. by destruct (IH b Hl H) as [-> ->].
Qed.

Section Template.
Variable old : string.
Hypothesis old_nonempty : (0 < String.length old)%nat.

Lemma cut_shorter s t : cut_prefix old s = Some t -> (String.length t < String.length s)%nat.
Proof. intros ->%cut_prefix_some. rewrite slength_app. lia. Qed.
Lemma contains_empty : contains "" old = false.
Proof. unfold contains. destruct old; cbn in *; [lia|done]. Qed.
Lemma contains_cons c r : cut_prefix old (String c r) = None -> contains (String c r) old = contains r old.
Proof. intros Hc. unfold contains. cbn [after_str]. by rewrite Hc. Qed.

(** The result's length is affine in the replacement's. *)
Lemma replace_length k s : (String.length s <= k)%nat ->
  exists a c, (forall new, String.length (replace_fuel k old new s) = (a + c * String.length new)%nat) /\
              (contains s old = true -> (1 <= c)%nat).
Proof.
  revert s. induction k as [|k IH]; intros [|c r] Hl; cbn in Hl; try lia; cbn [replace_fuel].
  1-2: exists 0%nat, 0%nat; split; [done|by rewrite contains_empty].
  destruct (cut_prefix old (String c r)) as [t|] eqn:Ec.
  - destruct (IH t) as (a & n & Hlen & _); [apply cut_shorter in Ec; cbn in Ec; lia|]. exists a, (S n). split; [|lia].
    intros new. rewrite slength_app, Hlen. lia.
  - destruct (IH r) as (a & n & Hlen & Hc); [lia|]. exists (S a), n. split; [intros new; cbn; by rewrite Hlen|].
    by rewrite contains_cons.
Qed.

Lemma replace_same_length k s p q : (String.length s <= k)%nat -> contains s old = true -> String.length p = String.length q ->
  replace_fuel k old p s = replace_fuel k old q s -> p = q.
Proof.
  revert s. induction k as [|k IH]; intros [|c r] Hl Hc Hpq; cbn in Hl; try lia; cbn [replace_fuel].
  1-2: by rewrite contains_empty in Hc.
  destruct (cut_prefix old (String c r)) as [t|] eqn:Ec; [by intros [H _]%sapp_inj|].
  rewrite contains_cons in Hc by done. intros [= H]. by apply (IH r); [lia|..].
Qed.

Lemma ReplaceAll_injective s p q : contains s old = true -> ReplaceAll s old p = ReplaceAll s old q -> p = q.
Proof.
  intros Hc H. apply (replace_same_length (String.length s) s); try done.
  destruct (replace_length (String.length s) s) as (a & c & Hlen & Hpos); [done|]. specialize (Hpos Hc).
  pose proof (Hlen p) as Hp. unfold ReplaceAll in H. rewrite H, Hlen in Hp. nia.
Qed.
End Template.

Inductive answer : Type :=
| AEnroll (r : reply)
| ADelete (r : result delerr bool).

(** What runs while the gate is held: [ServeHTTP] from the recheck on, and [Delete]. *)
Inductive body : Type :=
| BCheck (canon h : string)              (* EnrolledByKey *)
| BCreate (h : string)                   (* provisionFor *)
| BUndo (h : string) (st : Z)            (* rollbackEnroll: under the service mutex *)
| BRelease (h : string) (st : Z)         (*   and the code *)
| BDrop                                  (* prov.Drop *)
| BRow                                   (* DeleteEnrolled *)
| BKey                                   (* RemoveKeyringName *)
| BGrants                                (* RevokePrincipal *)
| BCount                                 (* the count, under the mutex *)
| BLeave (x : answer).                   (* about to unlock *)

Inductive pc : Type :=
| Start (canon pub presented : string)       (* possession is proven *)
| Lock (name : string) (b : body)            (* lockGate: about to look the gate up *)
| Wait (name : string) (g : nat) (b : body)  (*   holding a reference, before its mutex *)
| Hold (name : string) (g : nat) (b : body)
| Unref (name : string) (g : nat) (x : answer)   (* unlocked; the reference is still held *)
| Report (name : string) (x : answer)        (* the audit entry and the response *)
| Fin (x : answer).

(** [provGate]: who holds its mutex (the code keeps only that someone does), and [refs]. *)
Record gate := Gate { holder : option nat; refs : Z }.

Section Gate.
Context {W A : Type} `{!Provisioner W A}.

Record sys := Sys {
  s_w : eworld (W := W);
  s_gates : gmap string nat;
  s_heap : gmap nat gate;
  s_next : nat;
  s_pool : gmap nat pc
}.
(** The outcomes and the time of one step. *)
Record env := Env { v_io : io; v_now : Z; v_arg : A }.

Definition to_pc (s : sys) (t : nat) (p : pc) : sys := Sys (s_w s) (s_gates s) (s_heap s) (s_next s) (<[t := p]> (s_pool s)).
Definition with_w (s : sys) (w : eworld) : sys := Sys w (s_gates s) (s_heap s) (s_next s) (s_pool s).
Definition with_heap (s : sys) (h : gmap nat gate) : sys := Sys (s_w s) (s_gates s) h (s_next s) (s_pool s).

Definition body_step (v : env) (w : eworld (W := W)) (name : string) (b : body) : eworld (W := W) * body :=
  let o := v_io v in
  match b with
  | BCheck canon h => if still_enrolled o w canon then (w, BCreate h) else (w, BUndo h 409)
  | BCreate h =>
      match provisionFor (v_arg v) w name with
      | (w', true) => (w', BLeave (AEnroll (Created name true)))
      | (w', false) => (w', BUndo h 500)
      end
  | BUndo h st => (rollback_locked o w name, BRelease h st)
  | BRelease h st => (release_code o w h, BLeave (AEnroll (Refused st)))
  | BDrop =>
      match delete_drop (v_arg v) w name with
      | (w', Some e) => (w', BLeave (ADelete (Err e)))
      | (w', None) => (w', BRow)
      end
  | BRow =>
      match Meta.DeleteEnrolled (i_delete o) (e_store w) name with
      | Err _ => (w, BLeave (ADelete (Err DStore)))
      | Ok (st, false) => (set_estore w st, BLeave (ADelete (Ok false)))
      | Ok (st, true) => (set_estore w st, BKey)
      end
  | BKey => (set_auth w (Auth.RemoveKeyringName (e_auth w) name), BGrants)
  | BGrants => (set_pol w (Authz.RevokePrincipal (e_pol w) name), BCount)
  | BCount => (set_svc w (set_count (e_svc w) (count (e_svc w) - 1)), BLeave (ADelete (Ok true)))
  | BLeave x => (w, BLeave x)
  end.

(** The audit entry of an answer; a revocation is audited by its caller. *)
Definition report (v : env) (w : eworld (W := W)) (name : string) (x : answer) : eworld (W := W) :=
  match x with
  | AEnroll (Created _ _) => audit_as (v_io v) (v_now v) w name "enroll.created" ("ip=" +:+ i_ip (v_io v))
  | AEnroll (Refused st) =>
      audit_as (v_io v) (v_now v) w name "enroll.failed"
        (if st =? 409 then "revoked or unconfirmed before provisioning" else "provision: " +:+ i_errtext (v_io v))
  | ADelete _ => w
  end.

Definition start_step (v : env) (w : eworld (W := W)) (canon pub presented : string) : eworld (W := W) * pc :=
  match enroll_locked (v_io v) (v_now v) w canon pub presented with
  | (w', Done r) => (w', Fin (AEnroll r))
  | (w', EnrolledNow h) =>
      let name := PrincipalName canon in
      (w', if provisionEnabled (e_svc w') then Lock name (BCheck canon h) else Report name (AEnroll (Created name true)))
  end.

(** Thread [t] takes its next step; [None] when it has none (finished, or the mutex is
    taken). *)
Definition step (v : env) (t : nat) (s : sys) : option sys :=
  match s_pool s !! t with
  | None | Some (Fin _) => None
  | Some (Start canon pub presented) =>
      let '(w, p) := start_step v (s_w s) canon pub presented in Some (to_pc (with_w s w) t p)
  | Some (Lock name b) =>
      match s_gates s !! name with
      | Some g =>
          match s_heap s !! g with
          | Some ob => Some (to_pc (with_heap s (<[g := Gate (holder ob) (refs ob + 1)]> (s_heap s))) t (Wait name g b))
          | None => None
          end
      | None =>
          Some (Sys (s_w s) (<[name := s_next s]> (s_gates s)) (<[s_next s := Gate None 1]> (s_heap s)) (S (s_next s))
                  (<[t := Wait name (s_next s) b]> (s_pool s)))
      end
  | Some (Wait name g b) =>
      match s_heap s !! g with
      | Some (Gate None r) => Some (to_pc (with_heap s (<[g := Gate (Some t) r]> (s_heap s))) t (Hold name g b))
      | _ => None
      end
  | Some (Hold name g (BLeave x)) =>
      match s_heap s !! g with
      | Some ob => Some (to_pc (with_heap s (<[g := Gate None (refs ob)]> (s_heap s))) t (Unref name g x))
      | None => None
      end
  | Some (Hold name g b) =>
      let '(w, b') := body_step v (s_w s) name b in Some (to_pc (with_w s w) t (Hold name g b'))
  | Some (Unref name g x) =>
      match s_heap s !! g with
      | Some ob =>
          Some (Sys (s_w s) (if refs ob - 1 =? 0 then delete name (s_gates s) else s_gates s)
                  (<[g := Gate (holder ob) (refs ob - 1)]> (s_heap s)) (s_next s) (<[t := Report name x]> (s_pool s)))
      | None => None
      end
  | Some (Report name x) => Some (to_pc (with_w s (report v (s_w s) name x)) t (Fin x))
  end.

Definition steps (s s' : sys) : Prop := exists v t, step v t s = Some s'.

(** A server with an empty gate table and any requests about to run. *)
Definition is_request (p : pc) : Prop :=
  match p with Start _ _ _ | Lock _ BDrop => True | _ => False end.
Definition initial (s : sys) : Prop :=
  s_gates s = ∅ /\ s_heap s = ∅ /\ forall t p, s_pool s !! t = Some p -> is_request p.

(** ** Mutual exclusion *)

Definition at_gate (p : pc) : option (string * nat) :=
  match p with
  | Wait name g _ | Hold name g _ | Unref name g _ => Some (name, g)
  | _ => None
  end.
Definition at_ (name : string) (g : nat) (p : pc) : Z := if decide (at_gate p = Some (name, g)) then 1 else 0.
Definition users (s : sys) (name : string) (g : nat) : Z := map_sum (at_ name g) (s_pool s).

Record ginv (s : sys) : Prop := {
  gi_ref : forall t p name g, s_pool s !! t = Some p -> at_gate p = Some (name, g) -> s_gates s !! name = Some g;
  gi_gate : forall name g, s_gates s !! name = Some g ->
    exists ob, s_heap s !! g = Some ob /\ refs ob = users s name g /\ 0 < refs ob;
  gi_inj : forall n m g, s_gates s !! n = Some g -> s_gates s !! m = Some g -> n = m;
  gi_fresh : forall n g, s_gates s !! n = Some g -> (g < s_next s)%nat;
  gi_hold : forall t name g b, s_pool s !! t = Some (Hold name g b) -> exists r, s_heap s !! g = Some (Gate (Some t) r);
  gi_held : forall name g t r, s_gates s !! name = Some g -> s_heap s !! g = Some (Gate (Some t) r) ->
    exists b, s_pool s !! t = Some (Hold name g b)
}.

Lemma at_nonneg name g p : 0 <= at_ name g p.
Proof. unfold at_. case_decide; lia. Qed.

Lemma at_in name g p : at_gate p = Some (name, g) -> at_ name g p = 1.
Proof. intros H. unfold at_. by rewrite decide_True. Qed.
Lemma at_out name g p : at_gate p <> Some (name, g) -> at_ name g p = 0.
Proof. intros H. unfold at_. by rewrite decide_False. Qed.

Lemma users_update s name g t p p' : s_pool s !! t = Some p ->
  map_sum (at_ name g) (<[t := p']> (s_pool s)) = users s name g - at_ name g p + at_ name g p'.
Proof. apply map_sum_update. Qed.

Lemma initial_ginv s : initial s -> ginv s.
Proof.
  intros (Hg & Hh & Hp). split; rewrite ?Hg; try (intros; by rewrite lookup_empty in *); try done.
  - intros t p name g Ht Hat. specialize (Hp t p Ht). by destruct p as [|? []| | | | |].
  - intros t name g b Ht. by specialize (Hp t _ Ht).
Qed.

(** A thread that stays where it is with respect to gates. *)
Lemma ginv_same s t p p' w : ginv s -> s_pool s !! t = Some p -> at_gate p = at_gate p' ->
  (forall name g b, p' = Hold name g b -> exists b0, p = Hold name g b0) ->
  (forall name g b, p = Hold name g b -> exists b0, p' = Hold name g b0) ->
  ginv (to_pc (with_w s w) t p').
Proof.
  intros [G1 G2 G3 G4 G5 G6] Ht Hat Hh Hh'. split; cbn.
  - intros t' q name g [[<- <-]|[Hne Hq]]%lookup_insert_Some Hat'; [|by eapply G1].
    eapply G1; [exact Ht|congruence].
  - intros name g Hg. destruct (G2 name g Hg) as (ob & Ho & Hr & Hpos). exists ob. split; [done|]. split; [|done].
    unfold users. cbn. rewrite (users_update s name g t p p' Ht). unfold at_. rewrite Hat. lia.
  - done.
  - done.
  - intros t' name g b [[<- Hq]|[Hne Hq]]%lookup_insert_Some; [|by eapply G5].
    destruct (Hh _ _ _ Hq) as [b0 ->]. by eapply G5.
  - intros name g t' r Hg Ho. destruct (G6 name g t' r Hg Ho) as [b Hb].
    destruct (decide (t = t')) as [<-|Hne]; [|exists b; by rewrite lookup_insert_ne].
    rewrite Ht in Hb. injection Hb as ->. destruct (Hh' _ _ _ eq_refl) as [b0 ->]. exists b0. by rewrite lookup_insert_eq.
Qed.

(** A thread that moves at one gate, whose table entry stays. *)
Lemma ginv_move s t p p' name g ob ob' : ginv s -> s_pool s !! t = Some p ->
  s_gates s !! name = Some g -> s_heap s !! g = Some ob ->
  at_gate p = None \/ at_gate p = Some (name, g) -> at_gate p' = None \/ at_gate p' = Some (name, g) ->
  refs ob' = refs ob - at_ name g p + at_ name g p' -> 0 < refs ob' ->
  ((exists b, p' = Hold name g b) /\ holder ob' = Some t /\ (holder ob = None \/ holder ob = Some t) \/
   (forall n h b, p' <> Hold n h b) /\
     ((exists b, p = Hold name g b) /\ holder ob' = None \/ (forall n h b, p <> Hold n h b) /\ holder ob' = holder ob)) ->
  ginv (to_pc (with_heap s (<[g := ob']> (s_heap s))) t p').
Proof.
  intros [G1 G2 G3 G4 G5 G6] Ht Hg Ho Hp Hp' Hrefs Hpos Hcase.
  assert (forall n h, (n, h) <> (name, g) -> at_ n h p = 0 /\ at_ n h p' = 0) as Hoth.
  { intros n h Hne. unfold at_. destruct Hp as [-> | ->], Hp' as [-> | ->]; by rewrite ?decide_False by congruence. }
  assert (forall n h, s_gates s !! n = Some h -> (n, h) = (name, g) \/ (n, h) <> (name, g) /\ h <> g) as Hsplit.
  { intros n h Hn. destruct (decide ((n, h) = (name, g))); [by left|right]. split; [done|]. intros ->.
    rewrite (G3 n name g Hn Hg) in *. done. }
  split; cbn.
  - intros t' q n h [[<- <-]|[Hne Hq]]%lookup_insert_Some Hat'; [|by eapply G1]. destruct Hp' as [E|E]; congruence.
  - intros n h Hn. destruct (Hsplit n h Hn) as [[= -> ->]|[Hne Hh]].
    + exists ob'. rewrite lookup_insert_eq. split; [done|]. split; [|done]. unfold users. cbn.
      rewrite (users_update s name g t p p' Ht). destruct (G2 name g Hg) as (ob0 & Ho0 & Hr & _). simplify_eq. lia.
    + destruct (G2 n h Hn) as (ob0 & Ho0 & Hr & Hr0). exists ob0. rewrite lookup_insert_ne by done. split; [done|].
      split; [|done]. unfold users. cbn. rewrite (users_update s n h t p p' Ht). destruct (Hoth n h Hne) as [-> ->]. lia.
  - done.
  - done.
  - intros t' n h b [[<- Hq]|[Hne Hq]]%lookup_insert_Some.
    + destruct Hcase as [([b' ->] & Hob & _)|[Hno _]]; [|by destruct (Hno n h b)]. injection Hq as <- <- <-.
      rewrite lookup_insert_eq. exists (refs ob'). destruct ob'; cbn in *; congruence.
    + destruct (G5 t' n h b Hq) as [r Hr]. destruct (decide (h = g)) as [->|]; [|rewrite lookup_insert_ne by done; eauto].
      rewrite lookup_insert_eq. rewrite Hr in Ho. injection Ho as <-. cbn in Hcase.
      assert (n = name) as -> by (eapply G3; [eapply G1; [exact Hq|done]|done]).
      destruct Hcase as [(_ & _ & [|[= ->]])|[_ [([b' ->] & _)|[Hno Hob]]]]; [done|done| |].
      * destruct (G5 t name g b' Ht) as [r' Hr']. congruence.
      * exists (refs ob'). destruct ob'; cbn in *; congruence.
  - intros n h t' r Hn Hh. destruct (Hsplit n h Hn) as [[= -> ->]|[Hne Hhg]].
    + rewrite lookup_insert_eq in Hh. injection Hh as ->. cbn in Hcase.
      destruct Hcase as [([b ->] & [= <-] & _)|[Hno [(_ & Hob)|[Hno' Hob]]]]; [exists b; by rewrite lookup_insert_eq|done|].
      destruct ob as [ho rr]. cbn in Hob. subst ho. destruct (G6 name g t' rr Hg Ho) as [b Hb]. exists b.
      destruct (decide (t = t')) as [<-|]; [|by rewrite lookup_insert_ne]. rewrite Ht in Hb. injection Hb as ->. by destruct (Hno' name g b).
    + rewrite lookup_insert_ne in Hh by done. destruct (G6 n h t' r Hn Hh) as [b Hb]. exists b.
      destruct (decide (t = t')) as [<-|]; [|by rewrite lookup_insert_ne]. rewrite Ht in Hb. injection Hb as ->. cbn in Hp.
      destruct Hp as [|Hp]; [done|]. injection Hp as -> ->. done.
Qed.

Lemma ginv_body s t name g b b' w : ginv s -> s_pool s !! t = Some (Hold name g b) ->
  ginv (to_pc (with_w s w) t (Hold name g b')).
Proof.
  intros G Ht. apply (ginv_same s t (Hold name g b)); [done|done|done| |].
  - intros n h b0 [= -> -> _]. by exists b.
  - intros n h b0 [= -> -> _]. by exists b'.
Qed.

(** The last user takes the gate out of the table. *)
Lemma ginv_last s t name g x ob : ginv s -> s_pool s !! t = Some (Unref name g x) -> s_heap s !! g = Some ob -> refs ob = 1 ->
  ginv (Sys (s_w s) (delete name (s_gates s)) (<[g := Gate (holder ob) 0]> (s_heap s)) (s_next s) (<[t := Report name x]> (s_pool s))).
Proof.
  intros [G1 G2 G3 G4 G5 G6] Ht Ho H1. pose proof (G1 t _ name g Ht eq_refl) as Hg.
  destruct (G2 name g Hg) as (ob' & Ho' & Hr & _). simplify_eq.
  assert (forall t' p, t' <> t -> s_pool s !! t' = Some p -> at_gate p <> Some (name, g)) as Hlone.
  { intros t' p Hne Hp Hat. pose proof (users_update s name g t _ (Report name x) Ht) as Hu.
    rewrite at_in, at_out in Hu by done.
    pose proof (map_sum_ge (at_ name g) (<[t := Report name x]> (s_pool s)) t' p (at_nonneg _ _)) as Hge.
    rewrite lookup_insert_ne in Hge by done. specialize (Hge Hp). rewrite at_in in Hge by done. lia. }
  split; cbn.
  - intros t' p n h [[<- <-]|[Hne Hp]]%lookup_insert_Some Hat; [done|]. rewrite lookup_delete_ne; [by eapply G1|].
    intros <-. specialize (G1 t' p name h Hp Hat). assert (h = g) as -> by congruence. by apply (Hlone t' p).
  - intros n h [Hne Hn]%lookup_delete_Some. destruct (G2 n h Hn) as (ob' & Ho' & Hr' & Hpos). exists ob'.
    rewrite lookup_insert_ne by (intros <-; by destruct Hne; eapply G3). split; [done|]. split; [|done].
    unfold users. cbn. rewrite (users_update s n h t _ (Report name x) Ht), !at_out by (cbn; congruence). lia.
  - intros n m h [_ Hn]%lookup_delete_Some [_ Hm]%lookup_delete_Some. by eapply G3.
  - intros n h [_ Hn]%lookup_delete_Some. by eapply G4.
  - intros t' n h b [[<- Hq]|[Hne Hq]]%lookup_insert_Some; [done|]. destruct (G5 t' n h b Hq) as [r Hr']. exists r.
    rewrite lookup_insert_ne; [done|]. intros <-. specialize (G1 _ _ n g Hq eq_refl).
    assert (n = name) as -> by (by eapply G3). by apply (Hlone t' _ (not_eq_sym Hne) Hq).
  - intros n h t' r [Hne Hn]%lookup_delete_Some. rewrite lookup_insert_ne by (intros <-; by destruct Hne; eapply G3).
    intros Hh. destruct (G6 n h t' r Hn Hh) as [b Hb]. exists b. rewrite lookup_insert_ne; [done|]. intros <-. congruence.
Qed.

Lemma body_leaves b : (exists x, b = BLeave x) \/ (forall x, b <> BLeave x).
Proof. destruct b; try (by right). left. by eexists. Qed.

(** A gate nobody waits at counts no user. *)
Lemma users_unused s name g : (forall t p, s_pool s !! t = Some p -> at_gate p <> Some (name, g)) -> users s name g = 0.
Proof.
  intros H. pose proof (map_sum_nonneg (at_ name g) (s_pool s) (at_nonneg _ _)) as Hn0.
  destruct (Z.eq_dec (users s name g) 0) as [|Hne0]; [done|].
  destruct (map_sum_pos (at_ name g) (s_pool s)) as (t' & p & Hp & Hpp); [unfold users in *; lia|].
  unfold at_ in Hpp. case_decide as Hat; [|lia]. by destruct (H t' p Hp).
Qed.
(** The first request for a name makes its gate. *)
Lemma ginv_fresh s t name b : ginv s -> s_pool s !! t = Some (Lock name b) -> s_gates s !! name = None ->
  ginv (Sys (s_w s) (<[name := s_next s]> (s_gates s)) (<[s_next s := Gate None 1]> (s_heap s)) (S (s_next s)) (<[t := Wait name (s_next s) b]> (s_pool s))).
Proof.
  intros [G1 G2 G3 G4 G5 G6] Ht Eg.
  assert (forall n h, s_gates s !! n = Some h -> n <> name /\ h <> s_next s) as Hother.
  { intros n h Hn. split; [congruence|]. specialize (G4 n h Hn). lia. }
  split; cbn.
  * intros t' p n h [[<- <-]|[Hne Hp]]%lookup_insert_Some Hat; cbn in *; [injection Hat as <- <-; by rewrite lookup_insert_eq|].
    specialize (G1 t' p n h Hp Hat). rewrite lookup_insert_ne; [done|]. intros <-. congruence.
  * intros n h [[<- <-]|[Hne Hn]]%lookup_insert_Some.
    -- eexists. rewrite lookup_insert_eq. split; [done|]. cbn. split; [|lia]. unfold users. cbn.
       rewrite (users_update s name (s_next s) t _ (Wait name (s_next s) b) Ht).
       rewrite users_unused by (intros t' p Hp Hat; specialize (G1 _ _ _ _ Hp Hat); congruence).
       rewrite (at_out name (s_next s) (Lock name b)), at_in by done. lia.
    -- destruct (G2 n h Hn) as (ob & Ho & Hr & Hpos). destruct (Hother n h Hn) as [_ Hh]. exists ob.
       rewrite lookup_insert_ne by done. split; [done|]. split; [|done]. unfold users. cbn.
       rewrite (users_update s n h t _ (Wait name (s_next s) b) Ht). rewrite (at_out _ _ (Lock name b)), at_out by (cbn; congruence). lia.
  * intros n m h [[<- <-]|[Hne Hn]]%lookup_insert_Some [[<- Hm]|[Hne' Hm]]%lookup_insert_Some; try done.
    -- by destruct (Hother m _ Hm).
    -- subst. by destruct (Hother n _ Hn).
    -- by eapply G3.
  * intros n h [[<- <-]|[Hne Hn]]%lookup_insert_Some; [lia|]. specialize (G4 n h Hn). lia.
  * intros t' n h b' [[<- Hq]|[Hne Hq]]%lookup_insert_Some; [done|]. destruct (G5 t' n h b' Hq) as [r Hr].
    exists r. rewrite lookup_insert_ne; [done|]. intros <-. by destruct (Hother n (s_next s) (G1 t' _ n _ Hq eq_refl)).
  * intros n h t' r [[<- <-]|[Hne Hn]]%lookup_insert_Some.
    -- rewrite lookup_insert_eq. done.
    -- destruct (Hother n h Hn) as [_ Hh]. rewrite lookup_insert_ne by done. intros Ho. destruct (G6 n h t' r Hn Ho) as [b' Hb'].
       exists b'. rewrite lookup_insert_ne; [done|]. intros <-. congruence.
Qed.

Lemma step_ginv v t s s' : ginv s -> step v t s = Some s' -> ginv s'.
Proof.
  intros G. unfold step. destruct (s_pool s !! t) as [[canon pub presented|name b|name g b|name g b|name g x|name x|x]|] eqn:Ht; [..|done].
  - unfold start_step. destruct (enroll_locked _ _ _ _ _ _) as [w' [r|h]]; intros [= <-].
    + eapply ginv_same; [done|exact Ht|done|done|done].
    + eapply ginv_same; [done|exact Ht|by destruct (provisionEnabled _)|by destruct (provisionEnabled _)|done].
  - destruct (s_gates s !! name) as [g|] eqn:Eg.
    + destruct (gi_gate s G name g Eg) as (ob & Ho & Hr & Hpos). rewrite Ho. intros [= <-].
      eapply (ginv_move s t _ _ name g ob); [done|exact Ht|done|done|by left|by right| | |].
      * rewrite (at_out _ _ (Lock name b)), at_in by done. cbn. lia.
      * cbn. lia.
      * right. split; [done|]. right. by split.
    + intros [= <-]. by eapply ginv_fresh.
  - pose proof (gi_ref s G t _ name g Ht eq_refl) as Hg. destruct (s_heap s !! g) as [[[|] r]|] eqn:Ho; [done| |done]. intros [= <-].
    destruct (gi_gate s G name g Hg) as (ob & Ho' & Hr & Hpos). simplify_eq. cbn in Hpos.
    eapply (ginv_move s t _ _ name g (Gate None r)); [done|exact Ht|done|done|by right|by right| |done|].
    + rewrite !at_in by done. cbn. lia.
    + left. split; [by exists b|]. split; [done|]. by left.
  - destruct (body_leaves b) as [[x ->]|Hb].
    + pose proof (gi_ref s G t _ name g Ht eq_refl) as Hg. destruct (gi_gate s G name g Hg) as (ob & Ho & Hr & Hpos). rewrite Ho. intros [= <-].
      eapply (ginv_move s t _ _ name g ob); [done|exact Ht|done|done|by right|by right| |done|].
      * rewrite !at_in by done. cbn. lia.
      * right. split; [done|]. left. split; [by eexists|done].
    + intros Hs. assert (exists w' b', s' = to_pc (with_w s w') t (Hold name g b')) as (w' & b' & ->); [|by eapply ginv_body].
      destruct b; try (by destruct (Hb x)); destruct (body_step v (s_w s) name _) as [w' b']; injection Hs as <-; by exists w', b'.
  - pose proof (gi_ref s G t _ name g Ht eq_refl) as Hg. destruct (gi_gate s G name g Hg) as (ob & Ho & Hr & Hpos). rewrite Ho.
    destruct (Z.eqb_spec (refs ob - 1) 0) as [Hz|Hz]; intros [= <-].
    + rewrite Hz. eapply ginv_last; [done|exact Ht|done|lia].
    + eapply (ginv_move s t _ (Report name x) name g ob); [done|exact Ht|done|done|by right|by left| |cbn; lia|].
      * rewrite at_in, at_out by done. cbn. lia.
      * right. split; [done|]. right. by split.
  - intros [= <-]. eapply ginv_same; [done|exact Ht|done|done|done].
  - done.
Qed.

Lemma reach_ginv s0 s : initial s0 -> rtc steps s0 s -> ginv s.
Proof.
  intros H0 Hr. apply initial_ginv in H0. induction Hr as [|s s1 s2 (v & t & Hs) _ IH]; [done|].
  by apply IH, (step_ginv v t s).
Qed.

(** ** Every thread finishes *)

Definition body_work (b : body) : Z :=
  match b with
  | BLeave _ => 3 | BRelease _ _ => 4 | BUndo _ _ => 5 | BCreate _ => 6 | BCheck _ _ => 7
  | BCount => 4 | BGrants => 5 | BKey => 6 | BRow => 7 | BDrop => 8
  end.
Definition work (p : pc) : Z :=
  match p with
  | Fin _ => 0 | Report _ _ => 1 | Unref _ _ _ => 2
  | Hold _ _ b => body_work b | Wait _ _ b => body_work b + 1 | Lock _ b => body_work b + 2
  | Start _ _ _ => 10
  end.
Definition total_work (s : sys) : Z := map_sum work (s_pool s).
Definition is_fin (p : pc) : bool := match p with Fin _ => true | _ => false end.
Definition finished (s : sys) : Prop := forall t p, s_pool s !! t = Some p -> exists x, p = Fin x.

Lemma work_nonneg p : 0 <= work p.
Proof. destruct p as [|n []|n g []|n g []| | |]; cbn; lia. Qed.

(** A step moves one thread, and it has less left to do. *)
Lemma step_thread v t s s' : step v t s = Some s' ->
  exists p p', s_pool s !! t = Some p /\ s_pool s' = <[t := p']> (s_pool s) /\ work p' < work p.
Proof.
  unfold step. destruct (s_pool s !! t) as [[canon pub presented|name b|name g b|name g b|name g x|name x|x]|] eqn:Ht; [..|done].
  - unfold start_step. destruct (enroll_locked _ _ _ _ _ _) as [w' [r|h]]; intros [= <-]; do 2 eexists; (split; [done|split; [done|]]); cbn; [lia|].
    destruct (provisionEnabled _); cbn; lia.
  - destruct (s_gates s !! name) as [g|]; [destruct (s_heap s !! g); [|done]|]; intros [= <-]; do 2 eexists; (split; [done|split; [done|]]); cbn; lia.
  - destruct (s_heap s !! g) as [[[|] r]|]; [done| |done]. intros [= <-]. do 2 eexists. split; [done|]. split; [done|]. cbn. lia.
  - destruct (body_leaves b) as [[x ->]|Hb].
    + destruct (s_heap s !! g); [|done]. intros [= <-]. do 2 eexists. split; [done|]. split; [done|]. cbn. lia.
    + intros Hs. assert (exists w' b', s' = to_pc (with_w s w') t (Hold name g b') /\ body_work b' < body_work b) as (w' & b' & -> & Hw);
        [|do 2 eexists; split; [done|]; split; [done|]; exact Hw].
      destruct b; cbn [body_step] in Hs; try (by destruct (Hb x)); repeat case_match; simplify_eq;
        (do 2 eexists; split; [reflexivity|cbn; lia]).
  - destruct (s_heap s !! g); [|done]. intros [= <-]. do 2 eexists. split; [done|]. split; [done|]. cbn. lia.
  - intros [= <-]. do 2 eexists. split; [done|]. split; [done|]. cbn. lia.
  - done.
Qed.

Lemma step_work v t s s' : step v t s = Some s' -> total_work s' < total_work s.
Proof.
  intros Hs. destruct (step_thread v t s s' Hs) as (p & p' & Ht & Hp & Hw). unfold total_work. rewrite Hp.
  rewrite (map_sum_update work _ t p p' Ht). lia.
Qed.

(** Nobody waits for ever: while a request is unfinished somebody can take a step, the
    holder of a gate that someone waits for included. *)
Lemma no_deadlock v s : ginv s -> ~ finished s -> exists t s', step v t s = Some s'.
Proof.
  intros G Hn.
  assert (forall t p, s_pool s !! t = Some p -> (forall n g b, p <> Wait n g b) -> (forall x, p <> Fin x) -> is_Some (step v t s)) as Hgo.
  { intros t p Ht Hnw Hnf. unfold step. rewrite Ht. destruct p as [canon pub presented|name b|name g b|name g b|name g x|name x|x].
    - destruct (start_step _ _ _ _ _). eauto.
    - destruct (s_gates s !! name) as [g|] eqn:Eg; [|eauto]. destruct (gi_gate s G name g Eg) as (ob & -> & _). eauto.
    - by destruct (Hnw name g b).
    - pose proof (gi_ref s G t _ name g Ht eq_refl) as Hg. destruct (gi_gate s G name g Hg) as (ob & Ho & _).
      destruct b; try (destruct (body_step v (s_w s) name _); eauto). rewrite Ho. eauto.
    - pose proof (gi_ref s G t _ name g Ht eq_refl) as Hg. destruct (gi_gate s G name g Hg) as (ob & -> & _). eauto.
    - eauto.
    - by destruct (Hnf x). }
  assert (exists t p, s_pool s !! t = Some p /\ forall x, p <> Fin x) as (t & p & Ht & Hp).
  { destruct (decide (map_Forall (fun _ p => is_fin p = true) (s_pool s))) as [Hf|Hf].
    - exfalso. apply Hn. intros t p Ht. specialize (Hf t p Ht). cbn in Hf. destruct p; try done. by eexists.
    - apply map_not_Forall in Hf as (t & p & Ht & Hp); [|apply _]. exists t, p. split; [done|]. intros x ->. by apply Hp. }
  destruct p as [canon pub presented|name b|name g b|name g b|name g x|name x|x];
    try (by destruct (Hgo t _ Ht) as [s' Hs]; [done|done|exists t, s']).
  pose proof (gi_ref s G t _ name g Ht eq_refl) as Hg. destruct (gi_gate s G name g Hg) as ([ho r] & Ho & _).
  destruct ho as [t'|].
  - destruct (gi_held s G name g t' r Hg Ho) as [b' Hb']. destruct (Hgo t' _ Hb') as [s' Hs]; [done|done|]. by exists t', s'.
  - exists t. eexists. unfold step. rewrite Ht, Ho. reflexivity.
Qed.

(** C22: (liveness) Enrollments and revocations that run together all come to an end,
    whatever the schedule, the store and the provisioner do: as long as one has not
    answered, some thread can take a step; no schedule is longer than ten steps a request;
    and when all have answered, the gate table is empty again. *)
Theorem requests_complete s0 s n : initial s0 -> nsteps steps n s0 s ->
  Z.of_nat n <= 10 * Z.of_nat (size (s_pool s0)) /\
  (forall v, ~ finished s -> exists t s', step v t s = Some s') /\
  (finished s -> s_gates s = ∅).
Proof.
  intros H0 Hn. pose proof (reach_ginv s0 s H0 (rtc_nsteps_2 _ _ _ Hn)) as G. split; [|split].
  - assert (Z.of_nat n + total_work s <= total_work s0) as Hw.
    { clear H0 G. induction Hn as [|n s s1 s2 (v & t & Hs) _ IH]; [lia|]. apply step_work in Hs. lia. }
    pose proof (map_sum_nonneg work (s_pool s) work_nonneg). fold (total_work s) in *.
    enough (total_work s0 <= 10 * Z.of_nat (size (s_pool s0))) by lia. destruct H0 as (_ & _ & Hp).
    unfold total_work. clear -Hp. revert Hp. generalize (s_pool s0) as m. intros m. induction m as [|t p m Hm IH] using map_ind; [done|]. intros Hp.
    rewrite map_sum_insert, map_size_insert_None by done.
    assert (work p = 10) as -> by (specialize (Hp t p (lookup_insert_eq _ _ _)); by destruct p as [|? []| | | | |]).
    enough (map_sum work m <= 10 * Z.of_nat (size m)) by lia. apply IH. intros t' p' Ht'. apply (Hp t').
    rewrite lookup_insert_ne; [done|congruence].
  - intros v Hf. by apply no_deadlock.
  - intros Hf. apply map_eq. intros name. rewrite lookup_empty. destruct (s_gates s !! name) as [g|] eqn:Eg; [|done]. exfalso.
    destruct (gi_gate s G name g Eg) as (ob & _ & Hr & Hpos). rewrite Hr in Hpos.
    destruct (map_sum_pos _ _ Hpos) as (t & p & Ht & Hp). destruct (Hf t p Ht) as [x ->]. by rewrite at_out in Hp.
Qed.

(** ** What a thread brings to a gate *)

Definition entry (name : string) (b : body) : Prop :=
  match b with BCheck canon _ => name = PrincipalName canon | BDrop => True | _ => False end.
Definition well_pc (p : pc) : Prop :=
  match p with
  | Lock name b | Wait name _ b => entry name b
  | Hold name _ (BCheck canon _) => name = PrincipalName canon
  | _ => True
  end.
Definition linv (s : sys) : Prop := forall t p, s_pool s !! t = Some p -> well_pc p.

Lemma initial_linv s : initial s -> linv s.
Proof. intros (_ & _ & Hp) t p Ht. specialize (Hp t p Ht). by destruct p as [|n []| | | | |]. Qed.

Lemma step_linv v t s s' : linv s -> step v t s = Some s' -> linv s'.
Proof.
  intros L. unfold step. destruct (s_pool s !! t) as [p|] eqn:Ht; [|done].
  assert (forall w gates heap next p', well_pc p' -> linv (Sys w gates heap next (<[t := p']> (s_pool s)))) as Hgo.
  { intros w gates heap next p' Hp t' q. cbn. intros [[<- <-]|[Hne Hq]]%lookup_insert_Some; [done|by eapply L]. }
  specialize (L t p Ht).
  destruct p as [canon pub presented|name b|name g b|name g b|name g x|name x|x].
  - unfold start_step. destruct (enroll_locked _ _ _ _ _ _) as [w' [r|h]]; intros [= <-]; apply Hgo; [done|].
    by destruct (provisionEnabled _).
  - destruct (s_gates s !! name) as [g|]; [destruct (s_heap s !! g); [|done]|]; intros [= <-]; by apply Hgo.
  - destruct (s_heap s !! g) as [[[|] r]|]; [done| |done]. intros [= <-]. apply Hgo. by destruct b.
  - destruct (body_leaves b) as [[x ->]|Hbl].
    + destruct (s_heap s !! g); [|done]. intros [= <-]. by apply Hgo.
    + intros Hs. destruct b; cbn [body_step] in Hs; try (by destruct (Hbl x)); repeat case_match; simplify_eq; by apply Hgo.
  - destruct (s_heap s !! g); [|done]. intros [= <-]. by apply Hgo.
  - intros [= <-]. by apply Hgo.
  - done.
Qed.

(** ** The cap on principals *)

Lemma consume_wf o now st h st' b : store_wf st -> consume_code o now st h = Ok (st', b) -> store_wf st'.
Proof.
  intros Wf. unfold consume_code. destruct (String.eqb h ""); [by intros [= <- _]|]. intros Hc.
  pose proof (mstep_wf st (i_consume o, OConsume h now) Wf) as H. cbn in H. by rewrite Hc in H.
Qed.
Lemma release_wf o (w : eworld (W := W)) h : store_wf (e_store w) -> store_wf (e_store (release_code o w h)).
Proof.
  intros Wf. unfold release_code. destruct (String.eqb h ""); [done|]. exact (mstep_wf (e_store w) (i_release o, ORelease h) Wf).
Qed.
Lemma release_rows o (w : eworld (W := W)) h :
  let w' := release_code o w h in
  enrolled (e_store w') = enrolled (e_store w) /\ e_svc w' = e_svc w /\ e_db w' = e_db w.
Proof. unfold release_code, Meta.ReleaseEnrollCode. destruct (String.eqb h ""); [done|]. by destruct (i_release o). Qed.
Lemma delete_wf io (st st' : Meta.store) name b : store_wf st -> Meta.DeleteEnrolled io st name = Ok (st', b) ->
  store_wf st' /\ enrolled st' = filter (fun r => er_name r <> name) (enrolled st) /\
  Z.of_nat (length (enrolled st')) = Z.of_nat (length (enrolled st)) - (if b then 1 else 0).
Proof.
  intros Wf Hd. pose proof (mstep_wf st (io, OUnenroll name) Wf) as H. cbn in H. rewrite Hd in H. split; [exact H|].
  apply exec_ok in Hd as [_ [= <- <-]]. split; [done|]. cbn. by apply filter_name_length, wf_names.
Qed.
Lemma audit_store_wf o now (w : eworld (W := W)) p x d : store_wf (e_store w) -> store_wf (e_store (audit_as o now w p x d)).
Proof. intros [S1 S2 S3 S4]. destruct (audit_fields o now w p x d) as (_ & _ & _ & _ & H5 & H6 & H7). split; by rewrite ?H5, ?H6, ?H7. Qed.

(** The mutex section of an enrollment, as the tables see it, whatever the statements do. *)
Lemma enroll_locked_rows o now (w : eworld (W := W)) canon pub presented : store_wf (e_store w) ->
  let '(w', out) := enroll_locked o now w canon pub presented in
  store_wf (e_store w') /\ e_db w' = e_db w /\
  match out with
  | Done _ => enrolled (e_store w') = enrolled (e_store w) /\ e_svc w' = e_svc w
  | EnrolledNow _ =>
      enrolled (e_store w') = enrolled (e_store w) ++ [ERow (PrincipalName canon) canon now None] /\
      e_svc w' = set_count (e_svc w) (count (e_svc w) + 1) /\ at_capacity (e_svc w) = false
  end.
Proof.
  intros Wf. unfold enroll_locked. destruct (Meta.EnrolledByKey _ _ _) as [[n|]|e]; [done| |done].
  assert (forall w0 p x d, store_wf (e_store w0) -> enrolled (e_store w0) = enrolled (e_store w) -> e_svc w0 = e_svc w -> e_db w0 = e_db w ->
    store_wf (e_store (audit_as o now w0 p x d)) /\ e_db (audit_as o now w0 p x d) = e_db w /\
    enrolled (e_store (audit_as o now w0 p x d)) = enrolled (e_store w) /\ e_svc (audit_as o now w0 p x d) = e_svc w) as Haudit.
  { intros w0 p x d H1 H2 H3 H4. destruct (audit_fields o now w0 p x d) as (B1 & _ & _ & B4 & B5 & _).
    rewrite B1, B4, B5. split; [by apply audit_store_wf|done]. }
  destruct (if String.eqb _ _ then _ else _) as [h|]; [|by apply Haudit].
  destruct (at_capacity (e_svc w)) eqn:Ec; [by apply Haudit|].
  destruct (consume_code o now (e_store w) h) as [[s1 []]|e] eqn:Eco; [| |done].
  - pose proof (consume_wf _ _ _ _ _ _ Wf Eco) as Wf1. destruct (consume_code_fields _ _ _ _ _ _ Eco) as (Hr1 & _).
    destruct (Meta.PutEnrolled (i_put o) now s1 (PrincipalName canon) canon) as [s2|e] eqn:Ep; cbn.
    + pose proof (mstep_wf s1 (i_put o, OEnroll now (PrincipalName canon) canon) Wf1) as Wf2. cbn in Wf2. rewrite Ep in Wf2.
      apply PutEnrolled_ok in Ep as (Hp & _). split; [exact Wf2|]. rewrite Hp, Hr1. done.
    + destruct (release_rows o (set_estore w s1) h) as (-> & -> & ->). split; [by apply release_wf|]. by cbn.
  - pose proof (consume_wf _ _ _ _ _ _ Wf Eco) as Wf1. destruct (consume_code_fields _ _ _ _ _ _ Eco) as (Hr1 & _).
    by apply Haudit.
Qed.

(** Revocations between the deleted row and the count. *)
Definition revoking (p : pc) : Z :=
  match p with Hold _ _ (BKey | BGrants | BCount) => 1 | _ => 0 end.
Definition rows (w : eworld (W := W)) : Z := Z.of_nat (length (enrolled (e_store w))).

Record cinv (conf : Config.enroll) (bound : Z) (s : sys) : Prop := {
  ci_store : store_wf (e_store (s_w s));
  ci_cfg : cfg (e_svc (s_w s)) = conf;
  ci_count : count (e_svc (s_w s)) = rows (s_w s) + map_sum revoking (s_pool s);
  ci_bound : 0 < e_max conf -> rows (s_w s) <= bound
}.

Lemma revoking_nonneg p : 0 <= revoking p.
Proof. destruct p as [|n []|n g []|n g []| | |]; cbn; lia. Qed.

Lemma provisionFor_rows a (w : eworld (W := W)) name : let w' := (provisionFor a w name).1 in
  e_store w' = e_store w /\ e_svc w' = e_svc w.
Proof.
  unfold provisionFor. destruct (provisionSpec _ _) as [spec|]; [|done]. destruct (prov_create _ _ _) as [d r].
  destruct (ParseLevel _) as [lvl []]; destruct r as [|[|[]|]]; done.
Qed.

Ltac row_arith := unfold rows in *; cbn in *; split; [done|split; [done|split; lia]].

(** What one step under the gate does to the row count and to the revocations in flight. *)
Lemma body_rows v (w : eworld (W := W)) name g b w' b' : store_wf (e_store w) -> body_step v w name b = (w', b') ->
  store_wf (e_store w') /\ cfg (e_svc w') = cfg (e_svc w) /\ rows w' <= rows w /\
  count (e_svc w') - rows w' - revoking (Hold name g b') = count (e_svc w) - rows w - revoking (Hold name g b).
Proof.
  intros Wf. destruct b as [canon h|h|h st|h st| | | | | |x]; cbn [body_step].
  - destruct (still_enrolled _ _ _); intros [= <- <-]; by row_arith.
  - destruct (provisionFor_rows (v_arg v) w name) as [H1 H2]. destruct (provisionFor (v_arg v) w name) as [w1 []]; cbn in H1, H2; intros [= <- <-];
      unfold rows; rewrite H1, H2; by row_arith.
  - intros [= <- <-]. unfold rollback_locked. destruct (Meta.DeleteEnrolled _ _ _) as [[st' b]|e] eqn:Ed; [|by row_arith].
    destruct (delete_wf _ _ _ _ _ Wf Ed) as (H1 & _ & H3). destruct b; by row_arith.
  - intros [= <- <-]. destruct (release_rows (v_io v) w h) as (H1 & H2 & _). unfold rows; rewrite H1, H2.
    pose proof (release_wf (v_io v) w h Wf). by row_arith.
  - pose proof (delete_drop_cases (v_arg v) w name) as Hd. destruct (delete_drop (v_arg v) w name) as [w1 [e|]]; destruct Hd as (D1 & _ & D3 & _);
      intros [= <- <-]; unfold rows; rewrite D1, D3; by row_arith.
  - destruct (Meta.DeleteEnrolled _ _ _) as [[st' b]|e] eqn:Ed; [|intros [= <- <-]; by row_arith].
    destruct (delete_wf _ _ _ _ _ Wf Ed) as (H1 & _ & H3). destruct b; intros [= <- <-]; by row_arith.
  - intros [= <- <-]. by row_arith.
  - intros [= <- <-]. by row_arith.
  - intros [= <- <-]. by row_arith.
  - intros [= <- <-]. by row_arith.
Qed.

Lemma step_cinv v t conf bound s s' : e_max conf <= bound -> linv s -> cinv conf bound s -> step v t s = Some s' -> cinv conf bound s'.
Proof.
  intros Hb L [C1 C2 C3 C4]. unfold step.
  destruct (s_pool s !! t) as [p|] eqn:Ht; [|done]. specialize (L t p Ht).
  assert (forall w gates heap next p', store_wf (e_store w) -> cfg (e_svc w) = conf -> (0 < e_max conf -> rows w <= bound) ->
    count (e_svc w) - rows w - revoking p' = count (e_svc (s_w s)) - rows (s_w s) - revoking p ->
    cinv conf bound (Sys w gates heap next (<[t := p']> (s_pool s)))) as Hgo.
  { intros w gates heap next p' H1 H2 H3 H4. split; cbn; [done|done| |done]. rewrite (map_sum_update revoking _ t p p' Ht). lia. }
  destruct p as [canon pub presented|name b|name g b|name g b|name g x|name x|x].
  - unfold start_step. pose proof (enroll_locked_rows (v_io v) (v_now v) (s_w s) canon pub presented C1) as He.
    destruct (enroll_locked _ _ _ _ _ _) as [w' [r|h]]; destruct He as (E1 & E2 & E3).
    + destruct E3 as [E3 E4]. intros [= <-]. apply Hgo; cbn [with_w with_heap s_w]; [done|by rewrite E4|unfold rows; rewrite E3; done|unfold rows; rewrite E3, E4; cbn; lia].
    + destruct E3 as (E3 & E4 & E5). intros [= <-]. apply Hgo; cbn [with_w with_heap s_w]; [done|by rewrite E4|..]; unfold rows; rewrite E3, length_app; cbn [length].
      * intros Hm. unfold at_capacity in E5. rewrite C2 in E5. rewrite (proj2 (Z.gtb_lt _ _)) in E5 by lia. cbn in E5.
        rewrite Z.geb_leb in E5. apply Z.leb_gt in E5. pose proof (map_sum_nonneg revoking (s_pool s) revoking_nonneg). unfold rows in C3. lia.
      * rewrite E4. cbn [set_count count]. destruct (provisionEnabled _); cbn; lia.
  - destruct (s_gates s !! name) as [g|]; [destruct (s_heap s !! g); [|done]|]; intros [= <-]; apply Hgo; cbn [with_w with_heap s_w]; (done || (cbn; lia)).
  - destruct (s_heap s !! g) as [[[|] r]|]; [done| |done]. intros [= <-]. apply Hgo; cbn [with_w with_heap s_w]; by destruct b.
  - destruct (body_leaves b) as [[x ->]|Hbl].
    + destruct (s_heap s !! g); [|done]. intros [= <-]. apply Hgo; cbn [with_w with_heap s_w]; done.
    + intros Hs. assert (exists w' b', body_step v (s_w s) name b = (w', b') /\ s' = to_pc (with_w s w') t (Hold name g b')) as (w' & b' & Hbs & ->).
      { destruct b; try (by destruct (Hbl x)); destruct (body_step v (s_w s) name _) as [w' b']; injection Hs as <-; by exists w', b'. }
      destruct (body_rows v (s_w s) name g b w' b' C1 Hbs) as (H1 & H2 & H3 & H4).
      apply Hgo; cbn [with_w with_heap s_w]; [done|by rewrite H2| |exact H4]. intros Hm. specialize (C4 Hm). lia.
  - destruct (s_heap s !! g); [|done]. intros [= <-]. apply Hgo; cbn [with_w with_heap s_w]; done.
  - intros [= <-].
    assert (store_wf (e_store (report v (s_w s) name x)) /\ e_svc (report v (s_w s) name x) = e_svc (s_w s) /\
      rows (report v (s_w s) name x) = rows (s_w s)) as (R1 & R2 & R3).
    { unfold report, rows. destruct x as [[n c|st]|r]; [| |done];
        match goal with |- context [audit_as ?o ?n ?w ?p ?a ?d] => destruct (audit_fields o n w p a d) as (B1 & _ & _ & _ & B5 & _) end;
        rewrite B1, B5; (split; [by apply audit_store_wf|done]). }
    apply Hgo; cbn [with_w with_heap s_w]; [done|by rewrite R2|by rewrite R3|rewrite R2, R3; cbn; lia].
  - done.
Qed.

Lemma no_revoking s : (forall t p, s_pool s !! t = Some p -> revoking p = 0) -> map_sum revoking (s_pool s) = 0.
Proof.
  intros Hp. pose proof (map_sum_nonneg revoking (s_pool s) revoking_nonneg).
  destruct (Z.eq_dec (map_sum revoking (s_pool s)) 0) as [|Hne]; [done|].
  destruct (map_sum_pos revoking (s_pool s)) as (t & p & Ht & Hpos); [lia|]. rewrite (Hp t p Ht) in Hpos. lia.
Qed.
Lemma initial_cinv s0 : initial s0 -> store_wf (e_store (s_w s0)) -> count (e_svc (s_w s0)) = rows (s_w s0) ->
  cinv (cfg (e_svc (s_w s0))) (Z.max (e_max (cfg (e_svc (s_w s0)))) (rows (s_w s0))) s0.
Proof.
  intros (_ & _ & Hreq) Wf Hc. split; [done|done| |lia]. rewrite no_revoking; [lia|].
  intros t p Ht. specialize (Hreq t p Ht). by destruct p as [|n []| | | | |].
Qed.

(** (invariant) The configured maximum holds under every interleaving and whatever the
    store does: enrollments check the count under the mutex while revocations lower it only
    after their row is gone, so the count never runs below the number of enrolled
    principals, that number never passes the maximum (nor what was enrolled at startup), and
    the count is exact again once nobody is running. *)
Theorem capacity_holds_under_races s0 s : initial s0 -> store_wf (e_store (s_w s0)) ->
  count (e_svc (s_w s0)) = rows (s_w s0) -> rtc steps s0 s ->
  let conf := cfg (e_svc (s_w s0)) in
  cfg (e_svc (s_w s)) = conf /\ rows (s_w s) <= count (e_svc (s_w s)) /\
  (0 < e_max conf -> rows (s_w s) <= Z.max (e_max conf) (rows (s_w s0))) /\
  (finished s -> count (e_svc (s_w s)) = rows (s_w s)).
Proof.
  intros H0 Wf Hc Hr conf.
  pose proof (initial_cinv s0 H0 Wf Hc : cinv conf (Z.max (e_max conf) (rows (s_w s0))) s0) as C0.
  assert (cinv conf (Z.max (e_max conf) (rows (s_w s0))) s) as [C1 C2 C3 C4].
  { assert (e_max conf <= Z.max (e_max conf) (rows (s_w s0))) as Hle by lia. pose proof (initial_linv s0 H0) as L. revert C0 Hle L.
    generalize (Z.max (e_max conf) (rows (s_w s0))) as bound. generalize conf as cf. clear -Hr. intros cf bound.
    induction Hr as [|s s1 s2 (v & t & Hs) _ IH]; [done|]. intros C Hle L. apply IH; [|done|by eapply step_linv]. by eapply step_cinv. }
  split; [done|]. pose proof (map_sum_nonneg revoking (s_pool s) revoking_nonneg). split; [lia|]. split; [done|].
  intros Hf. rewrite no_revoking in C3; [lia|]. intros t p Ht. by destruct (Hf t p Ht) as [x ->].
Qed.

(** ** No database outlives its principal *)

(** A gate has one holder. *)
Lemma gate_excludes s t1 t2 name g1 g2 b1 b2 : ginv s ->
  s_pool s !! t1 = Some (Hold name g1 b1) -> s_pool s !! t2 = Some (Hold name g2 b2) -> t1 = t2.
Proof.
  intros G H1 H2. assert (g1 = g2) as ->.
  { pose proof (gi_ref s G t1 _ name g1 H1 eq_refl). pose proof (gi_ref s G t2 _ name g2 H2 eq_refl). congruence. }
  destruct (gi_hold s G t1 name g2 b1 H1) as [r1 E1]. destruct (gi_hold s G t2 name g2 b2 H2) as [r2 E2]. congruence.
Qed.

Section Orphans.
(** The keys that ever enroll here: their names are assumed not to collide. *)
Variable keys : list string.
Hypothesis no_collision : forall k k', k ∈ keys -> k' ∈ keys -> PrincipalName k = PrincipalName k' -> k = k'.
Variable tmpl : string.
Hypothesis tmpl_names : contains tmpl "{principal}" = true.

Definition names_of (w : eworld (W := W)) : list string := map er_name (enrolled (e_store w)).
Definition db_of (w : eworld (W := W)) (p : string) : bool := prov_served (e_db w) (ReplaceAll tmpl "{principal}" p).

Section Doubted.
(** The names that may have lost their row under a served database ([doubts] below). *)
Variable lost : list string.

Record wok (w : eworld (W := W)) : Prop := {
  wo_tmpl : pv_template (e_provision (cfg (e_svc w))) = tmpl;
  wo_on : provisionEnabled (e_svc w) = true;
  wo_drop : pv_on_revoke (e_provision (cfg (e_svc w))) = "drop"%string;
  wo_prov : prov_inv (e_db w);
  wo_rows : forall r, r ∈ enrolled (e_store w) -> er_name r = PrincipalName (er_key r) /\ er_key r ∈ keys;
  wo_owned : forall p, db_of w p = true -> p ∈ names_of w \/ p ∈ lost
}.
(** What a thread has established about the principal whose gate it holds. *)
Definition pc_ok (w : eworld (W := W)) (p : pc) : Prop :=
  match p with
  | Start canon _ _ | Lock _ (BCheck canon _) | Wait _ _ (BCheck canon _) | Hold _ _ (BCheck canon _) => canon ∈ keys
  | Hold name _ (BCreate _) => name ∈ names_of w
  | Hold name _ (BUndo _ _) => db_of w name = false \/ name ∈ lost
  | Hold name _ BRow => db_of w name = false
  | _ => True
  end.
Record oinv (s : sys) : Prop := {
  oi_w : wok (s_w s);
  oi_pool : forall t p, s_pool s !! t = Some p -> pc_ok (s_w s) p
}.

(** The two ways in which an enrollment takes itself back without knowing that nothing is
    served for its name: the recheck is not answered, or a database that is already served
    cannot be created for another reason than that. *)
Definition doubts (v : env) (t : nat) (s : sys) : list string :=
  match s_pool s !! t with
  | Some (Hold name _ (BCheck _ _)) => if i_recheck (v_io v) then [] else [name]
  | Some (Hold name _ (BCreate _)) => if db_of (s_w s) name && negb (provisionFor (v_arg v) (s_w s) name).2 then [name] else []
  | _ => []
  end.
(** The addresses a created database is given are new ones. *)
Definition fresh_step (v : env) (t : nat) (s : sys) : Prop :=
  match s_pool s !! t with Some (Hold _ _ (BCreate _)) => prov_ready (v_arg v) (e_db (s_w s)) | _ => True end.
(** A step, with the names doubted so far. *)
Definition doubt_steps (x y : sys * list string) : Prop :=
  exists v t, fresh_step v t x.1 /\ step v t x.1 = Some y.1 /\ y.2 = doubts v t x.1 ++ x.2.

(** One step changes the world only as far as the stepping thread's own principal [own]
    goes. *)
Record moves (own : string) (w w' : eworld (W := W)) : Prop := {
  mv_names : forall n, n <> own -> n ∈ names_of w -> n ∈ names_of w';
  mv_dbs : forall n, n <> own -> db_of w n = false -> db_of w' n = false
}.
Lemma moves_refl own w : moves own w w.
Proof. by split. Qed.

Lemma pc_ok_moves own w w' p : moves own w w' -> (forall g b, p <> Hold own g b) -> pc_ok w p -> pc_ok w' p.
Proof.
  intros [M1 M2] Hn. destruct p as [|n []|n g []|n g []| | |]; cbn; try done.
  all: intros Hp; try (destruct Hp as [Hp|Hp]; [left|by right]); (apply M1 || apply M2); [|done]; intros ->; by eapply Hn.
Qed.

Lemma wok_shrink own w w' : wok w -> cfg (e_svc w') = cfg (e_svc w) -> prov_wired (e_svc w') = prov_wired (e_svc w) ->
  prov_inv (e_db w') -> (forall r, r ∈ enrolled (e_store w') -> r ∈ enrolled (e_store w)) ->
  (forall p, db_of w' p = true -> db_of w p = true) ->
  (forall n, n <> own -> n ∈ names_of w -> n ∈ names_of w') ->
  (db_of w' own = false \/ own ∈ lost \/ (own ∈ names_of w -> own ∈ names_of w')) -> wok w' /\ moves own w w'.
Proof.
  intros [W1 W2 W3 W4 W5 W6] Hc Hw Hp Hr Hd Hn Ho. split; [split|split; [done|]].
  - by rewrite Hc.
  - unfold provisionEnabled in *. by rewrite Hw, Hc.
  - by rewrite Hc.
  - done.
  - auto.
  - intros p Hs. destruct (W6 p (Hd p Hs)) as [Hin|?]; [|by right]. destruct (decide (p = own)) as [->|Hne]; [|left; by apply Hn].
    destruct Ho as [Ho|[?|Ho]]; [congruence|by right|left; by apply Ho].
  - intros n Hne Hf. destruct (db_of w' n) eqn:E; [|done]. apply Hd in E. congruence.
Qed.

Lemma delete_names io (st st' : Meta.store) name b n : Meta.DeleteEnrolled io st name = Ok (st', b) -> n <> name ->
  n ∈ map er_name (enrolled st) -> n ∈ map er_name (enrolled st').
Proof.
  intros [_ [= <- _]]%exec_ok Hne (r & -> & Hr)%list_elem_of_fmap. apply list_elem_of_fmap. exists r. split; [done|].
  by apply list_elem_of_filter.
Qed.
Lemma delete_sub io (st st' : Meta.store) name b r : Meta.DeleteEnrolled io st name = Ok (st', b) ->
  r ∈ enrolled st' -> r ∈ enrolled st.
Proof. by intros [_ [= <- _]]%exec_ok [_ Hr]%list_elem_of_filter. Qed.

(** A change that touches neither the rows nor the databases. *)
Lemma wok_same own w w' : wok w -> cfg (e_svc w') = cfg (e_svc w) -> prov_wired (e_svc w') = prov_wired (e_svc w) ->
  enrolled (e_store w') = enrolled (e_store w) -> e_db w' = e_db w -> wok w' /\ moves own w w'.
Proof.
  intros Wk Hc Hw Hr Hd. apply (wok_shrink own); try done; rewrite ?Hr, ?Hd; [apply Wk|done|..]; unfold names_of, db_of; rewrite ?Hr, ?Hd; auto.
Qed.

Lemma name_enrolled w name : wok w -> name ∈ names_of w -> exists r, r ∈ enrolled (e_store w) /\ er_name r = name /\
  name = PrincipalName (er_key r) /\ er_key r ∈ keys.
Proof. intros Wk (r & -> & Hr)%list_elem_of_fmap. destruct (wo_rows w Wk r Hr). by exists r. Qed.

(** The recheck answers for the name, because keys do not collide. *)
Lemma still_enrolled_spec o w canon : wok w -> canon ∈ keys -> i_recheck o = true ->
  still_enrolled o w canon = true <-> PrincipalName canon ∈ names_of w.
Proof.
  intros Wk Hk Ho. unfold still_enrolled, Meta.EnrolledByKey. rewrite Ho. cbn [exec].
  destruct (list_find (fun r => er_key r = canon) (enrolled (e_store w))) as [[i r]|] eqn:Ef; cbn.
  - apply list_find_Some in Ef as (Hi & Hkey & _). apply list_elem_of_lookup_2 in Hi. destruct (wo_rows w Wk r Hi) as [Hn _].
    split; [|done]. intros _. apply list_elem_of_fmap. exists r. rewrite Hn, Hkey. split; [reflexivity|exact Hi].
  - apply list_find_None in Ef. split; [done|]. intros Hin. exfalso. destruct (name_enrolled w _ Wk Hin) as (r & Hr & _ & Hn & Hrk).
    rewrite Forall_forall in Ef. apply (Ef r Hr). symmetry. by apply no_collision.
Qed.

(** [Delete]'s drop lets it go on only when the database is gone. *)
Lemma dropped a w name : wok w -> let '(w', r) := delete_drop a w name in r = None -> db_of w' name = false.
Proof.
  intros Wk. unfold delete_drop. rewrite (wo_on w Wk), (wo_drop w Wk). cbn [andb String.eqb].
  change (String.eqb "drop" "drop") with true. cbn iota. unfold db_of, provisionName. rewrite (wo_tmpl w Wk).
  set (n := ReplaceAll tmpl _ _).
  pose proof (prov_drop_served a (e_db w) n n (wo_prov w Wk)) as Hs. pose proof (prov_drop_unknown a (e_db w) n (wo_prov w Wk)) as Hu.
  destruct (prov_drop a (e_db w) n) as [d r]. cbn in *. destruct r as [u|e]; cbn in Hs.
  - intros _. by rewrite Hs, String.eqb_refl.
  - destruct e as [|[]|]; try done. intros _. rewrite Hs. by apply Hu.
Qed.

Lemma body_owned v w name b w' b' : wok w ->
  match b with
  | BCheck canon _ => name = PrincipalName canon /\ (i_recheck (v_io v) = false -> name ∈ lost)
  | BCreate _ => prov_ready (v_arg v) (e_db w) /\ (db_of w name = true -> (provisionFor (v_arg v) w name).2 = false -> name ∈ lost)
  | _ => True
  end ->
  pc_ok w (Hold name 0 b) -> body_step v w name b = (w', b') -> wok w' /\ moves name w w' /\ pc_ok w' (Hold name 0 b').
Proof.
  intros Wk Hcalm Hok. destruct b as [canon h|h|h st|h st| | | | | |x]; cbn [body_step pc_ok] in *.
  - destruct Hcalm as [-> Hre]. destruct (i_recheck (v_io v)) eqn:Ei.
    2:{ unfold still_enrolled, Meta.EnrolledByKey. rewrite Ei. cbn. intros [= <- <-]. split; [done|]. split; [done|]. right. by apply Hre. }
    pose proof (still_enrolled_spec (v_io v) w canon Wk Hok Ei) as Hs.
    destruct (still_enrolled _ _ _); intros [= <- <-]; (split; [done|]; split; [done|]); cbn.
    + by apply Hs.
    + destruct (db_of w (PrincipalName canon)) eqn:E; [|by left]. apply (wo_owned w Wk) in E as [E|E]; [|by right]. by apply Hs in E.
  - destruct Hcalm as [Hready Hex]. pose proof (provisionFor_cases (v_arg v) w name (wo_prov w Wk) Hready) as Hp.
    destruct (provisionFor (v_arg v) w name) as [w1 []]; cbn in Hex; destruct Hp as (P1 & P2 & P3 & P4 & _ & P6 & P7); intros [= <- <-].
    + specialize (P7 eq_refl).
      assert (forall p, db_of w1 p = true -> p = name \/ db_of w p = true) as Hdb.
      { intros p. unfold db_of. rewrite P7. unfold provisionName. rewrite (wo_tmpl w Wk).
        intros [Heq%String.eqb_eq|?]%orb_true_iff; [left; apply (ReplaceAll_injective "{principal}" ltac:(cbn; lia) tmpl); done|by right]. }
      split; [|split; [split|done]].
      * destruct Wk as [W1 W2 W3 W4 W5 W6]. split; rewrite ?P3; [done..|by rewrite P1|].
        intros p Hs. unfold names_of. rewrite P1. destruct (Hdb p Hs) as [->|]; [by left|auto].
      * unfold names_of. by rewrite P1.
      * intros n Hne Hf. destruct (db_of w1 n) eqn:E; [|done]. destruct (Hdb n E); congruence.
    + destruct (P6 eq_refl) as [_ Hsv]. cbn.
      assert (db_of w1 name = db_of w name) as Hdn by (unfold db_of; by rewrite Hsv).
      assert (db_of w1 name = false \/ name ∈ lost) as Hout by (rewrite Hdn; destruct (db_of w name); auto).
      destruct (wok_shrink name w w1) as [? ?]; auto; rewrite ?P3, ?P1; auto.
      * intros p. unfold db_of. by rewrite Hsv.
      * unfold names_of. by rewrite P1.
      * destruct Hout; auto.
  - intros [= <- <-]. apply and_assoc. split; [|done]. unfold rollback_locked.
    destruct (Meta.DeleteEnrolled _ _ _) as [[st' b]|e] eqn:Ed; [|by apply wok_same].
    apply (wok_shrink name w); try (by destruct b); [destruct b; apply Wk|..].
    + intros r. destruct b; cbn; by eapply delete_sub.
    + intros n Hne. destruct b; cbn; by eapply delete_names.
    + destruct Hok as [Hok|Hok]; [left; by destruct b|by right; left].
  - intros [= <- <-]. apply and_assoc. split; [|done]. destruct (release_rows (v_io v) w h) as (H1 & H2 & H3).
    apply wok_same; by rewrite ?H1, ?H2, ?H3.
  - pose proof (delete_drop_cases (v_arg v) w name) as Hd. pose proof (dropped (v_arg v) w name Wk) as Hgone.
    destruct (delete_drop (v_arg v) w name) as [w1 r]. destruct Hd as (D1 & _ & D3 & _ & D5).
    destruct (D5 (wo_prov w Wk)) as [D6 D7].
    assert (wok w1 /\ moves name w w1) as [? ?].
    { apply (wok_shrink name w); rewrite ?D3, ?D1; auto; [intros p; apply D7|..]; unfold names_of; rewrite D1; auto. }
    destruct r; intros [= <- <-]; cbn; auto.
  - destruct (Meta.DeleteEnrolled _ _ _) as [[st' []]|e] eqn:Ed; intros [= <- <-]; apply and_assoc; (split; [|done]); [..|by apply wok_same].
    all: apply (wok_shrink name w); try done; [apply Wk|intros r; by eapply delete_sub|intros n Hne; by eapply delete_names|by left].
  - intros [= <- <-]. apply and_assoc. split; [|done]. by apply wok_same.
  - intros [= <- <-]. apply and_assoc. split; [|done]. by apply wok_same.
  - intros [= <- <-]. apply and_assoc. split; [|done]. by apply wok_same.
  - intros [= <- <-]. apply and_assoc. split; [|done]. by apply wok_same.
Qed.


(** The mutex section of an enrollment only adds the caller's own row. *)
Lemma start_owned o now w canon pub presented : store_wf (e_store w) -> wok w -> canon ∈ keys ->
  let w' := (enroll_locked o now w canon pub presented).1 in
  wok w' /\ names_of w ⊆ names_of w' /\ (forall n, db_of w' n = db_of w n).
Proof.
  intros Wf Wk Hk. pose proof (enroll_locked_rows o now w canon pub presented Wf) as He.
  destruct (enroll_locked o now w canon pub presented) as [w' out]. destruct He as (_ & Hdb & He). cbn.
  assert (cfg (e_svc w') = cfg (e_svc w) /\ prov_wired (e_svc w') = prov_wired (e_svc w) /\ names_of w ⊆ names_of w' /\
    (forall r, r ∈ enrolled (e_store w') -> er_name r = PrincipalName (er_key r) /\ er_key r ∈ keys)) as (Hc & Hw & Hn & Hr).
  { unfold names_of. destruct out as [r|h].
    - destruct He as [-> ->]. repeat (split; [done|]). apply Wk.
    - destruct He as (-> & -> & _). split; [done|]. split; [done|]. split.
      + rewrite map_app. intros n Hn. apply elem_of_app. by left.
      + intros r [Hr| ->%list_elem_of_singleton]%elem_of_app; [by apply Wk|by split]. }
  assert (forall n, db_of w' n = db_of w n) as Hd by (intros n; unfold db_of; by rewrite Hdb).
  split; [|done]. destruct Wk as [W1 W2 W3 W4 W5 W6]. split.
  - by rewrite Hc.
  - unfold provisionEnabled in *. by rewrite Hw, Hc.
  - by rewrite Hc.
  - by rewrite Hdb.
  - done.
  - intros p. rewrite Hd. intros [?|?]%W6; auto.
Qed.

Lemma step_oinv v t s s' : store_wf (e_store (s_w s)) -> ginv s -> linv s -> oinv s -> doubts v t s ⊆ lost -> fresh_step v t s ->
  step v t s = Some s' -> oinv s'.
Proof.
  intros Wf G L [Wk Pk]. unfold doubts, fresh_step, step. destruct (s_pool s !! t) as [p|] eqn:Ht; [|done].
  assert (forall w gates heap next p' own, wok w -> moves own (s_w s) w -> pc_ok w p' ->
    (forall t' g b, t' <> t -> s_pool s !! t' <> Some (Hold own g b)) ->
    oinv (Sys w gates heap next (<[t := p']> (s_pool s)))) as Hgo.
  { intros w gates heap next p' own H1 H2 H3 H4. split; [done|]. intros t' q. cbn.
    intros [[<- <-]|[Hne Hq]]%lookup_insert_Some; [done|]. apply (pc_ok_moves own (s_w s)); [done| |by eapply Pk].
    intros g b ->. by apply (H4 t' g b (not_eq_sym Hne)). }
  assert (forall gates heap next p', pc_ok (s_w s) p' -> oinv (Sys (s_w s) gates heap next (<[t := p']> (s_pool s)))) as Hstay.
  { intros gates heap next p' Hp. split; [done|]. intros t' q. cbn. intros [[<- <-]|[Hne Hq]]%lookup_insert_Some; [done|by eapply Pk]. }
  pose proof (Pk t p Ht) as Hok. specialize (L t p Ht).
  assert (forall w gates heap next p', wok w -> names_of (s_w s) ⊆ names_of w -> (forall n, db_of w n = db_of (s_w s) n) -> pc_ok w p' ->
    oinv (Sys w gates heap next (<[t := p']> (s_pool s)))) as Hgrow.
  { intros w gates heap next p' H1 H2 H3 H4. split; [done|]. intros t' q. cbn.
    intros [[<- <-]|[Hne Hq]]%lookup_insert_Some; [done|]. specialize (Pk t' q Hq).
    destruct q as [|n []|n g []|n g []| | |]; cbn in *; rewrite ?H3; auto. }
  destruct p as [canon pub presented|name b|name g b|name g b|name g x|name x|x].
  - intros _ _. unfold start_step. destruct (start_owned (v_io v) (v_now v) (s_w s) canon pub presented Wf Wk Hok) as (H1 & H2 & H3).
    destruct (enroll_locked _ _ _ _ _ _) as [w' [r|h]]; intros [= <-]; apply Hgrow; try done. by destruct (provisionEnabled _).
  - intros _ _. destruct (s_gates s !! name) as [g|]; [destruct (s_heap s !! g); [|done]|]; intros [= <-]; by apply Hstay.
  - intros _ _. destruct (s_heap s !! g) as [[[|] r]|]; [done| |done]. intros [= <-]. apply Hstay. by destruct b.
  - destruct (body_leaves b) as [[x ->]|Hbl].
    + intros _ _. destruct (s_heap s !! g); [|done]. intros [= <-]. by apply Hstay.
    + intros Hdb Hfr Hs. assert (exists w' b', body_step v (s_w s) name b = (w', b') /\ s' = to_pc (with_w s w') t (Hold name g b')) as (w' & b' & Hbs & ->).
      { destruct b; try (by destruct (Hbl x)); destruct (body_step v (s_w s) name _) as [w' b']; injection Hs as <-; by exists w', b'. }
      destruct (body_owned v (s_w s) name b w' b' Wk) as (H1 & H2 & H3); [|done|done|].
      * destruct b; try done; (split; [done|]).
        -- intros E. rewrite E in Hdb. apply Hdb. by left.
        -- intros E1 E2. rewrite E1, E2 in Hdb. apply Hdb. by left.
      * eapply Hgo; [done|exact H2|exact H3|]. intros t' g' b0 Hne Hq. apply Hne. by eapply gate_excludes.
  - intros _ _. destruct (s_heap s !! g); [|done]. intros [= <-]. by apply Hstay.
  - intros _ _ [= <-].
    assert (wok (report v (s_w s) name x) /\ names_of (report v (s_w s) name x) = names_of (s_w s) /\
      e_db (report v (s_w s) name x) = e_db (s_w s)) as (R1 & R2 & R3).
    { unfold report, names_of. destruct x as [[n c|st]|r]; [| |done];
        match goal with |- context [audit_as ?o ?n ?w ?p ?a ?d] => destruct (audit_fields o n w p a d) as (B1 & _ & _ & B4 & B5 & _) end;
        rewrite B4, B5; (split; [|done]); apply (wok_same "" (s_w s)); by rewrite ?B1, ?B4, ?B5. }
    apply Hgrow; cbn [with_w s_w]; [done|by rewrite R2|intros n; unfold db_of; by rewrite R3|done].
  - done.
Qed.

End Doubted.

Lemma oinv_more l l' s : l ⊆ l' -> oinv l s -> oinv l' s.
Proof.
  intros Hl [[W1 W2 W3 W4 W5 W6] Pk]. split.
  - split; try done. intros p Hp. destruct (W6 p Hp); auto.
  - intros t p Ht. specialize (Pk t p Ht). destruct p as [|n []|n g []|n g []| | |]; try done. destruct Pk; [by left|right; auto].
Qed.

(** C8: (safety) Which databases can outlive their principal.  With [on_revoke: drop], from a
    server where every database the template names belongs to an enrolled principal, however
    enrollments and revocations interleave, fail, undo themselves or retry: whenever the
    database of a name is served, that name is enrolled, or an enrollment of that very name
    took itself back on a doubt, its recheck of the store unanswered or the creation of the
    database that was served already refused for another reason ([doubts]).  So while the
    store answers and created databases are found, a revoked principal leaves no database
    behind.  (The template names the principal, which startup checks, and the keys' names do
    not collide.  That a doubt can really leave a database behind is
    [recheck_error_orphans].) *)
Theorem no_database_outlives_its_principal s0 s lost : initial s0 -> store_wf (e_store (s_w s0)) ->
  count (e_svc (s_w s0)) = rows (s_w s0) -> wok [] (s_w s0) -> (forall t canon pub presented, s_pool s0 !! t = Some (Start canon pub presented) -> canon ∈ keys) ->
  rtc doubt_steps (s0, []) (s, lost) ->
  forall p, db_of (s_w s) p = true -> p ∈ names_of (s_w s) \/ p ∈ lost.
Proof.
  intros H0 Wf Hct Wk Hk Hr. enough (oinv lost s) as [[] _] by done.
  assert (oinv [] s0) as O0.
  { split; [done|]. intros t p Ht. destruct H0 as (_ & _ & Hreq). specialize (Hreq t p Ht).
    destruct p as [|n []| | | | |]; try done. by eapply Hk. }
  pose proof (initial_cinv s0 H0 Wf Hct) as C0.
  assert (e_max (cfg (e_svc (s_w s0))) <= Z.max (e_max (cfg (e_svc (s_w s0)))) (rows (s_w s0))) as Hle by lia.
  set (conf := cfg (e_svc (s_w s0))) in *. set (bound := Z.max (e_max conf) (rows (s_w s0))) in *. clearbody bound. clearbody conf.
  pose proof (initial_linv s0 H0) as L0. apply initial_ginv in H0. clear Wk Hk Wf Hct.
  remember (s0, []) as x eqn:Ex. remember (s, lost) as y eqn:Ey.
  assert (ginv x.1 /\ oinv x.2 x.1 /\ cinv conf bound x.1 /\ linv x.1) as Hx by (by rewrite Ex). clear Ex H0 O0 C0 L0.
  enough (oinv y.2 y.1) as H by (by rewrite Ey in H). clear Ey.
  induction Hr as [x|x [s2 l2] y (v & t & Hf & Hs & Hl) _ IH]; [apply Hx|]. cbn [fst snd] in *. apply IH.
  destruct Hx as (G & O & C & L). split; [by eapply step_ginv|]. split; [|split; [by eapply step_cinv|by eapply step_linv]].
  rewrite Hl. eapply (step_oinv _ v t x.1); [apply C|done|done| |set_solver|done|exact Hs].
  eapply oinv_more; [|exact O]. set_solver.
Qed.
End Orphans.
(** ** A request that runs alone *)

Definition solo (w : eworld (W := W)) gates heap next (p : pc) : sys := Sys w gates heap next {[0%nat := p]}.
Definition alone (w : eworld (W := W)) (p : pc) : sys := solo w ∅ ∅ 0 p.
Definition holding (w : eworld (W := W)) (name : string) (b : body) : sys :=
  solo w {[name := 0%nat]} {[0%nat := Gate (Some 0%nat) 1]} 1 (Hold name 0 b).

Fixpoint run_alone (k : nat) (v : env) (s : sys) : sys :=
  match k with
  | O => s
  | S k => match step v 0 s with Some s' => run_alone k v s' | None => s end
  end.

(** What [ServeHTTP] does once possession is proven, and [Delete], as one call. *)
Definition enroll_call (v : env) (w : eworld (W := W)) (canon pub presented : string) : eworld (W := W) * reply :=
  match enroll_locked (v_io v) (v_now v) w canon pub presented with
  | (w2, Done r) => (w2, r)
  | (w2, EnrolledNow h) =>
      if provisionEnabled (e_svc w2) then provision_gated (v_io v) (v_now v) (v_arg v) w2 canon (PrincipalName canon) h
      else (audit_as (v_io v) (v_now v) w2 (PrincipalName canon) "enroll.created" ("ip=" +:+ i_ip (v_io v)), Created (PrincipalName canon) true)
  end.

Lemma run_fin k v w g h n x : run_alone k v (solo w g h n (Fin x)) = solo w g h n (Fin x).
Proof. destruct k; [done|]. cbn [run_alone]. unfold step, solo. cbn. by rewrite lookup_singleton_eq. Qed.

Lemma run_report k v w name x : run_alone (1 + k) v (alone w (Report name x)) = solo (report v w name x) ∅ ∅ 0 (Fin x).
Proof.
  cbn [Nat.add run_alone]. unfold step at 1, alone, solo. cbn [s_pool]. rewrite lookup_singleton_eq. unfold to_pc, with_w.
  cbn [s_w s_gates s_heap s_next s_pool]. rewrite insert_singleton_eq. apply run_fin.
Qed.

Lemma run_lock k v w name b : run_alone (2 + k) v (alone w (Lock name b)) = run_alone k v (holding w name b).
Proof.
  unfold alone, solo. cbn [Nat.add run_alone]. unfold step at 1. cbn [s_pool]. rewrite lookup_singleton_eq.
  cbn [s_gates]. rewrite lookup_empty. cbn [s_w s_heap s_next]. rewrite insert_singleton_eq.
  unfold step at 1. cbn [s_pool]. rewrite lookup_singleton_eq. cbn [s_heap]. rewrite lookup_insert_eq.
  unfold to_pc, with_heap. cbn [s_w s_gates s_heap s_next s_pool]. by rewrite insert_insert_eq, insert_singleton_eq.
Qed.

Lemma run_body k v w name b w' b' : body_step v w name b = (w', b') -> (forall x, b <> BLeave x) ->
  run_alone (1 + k) v (holding w name b) = run_alone k v (holding w' name b').
Proof.
  intros Hb Hn. cbn [Nat.add run_alone]. unfold holding, solo at 1. unfold step. cbn [s_pool]. rewrite lookup_singleton_eq.
  destruct b; try (by destruct (Hn x)); cbn [s_w]; rewrite Hb; unfold to_pc, with_w; cbn; by rewrite insert_singleton_eq.
Qed.

Lemma run_leave k v w name x : exists heap,
  run_alone (3 + k) v (holding w name (BLeave x)) = solo (report v w name x) ∅ heap 1 (Fin x).
Proof.
  exists {[0%nat := Gate None 0]}. cbn [Nat.add run_alone]. unfold holding, solo at 1. unfold step at 1. cbn [s_pool]. rewrite lookup_singleton_eq.
  cbn [s_heap]. rewrite lookup_singleton_eq. unfold to_pc, with_heap. cbn [s_w s_gates s_heap s_next s_pool refs]. rewrite !insert_singleton_eq.
  unfold step at 1. cbn [s_pool s_heap s_w s_gates s_next]. rewrite !lookup_singleton_eq. cbn [refs holder]. change (1 - 1 =? 0) with true. cbn iota.
  rewrite delete_singleton_eq, !insert_singleton_eq.
  unfold step at 1. cbn [s_pool s_heap s_w s_gates s_next]. rewrite lookup_singleton_eq. unfold to_pc, with_w. cbn. rewrite insert_singleton_eq.
  apply run_fin.
Qed.

(** (equivalence) The interleaved machine is the code: a request that runs alone on it,
    with the same outcomes, ends within ten steps in the state and with the answer of the
    sequential handler, enrollment and revocation both, on every path, and leaves no gate
    behind. *)
Theorem alone_is_sequential v w :
  (forall canon pub presented, let '(w', r) := enroll_call v w canon pub presented in
     exists heap n, run_alone 10 v (alone w (Start canon pub presented)) = solo w' ∅ heap n (Fin (AEnroll r))) /\
  (forall name, let '(w', r) := Enroll.Delete (i_delete (v_io v)) (v_arg v) w name in
     exists heap, run_alone 10 v (alone w (Lock name BDrop)) = solo w' ∅ heap 1 (Fin (ADelete r))).
Proof.
  split.
  - intros canon pub presented. unfold enroll_call. set (name := PrincipalName canon).
    assert (run_alone 10 v (alone w (Start canon pub presented)) =
      run_alone 9 v (let '(w2, p) := start_step v w canon pub presented in alone w2 p)) as ->.
    { cbn [run_alone]. unfold step at 1, alone, solo. cbn [s_pool]. rewrite lookup_singleton_eq. cbn [s_w].
      destruct (start_step _ _ _ _ _) as [w2 p]. unfold to_pc, with_w. cbn [s_w s_gates s_heap s_next s_pool]. by rewrite insert_singleton_eq. }
    unfold start_step. fold name. destruct (enroll_locked _ _ _ _ _ _) as [w2 [r|h]]; [do 2 eexists; apply run_fin|].
    destruct (provisionEnabled (e_svc w2)).
    + rewrite (run_lock 7). unfold provision_gated. destruct (still_enrolled (v_io v) w2 canon) eqn:Es; cbn [negb].
      * erewrite (run_body 6) by (done || (cbn [body_step]; by rewrite Es)).
        destruct (provisionFor (v_arg v) w2 name) as [w3 []] eqn:Ep.
        -- erewrite (run_body 5) by (done || (cbn [body_step]; by rewrite Ep)). 
           destruct (run_leave 2 v w3 name (AEnroll (Created name true))) as [heap Hh]. by exists heap, 1%nat.
        -- erewrite (run_body 5) by (done || (cbn [body_step]; by rewrite Ep)). erewrite (run_body 4), (run_body 3) by done.
           destruct (run_leave 0 v (release_code (v_io v) (rollback_locked (v_io v) w3 name) h) name (AEnroll (Refused 500))) as [heap Hh]. by exists heap, 1%nat.
      * erewrite (run_body 6) by (done || (cbn [body_step]; by rewrite Es)). erewrite (run_body 5) by done. erewrite (run_body 4) by done.
        destruct (run_leave 1 v (release_code (v_io v) (rollback_locked (v_io v) w2 name) h) name (AEnroll (Refused 409))) as [heap Hh]. by exists heap, 1%nat.
    + do 2 eexists. apply (run_report 8).
  - intros name. rewrite (run_lock 8). unfold Enroll.Delete. destruct (delete_drop (v_arg v) w name) as [w1 [e|]] eqn:Ed.
    { erewrite (run_body 7) by (done || (cbn [body_step]; by rewrite Ed)). apply (run_leave 4). }
    erewrite (run_body 7) by (done || (cbn [body_step]; by rewrite Ed)).
    destruct (Meta.DeleteEnrolled _ _ _) as [[st []]|e] eqn:Em; erewrite (run_body 6) by (done || (cbn [body_step]; by rewrite Em)).
    + erewrite (run_body 5), (run_body 4), (run_body 3) by done. apply (run_leave 0).
    + apply (run_leave 3).
    + apply (run_leave 3).
Qed.
End Gate.
Arguments Sys {W}.
Arguments Env {A}.

(** ** Concrete schedules *)

Section Schedule.
Context {W A : Type} `{!Provisioner W A}.
Fixpoint sched (v : env (A := A)) (l : list nat) (s : sys (W := W)) : option sys :=
  match l with
  | [] => Some s
  | t :: r => match step v t s with Some s' => sched v r s' | None => None end
  end.
Lemma sched_nsteps v l s s' : sched v l s = Some s' -> nsteps steps (length l) s s'.
Proof.
  revert s. induction l as [|t l IH]; intros s; cbn; [intros [= <-]; constructor|].
  destruct (step v t s) as [s1|] eqn:E; [|done]. intros H. econstructor; [by exists v, t|by apply IH].
Qed.
(** The names doubted along a schedule, and whether its allocations are new. *)
Fixpoint doubted (tmpl : string) (v : env (A := A)) (l : list nat) (s : sys (W := W)) (acc : list string) : list string :=
  match l with
  | [] => acc
  | t :: r => match step v t s with Some s' => doubted tmpl v r s' (doubts tmpl v t s ++ acc) | None => acc end
  end.
Fixpoint fresh_sched (v : env (A := A)) (l : list nat) (s : sys (W := W)) : Prop :=
  match l with
  | [] => True
  | t :: r => fresh_step v t s /\ match step v t s with Some s' => fresh_sched v r s' | None => False end
  end.
Lemma doubt_sched tmpl v l s s' acc : sched v l s = Some s' -> fresh_sched v l s ->
  rtc (doubt_steps tmpl) (s, acc) (s', doubted tmpl v l s acc).
Proof.
  revert s acc. induction l as [|t l IH]; intros s acc; cbn; [by intros [= <-]|].
  destruct (step v t s) as [s1|] eqn:E; [|done]. intros H [Hc Hr]. apply (rtc_l _ _ (s1, (doubts tmpl v t s ++ acc)%list)); [by exists v, t|by apply IH].
Qed.
End Schedule.

#[local] Existing Instance demo_prov.
Definition demo_v : env := Env io_fine 100 (demo_answers 3).

(** Thread 0 revokes alice while thread 1 enrolls her. *)
Definition demo_race (w : eworld (W := pworld)) : sys (W := pworld) :=
  Sys w ∅ ∅ 0 {[ 0%nat := Lock demo_name BDrop; 1%nat := Start "alice" "alice" "s3cret" ]}.
Definition in_turn : list nat := (repeat 0%nat 7 ++ repeat 1%nat 8)%list.
Definition run_to (w : eworld (W := pworld)) (l : list nat) : sys (W := pworld) := default (demo_race w) (sched demo_v l (demo_race w)).

Lemma demo_initial w : initial (demo_race w).
Proof.
  split; [done|]. split; [done|]. intros t p. cbn. intros [[<- <-]|[_ [<- <-]%lookup_singleton_Some]]%lookup_insert_Some; done.
Qed.
Lemma all_fin (s : sys (W := pworld)) : bool_decide (map_Forall (fun _ p => is_fin p = true) (s_pool s)) = true -> finished s.
Proof. intros Hf%bool_decide_eq_true t p Ht. specialize (Hf t p Ht). cbn in Hf. destruct p; try done. by eexists. Qed.
Lemma in_turn_runs : sched demo_v in_turn (demo_race demo_eworld) = Some (run_to demo_eworld in_turn).
Proof. vm_compute. reflexivity. Qed.

Lemma requests_complete_witness :
  nsteps steps 15 (demo_race demo_eworld) (run_to demo_eworld in_turn) /\
  s_gates (run_to demo_eworld in_turn) = ∅ /\ 15 <= 10 * Z.of_nat (size (s_pool (demo_race demo_eworld))).
Proof.
  pose proof (sched_nsteps demo_v in_turn _ _ in_turn_runs) as Hn. split; [exact Hn|].
  destruct (requests_complete (demo_race demo_eworld) (run_to demo_eworld in_turn) 15 (demo_initial _) Hn) as (H1 & _ & H3).
  split; [|exact H1]. apply H3, all_fin. vm_compute. reflexivity.
Defined.

Lemma capacity_holds_under_races_witness :
  rows (s_w (run_to demo_eworld in_turn)) <= 2 /\ count (e_svc (s_w (run_to demo_eworld in_turn))) = 1.
Proof.
  destruct (capacity_holds_under_races (demo_race demo_eworld) (run_to demo_eworld in_turn) (demo_initial _)
    (ew_store _ demo_ewf) eq_refl (rtc_nsteps_2 _ _ _ (sched_nsteps demo_v in_turn _ _ in_turn_runs))) as (_ & _ & H1 & H2).
  split; [exact (H1 eq_refl)|]. rewrite H2; [vm_compute; reflexivity|]. apply all_fin. vm_compute. reflexivity.
Defined.

Lemma demo_wok : wok ["alice"%string] "db-{principal}" [] demo_eworld.
Proof.
  split; try reflexivity; [exact demo_world_pinv|by intros r Hr%not_elem_of_nil|].
  intros p Hp. unfold db_of in Hp. cbn [prov_served demo_prov provision_provisioner] in Hp. unfold served in Hp.
  apply bool_decide_eq_true in Hp as [x Hx]. vm_compute in Hx. discriminate Hx.
Qed.

Lemma no_database_outlives_its_principal_witness :
  db_of "db-{principal}" (s_w (run_to demo_eworld in_turn)) demo_name = true /\
  demo_name ∈ names_of (s_w (run_to demo_eworld in_turn)).
Proof.
  assert (db_of "db-{principal}" (s_w (run_to demo_eworld in_turn)) demo_name = true) as Hdb by (vm_compute; reflexivity).
  split; [exact Hdb|].
  assert (doubted "db-{principal}" demo_v in_turn (demo_race demo_eworld) [] = []) as Hno by (vm_compute; reflexivity).
  assert (fresh_sched demo_v in_turn (demo_race demo_eworld)) as Hfresh by (vm_compute; repeat split; try discriminate; intros; reflexivity).
  pose proof (doubt_sched "db-{principal}" demo_v in_turn _ _ [] in_turn_runs Hfresh) as Hr. rewrite Hno in Hr.
  assert (forall k k', k ∈ ["alice"%string] -> k' ∈ ["alice"%string] -> PrincipalName k = PrincipalName k' -> k = k') as Hcol
    by (by intros k k' ->%list_elem_of_singleton ->%list_elem_of_singleton).
  assert (forall t canon pub presented, s_pool (demo_race demo_eworld) !! t = Some (Start canon pub presented) -> canon ∈ ["alice"%string]) as Hk.
  { intros t canon pub presented. cbn. intros [[_ ?]|[_ [_ Hs]%lookup_singleton_Some]]%lookup_insert_Some; [done|].
    injection Hs as <- _ _. by left. }
  destruct (no_database_outlives_its_principal ["alice"%string] Hcol "db-{principal}" eq_refl (demo_race demo_eworld)
    (run_to demo_eworld in_turn) [] (demo_initial _) (ew_store _ demo_ewf) eq_refl demo_wok Hk Hr demo_name Hdb) as [H|H];
    [exact H|destruct (not_elem_of_nil _ H)].
Defined.

(** [Delete] removes the key and the grants after the row, and an enrollment's mutex section
    is not behind the gate: one that falls in between is answered "created" and gets its
    database, but its key is taken out of the authenticator and the template's grants are
    revoked; enrolling again says it is enrolled already and repairs nothing. *)
Definition between : list nat := (repeat 0%nat 4 ++ [1%nat] ++ repeat 0%nat 6 ++ repeat 1%nat 7)%list.
Definition raced : sys (W := pworld) := run_to demo_enrolled between.
Definition retried : eworld (W := pworld) * reply := demo_serve io_fine 9 (s_w raced) "alice" "".

Lemma revocation_race_locks_out :
  s_pool raced !! 0%nat = Some (Fin (ADelete (Ok true))) /\
  s_pool raced !! 1%nat = Some (Fin (AEnroll (Created demo_name true))) /\
  map er_name (enrolled (e_store (s_w raced))) = [demo_name] /\
  dynKeyring (e_auth (s_w raced)) !! "alice"%string = None /\
  stored (e_pol (s_w raced)) "shared" demo_name = LNone /\
  retried.2 = Created demo_name false /\ dynKeyring (e_auth retried.1) !! "alice"%string = None.
Proof. do 6 (split; [vm_compute; reflexivity|]). vm_compute. reflexivity. Qed.

(** An unanswered recheck leaves a database behind.  Thread 0 enrolls alice, and before it is
    at her gate thread 1 revokes her and thread 2 enrolls her again and gets her database;
    then thread 0's recheck is not answered, and what it takes back is the row of the other
    enrollment, which has told its client that it is enrolled.  The database stays served,
    with nobody enrolled under its name. *)
Definition demo_doubt : env := Env (IO "10.0.0.1" "" true true true true false true true true) 100 (demo_answers 3).
Definition demo_trio : sys (W := pworld) :=
  Sys demo_eworld ∅ ∅ 0 {[ 0%nat := Start "alice" "alice" "s3cret"; 1%nat := Lock demo_name BDrop; 2%nat := Start "alice" "alice" "s3cret" ]}.
Definition before_recheck : list nat := ([0%nat] ++ repeat 1%nat 10 ++ repeat 2%nat 8)%list.
Definition orphaned : sys (W := pworld) :=
  default demo_trio (sched demo_v before_recheck demo_trio ≫= sched demo_doubt (repeat 0%nat 8)).

Lemma recheck_error_orphans :
  s_pool orphaned !! 0%nat = Some (Fin (AEnroll (Refused 409))) /\
  s_pool orphaned !! 1%nat = Some (Fin (ADelete (Ok true))) /\
  s_pool orphaned !! 2%nat = Some (Fin (AEnroll (Created demo_name true))) /\
  db_of "db-{principal}" (s_w orphaned) demo_name = true /\ names_of (s_w orphaned) = [].
Proof. vm_compute. repeat split. Qed.
