(* ===== verification/Admin.v ===== *)
(** * admin: the control plane

    [src/admin]: admin.go (routing, create, detach, enrolled principals), introspect.go
    (info, sessions, kill), maintenance.go and restore.go, over the real registry, policy,
    session store, meta store and provisioner.  Decoding a JSON body and what a vault
    container, SQLite or the file system answers are arguments ([decoders], [answer]). *)
From S2P Require Import Prelude GoStd Config Secret Storage Authz Registry Feed Session Meta Provision.

Inductive del_err : Type := DelBusy | DelFailed.
(** [Enrollments]: what the handler needs of the enrollment service, which works on the
    provisioner's world and the policy the handler works on.  [X]: what the service's own
    calls are answered.  The service may write to the audit log only through the handler. *)
Class Enrollments (E X : Type) := {
  enr_list : X -> E -> pworld -> option (list Meta.Enrolled);
  enr_delete : X -> E -> pworld -> policy -> string -> E * pworld * policy * result del_err bool;
  enr_mint : X -> E -> pworld -> E * pworld * result string (string * Z);
  enr_delete_log : forall x e p q n, Meta.audit <$> w_store (enr_delete x e p q n).1.1.2 = Meta.audit <$> w_store p;
  enr_mint_log : forall x e p, Meta.audit <$> w_store (enr_mint x e p).1.2 = Meta.audit <$> w_store p
}.

Record areq := AReq {
  r_method : string; r_path : string; r_query_db : string; r_ctx : option Authz.principal; r_body : string
}.
Record maintenanceRequest := MReq { m_db : string; m_op : string; m_max : Z; m_dest : string; m_mode : string }.

(** [json.Decode] of each handler's struct; [None] is an error. *)
Record decoders := Decoders {
  dec_create : string -> option (database * list Config.grant);
  dec_detach : string -> option string;
  dec_kill : string -> option string;
  dec_name : string -> option string;
  dec_maint : string -> option maintenanceRequest
}.

(** What the outside answers during one request. *)
Record answer := Answer {
  x_now : Z;
  x_audit : bool;                          (* the audit INSERT runs *)
  x_create : answers;                      (* of [Provisioner.Create] *)
  x_meta_del : bool;                       (*   and of [Drop]'s meta delete *)
  x_entry : nat; x_open : result string nat;   (* the entry and handle of a [Get] or [Reserve] *)
  x_vault : result string Z;               (* the vault operation asked for *)
  x_members : result string (list string);
  x_conn : bool; x_checkpoint : result string (Z * Z);
  x_serialize : result string string;      (* the image of a snapshot *)
  x_write : option string;                 (* what reached the file when the write failed *)
  x_excl : bool;                           (* O_CREATE|O_EXCL on a free name succeeds *)
  x_sealed : string;                       (* the container an encrypted snapshot writes *)
  x_tmp : option string;                   (* os.CreateTemp *)
  x_copied : bool;                         (* reading the upload to its end *)
  x_integrity : result string string;      (* opening the image and PRAGMA integrity_check *)
  x_rename : bool;
  x_errtext : string                       (* the text of the error reported *)
}.

Inductive abody : Type :=
| AMsg (m : string)
| ADatabases (l : list dbinfo)
| AStatus (st db : string)
| APrincipals (l : list Meta.Enrolled)
| ADeleted (n : string)
| ACode (code : string) (expires : Z)
| AInfo (uptime dbs opened sessions : Z)
| ASessions (l : list Session.info)
| ABytes (st db : string) (n : Z)
| ACheckpoint (db mode : string) (frames done : Z)
| ASnapshot (st db dest : string) (n : Z)
| AMembers (db : string) (l : list string).
Record resp := AResp { st : Z; body_ : abody }.
Definition writeErr (status : Z) (msg : string) : resp := AResp status (AMsg msg).

Record handler := Handler { admins : gset string; dataDir : string; maxRestore : Z; started : Z }.

Section Admin.
Context {K E X : Type} `{!Enrollments E X}.
Variable RecommendedPragmas : pragma_set.
Variable canonicalPath : string -> string.
Variable encode : database -> option string.
Variable sec : Secret.Resolver K.
Variable dec : decoders.
Variable h : handler.
Variable calls : X.   (* of the enrollment service *)

(** Everything the handlers reach.  [fs] holds the contents of the files whose names are in
    [w_files]; [killed] are the teardowns a kill started. *)
Record aworld := AWorld {
  p_ : pworld; pol : policy; sess : option Session.store; enr : option E;
  fs : gmap string string; killed : list Session.teardown
}.
Definition with_p (w : aworld) (p : pworld) : aworld := AWorld p (pol w) (sess w) (enr w) (fs w) (killed w).
Definition with_pol (w : aworld) (q : policy) : aworld := AWorld (p_ w) q (sess w) (enr w) (fs w) (killed w).
Definition with_enr (w : aworld) (e : E) (p : pworld) (q : policy) : aworld := AWorld p q (sess w) (Some e) (fs w) (killed w).
Definition with_sess (w : aworld) (s : Session.store) (t : list Session.teardown) : aworld :=
  AWorld (p_ w) (pol w) (Some s) (enr w) (fs w) (t ++ killed w).
Definition with_reg (w : aworld) (r : Registry.registry) : aworld := with_p w (set_reg (p_ w) r).
Definition with_files (w : aworld) (m : gmap string string) (names : gset string) : aworld :=
  let p := p_ w in
  AWorld (PWorld (w_reg p) (w_store p) (w_feed p) (w_series p) names (w_closed p)) (pol w) (sess w) (enr w) m (killed w).
Definition reg (w : aworld) : Registry.registry := w_reg (p_ w).
Definition file_there (w : aworld) (f : string) : bool := bool_decide (f ∈ w_files (p_ w)).
Definition put_file (w : aworld) (f c : string) : aworld := with_files w (<[f := c]> (fs w)) ({[f]} ∪ w_files (p_ w)).
Definition rm_file (w : aworld) (f : string) : aworld := with_files w (delete f (fs w)) (w_files (p_ w) ∖ {[f]}).

(** ** Capabilities and the audit trail *)

Definition principal_ (r : areq) : string := Authz.Name (FromContext (r_ctx r)).
Definition isServerAdmin (r : areq) : bool := bool_decide (principal_ r ∈ admins h).
Definition adminFilter (w : aworld) (r : areq) (d : string) : bool :=
  isServerAdmin r || CanAdmin (Level (pol w) (Some (FromContext (r_ctx r))) d).
Definition canAdminDB (w : aworld) (r : areq) (d : string) : bool := adminFilter w r d.

Definition set_store (w : aworld) (s : option Meta.store) : aworld :=
  let p := p_ w in with_p w (PWorld (w_reg p) s (w_feed p) (w_series p) (w_files p) (w_closed p)).
Definition audit (x : answer) (w : aworld) (r : areq) (action d detail : string) : aworld :=
  set_store w (Meta.Audit (x_audit x) (x_now x / second) (w_store (p_ w)) (principal_ r) action d detail).
Definition auditDeny (x : answer) (w : aworld) (r : areq) (action d reason : string) : aworld :=
  audit x w r (action +:+ ".denied") d reason.
Definition auditFail (x : answer) (w : aworld) (r : areq) (action d reason : string) : aworld :=
  audit x w r (action +:+ ".failed") d reason.

Definition contained (p : string) : option string := path_string <$> WithinDir (dataDir h) p.

(** ** Enrolled principals *)

Definition handlePrincipals (x : answer) (w : aworld) (r : areq) : aworld * resp :=
  if negb (String.eqb (r_method r) "GET") then (w, writeErr 405 "use GET") else
  if negb (isServerAdmin r) then (audit x w r "principals.denied" "" "", writeErr 403 "server admin required") else
  match enr w with
  | None => (w, writeErr 404 "enrollment is not enabled")
  | Some e => match enr_list calls e (p_ w) with
              | None => (w, writeErr 500 "internal error")
              | Some l => (w, AResp 200 (APrincipals l))
              end
  end.

Definition handlePrincipalDelete (x : answer) (w : aworld) (r : areq) : aworld * resp :=
  if negb (String.eqb (r_method r) "POST") then (w, writeErr 405 "use POST") else
  if negb (isServerAdmin r) then (audit x w r "principals.delete.denied" "" "", writeErr 403 "server admin required") else
  match enr w with
  | None => (w, writeErr 404 "enrollment is not enabled")
  | Some e =>
      let n := default ""%string (dec_name dec (substring 0 (Z.to_nat 4096) (r_body r))) in
      if String.eqb n "" then (w, writeErr 400 "body must be {name: u_...}") else
      let '(e', p', q', res) := enr_delete calls e (p_ w) (pol w) n in
      let w1 := with_enr w e' p' q' in
      match res with
      | Err DelBusy => (w1, writeErr 409 "the principal's database is busy (has active users); retry when idle")
      | Err DelFailed => (audit x w1 r "principals.delete.failed" "" n, writeErr 500 "internal error")
      | Ok false => (w1, writeErr 404 "no such enrolled principal")
      | Ok true => (audit x w1 r "principals.delete" "" n, AResp 200 (ADeleted n))
      end
  end.

Definition handleMintEnrollCode (x : answer) (w : aworld) (r : areq) : aworld * resp :=
  if negb (String.eqb (r_method r) "POST") then (w, writeErr 405 "use POST") else
  if negb (isServerAdmin r) then (audit x w r "enroll.mint.denied" "" "", writeErr 403 "server admin required") else
  match enr w with
  | None => (w, writeErr 404 "enrollment is not enabled")
  | Some e =>
      let '(e', p', res) := enr_mint calls e (p_ w) in
      let w1 := with_enr w e' p' (pol w) in
      match res with
      | Err m => (audit x w1 r "enroll.mint.failed" "" m, writeErr 400 m)
      | Ok (c, exp) => (audit x w1 r "enroll.mint" "" "single-use code", AResp 200 (ACode c exp))
      end
  end.

(** ** Databases *)

Definition handleDatabases (w : aworld) (r : areq) : aworld * resp :=
  if negb (String.eqb (r_method r) "GET") then (w, writeErr 405 "use GET") else
  (w, AResp 200 (ADatabases (List.filter (fun i => adminFilter w r (i_name i)) (Registry.List_ (reg w))))).

Definition apply_grants (q : policy) (d : string) (gs : list Config.grant) : policy :=
  fold_left (fun q g => match ParseLevel (Config.g_level g) with (lvl, true) => Authz.Grant q d (Config.g_principal g) lvl | _ => q end) gs q.

Definition handleCreate (x : answer) (w : aworld) (r : areq) : aworld * resp :=
  if negb (String.eqb (r_method r) "POST") then (w, writeErr 405 "use POST") else
  if negb (isServerAdmin r) then (auditDeny x w r "create" "" "not server-admin", writeErr 403 "server-admin capability required") else
  match dec_create dec (r_body r) with
  | None => (w, writeErr 400 "invalid JSON body")
  | Some (d, grants) =>
      match ValidateDatabase d with
      | Err _ => (w, writeErr 400 (x_errtext x))
      | Ok _ =>
          if UsesPath (db_backend d) && negb (String.eqb (db_path d) "") && bool_decide (contained (db_path d) = None)
          then (auditFail x w r "create" (db_name d) ("path escapes data_dir: " +:+ db_path d),
                writeErr 400 "database path must be relative and within data_dir")
          else
            let d := Database (db_name d) (db_backend d) (db_path d) (db_mode d) (db_pool d) (db_preset d) (db_pragmas d)
                       (db_vault d) grants in
            let '(p, res) := Provision.Create RecommendedPragmas canonicalPath encode sec (dataDir h) (x_create x) (p_ w) d in
            let w1 := with_p w p in
            match res with
            | Err (EReg ErrExists) => (auditFail x w1 r "create" (db_name d) "already exists", writeErr 409 "database already exists")
            | Err ErrBadSpec => (auditFail x w1 r "create" (db_name d) ("invalid spec: " +:+ x_errtext x),
                                 writeErr 400 "database could not be created (invalid or unopenable spec)")
            | Err _ => (auditFail x w1 r "create" (db_name d) "create failed", writeErr 500 "database could not be created")
            | Ok _ =>
                let w2 := with_pol w1 (apply_grants (Authz.Revoke (pol w1) (db_name d)) (db_name d) grants) in
                (audit x w2 r "create" (db_name d) (db_backend d), AResp 200 (AStatus "created" (db_name d)))
            end
      end
  end.

Definition handleDetach (x : answer) (w : aworld) (r : areq) : aworld * resp :=
  if negb (String.eqb (r_method r) "POST") then (w, writeErr 405 "use POST") else
  if negb (isServerAdmin r) then (auditDeny x w r "detach" "" "not server-admin", writeErr 403 "server-admin capability required") else
  match dec_detach dec (r_body r) with
  | None => (w, writeErr 400 "invalid JSON body")
  | Some d =>
      let '(p, res) := Provision.Drop (x_meta_del x) (fun _ => true) (p_ w) d false in
      let w1 := with_p w p in
      match res with
      | Err (EReg ErrUnknownDB) => (auditFail x w1 r "detach" d "unknown database", writeErr 404 "unknown database")
      | Err (EReg ErrBusy) => (auditFail x w1 r "detach" d "database busy", writeErr 409 "database busy (has active users); retry when idle")
      | Err _ => (auditFail x w1 r "detach" d "remove failed", writeErr 500 "cannot detach database")
      | Ok _ =>
          let w2 := with_pol w1 (Authz.Revoke (pol w1) d) in
          (audit x w2 r "detach" d "", AResp 200 (AStatus "detached" d))
      end
  end.

(** ** Introspection *)

Definition handleInfo (x : answer) (w : aworld) (r : areq) : aworld * resp :=
  if negb (String.eqb (r_method r) "GET") then (w, writeErr 405 "use GET") else
  if negb (isServerAdmin r) then (w, writeErr 403 "server-admin capability required") else
  let dbs := Registry.List_ (reg w) in
  (w, AResp 200 (AInfo (time_sub (x_now x) (started h) / second) (Z.of_nat (length dbs))
                   (Z.of_nat (length (List.filter i_open dbs))) (match sess w with Some s => Session.Count s | None => 0 end))).

Definition handleSessions (x : answer) (w : aworld) (r : areq) : aworld * resp :=
  if negb (String.eqb (r_method r) "GET") then (w, writeErr 405 "use GET") else
  match sess w with
  | None => (w, AResp 200 (ASessions []))
  | Some s => (w, AResp 200 (ASessions (Session.List_ s (x_now x) (Some (adminFilter w r)))))
  end.

Definition handleKill (x : answer) (w : aworld) (r : areq) : aworld * resp :=
  if negb (String.eqb (r_method r) "POST") then (w, writeErr 405 "use POST") else
  if negb (isServerAdmin r) then (auditDeny x w r "kill" "" "not server-admin", writeErr 403 "server-admin capability required") else
  match sess w with
  | None => (w, writeErr 501 "sessions not enabled")
  | Some s =>
      match dec_kill dec (r_body r) with
      | None => (w, writeErr 400 "invalid JSON body")
      | Some i =>
          match Session.Kill s i with
          | (_, _, KillNotFound) => (auditFail x w r "kill" "" ("no such session: " +:+ i), writeErr 404 "no such session")
          | (_, _, KillBusy) => (auditFail x w r "kill" "" ("session busy: " +:+ i),
                                 writeErr 409 "session has a request in flight; it will end at the statement timeout")
          | (s', t, Killed) => (audit x (with_sess w s' t) r "kill" "" i, AResp 200 (AStatus "killed" i))
          end
      end
  end.

(** ** Holding a database *)

(** [reserve]: the idle handle is closed and new opens are refused until the release. *)
Definition reserve (x : answer) (w : aworld) (r : areq) (op d : string) : aworld * option resp :=
  match Registry.Reserve (reg w) d (x_entry x) with
  | Ok (r1, o) =>
      let p := set_reg (p_ w) r1 in
      (with_p w (PWorld (w_reg p) (w_store p) (w_feed p) (w_series p) (w_files p) (opt_list o ++ w_closed p)), None)
  | Err ErrBusy => (auditFail x w r op d "database busy", Some (writeErr 409 "database busy (has active users); retry when idle"))
  | Err _ => (auditFail x w r op d "reserve failed", Some (writeErr 500 "cannot reserve database"))
  end.
Definition unreserve (w : aworld) (d : string) : aworld := with_reg w (Registry.Reserve_release (reg w) d).

Definition writeGetErr (e : rerr) : resp :=
  match e with
  | ErrUnknownDB => writeErr 404 "unknown database"
  | ErrReserved | ErrBusy => writeErr 503 "database temporarily unavailable"
  | _ => writeErr 500 "internal error"
  end.
(** [pin]: a reference to the live handle; the entry is what the release needs. *)
Definition pin (x : answer) (w : aworld) (r : areq) (op d : string) : aworld * result resp nat :=
  match Registry.Get (reg w) d (x_entry x) (x_open x) (x_now x) with
  | (r1, Ok e) => (with_reg w r1, Ok e)
  | (r1, Err e) => (auditFail x (with_reg w r1) r op d "open failed", Err (writeGetErr e))
  end.
Definition unpin (x : answer) (w : aworld) (e : nat) : aworld := with_reg w (Registry.release (reg w) e (x_now x)).

(** Only a vault backend has the maintenance interfaces. *)
Definition is_vault (w : aworld) (d : string) : bool :=
  match Registry.Backend (reg w) d with Some be => String.eqb (Registry.Kind be) "vault" | None => false end.

(** ** Maintenance *)

Definition offlineCompact (x : answer) (w : aworld) (r : areq) (q : maintenanceRequest) : aworld * resp :=
  let d := m_db q in
  if negb (is_vault w d) then
    (auditFail x w r "compact" d "backend does not support offline compact",
     writeErr 400 "offline compact is only supported for vault databases") else
  match reserve x w r "compact" d with
  | (w1, Some e) => (w1, e)
  | (w1, None) =>
      match x_vault x with
      | Err _ => (unreserve (auditFail x w1 r "compact" d "compact failed") d, writeErr 500 "compact failed")
      | Ok _ => (unreserve (audit x w1 r "compact" d "offline") d, AResp 200 (AStatus "compacted" d))
      end
  end.

Definition onlineReclaim (x : answer) (w : aworld) (r : areq) (q : maintenanceRequest) : aworld * resp :=
  let d := m_db q in
  if negb (is_vault w d) then
    (auditFail x w r (m_op q) d "backend does not support online reclaim",
     writeErr 400 "online reclaim is only supported for vault databases") else
  match pin x w r (m_op q) d with
  | (w1, Err e) => (w1, e)
  | (w1, Ok en) =>
      match x_vault x with
      | Err _ => (unpin x (auditFail x w1 r (m_op q) d "reclaim failed") en, writeErr 500 "reclaim failed")
      | Ok n => (unpin x (audit x w1 r (m_op q) d "online") en, AResp 200 (ABytes "reclaimed" d n))
      end
  end.

Definition logicalReclaim (x : answer) (w : aworld) (r : areq) (q : maintenanceRequest) : aworld * resp :=
  let d := m_db q in
  if negb (is_vault w d) then
    (auditFail x w r (m_op q) d "backend does not support logical reclaim",
     writeErr 400 "logical reclaim is only supported for vault databases") else
  match pin x w r (m_op q) d with
  | (w1, Err e) => (w1, e)
  | (w1, Ok en) =>
      if String.eqb (m_op q) "reclaimable" then
        match x_vault x with
        | Err _ => (unpin x (auditFail x w1 r (m_op q) d "probe failed") en, writeErr 500 "reclaimable probe failed")
        | Ok n => (unpin x w1 en, AResp 200 (ABytes "" d n))
        end
      else
        match x_vault x with
        | Err _ => (unpin x (auditFail x w1 r (m_op q) d "reclaim failed") en, writeErr 500 "logical reclaim failed")
        | Ok n => (unpin x (audit x w1 r (m_op q) d "online") en, AResp 200 (ABytes "reclaimed" d n))
        end
  end.

Definition checkpointModes : list string := [""; "passive"; "full"; "restart"; "truncate"]%string.
Definition checkpoint (x : answer) (w : aworld) (r : areq) (q : maintenanceRequest) : aworld * resp :=
  let d := m_db q in
  if negb (mem_string (m_mode q) checkpointModes) then
    (auditFail x w r "checkpoint" d ("bad mode: " +:+ m_mode q), writeErr 400 "checkpoint mode must be passive|full|restart|truncate") else
  match pin x w r "checkpoint" d with
  | (w1, Err e) => (w1, e)
  | (w1, Ok en) =>
      if negb (x_conn x) then (unpin x (auditFail x w1 r "checkpoint" d "conn failed") en, writeErr 500 "cannot acquire a connection") else
      match x_checkpoint x with
      | Err _ => (unpin x (auditFail x w1 r "checkpoint" d "checkpoint failed") en,
                  writeErr 500 "checkpoint failed (is the database in WAL mode?)")
      | Ok (frames, done_) =>
          let mode := if String.eqb (m_mode q) "" then "passive"%string else m_mode q in
          (unpin x (audit x w1 r "checkpoint" d mode) en, AResp 200 (ACheckpoint d mode frames done_))
      end
  end.

(** A write that fails leaves what had been written. *)
Definition snapshot (x : answer) (w : aworld) (r : areq) (q : maintenanceRequest) : aworld * resp :=
  let d := m_db q in
  match contained (m_dest q) with
  | None => (auditFail x w r "snapshot" d ("dest escapes data_dir: " +:+ m_dest q), writeErr 400 "snapshot dest must be a path within data_dir")
  | Some dest =>
      match pin x w r "snapshot" d with
      | (w1, Err e) => (w1, e)
      | (w1, Ok en) =>
          match x_serialize x with
          | Err _ => (unpin x (auditFail x w1 r "snapshot" d "serialize failed") en, writeErr 500 "snapshot failed")
          | Ok data =>
              if file_there w1 dest || negb (x_excl x) then
                (unpin x (auditFail x w1 r "snapshot" d ("dest exists or cannot be created: " +:+ dest)) en,
                 writeErr 409 "snapshot dest already exists or cannot be created")
              else
                match x_write x with
                | Some part => (unpin x (auditFail x (put_file w1 dest part) r "snapshot" d "write failed") en, writeErr 500 "snapshot write failed")
                | None => (unpin x (audit x (put_file w1 dest data) r "snapshot" d dest) en,
                           AResp 200 (ASnapshot "snapshot" d dest (Z.of_nat (String.length data))))
                end
          end
      end
  end.

(** The destination is claimed first; a refusal after that takes the claim away again. *)
Definition snapshotEncrypted (x : answer) (w : aworld) (r : areq) (q : maintenanceRequest) : aworld * resp :=
  let d := m_db q in
  match contained (m_dest q) with
  | None => (auditFail x w r "snapshot_encrypted" d ("dest escapes data_dir: " +:+ m_dest q), writeErr 400 "snapshot dest must be a path within data_dir")
  | Some dest =>
      if negb (is_vault w d) then
        (auditFail x w r "snapshot_encrypted" d "backend is not a vault", writeErr 400 "encrypted snapshot is only supported for vault databases")
      else if file_there w dest || negb (x_excl x) then
        (auditFail x w r "snapshot_encrypted" d ("dest exists or cannot be created: " +:+ dest),
         writeErr 409 "snapshot dest already exists or cannot be created")
      else
        let w0 := put_file w dest "" in
        match reserve x w0 r "snapshot_encrypted" d with
        | (w1, Some e) => (rm_file w1 dest, e)
        | (w1, None) =>
            match x_vault x with
            | Err m => (rm_file (unreserve (auditFail x w1 r "snapshot_encrypted" d ("snapshot failed: " +:+ m)) d) dest,
                        writeErr 500 "encrypted snapshot failed (a recipient-mode vault cannot be re-sealed in-band)")
            | Ok _ =>
                let w2 := put_file w1 dest (x_sealed x) in
                (unreserve (audit x w2 r "snapshot_encrypted" d dest) d,
                 AResp 200 (ASnapshot "snapshot_encrypted" d dest (Z.of_nat (String.length (x_sealed x)))))
            end
        end
  end.

Definition heavy (op : string) : bool := String.eqb op "rewrap" || String.eqb op "rekey".
Definition vaultKeyMgmt (x : answer) (w : aworld) (r : areq) (q : maintenanceRequest) : aworld * resp :=
  let d := m_db q in let op := m_op q in
  if heavy op && negb (isServerAdmin r) then
    (auditDeny x w r op d "not server-admin", writeErr 403 "rewrap/rekey require server-admin capability") else
  if negb (is_vault w d) then
    (auditFail x w r op d "backend is not a recipient-mode vault",
     writeErr 400 "vault key management is only supported for recipient-mode vaults") else
  match reserve x w r op d with
  | (w1, Some e) => (w1, e)
  | (w1, None) =>
      if String.eqb op "members" then
        match x_members x with
        | Err m => (unreserve (auditFail x w1 r "members" d ("enumerate failed: " +:+ m)) d, writeErr 400 ("cannot enumerate vault membership: " +:+ m))
        | Ok l => (unreserve w1 d, AResp 200 (AMembers d l))
        end
      else
        match x_vault x with
        | Err m => (unreserve (auditFail x w1 r op d (op +:+ " failed: " +:+ m)) d, writeErr 400 (op +:+ " failed: " +:+ m))
        | Ok _ =>
            if String.eqb op "rewrap"
            then (unreserve (audit x w1 r "rewrap" d "membership re-wrapped") d, AResp 200 (AStatus "rewrapped" d))
            else (unreserve (audit x w1 r "rekey" d "re-encrypted under a fresh key") d, AResp 200 (AStatus "rekeyed" d))
        end
  end.

Definition maintenance_op (x : answer) (w : aworld) (r : areq) (q : maintenanceRequest) : aworld * resp :=
  let op := m_op q in
  if String.eqb op "compact" then offlineCompact x w r q
  else if String.eqb op "compact_online" || String.eqb op "trim" then onlineReclaim x w r q
  else if String.eqb op "compact_logical" || String.eqb op "reclaimable" then logicalReclaim x w r q
  else if String.eqb op "checkpoint" then checkpoint x w r q
  else if String.eqb op "snapshot" then snapshot x w r q
  else if String.eqb op "snapshot_encrypted" then snapshotEncrypted x w r q
  else if String.eqb op "members" || heavy op then vaultKeyMgmt x w r q
  else (auditFail x w r op (m_db q) "unknown maintenance op", writeErr 400 "unknown maintenance op").

Definition handleMaintenance (x : answer) (w : aworld) (r : areq) : aworld * resp :=
  if negb (String.eqb (r_method r) "POST") then (w, writeErr 405 "use POST") else
  match dec_maint dec (r_body r) with
  | None => (w, writeErr 400 "invalid JSON body")
  | Some q =>
      if negb (canAdminDB w r (m_db q)) then
        (auditDeny x w r "maintenance" (m_db q) "not admin for database", writeErr 403 "admin capability required for this database")
      else if bool_decide (Registry.Backend (reg w) (m_db q) = None) then
        (auditFail x w r (m_op q) (m_db q) "unknown database", writeErr 404 "unknown database")
      else maintenance_op x w r q
  end.

(** ** Restore *)

Definition sqliteMagic : string := "SQLite format 3" +:+ String (Ascii.ascii_of_nat 0) "".
Definition defaultMaxRestoreBytes : Z := 4294967296.
Definition restore_limit : Z := if maxRestore h =? 0 then defaultMaxRestoreBytes else maxRestore h.
Definition removeSidecars (w : aworld) (p : string) : aworld := rm_file (rm_file w (p +:+ "-wal")) (p +:+ "-shm").
(** [None]: valid. *)
Definition validateSQLiteImage (x : answer) (image : string) : option string :=
  if negb (String.eqb (substring 0 16 image) sqliteMagic) then Some "not a SQLite database file"%string
  else match x_integrity x with
       | Err m => Some m
       | Ok s => if String.eqb s "ok" then None else Some ("integrity check: " +:+ s)
       end.

(** The upload is read up to one byte past the limit. *)
Definition received (body : string) : string :=
  if (restore_limit >? 0) && (Z.of_nat (String.length body) >? restore_limit + 1)
  then substring 0 (Z.to_nat (restore_limit + 1)) body else body.
Definition drop_temp (w : aworld) (tmp : string) : aworld := removeSidecars (rm_file w tmp) tmp.

Definition handleRestore (x : answer) (w : aworld) (r : areq) : aworld * resp :=
  let d := r_query_db r in
  if negb (String.eqb (r_method r) "POST") then (w, writeErr 405 "use POST") else
  if String.eqb d "" then (w, writeErr 400 "restore requires a ?database= query parameter") else
  if negb (isServerAdmin r) then (auditDeny x w r "restore" d "not server-admin", writeErr 403 "server-admin capability required") else
  match Registry.Backend (reg w) d with
  | None => (auditFail x w r "restore" d "unknown database", writeErr 404 "unknown database")
  | Some be =>
      match BPath be, String.eqb (Registry.Kind be) "file" with
      | Some target, true =>
          match x_tmp x with
          | None => (w, writeErr 500 "restore: cannot create temp file")
          | Some tmp =>
              let image := received (r_body r) in
              let n := Z.of_nat (String.length image) in
              let w1 := put_file w tmp image in
              if negb (x_copied x) then (drop_temp (auditFail x w1 r "restore" d "upload failed") tmp, writeErr 400 "restore: upload failed") else
              if (restore_limit >? 0) && (n >? restore_limit) then
                (drop_temp (auditFail x w1 r "restore" d "image too large") tmp, writeErr 413 "restore image exceeds the size cap") else
              match validateSQLiteImage x image with
              | Some m => (drop_temp (auditFail x w1 r "restore" d ("invalid image: " +:+ m)) tmp,
                           writeErr 400 "restore: uploaded file is not a valid SQLite database")
              | None =>
                  let w2 := removeSidecars w1 tmp in
                  match reserve x w2 r "restore" d with
                  | (w3, Some e) => (drop_temp w3 tmp, e)
                  | (w3, None) =>
                      let w4 := removeSidecars w3 target in
                      if negb (x_rename x) then
                        (drop_temp (unreserve (auditFail x w4 r "restore" d "swap failed") d) tmp,
                         writeErr 500 "restore: could not replace the database file")
                      else
                        let w5 := put_file (rm_file w4 tmp) target image in
                        (unreserve (audit x w5 r "restore" d ("bytes=" +:+ format_int n)) d, AResp 200 (ABytes "restored" d n))
                  end
              end
          end
      | _, _ => (auditFail x w r "restore" d ("backend not restorable: " +:+ Registry.Kind be),
                 writeErr 400 "restore is only supported for file databases")
      end
  end.

(** ** Routing *)

Definition sub_path (r : areq) : string := default (r_path r) (cut_prefix "/_admin" (r_path r)).
Definition ServeHTTP (x : answer) (w : aworld) (r : areq) : aworld * resp :=
  let sub := sub_path r in
  if String.eqb sub "/databases" || String.eqb sub "/stats" then handleDatabases w r
  else if String.eqb sub "/create" then handleCreate x w r
  else if String.eqb sub "/detach" then handleDetach x w r
  else if String.eqb sub "/maintenance" then handleMaintenance x w r
  else if String.eqb sub "/restore" then handleRestore x w r
  else if String.eqb sub "/info" then handleInfo x w r
  else if String.eqb sub "/sessions" then handleSessions x w r
  else if String.eqb sub "/kill" then handleKill x w r
  else if String.eqb sub "/principals" then handlePrincipals x w r
  else if String.eqb sub "/principals/delete" then handlePrincipalDelete x w r
  else if String.eqb sub "/enroll/codes" then handleMintEnrollCode x w r
  else (w, writeErr 404 "unknown admin endpoint").
(** ** What a request leaves alone *)

Definition tables (s : option Meta.store) : option (list dbrow * list enrolled_row * list code) :=
  (fun s => (databases s, enrolled s, enroll_codes s)) <$> s.
Definition trail (w : aworld) : list AuditEntry := match w_store (p_ w) with Some s => Meta.audit s | None => [] end.

(** Everything except the live handles of database [d], the files satisfying [chg] and the
    audit log. *)
Record frame (d : string) (chg : string -> Prop) (w w' : aworld) : Prop := {
  fr_backends : backends (reg w') = backends (reg w);
  fr_entries : forall n, n <> d -> entries (reg w') !! n = entries (reg w) !! n;
  fr_tables : tables (w_store (p_ w')) = tables (w_store (p_ w));
  fr_feed : w_feed (p_ w') = w_feed (p_ w);
  fr_series : w_series (p_ w') = w_series (p_ w);
  fr_pol : pol w' = pol w;
  fr_sess : sess w' = sess w;
  fr_enr : enr w' = enr w;
  fr_killed : killed w' = killed w;
  fr_files : forall f, ~ chg f -> (f ∈ w_files (p_ w') <-> f ∈ w_files (p_ w)) /\ fs w' !! f = fs w !! f
}.
(** Nothing but the audit log. *)
Definition kept (w w' : aworld) : Prop := exists s, w' = set_store w s /\ tables s = tables (w_store (p_ w)).

Lemma frame_refl d chg w : frame d chg w w.
Proof. by split. Qed.
Lemma frame_trans d chg w1 w2 w3 : frame d chg w1 w2 -> frame d chg w2 w3 -> frame d chg w1 w3.
Proof.
  intros [] []. split; try congruence.
  - intros n Hn. rewrite fr_entries1 by done. by apply fr_entries0.
  - intros f Hf. destruct (fr_files0 f Hf) as [H1 H2], (fr_files1 f Hf) as [H3 H4]. split; [by rewrite H3|by rewrite H4].
Qed.
Lemma frame_weaken d (chg chg' : string -> Prop) w w' : (forall f, chg f -> chg' f) -> frame d chg w w' -> frame d chg' w w'.
Proof. intros Hc []. split; try done. intros f Hf. apply fr_files0. by intros ?%Hc. Qed.

Lemma audit_tables x w r a d t : tables (w_store (p_ (audit x w r a d t))) = tables (w_store (p_ w)).
Proof. unfold audit, Meta.Audit. cbn. destruct (w_store (p_ w)) as [s|]; [|done]. by destruct (x_audit x). Qed.
Lemma audit_kept x w r a d t : kept w (audit x w r a d t).
Proof. eexists. split; [reflexivity|]. apply audit_tables. Qed.
Lemma kept_refl w : kept w w.
Proof. exists (w_store (p_ w)). split; [|done]. by destruct w as [[]]. Qed.
Lemma kept_frame d chg w w' : kept w w' -> frame d chg w w'.
Proof. intros (s & -> & Hs). by split. Qed.
Lemma frame_audit d chg x w r a n t : frame d chg w (audit x w r a n t).
Proof. apply kept_frame, audit_kept. Qed.

Lemma frame_with_reg d chg w r1 : backends r1 = backends (reg w) ->
  (forall n, n <> d -> entries r1 !! n = entries (reg w) !! n) -> frame d chg w (with_reg w r1).
Proof. intros. by split. Qed.

Lemma frame_put d (chg : string -> Prop) w f c : chg f -> frame d chg w (put_file w f c).
Proof.
  intros Hc. split; try done. intros g Hg. cbn. rewrite lookup_insert_ne by (intros ->; done). split; [|done].
  rewrite elem_of_union, elem_of_singleton. split; [|by right]. intros [->|]; [done|done].
Qed.
Lemma frame_rm d (chg : string -> Prop) w f : chg f -> frame d chg w (rm_file w f).
Proof.
  intros Hc. split; try done. intros g Hg. cbn. rewrite lookup_delete_ne by (intros ->; done). split; [|done].
  rewrite elem_of_difference, elem_of_singleton. split; [by intros []|]. intros Hin. split; [done|]. by intros ->.
Qed.

(** The registry operations the handlers use, away from [d]. *)
Lemma detach_others r d r1 o : Registry.detachIdleLocked r d = Ok (r1, o) ->
  backends r1 = backends r /\ heap r1 = heap r /\ forall n, n <> d -> entries r1 !! n = entries r !! n.
Proof.
  unfold Registry.detachIdleLocked. destruct (_ ≫= _) as [e|]; [|by intros [= <- _]].
  destruct (busy_entry e); [done|]. intros [= <- _]. cbn. split; [done|]. split; [done|]. intros n Hn. by rewrite lookup_delete_ne.
Qed.

Lemma frame_reserve d chg x w r op : let '(w', res) := reserve x w r op d in
  frame d chg w w' /\ (res = None -> fs w' = fs w /\ w_files (p_ w') = w_files (p_ w)).
Proof.
  unfold reserve, Registry.Reserve. destruct (backends (reg w) !! d); [|by split; [apply frame_audit|]].
  destruct (Registry.detachIdleLocked (reg w) d) as [[r1 o]|e] eqn:Ed; cbn.
  - apply detach_others in Ed as (H1 & _ & H2). split; [|done]. split; try done.
    intros n Hn. cbn. rewrite lookup_insert_ne by done. by apply H2.
  - destruct e; by split; [apply frame_audit|].
Qed.
Lemma frame_unreserve d chg w : frame d chg w (unreserve w d).
Proof. apply frame_with_reg; [done|]. intros n Hn. cbn. by rewrite lookup_delete_ne. Qed.

Definition names_ok (r : Registry.registry) : Prop :=
  forall n a, entries r !! n = Some a -> exists e, heap r !! a = Some e /\ name e = n.

Lemma frame_pin d chg x w r op : names_ok (reg w) -> frame d chg w (pin x w r op d).1.
Proof.
  intros Hok. unfold pin. enough (forall r1 res, Registry.Get (reg w) d (x_entry x) (x_open x) (x_now x) = (r1, res) ->
    backends r1 = backends (reg w) /\ forall n, n <> d -> entries r1 !! n = entries (reg w) !! n) as H.
  { destruct (Registry.Get _ _ _ _ _) as [r1 [en|e]] eqn:Eg; destruct (H _ _ eq_refl); cbn; [by apply frame_with_reg|].
    eapply frame_trans; [by apply frame_with_reg|apply frame_audit]. }
  intros r1 res. unfold Registry.Get, Get_lookup.
  destruct (entries (reg w) !! d) as [a|] eqn:Ea.
  - unfold Get_recheck. repeat case_match; simplify_eq; intros [= <- _]; done.
  - destruct (backends (reg w) !! d); [|by intros [= <- _]]. unfold Get_opened. cbn. rewrite lookup_insert_eq.
    destruct (x_open x); intros [= <- _]; cbn; (split; [done|]); intros n Hn;
      [by rewrite lookup_insert_ne|by rewrite lookup_delete_ne, lookup_insert_ne].
Qed.
Lemma frame_unpin d chg x w en : frame d chg w (unpin x w en).
Proof. apply frame_with_reg; unfold Registry.release; by destruct (heap (reg w) !! en). Qed.
(** Follows a world built by the handlers' steps back to one already related. *)
Ltac chase :=
  cbn [fst snd];
  repeat first
    [ assumption
    | apply frame_refl
    | apply frame_audit
    | match goal with
      | |- frame _ _ _ (unpin _ _ _) => eapply frame_trans; [|apply frame_unpin]
      | |- frame _ _ _ (unreserve _ _) => eapply frame_trans; [|apply frame_unreserve]
      | |- frame _ _ _ (auditFail _ _ _ _ _ _) => unfold auditFail
      | |- frame _ _ _ (auditDeny _ _ _ _ _ _) => unfold auditDeny
      | |- frame _ _ _ (audit _ _ _ _ _ _) => eapply frame_trans; [|apply frame_audit]
      | |- frame _ _ _ (put_file _ _ _) => eapply frame_trans; [|apply frame_put]
      | |- frame _ _ _ (rm_file _ _) => eapply frame_trans; [|apply frame_rm]
      end ].

Definition fresh_dest (w : aworld) (q : maintenanceRequest) (f : string) : Prop :=
  contained (m_dest q) = Some f /\ file_there w f = false.

Lemma maintenance_frame x w r q : names_ok (reg w) ->
  frame (m_db q) (fresh_dest w q) w (maintenance_op x w r q).1.
Proof.
  intros Hok. set (chg := fresh_dest w q). set (d := m_db q).
  assert (forall op, frame d chg w (pin x w r op d).1) as Hpin by (intros; by apply frame_pin).
  assert (forall w0 op, frame d chg w0 (reserve x w0 r op d).1) as Hres.
  { intros w0 op. pose proof (frame_reserve d chg x w0 r op) as H. by destruct (reserve x w0 r op d); destruct H. }
  unfold maintenance_op.
  destruct (String.eqb _ _).
  { unfold offlineCompact. fold d. destruct (negb _); [by chase|]. specialize (Hres w "compact"%string).
    destruct (reserve x w r "compact" d) as [w1 [e|]]; [by chase|]. destruct (x_vault x); by chase. }
  destruct (_ || _).
  { unfold onlineReclaim. fold d. destruct (negb _); [by chase|]. specialize (Hpin (m_op q)).
    destruct (pin x w r (m_op q) d) as [w1 [en|e]]; [|by chase]. destruct (x_vault x); by chase. }
  destruct (_ || _).
  { unfold logicalReclaim. fold d. destruct (negb _); [by chase|]. specialize (Hpin (m_op q)).
    destruct (pin x w r (m_op q) d) as [w1 [en|e]]; [|by chase]. destruct (String.eqb _ _), (x_vault x); by chase. }
  destruct (String.eqb _ _).
  { unfold checkpoint. fold d. destruct (negb _); [by chase|]. specialize (Hpin "checkpoint"%string).
    destruct (pin x w r "checkpoint" d) as [w1 [en|e]]; [|by chase]. destruct (negb _); [by chase|].
    destruct (x_checkpoint x) as [[]|]; by chase. }
  destruct (String.eqb _ _).
  { unfold snapshot. fold d. destruct (contained (m_dest q)) as [dest|] eqn:Ec; [|by chase]. specialize (Hpin "snapshot"%string).
    assert (w_files (p_ (pin x w r "snapshot" d).1) = w_files (p_ w)) as Hfiles
      by (unfold pin; destruct (Registry.Get _ _ _ _ _) as [r1 [|]]; done).
    destruct (pin x w r "snapshot" d) as [w1 [en|e]]; [|by chase]. destruct (x_serialize x) as [img|]; [|by chase].
    destruct (file_there w1 dest || negb (x_excl x)) eqn:Ex; [by chase|]. apply orb_false_iff in Ex as [Ex _].
    assert (chg dest) as Hc by (split; [done|]; unfold file_there in *; by rewrite <- Hfiles).
    destruct (x_write x); by chase. }
  destruct (String.eqb _ _).
  { unfold snapshotEncrypted. fold d. destruct (contained (m_dest q)) as [dest|] eqn:Ec; [|by chase].
    destruct (negb _); [by chase|]. destruct (file_there w dest || negb (x_excl x)) eqn:Ex; [by chase|]. apply orb_false_iff in Ex as [Ex _].
    assert (chg dest) as Hc by done. set (w0 := put_file w dest "").
    specialize (Hres w0 "snapshot_encrypted"%string). assert (frame d chg w w0) as H0 by (by apply frame_put).
    destruct (reserve x w0 r "snapshot_encrypted" d) as [w1 [e|]]; cbn [fst] in Hres; pose proof (frame_trans _ _ _ _ _ H0 Hres);
      [by chase|]. destruct (x_vault x); by chase. }
  destruct (_ || _); [|by chase].
  unfold vaultKeyMgmt. fold d. destruct (_ && _); [by chase|]. destruct (negb _); [by chase|]. specialize (Hres w (m_op q)).
  destruct (reserve x w r (m_op q) d) as [w1 [e|]]; [by chase|]. destruct (String.eqb _ _).
  - destruct (x_members x); by chase.
  - destruct (x_vault x); [|by chase]. destruct (String.eqb _ _); by chase.
Qed.
(** A response that lists no databases or sessions. *)
Definition plain (p : resp) : Prop := match body_ p with ADatabases _ | ASessions _ => False | _ => True end.

Ltac branches Hr Hp :=
  repeat match goal with
  | |- context [reserve ?x ?w0 ?r ?op ?d] => pose proof (Hr w0 op d); destruct (reserve x w0 r op d) as [? []]; cbn [fst snd] in *
  | |- context [pin ?x ?w0 ?r ?op ?d] => pose proof (Hp w0 op d); destruct (pin x w0 r op d) as [? []]; cbn [fst snd] in *
  | |- context [if ?b then _ else _] => destruct b; cbn [fst snd]; try exact I
  | |- plain (match ?e with _ => _ end).2 => destruct e; cbn [fst snd]; try exact I
  end; try exact I; eauto.

Lemma maint_body x w r q : plain (maintenance_op x w r q).2.
Proof.
  assert (forall w0 op d e, (reserve x w0 r op d).2 = Some e -> plain e) as Hr.
  { intros w0 op d e. unfold reserve. destruct (Registry.Reserve _ _ _) as [[]|[]]; by intros [= <-]. }
  assert (forall w0 op d e, (pin x w0 r op d).2 = Err e -> plain e) as Hp.
  { intros w0 op d e. unfold pin. destruct (Registry.Get _ _ _ _ _) as [? [|ge]]; [done|]. cbn. intros [= <-]. by destruct ge. }
  unfold maintenance_op.
  destruct (String.eqb _ _); [unfold offlineCompact; by branches Hr Hp|].
  destruct (_ || _); [unfold onlineReclaim; by branches Hr Hp|].
  destruct (_ || _); [unfold logicalReclaim; by branches Hr Hp|].
  destruct (String.eqb _ _); [unfold checkpoint; by branches Hr Hp|].
  destruct (String.eqb _ _); [unfold snapshot; by branches Hr Hp|].
  destruct (String.eqb _ _); [unfold snapshotEncrypted; by branches Hr Hp|].
  destruct (_ || _); [unfold vaultKeyMgmt; by branches Hr Hp|exact I].
Qed.

Lemma listed_filtered s now f i : i ∈ Session.List_ s now (Some f) -> f (DBName i) = true.
Proof.
  unfold Session.List_. intros ([k s0] & _ & Hx)%list_elem_of_omap. destruct (f (dbName s0)) eqn:Ef; [|done].
  cbn in Hx. injection Hx as <-. done.
Qed.

Lemma heavy_refused x w r q : isServerAdmin r = false -> heavy (m_op q) = true -> kept w (maintenance_op x w r q).1.
Proof.
  intros Ha Hh. unfold maintenance_op. unfold heavy in Hh. apply orb_true_iff in Hh as [Hh|Hh]; apply String.eqb_eq in Hh;
    rewrite Hh; cbn; unfold vaultKeyMgmt; rewrite Hh, Ha; cbn; apply audit_kept.
Qed.

(** A maintenance operation of a database administrator who is not a server admin. *)
Lemma maintenance_gated x w r q : names_ok (reg w) -> isServerAdmin r = false ->
  CanAdmin (Level (pol w) (Some (FromContext (r_ctx r))) (m_db q)) = true -> Registry.Backend (reg w) (m_db q) <> None ->
  let w' := (maintenance_op x w r q).1 in
  (kept w w' \/
   heavy (m_op q) = false /\ Open (pol w) = false /\ is_Some (Registry.Backend (reg w) (m_db q)) /\
   frame (m_db q) (fresh_dest w q) w w' /\
   forall f, fresh_dest w q f -> exists abs, f = path_string abs /\ Below (dataDir h) abs) /\
  plain (maintenance_op x w r q).2.
Proof.
  intros Hok Ha Hmay Hb w'. split; [|apply maint_body].
  destruct (heavy (m_op q)) eqn:Eh; [left; by apply heavy_refused|right]. split; [done|].
  split. { unfold Open. unfold Level in Hmay. by destruct (open_mode (pol w)). }
  split; [by destruct (Registry.Backend (reg w) (m_db q))|]. split; [by apply maintenance_frame|].
  intros f [Hf _]. unfold contained in Hf. apply fmap_Some in Hf as (abs & Habs & ->). exists abs. split; [done|].
  by eapply WithinDir_below.
Qed.

(** What a caller that is no server admin may do beyond a row in the audit log: maintain a
    database it administers. *)
Definition own_maintenance (w : aworld) (r : areq) (w' : aworld) : Prop :=
  exists q, sub_path r = "/maintenance"%string /\ r_method r = "POST"%string /\ dec_maint dec (r_body r) = Some q /\
     CanAdmin (Level (pol w) (Some (FromContext (r_ctx r))) (m_db q)) = true /\ Open (pol w) = false /\
     is_Some (Registry.Backend (reg w) (m_db q)) /\ heavy (m_op q) = false /\
     frame (m_db q) (fresh_dest w q) w w' /\
     forall f, fresh_dest w q f -> exists abs, f = path_string abs /\ Below (dataDir h) abs.
Lemma nonadmin_effect x w r : names_ok (reg w) -> isServerAdmin r = false ->
  let '(w', p) := ServeHTTP x w r in
  (kept w w' \/ own_maintenance w r w') /\
  match body_ p with
  | ADatabases l => forall i, i ∈ l -> CanAdmin (Level (pol w) (Some (FromContext (r_ctx r))) (i_name i)) = true
  | ASessions l => forall i, i ∈ l -> CanAdmin (Level (pol w) (Some (FromContext (r_ctx r))) (DBName i)) = true
  | _ => True
  end.
Proof.
  intros Hok Ha.
  assert (forall d, adminFilter w r d = true -> CanAdmin (Level (pol w) (Some (FromContext (r_ctx r))) d) = true) as Hmay
    by (intros d; unfold adminFilter; by rewrite Ha).
  unfold ServeHTTP.
  destruct (_ || _).
  { unfold handleDatabases. destruct (negb _); (split; [left; apply kept_refl|]); cbn [body_ writeErr]; [done|].
    intros i Hi. apply list_elem_of_In, filter_In in Hi as [_ Hi]. by apply Hmay. }
  destruct (String.eqb _ _).
  { unfold handleCreate. rewrite Ha. destruct (negb _); (split; [left|]); try done; [apply kept_refl|apply audit_kept]. }
  destruct (String.eqb _ _).
  { unfold handleDetach. rewrite Ha. destruct (negb _); (split; [left|]); try done; [apply kept_refl|apply audit_kept]. }
  destruct (String.eqb_spec (sub_path r) "/maintenance") as [Hsub|_].
  { unfold handleMaintenance. destruct (String.eqb_spec (r_method r) "POST") as [Hm|]; cbn [negb]; [|by split; [left; apply kept_refl|]].
    destruct (dec_maint dec (r_body r)) as [q|] eqn:Eq; [|by split; [left; apply kept_refl|]].
    destruct (canAdminDB w r (m_db q)) eqn:Ec; cbn [negb]; [|by split; [left; apply audit_kept|]].
    destruct (bool_decide (Registry.Backend (reg w) (m_db q) = None)) eqn:Eb; [by split; [left; apply audit_kept|]|].
    apply bool_decide_eq_false in Eb. apply Hmay in Ec.
    pose proof (maintenance_gated x w r q Hok Ha Ec Eb) as Hg. destruct (maintenance_op x w r q) as [w' p]. cbn [fst snd] in Hg.
    destruct Hg as [[Hk|(Hh & Ho & Hg)] Hp]; (split; [|unfold plain in Hp; by destruct (body_ p)]); [by left|right].
    exists q. by destruct Hg as (H1 & H2 & H3). }
  destruct (String.eqb _ _).
  { unfold handleRestore. rewrite Ha. destruct (negb _); [by split; [left; apply kept_refl|]|].
    destruct (String.eqb _ _); (split; [left|]); try done; [apply kept_refl|apply audit_kept]. }
  destruct (String.eqb _ _).
  { unfold handleInfo. rewrite Ha. destruct (negb _); (split; [left; apply kept_refl|done]). }
  destruct (String.eqb _ _).
  { unfold handleSessions. destruct (negb _); [by split; [left; apply kept_refl|]|].
    destruct (sess w) as [s|]; (split; [left; apply kept_refl|]); cbn [body_]; [|by intros i Hi%not_elem_of_nil].
    intros i Hi. apply Hmay. by eapply listed_filtered. }
  destruct (String.eqb _ _).
  { unfold handleKill. rewrite Ha. destruct (negb _); (split; [left|]); try done; [apply kept_refl|apply audit_kept]. }
  destruct (String.eqb _ _).
  { unfold handlePrincipals. rewrite Ha. destruct (negb _); (split; [left|]); try done; [apply kept_refl|apply audit_kept]. }
  destruct (String.eqb _ _).
  { unfold handlePrincipalDelete. rewrite Ha. destruct (negb _); (split; [left|]); try done; [apply kept_refl|apply audit_kept]. }
  destruct (String.eqb _ _).
  { unfold handleMintEnrollCode. rewrite Ha. destruct (negb _); (split; [left|]); try done; [apply kept_refl|apply audit_kept]. }
  by split; [left; apply kept_refl|].
Qed.

(** In particular nothing but the audit log, a handle and a new file. *)
Lemma nonadmin_keeps x w r : names_ok (reg w) -> isServerAdmin r = false -> let w' := (ServeHTTP x w r).1 in
  pol w' = pol w /\ backends (reg w') = backends (reg w) /\ tables (w_store (p_ w')) = tables (w_store (p_ w)) /\
  enr w' = enr w /\ sess w' = sess w /\ killed w' = killed w /\ w_feed (p_ w') = w_feed (p_ w).
Proof.
  intros Hok Ha. cbv zeta. pose proof (nonadmin_effect x w r Hok Ha) as H. destruct (ServeHTTP x w r) as [w' p]. cbn [fst].
  destruct H as [[(s & -> & Hs)|(q & _ & _ & _ & _ & _ & _ & _ & [] & _)] _]; done.
Qed.

(** C11: (access control) Without the server-admin capability a request changes nothing but
    the audit log, with one exception: a maintenance operation, other than rewrap and rekey,
    on a served database for which the caller holds an admin grant.  Such an operation
    touches that database's live handle and at most creates one new file, below the data
    directory; no other database, no stored specification, grant, session, principal or
    existing file.  Open mode gives nobody this capability, and the lists show only
    databases the caller may administer. *)
Theorem control_plane_is_gated x w r : names_ok (reg w) -> isServerAdmin r = false ->
  let may d := CanAdmin (Level (pol w) (Some (FromContext (r_ctx r))) d) = true in
  let '(w', p) := ServeHTTP x w r in
  (kept w w' \/
   exists q, sub_path r = "/maintenance"%string /\ r_method r = "POST"%string /\ dec_maint dec (r_body r) = Some q /\
     may (m_db q) /\ Open (pol w) = false /\ is_Some (Registry.Backend (reg w) (m_db q)) /\ heavy (m_op q) = false /\
     frame (m_db q) (fresh_dest w q) w w' /\
     forall f, fresh_dest w q f -> exists abs, f = path_string abs /\ Below (dataDir h) abs) /\
  match body_ p with
  | ADatabases l => forall i, i ∈ l -> may (i_name i)
  | ASessions l => forall i, i ∈ l -> may (DBName i)
  | _ => True
  end.
Proof. intros Hok Ha may. exact (nonadmin_effect x w r Hok Ha). Qed.
(** ** The audit trail *)

Section Trail.
Variable x : answer.
Variable r : areq.
Hypothesis audited : x_audit x = true.

Definition row (a d t : string) : AuditEntry := AuditRow (x_now x / second) (principal_ r) a d t.
Definition recorded (w w' : aworld) : Prop := exists a d t, trail w' = trail w ++ [row a d t].
Definition denied (w w' : aworld) : Prop := exists a d t, trail w' = trail w ++ [row (a +:+ ".denied") d t].
(** Nothing an operator could miss: at most handles were opened or closed. *)
Record quiet (w w' : aworld) : Prop := {
  q_backends : backends (reg w') = backends (reg w);
  q_store : w_store (p_ w') = w_store (p_ w);
  q_feed : w_feed (p_ w') = w_feed (p_ w);
  q_pol : pol w' = pol w;
  q_sess : sess w' = sess w /\ killed w' = killed w;
  q_fs : fs w' = fs w /\ w_files (p_ w') = w_files (p_ w);
  q_enr : enr w' = enr w
}.
(** What every answer to a request leaves in the trail. *)
Definition accounted (w : aworld) (o : aworld * resp) : Prop :=
  (recorded w o.1 \/ quiet w o.1) /\ (st o.2 = 403 -> denied w o.1).

Lemma quiet_refl w : quiet w w.
Proof. by split. Qed.
Lemma trail_audit w a d t : is_Some (w_store (p_ w)) -> trail (audit x w r a d t) = trail w ++ [row a d t].
Proof. intros [s Hs]. unfold trail, audit, Meta.Audit. rewrite Hs, audited. done. Qed.
Lemma accounted_quiet w w' p : st p <> 403 -> quiet w w' -> accounted w (w', p).
Proof. intros Hp Hq. by split; [right|]. Qed.
Lemma same_trail w w1 : Meta.audit <$> w_store (p_ w1) = Meta.audit <$> w_store (p_ w) -> is_Some (w_store (p_ w)) ->
  is_Some (w_store (p_ w1)) /\ trail w1 = trail w.
Proof. unfold trail. intros H [s Hs]. rewrite Hs in *. destruct (w_store (p_ w1)); cbn in H; [|done]. by injection H as ->. Qed.
(** [w1] is the world audited, [w2] the one answered. *)
Lemma accounted_row w w1 w2 p a d t : is_Some (w_store (p_ w)) ->
  w_store (p_ w2) = w_store (p_ (audit x w1 r a d t)) ->
  Meta.audit <$> w_store (p_ w1) = Meta.audit <$> w_store (p_ w) -> st p <> 403 -> accounted w (w2, p).
Proof.
  intros Hs H2 H1 Hp. apply (same_trail _ _ H1) in Hs as [Hs Ht]. split; [left|done]. exists a, d, t. cbn.
  rewrite <- Ht, <- trail_audit by done. unfold trail. by rewrite H2.
Qed.
Lemma accounted_denied w p a d t : is_Some (w_store (p_ w)) -> accounted w (auditDeny x w r a d t, p).
Proof.
  intros Hs. assert (denied w (auditDeny x w r a d t)) as Hd by (exists a, d, t; by apply trail_audit).
  split; [left|done]. destruct Hd as (? & ? & ? & H). by do 3 eexists.
Qed.
Lemma trail_reserve w op d : is_Some (w_store (p_ w)) ->
  match reserve x w r op d with
  | (w', None) => quiet w w'
  | (w', Some p) => recorded w w' /\ st p <> 403
  end.
Proof.
  intros Hs. unfold reserve, Registry.Reserve. destruct (backends (reg w) !! d);
    [|split; [do 3 eexists; by apply trail_audit|done]].
  destruct (Registry.detachIdleLocked (reg w) d) as [[r1 o]|e] eqn:Ed; cbn.
  - apply detach_others in Ed as (H1 & _ & _). by split; cbn; rewrite ?H1.
  - destruct e; (split; [do 3 eexists; by apply trail_audit|done]).
Qed.
Lemma trail_pin w op d : is_Some (w_store (p_ w)) -> names_ok (reg w) ->
  match pin x w r op d with
  | (w', Ok _) => quiet w w'
  | (w', Err p) => recorded w w' /\ st p <> 403
  end.
Proof.
  intros Hs Hok. pose proof (frame_pin d (fun _ => False) x w r op Hok) as Hf. unfold pin in *.
  destruct (Registry.Get _ _ _ _ _) as [r1 [en|e]]; cbn in *.
  - split; try done. exact (fr_backends _ _ _ _ Hf).
  - split; [do 3 eexists; apply (trail_audit (with_reg w r1)); done|by destruct e].
Qed.
Lemma accounted_stop w w1 w2 p : recorded w w1 /\ st p <> 403 -> w_store (p_ w2) = w_store (p_ w1) -> accounted w (w2, p).
Proof.
  intros [(a & d & t & H) Hp] H2. split; [left|done]. exists a, d, t. cbn. rewrite <- H. unfold trail. by rewrite H2.
Qed.

Lemma quiet_unpin w w1 en : quiet w w1 -> quiet w (unpin x w1 en).
Proof.
  intros []. split; try done. cbn. rewrite <- q_backends0. unfold Registry.release. by destruct (heap (reg w1) !! en).
Qed.
Ltac accounts Hs :=
  cbn [fst snd];
  repeat match goal with
  | |- accounted ?w (?w, _) => apply accounted_quiet; [done|by apply quiet_refl]
  | |- accounted _ (auditDeny _ _ _ _ _ _, _) => by apply accounted_denied
  | |- accounted _ _ => solve [eapply accounted_stop; [eassumption|reflexivity] | apply accounted_quiet; [done|assumption]]
  | |- accounted ?w (_, _) =>
      solve [eapply accounted_row; [exact Hs|reflexivity|cbn; try (f_equal; by apply q_store); reflexivity|done]]
  | |- accounted _ (if ?b then _ else _) => destruct b; cbn [negb]
  | |- accounted _ (match ?e with _ => _ end) => destruct e
  end.

Lemma maintenance_accounted w q : is_Some (w_store (p_ w)) -> names_ok (reg w) -> accounted w (maintenance_op x w r q).
Proof.
  intros Hs Hok. set (d := m_db q).
  assert (forall op, match pin x w r op d with (w', Ok _) => quiet w w' | (w', Err p) => recorded w w' /\ st p <> 403 end) as Hp
    by (intros op; by apply trail_pin).
  assert (forall op, match reserve x w r op d with (w', None) => quiet w w' | (w', Some p) => recorded w w' /\ st p <> 403 end) as Hr
    by (intros op; by apply trail_reserve).
  unfold maintenance_op.
  destruct (String.eqb _ _).
  { unfold offlineCompact. fold d. specialize (Hr "compact"%string). destruct (reserve x w r "compact" d) as [w1 [p|]]; accounts Hs. }
  destruct (_ || _).
  { unfold onlineReclaim. fold d. specialize (Hp (m_op q)). destruct (pin x w r (m_op q) d) as [w1 [en|p]]; accounts Hs. }
  destruct (_ || _).
  { unfold logicalReclaim. fold d. specialize (Hp (m_op q)). destruct (pin x w r (m_op q) d) as [w1 [en|p]]; accounts Hs.
    apply accounted_quiet; [done|]. by apply quiet_unpin. }
  destruct (String.eqb _ _).
  { unfold checkpoint. fold d. specialize (Hp "checkpoint"%string). destruct (pin x w r "checkpoint" d) as [w1 [en|p]]; accounts Hs. }
  destruct (String.eqb _ _).
  { unfold snapshot. fold d. specialize (Hp "snapshot"%string). destruct (contained (m_dest q)); [|accounts Hs].
    destruct (pin x w r "snapshot" d) as [w1 [en|p]]; accounts Hs. }
  destruct (String.eqb _ _).
  { unfold snapshotEncrypted. fold d. destruct (contained (m_dest q)) as [dest|]; [|accounts Hs]. 
    destruct (negb _); [accounts Hs|]. destruct (_ || _); [accounts Hs|]. cbv zeta.
    pose proof (trail_reserve (put_file w dest "") "snapshot_encrypted" d Hs) as H.
    destruct (reserve x (put_file w dest "") r "snapshot_encrypted" d) as [w1 [p|]]; [change (recorded w w1 /\ st p <> 403) in H; accounts Hs|].
    apply q_store in H. change (w_store (p_ w1) = w_store (p_ w)) in H.
    destruct (x_vault x); (eapply accounted_row; [exact Hs|reflexivity|cbn; f_equal; exact H|done]). }
  destruct (_ || _); [|accounts Hs].
  unfold vaultKeyMgmt. fold d. specialize (Hr (m_op q)). destruct (reserve x w r (m_op q) d) as [w1 [p|]]; accounts Hs.
  all: apply accounted_quiet; [done|]; by destruct Hr.
Qed.

Lemma create_audit a p db : Meta.audit <$> w_store (Provision.Create RecommendedPragmas canonicalPath encode sec (dataDir h) a p db).1 =
  Meta.audit <$> w_store p.
Proof.
  assert (forall p n (be : Storage.backend K) ad, w_store (feed_register canonicalPath p n be ad) = w_store p) as Hf
    by (intros p1 n be ad; unfold feed_register; by destruct (w_feed p1), (Storage.Path be)).
  assert (forall p n (be : Storage.backend K), w_store (feed_rollback p n be) = w_store p) as Hb
    by (intros p1 n be; unfold feed_rollback; by destruct (w_feed p1), (Storage.Path be)).
  assert (forall p n, w_store (remove_ignoring p n) = w_store p) as Hi
    by (intros p1 n; unfold remove_ignoring; by destruct (Registry.Remove _ _) as [[]|]).
  unfold Provision.Create. destruct (negb _); [done|]. destruct (Storage.For _ _ _ _ _); [|done].
  destruct (Registry.Add _ _ _); [|done]. cbv zeta. destruct (Registry.Get _ _ _ _ _) as [r2 [en|e]].
  - unfold set_reg at 1, make_files at 1. cbn [w_store]. rewrite Hf. cbn. destruct (w_store p) as [s|] eqn:Es.
    + unfold Meta.Put. destruct (encode db) as [spec|]; [|cbn; by rewrite Hb, Hi; cbn; rewrite Hf; cbn; rewrite Es].
      destruct (a_put a); cbn; [done|]. by rewrite Hb, Hi; cbn; rewrite Hf; cbn; rewrite Es.
    + cbn. by rewrite Hf; cbn; rewrite Es.
  - cbn. by rewrite Hb, Hi; cbn; rewrite Hf.
Qed.
Lemma drop_audit io rm p n del : Meta.audit <$> w_store (Provision.Drop io rm p n del).1 = Meta.audit <$> w_store p.
Proof.
  unfold Provision.Drop. destruct (Registry.Remove _ _) as [[]|]; [|done]. cbn. destruct (w_store p); [|done]. cbn.
  unfold Meta.Delete. by destruct io.
Qed.

Lemma create_accounted w : is_Some (w_store (p_ w)) -> accounted w (handleCreate x w r).
Proof.
  intros Hs. unfold handleCreate. destruct (negb _); [accounts Hs|]. destruct (negb _); [accounts Hs|].
  destruct (dec_create dec (r_body r)) as [[d gs]|]; [|accounts Hs]. destruct (ValidateDatabase d); [|accounts Hs].
  destruct (_ && _); [accounts Hs|]. cbv zeta.
  pose proof (create_audit (x_create x) (p_ w) (Database (db_name d) (db_backend d) (db_path d) (db_mode d) (db_pool d) (db_preset d)
    (db_pragmas d) (db_vault d) gs)) as H.
  destruct (Provision.Create _ _ _ _ _ _ _ _) as [p [u|[|[]|]]]; cbn [fst snd] in *;
    (eapply accounted_row; [exact Hs|reflexivity|exact H|done]).
Qed.
Lemma detach_accounted w : is_Some (w_store (p_ w)) -> accounted w (handleDetach x w r).
Proof.
  intros Hs. unfold handleDetach. destruct (negb _); [accounts Hs|]. destruct (negb _); [accounts Hs|].
  destruct (dec_detach dec (r_body r)) as [d|]; [|accounts Hs].
  pose proof (drop_audit (x_meta_del x) (fun _ => true) (p_ w) d false) as H.
  destruct (Provision.Drop _ _ _ _ _) as [p [u|[|[]|]]]; cbn [fst snd] in *;
    (eapply accounted_row; [exact Hs|reflexivity|exact H|done]).
Qed.
Lemma restore_accounted w : is_Some (w_store (p_ w)) -> accounted w (handleRestore x w r).
Proof.
  intros Hs. unfold handleRestore. set (d := r_query_db r). destruct (negb _); [accounts Hs|]. destruct (String.eqb _ _); [accounts Hs|].
  destruct (negb _); [accounts Hs|]. destruct (Registry.Backend _ _) as [be|]; [|accounts Hs].
  destruct (BPath be) as [target|]; [|accounts Hs]. destruct (String.eqb _ _); [|accounts Hs].
  destruct (x_tmp x) as [tmp|]; [|accounts Hs]. cbv zeta. destruct (negb _); [accounts Hs|]. destruct (_ && _); [accounts Hs|].
  destruct (validateSQLiteImage _ _); [accounts Hs|].
  set (w2 := removeSidecars _ _). pose proof (trail_reserve w2 "restore" d Hs) as H.
  destruct (reserve x w2 r "restore" d) as [w3 [p|]]; [change (recorded w w3 /\ st p <> 403) in H; accounts Hs|].
  apply q_store in H. change (w_store (p_ w3) = w_store (p_ w)) in H.
  destruct (negb _); (eapply accounted_row; [exact Hs|reflexivity|cbn; f_equal; exact H|done]).
Qed.

Lemma principals_accounted w : is_Some (w_store (p_ w)) ->
  accounted w (handlePrincipals x w r) /\ accounted w (handleMintEnrollCode x w r) /\
  let o := handlePrincipalDelete x w r in accounted w o \/ st o.2 = 404 \/ st o.2 = 409.
Proof.
  intros Hs. split; [|split].
  - unfold handlePrincipals. change (audit x w r "principals.denied" "" "") with (auditDeny x w r "principals" "" "").
    repeat case_match; accounts Hs.
  - unfold handleMintEnrollCode. change (audit x w r "enroll.mint.denied" "" "") with (auditDeny x w r "enroll.mint" "" "").
    destruct (negb _); [accounts Hs|]. destruct (negb _); [accounts Hs|]. destruct (enr w) as [e|]; [|accounts Hs].
    pose proof (enr_mint_log calls e (p_ w)) as Hl. destruct (enr_mint calls e (p_ w)) as [[e' p'] [[]|]]; cbn [fst snd] in Hl;
      (eapply accounted_row; [exact Hs|reflexivity|exact Hl|done]).
  - unfold handlePrincipalDelete. change (audit x w r "principals.delete.denied" "" "") with (auditDeny x w r "principals.delete" "" "").
    destruct (negb _); [left; accounts Hs|]. destruct (negb _); [left; accounts Hs|].
    destruct (enr w) as [e|]; [|left; accounts Hs]. cbv zeta. destruct (String.eqb _ _); [left; accounts Hs|].
    set (n := default _ _). pose proof (enr_delete_log calls e (p_ w) (pol w) n) as Hl.
    destruct (enr_delete calls e (p_ w) (pol w) n) as [[[e' p'] q'] [[]|[]]]; cbn [fst snd] in Hl; auto;
      (left; eapply accounted_row; [exact Hs|reflexivity|exact Hl|done]).
Qed.
End Trail.

(** (audit) With a working audit log every request to the control plane is accounted
    for: either exactly one row under the caller's name is appended, or no database, stored
    specification, grant, session, feed, file or enrolled principal changed; only the deletion of a
    principal answered 404 or 409 leaves no row whatever it did.  A request refused for want
    of a capability leaves a row whose action ends in [.denied], on every endpoint except
    [/info]. *)
Theorem control_plane_is_audited x w r : x_audit x = true -> is_Some (w_store (p_ w)) -> names_ok (reg w) ->
  let '(w', p) := ServeHTTP x w r in
  (recorded x r w w' \/ quiet w w' \/ sub_path r = "/principals/delete"%string /\ (st p = 404 \/ st p = 409)) /\
  (st p = 403 -> sub_path r <> "/info"%string -> denied x r w w').
Proof.
  intros Hx Hs Hok.
  enough (let o := ServeHTTP x w r in
    (recorded x r w o.1 \/ quiet w o.1 \/ sub_path r = "/principals/delete"%string /\ (st o.2 = 404 \/ st o.2 = 409)) /\
    (st o.2 = 403 -> sub_path r <> "/info"%string -> denied x r w o.1)) as H
    by (cbv zeta in H; by destruct (ServeHTTP x w r)).
  assert (forall o, accounted x r w o ->
    (recorded x r w o.1 \/ quiet w o.1 \/ sub_path r = "/principals/delete"%string /\ (st o.2 = 404 \/ st o.2 = 409)) /\
    (st o.2 = 403 -> sub_path r <> "/info"%string -> denied x r w o.1)) as Hplain by (intros o [[H1|H1] H2]; auto).
  destruct (principals_accounted x r Hx w Hs) as (Hp1 & Hp2 & Hp3).
  unfold ServeHTTP. cbv zeta.
  destruct (_ || _); [unfold handleDatabases; destruct (negb _); by apply Hplain, accounted_quiet|].
  destruct (String.eqb _ _); [by apply Hplain, create_accounted|].
  destruct (String.eqb _ _); [by apply Hplain, detach_accounted|].
  destruct (String.eqb _ _).
  { apply Hplain. unfold handleMaintenance. destruct (negb _); [by apply accounted_quiet|].
    destruct (dec_maint _ _) as [q|]; [|by apply accounted_quiet]. destruct (negb _); [by apply accounted_denied|].
    destruct (bool_decide _); [by eapply accounted_row|by apply maintenance_accounted]. }
  destruct (String.eqb _ _); [by apply Hplain, restore_accounted|].
  destruct (String.eqb_spec (sub_path r) "/info") as [Hi|_].
  { unfold handleInfo. destruct (negb _); [by apply Hplain, accounted_quiet|]. destruct (negb _); by (split; [right; left|]). }
  destruct (String.eqb _ _). { unfold handleSessions. destruct (negb _), (sess w); by apply Hplain, accounted_quiet. }
  destruct (String.eqb _ _).
  { apply Hplain. unfold handleKill. destruct (negb _); [by apply accounted_quiet|]. destruct (negb _); [by apply accounted_denied|].
    destruct (sess w) as [s|]; [|by apply accounted_quiet]. destruct (dec_kill _ _) as [i|]; [|by apply accounted_quiet].
    destruct (Session.Kill s i) as [[s' t] []]; by eapply accounted_row. }
  destruct (String.eqb _ _); [by apply Hplain|].
  destruct (String.eqb_spec (sub_path r) "/principals/delete") as [Hd|_].
  { destruct Hp3 as [Ha|Ha]; [by apply Hplain|]. split; [by right; right|]. by destruct Ha as [->| ->]. }
  destruct (String.eqb _ _); [by apply Hplain|]. by apply Hplain, accounted_quiet.
Qed.

(** *** Sessions *)

Lemma pin_sess x w r op d : sess (pin x w r op d).1 = sess w.
Proof. unfold pin. by destruct (Registry.Get _ _ _ _ _) as [r1 [e|e]]. Qed.
Lemma reserve_sess x w r op d : sess (reserve x w r op d).1 = sess w.
Proof. unfold reserve. by destruct (Registry.Reserve _ _ _) as [[r1 o]|[]]. Qed.
Ltac sess_same := repeat (first
  [ done
  | match goal with
    | |- context [pin ?x ?w ?r ?op ?d] => pose proof (pin_sess x w r op d); destruct (pin x w r op d) as [? []]; cbn [fst] in *
    | |- context [reserve ?x ?w ?r ?op ?d] => pose proof (reserve_sess x w r op d); destruct (reserve x w r op d) as [? []]; cbn [fst] in *
    end
  | case_match ]).

Lemma maintenance_sess x w r q : sess (maintenance_op x w r q).1 = sess w.
Proof.
  unfold maintenance_op, offlineCompact, onlineReclaim, logicalReclaim, checkpoint, snapshot, snapshotEncrypted, vaultKeyMgmt. cbv zeta.
  sess_same.
Qed.
Lemma restore_sess x w r : sess (handleRestore x w r).1 = sess w.
Proof. unfold handleRestore. cbv zeta. sess_same. Qed.

(** The control plane ends sessions, and only through [kill]. *)
Lemma ServeHTTP_sess x w r : let w' := (ServeHTTP x w r).1 in
  sess w' = sess w \/ exists s i, sess w = Some s /\ sess w' = Some (Session.Kill s i).1.1.
Proof.
  unfold ServeHTTP. cbv zeta.
  destruct (_ || _); [left; unfold handleDatabases; sess_same|].
  destruct (String.eqb _ _); [left; unfold handleCreate; cbv zeta; sess_same|].
  destruct (String.eqb _ _); [left; unfold handleDetach; sess_same|].
  destruct (String.eqb _ _).
  { left. unfold handleMaintenance. destruct (negb _); [done|]. destruct (dec_maint _ _); [|done]. destruct (negb _); [done|].
    destruct (bool_decide _); [done|]. apply maintenance_sess. }
  destruct (String.eqb _ _); [left; apply restore_sess|].
  destruct (String.eqb _ _); [left; unfold handleInfo; sess_same|].
  destruct (String.eqb _ _); [left; unfold handleSessions; sess_same|].
  destruct (String.eqb _ _).
  { unfold handleKill. destruct (negb _); [by left|]. destruct (negb _); [by left|]. destruct (sess w) as [s|] eqn:Es; [|by left].
    destruct (dec_kill _ _) as [i|]; [|by left]. destruct (Session.Kill s i) as [[s' t] []] eqn:Ek; [by left..|].
    right. exists s, i. split; [done|]. by rewrite Ek. }
  destruct (String.eqb _ _); [left; unfold handlePrincipals; sess_same|].
  destruct (String.eqb _ _); [left; unfold handlePrincipalDelete; cbv zeta; sess_same|].
  destruct (String.eqb _ _); [left; unfold handleMintEnrollCode; sess_same|]. by left.
Qed.

(** ** Restoring a database file *)

Definition own (p : string) : list string := [p; p +:+ "-wal"; p +:+ "-shm"].
Definition absent (w : aworld) (f : string) : Prop := f ∉ w_files (p_ w) /\ fs w !! f = None.

Lemma absent_rm w f : absent (rm_file w f) f.
Proof. split; cbn; [rewrite elem_of_difference, elem_of_singleton; by intros [_ H]|apply lookup_delete_eq]. Qed.
Lemma absent_keep w f g : absent w f -> absent (rm_file w g) f.
Proof.
  intros [H1 H2]. split; cbn; [rewrite elem_of_difference; by intros [H _]|].
  destruct (decide (g = f)) as [->|]; [apply lookup_delete_eq|by rewrite lookup_delete_ne].
Qed.
Lemma absent_put w f g c : f <> g -> absent w f -> absent (put_file w g c) f.
Proof.
  intros Hf [H1 H2]. split; cbn; [rewrite elem_of_union, elem_of_singleton; by intros [|]|by rewrite lookup_insert_ne].
Qed.
Lemma own_base p : p ∈ own p.
Proof. left. Qed.
Lemma own_wal p : p +:+ "-wal" ∈ own p.
Proof. right. left. Qed.
Lemma own_shm p : p +:+ "-shm" ∈ own p.
Proof. do 2 right. left. Qed.
#[local] Hint Resolve own_base own_wal own_shm : core.
Lemma absent_own w p : absent w p -> forall f, f ∈ own p -> absent (removeSidecars w p) f.
Proof.
  intros H f Hf. unfold own in Hf. rewrite !elem_of_cons in Hf. unfold removeSidecars.
  destruct Hf as [->|[->|[->|[]%not_elem_of_nil]]]; [by do 2 apply absent_keep|apply absent_keep, absent_rm|apply absent_rm].
Qed.
Lemma absent_drop w tmp f : f ∈ own tmp -> absent (drop_temp w tmp) f.
Proof. apply absent_own, absent_rm. Qed.
Lemma frame_sidecars d (chg : string -> Prop) w p : chg (p +:+ "-wal") -> chg (p +:+ "-shm") -> frame d chg w (removeSidecars w p).
Proof. intros H1 H2. unfold removeSidecars. by chase. Qed.
(** Files that are on neither side do not count. *)
Lemma frame_absent d (chg : string -> Prop) w w' (l : list string) : (forall f, f ∈ l -> absent w f /\ absent w' f) ->
  frame d (fun f => chg f \/ f ∈ l) w w' -> frame d chg w w'.
Proof.
  intros Hab []. split; try done. intros f Hf. destruct (decide (f ∈ l)) as [Hin|Hni]; [|by apply fr_files0; intros []].
  destruct (Hab f Hin) as [[H1 H2] [H3 H4]]. by rewrite H2, H4.
Qed.
Lemma frame_drop d (chg : string -> Prop) w w1 tmp : (forall f, f ∈ own tmp -> absent w f) ->
  frame d (fun f => chg f \/ f ∈ own tmp) w w1 -> frame d chg w (drop_temp w1 tmp).
Proof.
  intros Hab Hfr. apply (frame_absent _ _ _ _ (own tmp)); [intros f Hf; split; [by apply Hab|by apply absent_drop]|].
  unfold drop_temp. eapply frame_trans; [|apply frame_sidecars; auto].
  eapply frame_trans; [exact Hfr|]. apply frame_rm. auto.
Qed.
Lemma substring_short (n : nat) (s : string) : (String.length (substring 0 n s) < n)%nat -> substring 0 n s = s.
Proof.
  revert s. induction n as [|n IH]; intros s H; [lia|]. destruct s as [|c s]; [done|]. cbn in *. f_equal. apply IH. lia.
Qed.
Lemma received_all body : restore_limit > 0 -> Z.of_nat (String.length (received body)) <= restore_limit -> received body = body.
Proof.
  unfold received. intros Hl. destruct (_ && _); [|done]. intros H. apply substring_short. lia.
Qed.

Lemma suffix_ne p q : q <> ""%string -> p +:+ q <> p.
Proof.
  intros Hq. induction p as [|c p IH]; [done|]. rewrite sapp_cons. by intros [= H].
Qed.
(** Whether the registry counts a user, an open in progress or a reservation of [n]. *)
Definition held (r : Registry.registry) (n : string) : bool :=
  match entries r !! n ≫= fun a => heap r !! a with Some e => busy_entry e | None => false end.
Lemma reserve_spec d (chg : string -> Prop) x w r op : match reserve x w r op d with
  | (w', Some p) => frame d chg w w' /\ st p <> 200
  | (w', None) => frame d chg w w' /\ held (reg w) d = false /\ fs w' = fs w /\ w_files (p_ w') = w_files (p_ w)
  end.
Proof.
  pose proof (frame_reserve d chg x w r op) as H. unfold held, reserve, Registry.Reserve in *.
  destruct (backends (reg w) !! d); [|by destruct H].
  unfold Registry.detachIdleLocked in *. destruct (_ ≫= _) as [e|]; cbn in *; [|by destruct H].
  destruct (busy_entry e); cbn in *; by destruct H.
Qed.
(** What the checks on the upload establish: nothing was cut off, and it is a valid image. *)
Lemma image_accepted x body :
  (restore_limit >? 0) && (Z.of_nat (String.length (received body)) >? restore_limit) = false ->
  validateSQLiteImage x (received body) = None ->
  received body = body /\ substring 0 16 body = sqliteMagic /\ x_integrity x = Ok "ok"%string /\
  (restore_limit > 0 -> Z.of_nat (String.length body) <= restore_limit).
Proof.
  intros El Ev. unfold validateSQLiteImage in Ev.
  destruct (String.eqb_spec (substring 0 16 (received body)) sqliteMagic) as [Hm|]; [cbn [negb] in Ev|done].
  destruct (x_integrity x) as [ok|] eqn:Ei; [|done]. destruct (String.eqb_spec ok "ok") as [Eo|]; [|done]. subst ok.
  assert (restore_limit > 0 -> Z.of_nat (String.length (received body)) <= restore_limit) as Hcap.
  { intros Hl. apply andb_false_iff in El as [El|El]; rewrite Z.gtb_ltb in El; apply Z.ltb_ge in El; lia. }
  assert (received body = body) as Hall.
  { destruct (decide (restore_limit > 0)); [by apply received_all; [|apply Hcap]|].
    unfold received. destruct (Z.gtb_spec restore_limit 0); [lia|done]. }
  by rewrite Hall in *.
Qed.

Lemma absent_same w w' f (P : Prop) : fs w' = fs w -> w_files (p_ w') = w_files (p_ w) -> P \/ absent w f -> P \/ absent w' f.
Proof. unfold absent. by intros -> ->. Qed.

(** The swap: sidecars out, upload over the target, handle entry dropped. *)
Lemma swapped d w w3 tmp target image : (forall f, f ∈ own tmp -> f ∉ own target) ->
  (forall f, f ∈ own tmp -> absent w f) -> (forall f, f ∈ own tmp -> f = tmp \/ absent w3 f) ->
  frame d (fun f => f ∈ own target \/ f ∈ own tmp) w w3 -> forall x r a,
  let wf := unreserve (audit x (put_file (rm_file (removeSidecars w3 target) tmp) target image) r a d
                         ("bytes=" +:+ format_int (Z.of_nat (String.length image)))) d in
  (forall f, f ∈ own tmp -> absent wf f) /\ fs wf !! target = Some image /\ target ∈ w_files (p_ wf) /\
  absent wf (target +:+ "-wal") /\ absent wf (target +:+ "-shm") /\ entries (reg wf) !! d = None /\
  frame d (fun f => f ∈ own target) w wf.
Proof.
  intros Hdis Hab Hab3 Hfr x r a wf. set (w5 := put_file (rm_file (removeSidecars w3 target) tmp) target image) in wf.
  assert (forall q, q <> ""%string -> target +:+ q <> target) as Hne by (intros; by apply suffix_ne).
  assert (forall f, f ∈ own tmp -> absent wf f) as Hgone.
  { intros f Hf. apply (absent_put _ f target image); [intros ->; by apply (Hdis target Hf)|].
    destruct (Hab3 f Hf) as [->|Hw]; [apply absent_rm|by do 3 apply absent_keep]. }
  split; [done|]. split; [cbn; by rewrite lookup_insert_eq|]. split; [cbn; rewrite elem_of_union, elem_of_singleton; by left|].
  split; [apply (absent_put _ _ target image); [by apply Hne|]; apply absent_keep, absent_keep, absent_rm|].
  split; [apply (absent_put _ _ target image); [by apply Hne|]; apply absent_keep, absent_rm|].
  split; [cbn; apply lookup_delete_eq|].
  apply (frame_absent _ _ _ _ (own tmp)); [intros f Hf; split; [by apply Hab|by apply Hgone]|].
  match goal with |- frame _ ?c _ _ => set (chg := c) in * end.
  assert (frame d chg w (removeSidecars w3 target))
    by (eapply frame_trans; [exact Hfr|]; apply frame_sidecars; unfold chg; auto).
  unfold wf, w5. chase; unfold chg; auto.
Qed.

Definition side_or (p : string) (c : Prop) (f : string) : Prop := c /\ (f = p +:+ "-wal" \/ f = p +:+ "-shm").

(** C20: (atomicity) Restoring a database replaces its file by the upload or leaves it alone.
    Success means the caller is a server admin, the database is served from a file and had
    no user, the whole upload (within the limit) starts with SQLite's magic and passed the
    integrity check; then the file holds exactly the upload, its old sidecars are gone and
    the next request opens it anew.  Any other answer leaves every file, and everything else
    but the audit log and the idle handle, as it was; only after a failed rename may the
    sidecars be gone.  The temporary file and its sidecars never remain. *)
Theorem restore_is_a_swap x w r tmp be target :
  x_tmp x = Some tmp -> Registry.Backend (reg w) (r_query_db r) = Some be -> BPath be = Some target ->
  (forall f, f ∈ own tmp -> absent w f /\ f ∉ own target) ->
  let d := r_query_db r in
  let '(w', p) := handleRestore x w r in
  (forall f, f ∈ own tmp -> absent w' f) /\
  if st p =? 200 then
    isServerAdmin r = true /\ Registry.Kind be = "file"%string /\ held (reg w) d = false /\
    substring 0 16 (r_body r) = sqliteMagic /\ x_integrity x = Ok "ok"%string /\
    (restore_limit > 0 -> Z.of_nat (String.length (r_body r)) <= restore_limit) /\
    fs w' !! target = Some (r_body r) /\ target ∈ w_files (p_ w') /\
    absent w' (target +:+ "-wal") /\ absent w' (target +:+ "-shm") /\ entries (reg w') !! d = None /\
    frame d (fun f => f ∈ own target) w w'
  else frame d (side_or target (st p = 500 /\ held (reg w) d = false)) w w'.
Proof.
  intros Htmp Hbe Hpath Hfresh d. unfold handleRestore. rewrite Hbe, Hpath, Htmp. fold d.
  assert (forall f, f ∈ own tmp -> absent w f) as Hab by (intros f Hf; by apply Hfresh).
  assert (forall c, frame d c w w) as Hrefl by (intros; apply frame_refl).
  destruct (negb _); [by split|]. destruct (String.eqb _ _); [by split|].
  destruct (isServerAdmin r) eqn:Ea; cbn [negb]; [|by split; [|apply frame_audit]].
  destruct (String.eqb_spec (Registry.Kind be) "file") as [Hk|]; [|by split; [|apply frame_audit]].
  cbv zeta. set (image := received (r_body r)). set (w1 := put_file w tmp image).
  assert (forall c, frame d (fun f => c f \/ f ∈ own tmp) w w1) as H1
    by (intros c; apply frame_put; auto).
  assert (forall c a t, frame d c w (drop_temp (auditFail x w1 r "restore" a t) tmp)) as Hrefuse.
  { intros c a t. apply frame_drop; [done|]. eapply frame_trans; [apply H1|apply frame_audit]. }
  assert (forall c f, f ∈ own tmp -> absent (drop_temp c tmp) f) as Hdrop by (intros; by apply absent_drop).
  destruct (negb _); [by split; [intros; by apply Hdrop|apply Hrefuse]|].
  destruct ((restore_limit >? 0) && _) eqn:El; [by split; [intros; by apply Hdrop|apply Hrefuse]|].
  destruct (validateSQLiteImage x image) eqn:Ev; [by split; [intros; by apply Hdrop|apply Hrefuse]|].
  set (w2 := removeSidecars w1 tmp).
  assert (forall c, frame d (fun f => c f \/ f ∈ own tmp) w w2) as H2.
  { intros c. eapply frame_trans; [apply H1|]. apply frame_sidecars; auto. }
  pose proof (fun c => reserve_spec d c x w2 r "restore") as H3.
  destruct (reserve x w2 r "restore" d) as [w3 [p|]].
  { destruct (H3 (side_or target (st p = 500 /\ held (reg w) d = false))) as [_ Hp]. rewrite (proj2 (Z.eqb_neq _ _)) by done.
    split; [intros; by apply Hdrop|]. apply frame_drop; [done|]. eapply frame_trans; [apply H2|]. by destruct (H3 (fun f => side_or target (st p = 500 /\ held (reg w) d = false) f \/ f ∈ own tmp)). }
  assert (held (reg w) d = false) as Hidle by (by destruct (H3 (fun _ => True)) as (_ & ? & _)).
  destruct (x_rename x); cbn [negb st].
  - change (200 =? 200) with true. cbv iota. destruct (H3 (fun f => f ∈ own target \/ f ∈ own tmp)) as (Hf3 & _ & Hfs & Hfi).
    destruct (image_accepted x (r_body r) El Ev) as (Hall & Hm & Hi & Hcap). fold image in Hall.
    edestruct (swapped d w w3 tmp target image) with (x := x) (r := r) (a := "restore"%string) as (S1 & S2 & S3 & S4 & S5 & S6 & S7);
      [intros; by apply Hfresh|exact Hab| |eapply frame_trans; [apply H2|exact Hf3]|].
    { intros f Hf. apply (absent_same w2); [done|done|]. unfold w2, own in *. rewrite !elem_of_cons in Hf. unfold removeSidecars.
      destruct Hf as [->|[->|[->|[]%not_elem_of_nil]]]; [by left|right; apply absent_keep, absent_rm|right; apply absent_rm]. }
    rewrite Hall in *. repeat (split; [first [done|by rewrite <- Hall]|]). done.
  - change (500 =? 200) with false. cbv iota. split; [intros; by apply Hdrop|]. apply frame_drop; [done|].
    match goal with |- frame _ ?c _ _ => set (chg := c) end.
    assert (frame d chg w w3) as Hw3 by (eapply frame_trans; [apply H2|]; by destruct (H3 chg)).
    assert (frame d chg w (removeSidecars w3 target)) by (eapply frame_trans; [exact Hw3|]; apply frame_sidecars; left; by split; [|auto]).
    by chase.
Qed.

(** ** Holding and releasing *)

Definition same_held (w w' : aworld) : Prop := forall n, held (reg w') n = held (reg w) n.

Lemma held_elsewhere r n a e : names_ok r -> name e <> n -> heap r !! a = Some e -> forall e',
  (entries r !! n ≫= fun b => <[a := e']> (heap r) !! b) = (entries r !! n ≫= fun b => heap r !! b).
Proof.
  intros Hok Hn Ha e'. destruct (entries r !! n) as [b|] eqn:Eb; [|done]. cbn. destruct (Hok n b Eb) as (eb & Hb & Hnb).
  destruct (decide (a = b)) as [->|]; [congruence|by rewrite lookup_insert_ne].
Qed.
Lemma held_fresh r n a : names_ok r -> heap r !! a = None -> forall e',
  (entries r !! n ≫= fun b => <[a := e']> (heap r) !! b) = (entries r !! n ≫= fun b => heap r !! b).
Proof.
  intros Hok Ha e'. destruct (entries r !! n) as [b|] eqn:Eb; [|done]. cbn. destruct (Hok n b Eb) as (eb & Hb & _).
  rewrite lookup_insert_ne; [done|]. congruence.
Qed.

(** Taking and releasing a reference, or failing to take one. *)
Lemma get_release r d a res now : names_ok r -> heap r !! a = None ->
  match Registry.Get r d a res now with
  | (r1, Ok en) => forall n, held (Registry.release r1 en now) n = held r n
  | (r1, Err _) => forall n, held r1 n = held r n
  end.
Proof.
  intros Hok Ha. destruct (entries r !! d) as [b|] eqn:Eb.
  - unfold Registry.Get, Get_lookup. rewrite Eb. unfold Get_recheck. destruct (negb _); [done|].
    destruct (Hok d b Eb) as (e & He & Hne). rewrite He. destruct (err e); [done|]. destruct (reserved e) eqn:Er; [done|].
    intros n. unfold Registry.release, put, held. cbn [heap entries]. rewrite lookup_insert_eq. cbn. rewrite insert_insert_eq.
    destruct (decide (n = d)) as [->|Hn]; [|by rewrite (held_elsewhere r n b e Hok ltac:(congruence) He)].
    rewrite Eb. cbn. rewrite lookup_insert_eq, He. unfold busy_entry. cbn. rewrite Er. do 3 f_equal. lia.
  - destruct (backends r !! d) as [be|] eqn:Ebe; [|unfold Registry.Get, Get_lookup; by rewrite Eb, Ebe].
    rewrite (Get_new r d a res now be Eb Ebe). destruct res as [h0|m].
    + rewrite (release_one _ d a h0) by apply lookup_insert_eq. intros n. unfold held. cbn [heap entries]. rewrite insert_insert_eq.
      destruct (decide (n = d)) as [->|Hn].
      * rewrite lookup_insert_eq, Eb. cbn. by rewrite lookup_insert_eq.
      * rewrite lookup_insert_ne by done. by rewrite held_fresh.
    + intros n. unfold held. cbn [heap entries]. by rewrite held_fresh.
Qed.
Lemma reserve_release r d a : names_ok r -> heap r !! a = None -> forall r1 o, Registry.Reserve r d a = Ok (r1, o) ->
  forall n, held (Reserve_release r1 d) n = held r n.
Proof.
  intros Hok Ha r1 o. unfold Registry.Reserve. destruct (backends r !! d); [|done].
  unfold Registry.detachIdleLocked. destruct (entries r !! d ≫= _) as [e|] eqn:Ee; cbn.
  - destruct (busy_entry e) eqn:Eb; [done|]. cbn. intros [= <- <-] n. unfold held. cbn.
    destruct (decide (n = d)) as [->|Hn]; [by rewrite lookup_delete_eq, Ee|].
    rewrite lookup_delete_ne, lookup_insert_ne, lookup_delete_ne by done. by rewrite held_fresh.
  - intros [= <- <-] n. unfold held. cbn. destruct (decide (n = d)) as [->|Hn]; [by rewrite lookup_delete_eq, Ee|].
    rewrite lookup_delete_ne, lookup_insert_ne by done. by rewrite held_fresh.
Qed.

Lemma pin_held x w r op d : names_ok (reg w) -> heap (reg w) !! x_entry x = None ->
  match pin x w r op d with
  | (w1, Ok en) => forall n, held (Registry.release (reg w1) en (x_now x)) n = held (reg w) n
  | (w1, Err _) => same_held w w1
  end.
Proof.
  intros Hok Hf. pose proof (get_release (reg w) d (x_entry x) (x_open x) (x_now x) Hok Hf) as H. unfold pin.
  by destruct (Registry.Get _ _ _ _ _) as [r1 [en|e]].
Qed.
Lemma reserve_held x w r : names_ok (reg w) -> heap (reg w) !! x_entry x = None -> forall w0 op d, reg w0 = reg w ->
  match reserve x w0 r op d with
  | (w1, None) => forall n, held (Reserve_release (reg w1) d) n = held (reg w) n
  | (w1, Some _) => same_held w w1
  end.
Proof.
  intros Hok Hf w0 op d E0. pose proof (reserve_release (reg w) d (x_entry x) Hok Hf) as H. unfold reserve. rewrite E0.
  destruct (Registry.Reserve _ _ _) as [[r1 o]|[]]; try (intros n; exact (f_equal (fun g => held g n) E0)).
  intros n. by eapply H.
Qed.

Ltac releases Hp Hr :=
  repeat match goal with
  | |- same_held ?w (?w, _).1 => done
  | |- context [pin ?x ?w ?r ?op ?d] => specialize (Hp op d); destruct (pin x w r op d) as [? []]
  | |- context [reserve ?x ?w ?r ?op ?d] => specialize (Hr w op d eq_refl); destruct (reserve x w r op d) as [? []]
  | |- same_held _ (if ?b then _ else _).1 => destruct b
  | |- same_held _ (match ?e with _ => _ end).1 => destruct e
  end; cbn [fst]; try first [exact Hp | exact Hr | done].

(** (resources) Maintenance and restore give back every hold they take on a handle: on
    each path out of the handler, the failing ones included, a database counts as in use
    afterwards exactly if it did before, so no reference pins a handle for good and no
    reservation locks a database out. *)
Theorem maintenance_releases_its_holds x w r : names_ok (reg w) -> heap (reg w) !! x_entry x = None ->
  let '(w', _) := if String.eqb (sub_path r) "/restore" then handleRestore x w r else handleMaintenance x w r in
  forall n, held (reg w') n = held (reg w) n.
Proof.
  intros Hok Hf. enough (same_held w (if String.eqb (sub_path r) "/restore" then handleRestore x w r else handleMaintenance x w r).1) as H
    by (by destruct (if String.eqb _ _ then _ else _)).
  pose proof (fun op d => pin_held x w r op d Hok Hf) as Hp.
  pose proof (reserve_held x w r Hok Hf) as Hr.
  destruct (String.eqb _ _).
  { unfold handleRestore. do 7 (case_match; try done). cbv zeta. do 3 (case_match; try done). by releases Hp Hr. }
  unfold handleMaintenance. destruct (negb _); [done|]. destruct (dec_maint dec (r_body r)) as [q|]; [|done].
  destruct (negb _); [done|]. destruct (bool_decide _); [done|]. unfold maintenance_op.
  destruct (String.eqb _ _); [unfold offlineCompact; releases Hp Hr|].
  destruct (_ || _); [unfold onlineReclaim; releases Hp Hr|].
  destruct (_ || _); [unfold logicalReclaim; releases Hp Hr|].
  destruct (String.eqb _ _); [unfold checkpoint; releases Hp Hr|].
  destruct (String.eqb _ _); [unfold snapshot; releases Hp Hr|].
  destruct (String.eqb _ _); [unfold snapshotEncrypted; releases Hp Hr|].
  destruct (_ || _); [unfold vaultKeyMgmt; releases Hp Hr|done].
Qed.
End Admin.

(** ** A concrete control plane *)

#[local] Instance demo_enrollments : Enrollments unit unit :=
  {| enr_list _ _ _ := Some []; enr_delete _ e p q _ := (e, p, q, Ok true); enr_mint _ e p := (e, p, Ok ("c"%string, 9));
     enr_delete_log _ _ _ _ _ := eq_refl; enr_mint_log _ _ _ := eq_refl |}.
Definition demo_decoders : decoders :=
  Decoders (fun _ => None) (fun s => Some s) (fun _ => None) (fun s => Some s)
    (fun s => Some (MReq "a" s 0 "snap.db" "")).
Definition demo_handler : handler := Handler {["root"%string]} "/data" 0 0.
Definition demo_answer : answer :=
  Answer 5000000000 true (demo_ok 9) true 9 (Ok 9%nat) (Ok 0) (Ok []) true (Ok (3, 3)) (Ok "image"%string) None true ""
    (Some "/data/.restore-1.tmp"%string) true (Ok "ok"%string) true "".
Definition demo_admin : aworld (E := unit) := AWorld demo_after (Authz.NewPolicy false) None None ∅ [].
Definition demo_req (who path body : string) : areq :=
  AReq "POST" path "a" (Some (MkPrincipal who "bearer" None)) body.
Definition demo_image : string := sqliteMagic +:+ "pages".
Definition demo_call (r : areq) : aworld (E := unit) * resp :=
  ServeHTTP no_pragmas (fun s => s) demo_encode demo_resolver demo_decoders demo_handler tt demo_answer demo_admin r.

Lemma demo_names_ok : names_ok (reg demo_admin).
Proof.
  assert (map_Forall (fun n a => Is_true (match heap (reg demo_admin) !! a with Some e => String.eqb (name e) n | None => false end)) (entries (reg demo_admin))) as H
    by (apply (bool_decide_unpack _); vm_compute; exact I).
  intros n a Ha. specialize (H n a Ha). cbv beta in H. destruct (heap (reg demo_admin) !! a) as [e|]; [|done]. exists e.
  split; [done|]. by apply String.eqb_eq, Is_true_true.
Qed.

Lemma control_plane_is_gated_witness :
  kept demo_admin (demo_call (demo_req "eve" "/_admin/detach" "a")).1 /\ (demo_call (demo_req "eve" "/_admin/detach" "a")).2 = writeErr 403 "server-admin capability required".
Proof.
  split; [|vm_compute; reflexivity].
  pose proof (control_plane_is_gated no_pragmas (fun s => s) demo_encode demo_resolver demo_decoders demo_handler tt demo_answer demo_admin
    (demo_req "eve" "/_admin/detach" "a") demo_names_ok ltac:(vm_compute; reflexivity)) as H. cbv zeta in H. unfold demo_call.
  destruct (ServeHTTP _ _ _ _ _ _ _ _ _ _) as [w' p]. destruct H as [[H|(q & H & _)] _]; [exact H|]. vm_compute in H. discriminate H.
Defined.

Lemma control_plane_is_audited_witness :
  denied demo_answer (demo_req "eve" "/_admin/detach" "a") demo_admin (demo_call (demo_req "eve" "/_admin/detach" "a")).1.
Proof.
  pose proof (control_plane_is_audited no_pragmas (fun s => s) demo_encode demo_resolver demo_decoders demo_handler tt demo_answer demo_admin
    (demo_req "eve" "/_admin/detach" "a") eq_refl ltac:(eexists; vm_compute; reflexivity) demo_names_ok) as H. unfold demo_call.
  assert (st (demo_call (demo_req "eve" "/_admin/detach" "a")).2 = 403) as Hst by (vm_compute; reflexivity). unfold demo_call in Hst.
  destruct (ServeHTTP _ _ _ _ _ _ _ _ _ _) as [w' p]. destruct H as [_ H]. apply H; [exact Hst|]. vm_compute. discriminate.
Defined.

Lemma maintenance_releases_its_holds_witness :
  held (reg (demo_call (demo_req "root" "/_admin/maintenance" "snapshot")).1) "a" = held (reg demo_admin) "a" /\
  st (demo_call (demo_req "root" "/_admin/maintenance" "snapshot")).2 = 200.
Proof.
  split; [|vm_compute; reflexivity].
  pose proof (maintenance_releases_its_holds demo_decoders demo_handler demo_answer demo_admin
    (demo_req "root" "/_admin/maintenance" "snapshot") demo_names_ok ltac:(vm_compute; reflexivity)) as H.
  change (String.eqb (sub_path (demo_req "root" "/_admin/maintenance" "snapshot")) "/restore") with false in H. cbv iota in H.
  change (demo_call (demo_req "root" "/_admin/maintenance" "snapshot")) with
    (handleMaintenance demo_decoders demo_handler demo_answer demo_admin (demo_req "root" "/_admin/maintenance" "snapshot")).
  destruct (handleMaintenance _ _ _ _ _) as [w' p]. apply H.
Defined.

Lemma restore_is_a_swap_witness :
  let '(w', p) := handleRestore demo_handler demo_answer demo_admin (demo_req "root" "/_admin/restore" demo_image) in
  p = AResp 200 (ABytes "restored" "a" 21) /\ fs w' !! "/data/a.db" = Some demo_image /\
  absent w' "/data/.restore-1.tmp" /\ absent w' "/data/a.db-wal".
Proof.
  pose proof (restore_is_a_swap demo_handler demo_answer demo_admin (demo_req "root" "/_admin/restore" demo_image) "/data/.restore-1.tmp"
    (Registry.Backend_ "file" false (Some "/data/a.db"%string)) "/data/a.db"
    ltac:(reflexivity) ltac:(vm_compute; reflexivity) ltac:(reflexivity)) as H.
  assert (snd (handleRestore demo_handler demo_answer demo_admin (demo_req "root" "/_admin/restore" demo_image)) = AResp 200 (ABytes "restored" "a" 21)) as Hp
    by (vm_compute; reflexivity).
  destruct (handleRestore _ _ _ _) as [w' p]. cbn in Hp. subst p. cbv zeta in H.
  destruct H as [H1 H2].
  - intros f Hf. unfold own in Hf. rewrite !elem_of_cons in Hf. unfold absent.
    destruct Hf as [->|[->|[->|[]%not_elem_of_nil]]]; (split; [split; [apply (bool_decide_unpack _); vm_compute; exact I|reflexivity]|];
      apply (bool_decide_unpack _); vm_compute; exact I).
  - change (st (AResp 200 (ABytes "restored" "a" 21)) =? 200) with true in H2. cbv iota in H2.
    destruct H2 as (_ & _ & _ & _ & _ & _ & H2 & _ & H3 & _). split; [reflexivity|]. split; [exact H2|]. split; [|exact H3].
    apply H1. unfold own. left.
Defined.
