(* ===== verification/Transport.v ===== *)
(** * transport: listeners, TLS settings, CORS

    [src/transport/serve.go], [tls.go], [qip.go] and [cors.go]: how each configured
    listener becomes a server, which TLS settings it gets, and what wraps the shared
    handler.  What the operating system, the certificate files and qip.sh answer is a record
    of outcomes ([net]); a handler is a function of the request, the response headers set
    so far and the server's state. *)
From S2P Require Import Prelude GoStd Config Auth.
#[local] Open Scope Z_scope.

(** ** Handlers and response headers *)

(** [http.Header]; every key the code uses is already canonical. *)
Notation headers := (gmap string (list string)).
Definition hset (k v : string) (h : headers) : headers := <[k := [v]]> h.
Definition hadd (k v : string) (h : headers) : headers := <[k := default [] (h !! k) ++ [v]]> h.

Section Handlers.
Context {W B : Type}.
Record response := Response { code : Z; header : headers; content : option B }.
Definition handler : Type := request -> headers -> W -> W * response.

(** ** Cross-origin requests *)

Definition corsBaseHeaders : list string :=
  ["Authorization"; "Content-Type"; HeaderKeyringKey; HeaderKeyringChallenge; HeaderKeyringSignature; "X-Libsql-Client-Version"]%string.
Definition corsAllowMethods : string := "GET, POST, PUT, DELETE, OPTIONS".
Definition corsBaseExpose : list string := ["X-Session-Token"; "X-Session-Expires"]%string.

Definition allowAll (c : cors) : bool := mem_string "*" (c_origins c).
Definition approved (c : cors) (origin : string) : bool :=
  negb (String.eqb origin "") && (allowAll c || mem_string origin (c_origins c)).
Definition is_preflight (r : request) : bool :=
  String.eqb (r_method r) "OPTIONS" && negb (String.eqb (r_header r "Access-Control-Request-Method") "").

Definition withCORS (c : cors) (next : handler) : handler := fun r h w =>
  let allowHeaders := join ", " (corsBaseHeaders ++ c_allow_headers c) in
  let exposeHeaders := join ", " (corsBaseExpose ++ c_expose_headers c) in
  let maxAge := format_int (c_max_age c ÷ second) in
  let origin := r_header r "Origin" in
  if negb (approved c origin) then next r (if allowAll c then h else hadd "Vary" "Origin" h) w
  else
    let h1 := if allowAll c then hset "Access-Control-Allow-Origin" "*" h
              else hadd "Vary" "Origin" (hset "Access-Control-Allow-Origin" origin h) in
    if is_preflight r then
      (w, Response 204 (hset "Access-Control-Max-Age" maxAge (hset "Access-Control-Allow-Headers" allowHeaders
                          (hset "Access-Control-Allow-Methods" corsAllowMethods h1))) None)
    else next r (if negb (String.eqb exposeHeaders "") then hset "Access-Control-Expose-Headers" exposeHeaders h1 else h1) w.

(** ** Advertising HTTP/3 *)

Definition dquote : string := chr 34.
Definition altSvcHeader (ls : list listener) : string :=
  join ", " (omap (fun l =>
    if negb (String.eqb (l_transport l) "h3") || negb (l_advertise l) then None
    else match SplitHostPort (l_address l) with
         | Some (_, port) => if String.eqb port "" then None else Some ("h3=" +:+ dquote +:+ ":" +:+ port +:+ dquote +:+ "; ma=2592000")
         | None => None
         end) ls).
Definition withAltSvc (next : handler) (value : string) : handler := fun r h w => next r (hadd "Alt-Svc" value h) w.

(** What a listener serves: authentication, then CORS around it, then the advertisement. *)
Definition listener_handler (cfg : config) (wrap : option (listener -> handler -> handler)) (lc : listener) (h : handler) : handler :=
  let h1 := match wrap with Some f => f lc h | None => h end in
  let h2 := if c_enabled (c_cors cfg) then withCORS (c_cors cfg) h1 else h1 in
  if mem_string (l_transport lc) ["h1"; "h2"; "h2c"]%string then
    let av := altSvcHeader (c_listeners cfg) in
    if String.eqb av "" then h2 else withAltSvc h2 av
  else h2.

(** ** TLS settings *)

Inductive cert_source : Type := CertFiles (cert key : string) | CertSelfSigned | CertQIP (url : string).
Inductive client_auth : Type := NoClientCert | VerifyClientCertIfGiven | RequireAndVerifyClientCert.
Record tls_config := TLS { MinVersion : Z; Source : cert_source; ClientCAs : option string; ClientAuth : client_auth; NextProtos : list string }.
Definition VersionTLS12 : Z := 771.
Definition VersionTLS13 : Z := 772.

(** What the outside answers at start-up. *)
Record net := Net {
  load_pair : string -> string -> bool;       (* tls.LoadX509KeyPair *)
  self_signed : bool;                         (* minting a development certificate *)
  fetch : string -> bool;                     (* downloading a usable PEM from qip.sh *)
  read_ca : string -> option bool;            (* a CA bundle: unreadable, or whether it holds a certificate *)
  listen : listener -> bool;                  (* binding the listener's address *)
  chmod : listener -> bool
}.

Record server := Server {
  sv_listener : listener; sv_sock : nat; sv_handler : handler; sv_tls : option tls_config;
  sv_read : Z; sv_write : Z; sv_header : Z; sv_idle : Z; sv_h2c : bool
}.
(** The started servers, the sockets the process has bound, and the qip.sh certificates with
    the renewers running for them. *)
Record set_ := Set_ {
  s_http : list server; s_h3 : list server; s_cancelled : bool;
  s_qip : gmap string string; s_renewers : list (string * Z);
  s_bound : gset nat; s_next : nat
}.
Definition empty_set_ : set_ := Set_ [] [] false ∅ [] ∅ 0.

Definition tlsMinVersion (s : string) : result string Z :=
  if String.eqb s "" || String.eqb s "1.2" then Ok VersionTLS12
  else if String.eqb s "1.3" then Ok VersionTLS13
  else Err "invalid tls min_version"%string.

Definition clientCAPool (n : net) (path : string) : result string string :=
  match read_ca n path with
  | None => Err "tls client_ca"%string
  | Some false => Err "tls client_ca: no certificates found"%string
  | Some true => Ok path
  end.

Definition qipDefaultZone : string := "i.qip.sh".
Definition qipDefaultRefresh : Z := 12 * 3600 * second.
Definition newQIPCert (zone : string) : string :=
  "https://qip.sh/cert/" +:+ (if String.eqb zone "" then qipDefaultZone else zone) +:+ ".pem".

Definition qipCertFor (n : net) (s : set_) (p : tlsProfile) : set_ * result string string :=
  let zone := if String.eqb (t_subdomain p) "" then qipDefaultZone else t_subdomain p in
  match s_qip s !! zone with
  | Some q => (s, Ok q)
  | None =>
      let q := newQIPCert zone in
      if negb (fetch n q) then (s, Err "tls qip: fetch"%string) else
      let interval := if t_refresh p <=? 0 then qipDefaultRefresh else t_refresh p in
      (Set_ (s_http s) (s_h3 s) (s_cancelled s) (<[zone := q]> (s_qip s)) (s_renewers s ++ [(zone, interval)]) (s_bound s) (s_next s), Ok q)
  end.

(** A [client_ca] on the profile turns client certificates on. *)
Definition with_client_ca (n : net) (p : tlsProfile) (min : Z) (requireClient : bool) (src : cert_source) : result string tls_config :=
  if String.eqb (t_client_ca p) "" then Ok (TLS min src None NoClientCert [])
  else let* pool := clientCAPool n (t_client_ca p) in
       Ok (TLS min src (Some pool) (if requireClient then RequireAndVerifyClientCert else VerifyClientCertIfGiven) []).

Definition buildTLS (n : net) (s : set_) (p : tlsProfile) (forH3 requireClient : bool) : set_ * result string tls_config :=
  match tlsMinVersion (t_min p) with
  | Err m => (s, Err m)
  | Ok min0 =>
      let min := if forH3 then VersionTLS13 else min0 in
      let '(s1, src) :=
        if String.eqb (t_mode p) "files" then
          (s, if load_pair n (t_cert p) (t_key p) then Ok (CertFiles (t_cert p) (t_key p)) else Err "tls files"%string)
        else if String.eqb (t_mode p) "self_signed" then (s, if self_signed n then Ok CertSelfSigned else Err "self-signed"%string)
        else if String.eqb (t_mode p) "qip" then let '(s1, q) := qipCertFor n s p in (s1, match q with Ok u => Ok (CertQIP u) | Err m => Err m end)
        else if String.eqb (t_mode p) "" then (s, Err "tls mode is required"%string)
        else (s, Err "unknown tls mode"%string) in
      (s1, rbind src (with_client_ca n p min requireClient))
  end.

Definition onlyAuthMethod (lc : listener) (m : string) : bool :=
  match l_auth lc with [x] => String.eqb x m | _ => false end.

Definition tlsFor (n : net) (s : set_) (cfg : config) (lc : listener) : set_ * result string tls_config :=
  if String.eqb (l_tls lc) "" then (s, Err "requires a tls profile"%string) else
  match c_tls cfg !! l_tls lc with
  | None => (s, Err "unknown tls profile"%string)
  | Some p => buildTLS n s p (String.eqb (l_transport lc) "h3") (onlyAuthMethod lc "mtls")
  end.
Definition with_protos (t : tls_config) (ps : list string) : tls_config :=
  TLS (MinVersion t) (Source t) (ClientCAs t) (ClientAuth t) ps.

(** ** Starting and stopping *)

Definition readHeaderTimeout : Z := 10 * second.
Definition readTimeout : Z := 30 * second.
Definition writeTimeout : Z := 60 * second.
Definition idleTimeout : Z := 120 * second.

(** [h1Server] and [h2Server]. *)
Definition h1Server (lc : listener) (k : nat) (h : handler) : server :=
  Server lc k h None readTimeout writeTimeout readHeaderTimeout idleTimeout false.
Definition h2Server (lc : listener) (k : nat) (h : handler) (t : option tls_config) (h2c : bool) : server :=
  Server lc k h t 0 0 readHeaderTimeout idleTimeout h2c.

(** [strconv.ParseUint(s, 8, 32)]. *)
Fixpoint octal_val (acc : Z) (s : string) : option Z :=
  match s with
  | EmptyString => Some acc
  | String c r => match digit c with Some d => if d <? 8 then octal_val (acc * 8 + d) r else None | None => None end
  end.
Definition parse_octal32 (s : string) : option Z :=
  if String.eqb s "" then None
  else match octal_val 0 s with Some z => if z <? 2 ^ 32 then Some z else None | None => None end.

(** Binding a socket, and closing it again. *)
Definition bind (s : set_) : set_ * nat :=
  (Set_ (s_http s) (s_h3 s) (s_cancelled s) (s_qip s) (s_renewers s) ({[s_next s]} ∪ s_bound s) (S (s_next s)), s_next s).
Definition close_sock (s : set_) (k : nat) : set_ :=
  Set_ (s_http s) (s_h3 s) (s_cancelled s) (s_qip s) (s_renewers s) (s_bound s ∖ {[k]}) (s_next s).
Definition serveHTTP (s : set_) (sv : server) : set_ :=
  Set_ (s_http s ++ [sv]) (s_h3 s) (s_cancelled s) (s_qip s) (s_renewers s) (s_bound s) (s_next s).
Definition serveH3 (s : set_) (sv : server) : set_ :=
  Set_ (s_http s) (s_h3 s ++ [sv]) (s_cancelled s) (s_qip s) (s_renewers s) (s_bound s) (s_next s).

Definition listening (n : net) (s : set_) (lc : listener) (k : set_ -> nat -> set_ * result string unit) : set_ * result string unit :=
  if negb (listen n lc) then (s, Err "listen"%string) else let '(s1, id) := bind s in k s1 id.

Definition start (n : net) (s : set_) (cfg : config) (wrap : option (listener -> handler -> handler)) (h : handler) (lc : listener)
    : set_ * result string unit :=
  let hd := listener_handler cfg wrap lc h in
  let t := l_transport lc in
  if String.eqb t "unix" then listening n s lc (fun s k =>
    let ok := (serveHTTP s (h1Server lc k hd), Ok tt) in
    if String.eqb (l_socket_mode lc) "" then ok
    else match parse_octal32 (l_socket_mode lc) with
         | None => (close_sock s k, Err "invalid socket_mode"%string)
         | Some _ => if chmod n lc then ok else (close_sock s k, Err "chmod socket"%string)
         end)
  else if String.eqb t "h1" then listening n s lc (fun s k => (serveHTTP s (h1Server lc k hd), Ok tt))
  else if String.eqb t "h2c" then listening n s lc (fun s k => (serveHTTP s (h2Server lc k hd None true), Ok tt))
  else if String.eqb t "h2" then
    match tlsFor n s cfg lc with
    | (s1, Err m) => (s1, Err m)
    | (s1, Ok tc) => listening n s1 lc (fun s k => (serveHTTP s (h2Server lc k hd (Some (with_protos tc ["h2"; "http/1.1"]%string)) false), Ok tt))
    end
  else if String.eqb t "h3" then
    match tlsFor n s cfg lc with
    | (s1, Err m) => (s1, Err m)
    | (s1, Ok tc) => listening n s1 lc (fun s k => (serveH3 s (Server lc k hd (Some (with_protos tc ["h3"]%string)) 0 0 0 0 false), Ok tt))
    end
  else (s, Ok tt).

(** HTTP servers close their listeners, and each UDP socket is closed after its server. *)
Definition Shutdown (s : set_) : set_ :=
  Set_ (s_http s) (s_h3 s) true (s_qip s) (s_renewers s)
    (s_bound s ∖ (list_to_set (map sv_sock (s_http s)) ∪ list_to_set (map sv_sock (s_h3 s)))) (s_next s).

Fixpoint start_all (n : net) (s : set_) (cfg : config) (wrap : option (listener -> handler -> handler)) (h : handler) (ls : list listener)
    : set_ * result string unit :=
  match ls with
  | [] => (s, Ok tt)
  | lc :: rest => match start n s cfg wrap h lc with
                  | (s1, Err m) => (Shutdown s1, Err m)
                  | (s1, Ok _) => start_all n s1 cfg wrap h rest
                  end
  end.
Definition Serve (n : net) (cfg : config) (wrap : option (listener -> handler -> handler)) (h : handler) : set_ * result string unit :=
  start_all n empty_set_ cfg wrap h (c_listeners cfg).
Definition Count (s : set_) : nat := length (s_http s) + length (s_h3 s).

(** The secret-bearing methods a cleartext listener is warned about. *)
Definition warnCleartextAuth (lc : listener) : list string :=
  if negb (mem_string (l_transport lc) ["h1"; "h2c"]%string) then []
  else List.filter (fun m => mem_string m ["bearer"; "password"; "session"; "keyring"]%string) (l_auth lc).

(** ** Cross-origin requests and authentication *)

Lemma hset_other k k' v h : k <> k' -> hset k v h !! k' = h !! k'.
Proof. intros. unfold hset. by rewrite lookup_insert_ne. Qed.
Lemma hadd_other k k' v h : k <> k' -> hadd k v h !! k' = h !! k'.
Proof. intros. unfold hadd. by rewrite lookup_insert_ne. Qed.
Lemma hset_same k v h : hset k v h !! k = Some [v].
Proof. apply lookup_insert_eq. Qed.
Lemma hadd_in k v h : v ∈ default [] (hadd k v h !! k).
Proof. unfold hadd. rewrite lookup_insert_eq. apply elem_of_app. right. by apply list_elem_of_singleton. Qed.

Lemma approved_spec c o : approved c o = true <-> o <> ""%string /\ ("*"%string ∈ c_origins c \/ o ∈ c_origins c).
Proof.
  unfold approved, allowAll. rewrite andb_true_iff, negb_true_iff, orb_true_iff, String.eqb_neq.
  by rewrite !mem_string_elem.
Qed.

Definition cors_keys : list string := ["Vary"; "Access-Control-Allow-Origin"; "Access-Control-Expose-Headers"]%string.

(** The header map [withCORS] hands on. *)
Definition cors_header (c : cors) (origin : string) (h : headers) : headers :=
  if negb (approved c origin) then (if allowAll c then h else hadd "Vary" "Origin" h)
  else
    let h1 := if allowAll c then hset "Access-Control-Allow-Origin" "*" h
              else hadd "Vary" "Origin" (hset "Access-Control-Allow-Origin" origin h) in
    if negb (String.eqb (join ", " (corsBaseExpose ++ c_expose_headers c)) "")
    then hset "Access-Control-Expose-Headers" (join ", " (corsBaseExpose ++ c_expose_headers c)) h1 else h1.
Lemma cors_header_spec c o h :
  (forall k, k ∉ cors_keys -> cors_header c o h !! k = h !! k) /\
  cors_header c o h !! "Access-Control-Allow-Origin"%string =
    (if approved c o then Some [if allowAll c then "*"%string else o] else h !! "Access-Control-Allow-Origin"%string) /\
  (allowAll c = false -> "Origin"%string ∈ default [] (cors_header c o h !! "Vary"%string)).
Proof.
  unfold cors_header. set (x := join _ _). assert (Hk : forall k, k ∉ cors_keys ->
    k <> "Vary"%string /\ k <> "Access-Control-Allow-Origin"%string /\ k <> "Access-Control-Expose-Headers"%string).
  { intros k Hk. unfold cors_keys in Hk. rewrite !not_elem_of_cons in Hk. naive_solver. }
  destruct (approved c o), (allowAll c), (String.eqb x ""); cbn [negb]; (split; [intros k (? & ? & ?)%Hk|split]);
    rewrite ?hset_other, ?hadd_other, ?hset_other, ?hset_same by done; try done; intros _; apply hadd_in.
Qed.

(** A listener's answer is a preflight's, or its authenticated handler's. *)
Lemma listener_cases cfg f lc hd r h w :
  (exists resp, listener_handler cfg (Some f) lc hd r h w = (w, resp) /\ code resp = 204 /\ content resp = None /\
     c_enabled (c_cors cfg) = true /\ approved (c_cors cfg) (r_header r "Origin") = true /\ is_preflight r = true) \/
  exists h', listener_handler cfg (Some f) lc hd r h w = f lc hd r h' w.
Proof.
  assert (H : forall h1, (exists resp, (if c_enabled (c_cors cfg) then withCORS (c_cors cfg) (f lc hd) else f lc hd) r h1 w = (w, resp) /\ code resp = 204 /\
      content resp = None /\ c_enabled (c_cors cfg) = true /\ approved (c_cors cfg) (r_header r "Origin") = true /\ is_preflight r = true) \/
    exists h', (if c_enabled (c_cors cfg) then withCORS (c_cors cfg) (f lc hd) else f lc hd) r h1 w = f lc hd r h' w).
  { intros h1. destruct (c_enabled (c_cors cfg)); [|right; by eexists]. unfold withCORS.
    destruct (approved (c_cors cfg) _) eqn:Ea; cbn [negb]; [|right; by eexists]. destruct (is_preflight r) eqn:Ep; [left|right; by eexists].
    eexists. split; [done|]. done. }
  unfold listener_handler. destruct (mem_string _ _); [|apply H]. destruct (String.eqb _ _); [apply H|]. unfold withAltSvc. apply H.
Qed.

(** C31: (cross-origin) On every listener of a configuration with CORS on: a preflight from an
    approved origin is answered at once with the approval headers, whatever authentication
    is wrapped around the handler, and leaves the server's state alone; every other
    request, and a preflight from any other origin, gets exactly what the listener's
    authenticated handler makes of it, with no header touched but the three CORS ones and
    the HTTP/3 advertisement.  An origin is approved only when it is listed or the list
    holds the wildcard, which a validated configuration allows only with authentication
    configured, and unless the wildcard is there the response is marked as varying by
    origin. *)
Theorem cors_is_outside_auth cfg wrap lc hd r h w : c_enabled (c_cors cfg) = true -> sound_config cfg ->
  let c := c_cors cfg in let origin := r_header r "Origin"%string in
  let av := if mem_string (l_transport lc) ["h1"; "h2"; "h2c"]%string then altSvcHeader (c_listeners cfg) else ""%string in
  let base := if String.eqb av "" then h else hadd "Alt-Svc" av h in
  let inner := match wrap with Some f => f lc hd | None => hd end in
  (approved c origin = true -> origin <> ""%string /\ (origin ∈ c_origins c \/ "*"%string ∈ c_origins c /\ AuthConfigured cfg = true)) /\
  (approved c origin = true -> is_preflight r = true ->
     exists resp, listener_handler cfg wrap lc hd r h w = (w, resp) /\ code resp = 204 /\ content resp = None /\
       header resp !! "Access-Control-Allow-Origin"%string = Some [if allowAll c then "*"%string else origin] /\
       header resp !! "Access-Control-Allow-Methods"%string = Some [corsAllowMethods]) /\
  (approved c origin && is_preflight r = false ->
     exists h', listener_handler cfg wrap lc hd r h w = inner r h' w /\
       (forall k, k ∉ cors_keys -> h' !! k = base !! k) /\
       h' !! "Access-Control-Allow-Origin"%string =
         (if approved c origin then Some [if allowAll c then "*"%string else origin] else base !! "Access-Control-Allow-Origin"%string) /\
       (allowAll c = false -> "Origin"%string ∈ default [] (h' !! "Vary"%string))).
Proof.
  intros Hen Hs c origin av base inner.
  assert (Hh : listener_handler cfg wrap lc hd r h w = withCORS c inner r base w).
  { unfold listener_handler. rewrite Hen. fold c inner. subst base av. destruct (mem_string _ _); [|by rewrite String.eqb_refl].
    by destruct (String.eqb (altSvcHeader _) ""). }
  rewrite Hh. unfold withCORS. fold origin. split; [|split].
  - intros [Ho Ha]%approved_spec. split; [done|]. destruct Ha as [Ha|]; [right; split; [done|]|by left].
    by apply (so_cors _ Hs).
  - intros -> ->. cbn [negb]. eexists. split; [done|]. cbn [code content header]. do 2 (split; [done|]).
    rewrite !hset_other by done. split; [|by rewrite hset_same].
    destruct (allowAll c); [by rewrite hset_same|by rewrite hadd_other, hset_same by done].
  - intros Hp. exists (cors_header c origin base). split; [|apply cors_header_spec]. unfold cors_header.
    destruct (approved c origin); cbn [negb andb] in *; [by rewrite Hp|done].
Qed.

(** ** Starting all listeners or none *)

(** What a server's TLS settings promise. *)
Definition tls_ok (cfg : config) (sv : server) : Prop :=
  let lc := sv_listener sv in
  if mem_string (l_transport lc) ["h2"; "h3"]%string then
    exists t p, sv_tls sv = Some t /\ c_tls cfg !! l_tls lc = Some p /\ VersionTLS12 <= MinVersion t /\
      (l_transport lc = "h3"%string \/ t_min p = "1.3"%string -> MinVersion t = VersionTLS13) /\
      (t_client_ca p <> ""%string -> ClientCAs t = Some (t_client_ca p) /\
         ClientAuth t = if onlyAuthMethod lc "mtls" then RequireAndVerifyClientCert else VerifyClientCertIfGiven)
  else sv_tls sv = None.
Definition known (lc : listener) : bool := mem_string (l_transport lc) transports.

Record set_inv (s : set_) : Prop := {
  si_bound : s_bound s = list_to_set (map sv_sock (s_http s ++ s_h3 s));
  si_fresh : Forall (fun sv => (sv_sock sv < s_next s)%nat) (s_http s ++ s_h3 s);
  si_socks : NoDup (map sv_sock (s_http s ++ s_h3 s));
  si_live : s_cancelled s = false;
  si_qip : NoDup (s_renewers s).*1 /\ forall z, is_Some (s_qip s !! z) <-> z ∈ (s_renewers s).*1
}.

Lemma tlsMinVersion_spec m v : tlsMinVersion m = Ok v -> VersionTLS12 <= v /\ (m = "1.3"%string -> v = VersionTLS13).
Proof.
  unfold tlsMinVersion. destruct (String.eqb_spec m "1.3") as [->|Hm].
  - by intros [= <-].
  - destruct (String.eqb m "" || String.eqb m "1.2"); [|done]. by intros [= <-].
Qed.

(** Only the certificates and their renewers can differ. *)
Record same_servers (s s' : set_) : Prop := {
  ss_http : s_http s' = s_http s; ss_h3 : s_h3 s' = s_h3 s; ss_c : s_cancelled s' = s_cancelled s;
  ss_b : s_bound s' = s_bound s; ss_n : s_next s' = s_next s
}.
Lemma same_servers_refl s : same_servers s s.
Proof. done. Qed.

Lemma qipCertFor_inv n s p : set_inv s -> let '(s1, r) := qipCertFor n s p in same_servers s s1 /\ set_inv s1.
Proof.
  intros H. unfold qipCertFor. set (zone := if String.eqb _ _ then _ else _).
  destruct (s_qip s !! zone) as [q|] eqn:E; [done|]. destruct (fetch n _); cbn [negb]; [|done]. split; [done|].
  destruct H as [H1 H2 H3 H4 [H5 H6]]. constructor; try done. cbn [s_renewers s_qip]. rewrite fmap_app. split.
  - apply NoDup_app. split; [done|]. split; [|by apply NoDup_singleton]. intros z Hz Hz2. cbn in Hz2. apply list_elem_of_singleton in Hz2. apply H6 in Hz. rewrite Hz2, E in Hz. by destruct Hz.
  - intros z. rewrite elem_of_app. cbn. rewrite list_elem_of_singleton, <- H6, lookup_insert_is_Some. destruct (decide (zone = z)); naive_solver.
Qed.

(** What a profile's settings promise on a TLS listener. *)
Definition profile_ok (lc : listener) (p : tlsProfile) (t : tls_config) : Prop :=
  VersionTLS12 <= MinVersion t /\ (l_transport lc = "h3"%string \/ t_min p = "1.3"%string -> MinVersion t = VersionTLS13) /\
  (t_client_ca p <> ""%string -> ClientCAs t = Some (t_client_ca p) /\
     ClientAuth t = if onlyAuthMethod lc "mtls" then RequireAndVerifyClientCert else VerifyClientCertIfGiven).
Lemma with_client_ca_ok n lc p v src t : tlsMinVersion (t_min p) = Ok v ->
  with_client_ca n p (if String.eqb (l_transport lc) "h3" then VersionTLS13 else v) (onlyAuthMethod lc "mtls") src = Ok t -> profile_ok lc p t.
Proof.
  intros [Hv1 Hv2]%tlsMinVersion_spec. set (min := if String.eqb _ _ then _ else _).
  assert (VersionTLS12 <= min /\ (l_transport lc = "h3"%string \/ t_min p = "1.3"%string -> min = VersionTLS13)) as [Hm1 Hm2].
  { subst min. destruct (String.eqb_spec (l_transport lc) "h3") as [|Hn]; [done|]. split; [done|]. intros [?|?]; [done|by apply Hv2]. }
  unfold with_client_ca, clientCAPool, profile_ok. destruct (String.eqb_spec (t_client_ca p) "") as [Hca|Hca]; [by intros [= <-]|].
  destruct (read_ca n (t_client_ca p)) as [[]|]; [|done|done]. by intros [= <-].
Qed.

Lemma tlsFor_spec n s cfg lc : set_inv s -> let '(s1, r) := tlsFor n s cfg lc in
  same_servers s s1 /\ set_inv s1 /\ forall t, r = Ok t -> exists p, c_tls cfg !! l_tls lc = Some p /\ profile_ok lc p t.
Proof.
  intros H. unfold tlsFor. destruct (String.eqb (l_tls lc) ""); [done|]. destruct (c_tls cfg !! l_tls lc) as [p|] eqn:Hp; [|done].
  unfold buildTLS. destruct (tlsMinVersion (t_min p)) as [v|m] eqn:Hv; [|done].
  set (src := if String.eqb (t_mode p) "files" then _ else _). assert (Hs : same_servers s src.1 /\ set_inv src.1).
  { subst src. pose proof (qipCertFor_inv n s p H) as Hq. destruct (qipCertFor n s p) as [s0 q].
    destruct (String.eqb (t_mode p) "files"), (String.eqb (t_mode p) "self_signed"), (String.eqb (t_mode p) "qip"), (String.eqb (t_mode p) ""); done. }
  destruct src as [s1 [src|m]]; destruct Hs; cbn in *; (split; [done|]; split; [done|]); intros t Ht; [|done]. exists p. split; [done|].
  by eapply with_client_ca_ok.
Qed.

(** ** One listener *)

Definition served (cfg : config) (wrap : option (listener -> handler -> handler)) (h : handler) (sv : server) : Prop :=
  sv_handler sv = listener_handler cfg wrap (sv_listener sv) h /\ tls_ok cfg sv.
Definition servers (s : set_) : list server := s_http s ++ s_h3 s.

Lemma bind_inv s : set_inv s -> let '(s1, k) := bind s in
  servers s1 = servers s /\ close_sock s1 k = Set_ (s_http s) (s_h3 s) (s_cancelled s) (s_qip s) (s_renewers s) (s_bound s) (S (s_next s)) /\
  forall sv, sv_sock sv = k -> set_inv (serveHTTP s1 sv) /\ set_inv (serveH3 s1 sv).
Proof.
  intros [H1 H2 H3 H4 H5]. unfold bind. split; [done|].
  assert (Hk : s_next s ∉ s_bound s).
  { rewrite H1, elem_of_list_to_set. intros (sv & Hn & Hin)%list_elem_of_fmap. rewrite Forall_forall in H2. specialize (H2 sv Hin). lia. }
  assert (Hl : s_next s ∉ map sv_sock (s_http s ++ s_h3 s)) by (by rewrite <- (elem_of_list_to_set (C := gset nat)), <- H1).
  split.
  - unfold close_sock. cbn. f_equal. set_solver.
  - intros sv Hsv. assert (forall h3 h1, servers (Set_ h1 h3 false ∅ [] ∅ 0) ≡ₚ sv :: s_http s ++ s_h3 s ->
      set_inv (Set_ h1 h3 (s_cancelled s) (s_qip s) (s_renewers s) ({[s_next s]} ∪ s_bound s) (S (s_next s)))) as Hinv.
    { intros h3 h1 Hp. unfold servers in Hp. cbn in Hp. constructor; cbn; try done.
      - rewrite Hp. cbn. by rewrite Hsv, H1.
      - rewrite Hp. constructor; [lia|]. eapply Forall_impl; [exact H2|]. intros x Hx. cbn in Hx. lia.
      - rewrite Hp. cbn. rewrite Hsv. by constructor. }
    split; apply Hinv; unfold servers; cbn; [rewrite <- app_assoc; by rewrite Permutation_middle|]. by rewrite app_assoc, Permutation_app_comm.
Qed.

(** What starting one listener leaves. *)
Definition started (cfg : config) (wrap : option (listener -> handler -> handler)) (h : handler) (lc : listener) (s s1 : set_) (r : result string unit) : Prop :=
  match r with
  | Ok _ => set_inv s1 /\ exists l, servers s1 ≡ₚ servers s ++ l /\ map sv_listener l = (if known lc then [lc] else []) /\ Forall (served cfg wrap h) l
  | Err _ => servers s1 = servers s /\ s_bound s1 = s_bound s
  end.
Lemma listening_spec n s s0 cfg wrap h lc (k : set_ -> nat -> set_ * result string unit) : set_inv s0 -> same_servers s s0 -> known lc = true ->
  (forall s1 id, let '(s2, r) := k s1 id in match r with
     | Ok _ => exists sv, sv_listener sv = lc /\ sv_sock sv = id /\ served cfg wrap h sv /\ (s2 = serveHTTP s1 sv \/ s2 = serveH3 s1 sv)
     | Err _ => s2 = close_sock s1 id end) ->
  started cfg wrap h lc s (listening n s0 lc k).1 (listening n s0 lc k).2.
Proof.
  intros H0 [E1 E2 E3 E4 E5] Hkn Hk. unfold listening, started. rewrite Hkn. assert (Es : servers s0 = servers s) by (unfold servers; by rewrite E1, E2).
  destruct (listen n lc); cbn [negb fst snd]; [|done].
  pose proof (bind_inv s0 H0) as Hb. destruct (bind s0) as [s1 id]. specialize (Hk s1 id). destruct Hb as (B1 & B2 & B3).
  destruct (k s1 id) as [s2 [u|m]]; cbn [fst snd].
  - destruct Hk as (sv & <- & <- & Hsv & Hs2). destruct (B3 sv eq_refl) as [I1 I2]. split; [by destruct Hs2 as [-> | ->]|].
    exists [sv]. split; [|split; [done|by constructor]]. rewrite <- Es, <- B1. unfold servers. destruct Hs2 as [-> | ->]; cbn; [|by rewrite app_assoc].
    rewrite <- !app_assoc. by rewrite (Permutation_app_comm [sv]).
  - subst s2. rewrite B2. cbn. unfold servers in *. by rewrite <- E1, <- E2.
Qed.

Lemma unknown_started cfg wrap h lc s : set_inv s -> l_transport lc <> "unix"%string -> l_transport lc <> "h1"%string -> l_transport lc <> "h2c"%string ->
  l_transport lc <> "h2"%string -> l_transport lc <> "h3"%string -> started cfg wrap h lc s s (Ok tt).
Proof.
  intros H E1 E2 E3 E4 E5. split; [done|]. exists []. rewrite app_nil_r. split; [done|]. split; [|done].
  assert (known lc = false) as ->; [|done]. unfold known, transports, mem_string. cbn [existsb].
  apply String.eqb_neq in E1, E2, E3, E4, E5. by rewrite E1, E2, E3, E4, E5.
Qed.

Lemma start_spec n s cfg wrap h lc : set_inv s -> started cfg wrap h lc s (start n s cfg wrap h lc).1 (start n s cfg wrap h lc).2.
Proof.
  intros H. unfold start. set (hd := listener_handler cfg wrap lc h).
  assert (Hknown : forall t, l_transport lc = t -> mem_string t transports = true -> known lc = true) by (by intros ? <-).
  assert (Hplain : forall sv, sv_listener sv = lc -> sv_handler sv = hd -> sv_tls sv = None ->
    mem_string (l_transport lc) ["h2"; "h3"]%string = false -> served cfg wrap h sv).
  { intros sv Hs Hh Ht Hm. split; [by rewrite Hh, Hs|]. unfold tls_ok. by rewrite Hs, Hm. }
  assert (Htls : forall sv ps t p, sv_listener sv = lc -> sv_handler sv = hd -> sv_tls sv = Some (with_protos t ps) ->
    mem_string (l_transport lc) ["h2"; "h3"]%string = true -> c_tls cfg !! l_tls lc = Some p -> profile_ok lc p t -> served cfg wrap h sv).
  { intros sv ps t p Hs Hh Hst Hm Hp (P1 & P2 & P3). split; [by rewrite Hh, Hs|]. unfold tls_ok. rewrite Hs, Hm. by eexists _, p. }
  pose proof (tlsFor_spec n s cfg lc H) as Ht.
  destruct (String.eqb_spec (l_transport lc) "unix") as [E|E1].
  { apply listening_spec; [done|apply same_servers_refl|by eapply Hknown|]. intros s1 id.
    assert (served cfg wrap h (h1Server lc id hd)) by (apply Hplain; try done; by rewrite E).
    destruct (String.eqb _ ""); [by exists (h1Server lc id hd); auto|]. destruct (parse_octal32 _); [|done].
    destruct (chmod n lc); [by exists (h1Server lc id hd); auto|done]. }
  destruct (String.eqb_spec (l_transport lc) "h1") as [E|E2].
  { apply listening_spec; [done|apply same_servers_refl|by eapply Hknown|]. intros s1 id. exists (h1Server lc id hd). do 2 (split; [done|]).
    split; [|by left]. apply Hplain; try done. by rewrite E. }
  destruct (String.eqb_spec (l_transport lc) "h2c") as [E|E3].
  { apply listening_spec; [done|apply same_servers_refl|by eapply Hknown|]. intros s1 id. exists (h2Server lc id hd None true). do 2 (split; [done|]).
    split; [|by left]. apply Hplain; try done. by rewrite E. }
  destruct (tlsFor n s cfg lc) as [s1 [t|m]]; destruct Ht as (Hsame & Hs1 & Ht).
  2:{ destruct Hsame as [E1' E2' E3' E4' E5'].
      destruct (String.eqb_spec (l_transport lc) "h2") as [E|E4]; [unfold started, servers; cbn; by rewrite E1', E2', E4'|].
      destruct (String.eqb_spec (l_transport lc) "h3") as [E|E5]; [unfold started, servers; cbn; by rewrite E1', E2', E4'|].
      by apply unknown_started. }
  destruct (Ht t eq_refl) as (p & Hp & Hok).
  destruct (String.eqb_spec (l_transport lc) "h2") as [E|E4].
  { apply listening_spec; [done|done|by eapply Hknown|]. intros s2 id. exists (h2Server lc id hd (Some (with_protos t ["h2"; "http/1.1"]%string)) false). do 2 (split; [done|]). split; [|by left].
    eapply Htls; try done. by rewrite E. }
  destruct (String.eqb_spec (l_transport lc) "h3") as [E|E5].
  { apply listening_spec; [done|done|by eapply Hknown|]. intros s2 id. exists (Server lc id hd (Some (with_protos t ["h3"]%string)) 0 0 0 0 false). do 2 (split; [done|]). split; [|by right].
    eapply Htls; try done. by rewrite E. }
  by apply unknown_started.
Qed.

(** ** All listeners *)

Lemma empty_set_inv : set_inv empty_set_.
Proof.
  constructor; cbn; try done; [by constructor|]. split; [by constructor|]. intros z. rewrite lookup_empty. split; [by intros []|by intros ?%not_elem_of_nil].
Qed.
Lemma shutdown_bound s : s_bound s = list_to_set (map sv_sock (servers s)) -> s_bound (Shutdown s) = ∅.
Proof.
  intros H. unfold Shutdown, servers in *. cbn. rewrite H, map_app, list_to_set_app_L. set_solver.
Qed.
Lemma start_all_spec n cfg wrap h ls : forall s, set_inv s ->
  let '(s1, r) := start_all n s cfg wrap h ls in
  match r with
  | Ok _ => set_inv s1 /\ exists l, servers s1 ≡ₚ servers s ++ l /\ map sv_listener l ≡ₚ List.filter known ls /\ Forall (served cfg wrap h) l
  | Err _ => s_bound s1 = ∅ /\ s_cancelled s1 = true
  end.
Proof.
  induction ls as [|lc ls IH]; intros s H; cbn [start_all]; [split; [done|]; exists []; by rewrite app_nil_r|].
  pose proof (start_spec n s cfg wrap h lc H) as Hs. unfold started in Hs. destruct (start n s cfg wrap h lc) as [s1 [u|m]]; cbn [fst snd] in Hs.
  - destruct Hs as (H1 & l1 & L1 & L2 & L3). specialize (IH s1 H1). destruct (start_all n s1 cfg wrap h ls) as [s2 [v|m]]; [|done].
    destruct IH as (H2 & l2 & M1 & M2 & M3). split; [done|]. exists (l1 ++ l2). split; [by rewrite M1, L1, app_assoc|]. split; [|by apply Forall_app].
    rewrite map_app, L2, M2. cbn [List.filter]. by destruct (known lc).
  - destruct Hs as [E1 E2]. split; [|done]. apply shutdown_bound. rewrite E2, E1. by destruct H.
Qed.

(** C36: (listeners) Starting the transports is all or nothing.  When any listener cannot be
    started, every socket bound before it is closed again and the renewers are cancelled.
    When all are: there is exactly one server per configured listener of a known
    transport, on sockets of their own, each serving the shared handler behind that
    listener's own authentication; every TLS server refuses anything below TLS 1.2, and
    below 1.3 on HTTP/3 or when the profile asks for it; a profile with a client CA has
    client certificates verified against it, demanded exactly when mTLS is the listener's
    only method; each qip.sh zone is fetched and renewed once, whatever the number of
    listeners on it; and shutting down closes every socket. *)
Theorem listeners_all_or_nothing n cfg wrap h :
  let '(s, r) := Serve n cfg wrap h in
  match r with
  | Err _ => s_bound s = ∅ /\ s_cancelled s = true
  | Ok _ =>
      map sv_listener (servers s) ≡ₚ List.filter known (c_listeners cfg) /\
      (Forall (fun l => known l = true) (c_listeners cfg) -> Count s = length (c_listeners cfg)) /\
      Forall (fun sv => sv_handler sv = listener_handler cfg wrap (sv_listener sv) h /\ tls_ok cfg sv) (servers s) /\
      NoDup (map sv_sock (servers s)) /\ s_bound s = list_to_set (map sv_sock (servers s)) /\
      NoDup (s_renewers s).*1 /\ s_cancelled s = false /\ s_bound (Shutdown s) = ∅
  end.
Proof.
  pose proof (start_all_spec n cfg wrap h (c_listeners cfg) empty_set_ empty_set_inv) as H. unfold Serve.
  destruct (start_all n empty_set_ cfg wrap h (c_listeners cfg)) as [s [u|m]]; [|done].
  destruct H as ([H1 H2 H3 H4 [H5 _]] & l & L1 & L2 & L3). change (servers empty_set_) with (@nil server) in L1. cbn [app] in L1.
  assert (Hp : map sv_listener (servers s) ≡ₚ List.filter known (c_listeners cfg)) by (by rewrite L1).
  split; [done|]. split.
  { intros Hk. unfold Count. apply Permutation_length in Hp. unfold servers in Hp. rewrite length_map, length_app in Hp. rewrite Hp.
    f_equal. clear -Hk. induction Hk as [|x l Hx _ IH]; [done|]. cbn [List.filter]. rewrite Hx. cbn [length]. by rewrite IH. }
  split; [by rewrite L1|]. split; [done|]. split; [done|]. split; [done|]. split; [done|]. by apply shutdown_bound.
Qed.
End Handlers.

(** ** A concrete deployment *)

Definition demo_listeners : list listener :=
  [Listener "web" "h2" ":443" "pub" ["session"; "keyring"] false ""; Listener "quic" "h3" "[::]:443" "pub" ["mtls"] true "";
   Listener "local" "unix" "/run/q.sock" "" ["peercred"] false "0660"]%string.
Definition demo_cfg : config :=
  Config (MetaStore "" "") {[ "pub"%string := TLSProfile "qip" "" "" "" "" "ca.pem" 0 ]} demo_listeners
    [CPrincipal "ann" [["keyring"]]]%string (SessionTokens true 0 0)
    (Enroll false "" [] 0 (SpecFloat.S754_zero false) [] 0 (Provision false "" "" None "" ∅ "" 0 "") false 0)
    [] (ControlPlane true ["ann"%string]) "json" (CORS true ["https://app.example"]%string (7200 * second) [] ["X-Trace"]%string) (ChangeFeed false 0 0).
Definition demo_net (bind_ok : bool) : net :=
  Net (fun _ _ => true) true (fun _ => true) (fun _ => Some true) (fun l => bind_ok || negb (String.eqb (l_transport l) "unix")) (fun _ => true).
Definition demo_wrap (lc : listener) (next : @handler nat unit) : @handler nat unit :=
  fun r h w => if String.eqb (r_header r "Authorization") "" then (w, Response 401 h None) else next r h w.
Definition demo_hd : @handler nat unit := fun r h w => (S w, Response 200 h (Some tt)).
Definition demo_request (m origin want auth : string) : request :=
  Request m "/app/query" "" (fun k => if String.eqb k "Origin" then origin else if String.eqb k "Access-Control-Request-Method" then want
                                      else if String.eqb k "Authorization" then auth else "") (fun _ => None) None None "" "" None.

Lemma demo_cfg_sound : exists w, Load demo_cfg = Ok (applyDefaults demo_cfg, w).
Proof. eexists. vm_compute. reflexivity. Qed.

Lemma listeners_all_or_nothing_facts :
  let '(s, r) := Serve (demo_net true) demo_cfg (Some demo_wrap) demo_hd in
  r = Ok tt /\ Count s = 3%nat /\ s_renewers s = [("i.qip.sh"%string, 12 * 3600 * second)] /\
  (Serve (demo_net false) demo_cfg (Some demo_wrap) demo_hd).2 = Err "listen"%string.
Proof. vm_compute. repeat split. Qed.

Lemma cors_is_outside_auth_witness :
  let lc := Listener "web" "h2" ":443" "pub" ["session"; "keyring"]%string false "" in
  (exists resp, listener_handler (applyDefaults demo_cfg) (Some demo_wrap) lc demo_hd (demo_request "OPTIONS" "https://app.example" "POST" "") ∅ 7%nat = (7%nat, resp) /\
     code resp = 204) /\
  code (listener_handler (applyDefaults demo_cfg) (Some demo_wrap) lc demo_hd (demo_request "OPTIONS" "https://evil.example" "POST" "") ∅ 7%nat).2 = 401.
Proof.
  split; [|vm_compute; reflexivity].
  assert (Hs : sound_config (applyDefaults demo_cfg)).
  { destruct demo_cfg_sound as [w Hw]. unfold Load in Hw. cbv zeta in Hw. destruct (Validate (applyDefaults demo_cfg)) as [w'|] eqn:E; [|discriminate Hw].
    exact (Validate_sound _ _ E). }
  destruct (cors_is_outside_auth (applyDefaults demo_cfg) (Some demo_wrap) (Listener "web" "h2" ":443" "pub" ["session"; "keyring"]%string false "") demo_hd
    (demo_request "OPTIONS" "https://app.example" "POST" "") ∅ 7%nat eq_refl Hs) as (_ & H & _).
  destruct (H ltac:(vm_compute; reflexivity) ltac:(vm_compute; reflexivity)) as (resp & E & Hc & _). exists resp. split; [exact E|exact Hc].
Defined.
