(* ===== verification/Qip.v ===== *)
(** * transport: certificates for local names

    [src/transport/qip.go] and [selfSignedCert] of [tls.go]: downloading, serving and
    renewing the wildcard certificate of qip.sh, when its use deserves a warning, and what a
    self-signed certificate covers.  Parsing PEM and X.509 are parameters; [net.ParseIP] is
    written out.  Which listener gets which certificate is [Transport.v]. *)
From S2P Require Import Prelude GoStd Config Auth Transport.
#[local] Open Scope Z_scope.

(** ** [net.ParseIP] *)

Definition octet (f : string) : option Z :=
  if String.eqb f "" then None
  else if (1 <? String.length f)%nat && has_prefix "0" f then None
  else match digits_val 0 f with Some v => if v <=? 255 then Some v else None | None => None end.
Definition ParseIPv4 (s : string) : option (list Z) :=
  match map octet (split_char "." s) with
  | [Some a; Some b; Some c; Some d] => Some [a; b; c; d]
  | _ => None
  end.
(** The leading hex digits: how many, their value, the rest. *)
Fixpoint hex_run (n : nat) (acc : Z) (s : string) : nat * Z * string :=
  match s with
  | String c r => match hex_val c with Some d => hex_run (S n) (acc * 16 + d) r | None => (n, acc, s) end
  | EmptyString => (n, acc, s)
  end.
(** Groups of an IPv6 address from [s] on; [ell] is where the ellipsis stands. *)
Fixpoint v6_groups (fuel : nat) (s : string) (ip : list Z) (ell : option nat) : option (list Z * option nat * string) :=
  match fuel with
  | O => Some (ip, ell, s)
  | S fuel =>
      let '(n, acc, rest) := hex_run 0 0 s in
      if (n =? 0)%nat || (4 <? n)%nat then None else
      let ip' := ip ++ [acc / 256; acc mod 256] in
      match rest with
      | EmptyString => Some (ip', ell, ""%string)
      | String c r =>
          if Ascii.eqb c "." then
            if bool_decide (ell = None) && negb (length ip =? 12)%nat then None
            else if (16 <? length ip + 4)%nat then None
            else match ParseIPv4 s with Some f => Some (ip ++ f, ell, ""%string) | None => None end
          else if negb (Ascii.eqb c ":") then None
          else match r with
               | EmptyString => None
               | String c2 r2 =>
                   if Ascii.eqb c2 ":" then
                     if bool_decide (is_Some ell) then None
                     else if String.eqb r2 "" then Some (ip', Some (length ip'), ""%string) else v6_groups fuel r2 ip' (Some (length ip'))
                   else v6_groups fuel r ip' ell
               end
      end
  end.
Definition v6_expand (ip : list Z) (ell : option nat) : option (list Z) :=
  match ell with
  | None => if (length ip =? 16)%nat then Some ip else None
  | Some e => if (length ip <? 16)%nat then Some (take e ip ++ replicate (16 - length ip) 0 ++ drop e ip) else None
  end.
Definition ParseIPv6 (s : string) : option (list Z) :=
  let '(s1, ell) := match cut_prefix "::" s with Some r => (r, Some 0%nat) | None => (s, None) end in
  if bool_decide (is_Some ell) && String.eqb s1 "" then Some (replicate 16 0)
  else match v6_groups 8 s1 [] ell with
       | Some (ip, ell, rest) => if String.eqb rest "" then v6_expand ip ell else None
       | None => None
       end.
Fixpoint first_sep (s : string) : option ascii :=
  match s with
  | EmptyString => None
  | String c r => if Ascii.eqb c "." || Ascii.eqb c ":" then Some c else first_sep r
  end.
(** The sixteen bytes; an address with a zone is refused. *)
Definition ParseIP (s : string) : option (list Z) :=
  if mem_char "%" s then None else
  match first_sep s with
  | None => None
  | Some c => if Ascii.eqb c "." then (fun v => replicate 10 0 ++ [255; 255] ++ v) <$> ParseIPv4 s else ParseIPv6 s
  end.
Definition To4 (ip : list Z) : option (list Z) :=
  if bool_decide (take 12 ip = replicate 10 0 ++ [255; 255]) then Some (drop 12 ip) else None.
Definition IPv6loopback : list Z := replicate 15 0 ++ [1].
Definition IsLoopback (ip : list Z) : bool :=
  match To4 ip with Some v => nth 0 v 0 =? 127 | None => bool_decide (ip = IPv6loopback) end.

(** ** When a warning is due *)

Definition isLoopbackAddr (addr : string) : bool :=
  let host := match SplitHostPort addr with Some (h, _) => h | None => addr end in
  if String.eqb host "localhost" then true
  else match ParseIP host with Some ip => IsLoopback ip | None => false end.
(** Whether it warns that the certificate's private key is public. *)
Definition warnQIPExposed (p : tlsProfile) (addr : string) : bool :=
  negb (negb (String.eqb (t_mode p) "qip") || isLoopbackAddr addr).

(** ** The self-signed certificate *)

Definition devCertValidity : Z := 365 * 24 * 3600 * second.
Record template := Template { NotBefore : Z; t_NotAfter : Z; IPAddresses : list (list Z); DNSNames : list string }.
Definition cover (t : list (list Z) * list string) (h : string) : list (list Z) * list string :=
  match ParseIP h with Some ip => (t.1 ++ [ip], t.2) | None => (t.1, t.2 ++ [h]) end.
Definition self_signed_template (now : Z) (hosts : list string) : template :=
  let '(ips, names) := fold_left cover hosts ([replicate 10 0 ++ [255; 255] ++ [127; 0; 0; 1]; IPv6loopback], []) in
  Template (now - 3600 * second) (now + devCertValidity) ips (match names with [] => ["localhost"%string] | _ => names end).

(** ** The qip.sh certificate *)

Record certificate := Cert { Chain : list string; Leaf : option Z (* NotAfter of the parsed leaf *) }.
Record qipCert := QIP { url : string; cur : option certificate }.

(** What a download ends in; [None]: the body could not be read. *)
Inductive download : Type := Unreachable | Response (status : Z) (body : option string).
Inductive ferr : Type := FTransport | FStatus (status : Z) | FRead | FPair.
(** A turn of the renewer's [select]. *)
Inductive turn : Type := Done | Tick (now : Z) (answer : download).

Section Renew.
Variable X509KeyPair : string -> option certificate.
Variable ParseCertificate : string -> option Z.

Definition maxPEM : Z := 2 ^ 20.
Definition limited (s : string) : string :=
  if Z.of_nat (String.length s) >? maxPEM then substring 0 (Z.to_nat maxPEM) s else s.
Definition with_leaf (c : certificate) : certificate :=
  match Leaf c, Chain c with None, d :: _ => Cert (Chain c) (ParseCertificate d) | _, _ => c end.
(** What a download yields; [fetch] stores it. *)
Definition downloaded (a : download) : result ferr certificate :=
  match a with
  | Unreachable => Err FTransport
  | Response st body =>
      if negb (st =? 200) then Err (FStatus st) else
      match body with
      | None => Err FRead
      | Some b => match X509KeyPair (limited b) with None => Err FPair | Some c => Ok (with_leaf c) end
      end
  end.
Definition fetch (q : qipCert) (a : download) : qipCert * result ferr unit :=
  match downloaded a with Err e => (q, Err e) | Ok c => (QIP (url q) (Some c), Ok tt) end.
(** [GetCertificate]. *)
Definition get (q : qipCert) : result string certificate :=
  match cur q with Some c => Ok c | None => Err "tls: no qip.sh certificate available"%string end.

Definition margin : Z := 30 * 24 * 3600 * second.
(** More than thirty days left. *)
Definition comfortable (q : qipCert) (now : Z) : bool :=
  match cur q with
  | Some c => match Leaf c with Some na => time_sub na now >? margin | None => false end
  | None => false
  end.
(** The certificate after a tick, and whether a download was made. *)
Definition on_tick (q : qipCert) (now : Z) (a : download) : qipCert * bool :=
  if comfortable q now then (q, false) else ((fetch q a).1, true).
Fixpoint renew (q : qipCert) (turns : list turn) : qipCert :=
  match turns with
  | [] | Done :: _ => q
  | Tick now a :: rest => renew (on_tick q now a).1 rest
  end.

(** ** Renewal keeps a valid certificate on the listener

    [I] is the profile's refresh interval.  qip.sh rotates its certificates well before
    they expire, so what it hands out has more than [margin] left ([healthy]); it may be
    out of reach or answer badly, for stretches of at most [G] ([bounded]). *)
Definition expiry (q : qipCert) : option Z := c ← cur q; Leaf c.
Definition healthy (now : Z) (a : download) : Prop :=
  forall c, downloaded a = Ok c -> exists na, Leaf c = Some na /\ margin < time_sub na now.
Definition works (a : download) : bool := is_ok (downloaded a).
Fixpoint spaced (I last : Z) (ticks : list (Z * download)) : Prop :=
  match ticks with [] => True | (t, _) :: r => last <= t <= last + I /\ spaced I t r end.
(** [since]: when the running outage began. *)
Fixpoint bounded (G : Z) (since : option Z) (ticks : list (Z * download)) : Prop :=
  match ticks with
  | [] => True
  | (t, a) :: r => if works a then bounded G None r
                   else let s := default t since in t <= s + G /\ bounded G (Some s) r
  end.

(** After the tick at [t]: comfortable, or in an outage that began early enough. *)
Definition safe (I G : Z) (q : qipCert) (t : Z) (since : option Z) : Prop :=
  default t since <= t /\ exists na, expiry q = Some na /\
    (margin < time_sub na t \/ exists s m, since = Some s /\ s <= m <= t /\ t <= s + G /\ m + margin - I <= na).

Lemma time_sub_margin na t : margin < time_sub na t -> t + margin < na.
Proof. unfold time_sub, margin, two63, second. lia. Qed.

Lemma safe_valid I G q t since u : 0 <= I -> 0 <= G -> 2 * I + G < margin -> safe I G q t since -> u <= t + I ->
  exists c na, get q = Ok c /\ Leaf c = Some na /\ u < na.
Proof.
  intros HI HG0 HG (_ & na & Hq & Hor) Hu. unfold expiry, get in *. destruct (cur q) as [c|]; [|done].
  exists c, na. split; [done|]. split; [done|].
  destruct Hor as [Hc%time_sub_margin|(s & m & _ & Hm & Ht & Hna)]; lia.
Qed.

Lemma tick_safe I G q t since t' a : 0 <= G -> safe I G q t since -> t <= t' <= t + I -> healthy t' a ->
  (works a = false -> t' <= default t' since + G) ->
  safe I G (on_tick q t' a).1 t' (if works a then None else Some (default t' since)).
Proof.
  intros HG (Hs0 & na & Hq & Hor) Ht Hh Hb.
  assert (default t' (if works a then None else Some (default t' since)) <= t') as Hs1
    by (destruct (works a); [done|]; destruct since; cbn in *; lia).
  split; [exact Hs1|]. unfold on_tick, comfortable. unfold expiry in Hq.
  destruct (cur q) as [c|] eqn:Ec; [|done]. cbn in Hq. rewrite Hq.
  destruct (Z.gtb_spec (time_sub na t') margin) as [Hgt|Hle]; cbn [fst].
  { exists na. unfold expiry. rewrite Ec. split; [done|]. left. lia. }
  unfold fetch, works in *. destruct (downloaded a) as [c'|e] eqn:Ed; cbn [is_ok fst] in *.
  { destruct (Hh c' Ed) as (na' & Hl & Hm). exists na'. unfold expiry. cbn. split; [done|by left]. }
  specialize (Hb eq_refl). exists na. unfold expiry. rewrite Ec. split; [done|]. right.
  destruct Hor as [Hc%time_sub_margin|(s & m & -> & Hm & Hts & Hna)]; cbn [default] in *.
  - exists (default t' since), t'. repeat split; try done; lia.
  - exists s, m. repeat split; try done; lia.
Qed.

Definition last_time (t : Z) (ticks : list (Z * download)) : Z := fold_left (fun _ x => x.1) ticks t.
Definition turns (ticks : list (Z * download)) : list turn := map (fun x => Tick x.1 x.2) ticks.

Lemma run_safe I G ticks : forall q t since, 0 <= G -> safe I G q t since -> spaced I t ticks ->
  Forall (fun x => healthy x.1 x.2) ticks -> bounded G since ticks ->
  exists since', safe I G (renew q (turns ticks)) (last_time t ticks) since'.
Proof.
  induction ticks as [|[t' a] r IH]; intros q t since HG Hs Hsp Hh Hb; [by exists since|].
  destruct Hsp as [Ht Hsp]. apply Forall_cons in Hh as [Hh1 Hh2].
  apply (IH (on_tick q t' a).1 t' (if works a then None else Some (default t' since))); [done| |done|done|].
  - apply (tick_safe I G q t since); [done|done|done|done|]. intros Hw. cbn in Hb. rewrite Hw in Hb. by apply Hb.
  - cbn in Hb. destruct (works a); [done|]. by destruct Hb as [_ Hb].
Qed.

Lemma spaced_app I pre post : forall t, spaced I t (pre ++ post) -> spaced I t pre.
Proof. induction pre as [|[t' a] r IH]; intros t; [done|]. intros [H1 H2]. split; [done|by apply IH]. Qed.
Lemma bounded_app G pre post : forall since, bounded G since (pre ++ post) -> bounded G since pre.
Proof.
  induction pre as [|[t' a] r IH]; intros since; [done|]. cbn. destruct (works a); [apply IH|]. intros [H1 H2]. split; [done|by apply IH].
Qed.

(** (availability) From the start-up download on, the listener always has a certificate to
    present and it has not expired, at every moment up to the next tick, provided the
    renewer's interval and the longest outage leave room in the thirty days before expiry:
    two intervals and an outage must be shorter than that. *)
Theorem certificate_never_lapses I G u0 q0 t0 a0 pre post u :
  0 <= I -> 0 <= G -> 2 * I + G < margin ->
  fetch (QIP u0 None) a0 = (q0, Ok tt) -> healthy t0 a0 ->
  spaced I t0 (pre ++ post) -> Forall (fun x => healthy x.1 x.2) (pre ++ post) -> bounded G None (pre ++ post) ->
  last_time t0 pre <= u <= last_time t0 pre + I ->
  exists c na, get (renew q0 (turns pre)) = Ok c /\ Leaf c = Some na /\ u < na.
Proof.
  intros HI HG Hroom H0 Hh0 Hsp Hh Hb Hu. unfold fetch in H0. destruct (downloaded a0) as [c|] eqn:Ed; [|done].
  injection H0 as <-. destruct (Hh0 c Ed) as (na & Hl & Hm).
  assert (safe I G (QIP u0 (Some c)) t0 None) as Hs by (split; [done|]; exists na; split; [done|by left]).
  apply Forall_app in Hh as [Hh _].
  destruct (run_safe I G pre (QIP u0 (Some c)) t0 None) as [since Hsafe]; [done|done|by eapply spaced_app|done|by eapply bounded_app|].
  by apply (safe_valid I G _ (last_time t0 pre) since); [| | | |apply Hu].
Qed.

(** The default interval leaves room for an outage of 28 days. *)
Lemma default_refresh_has_room : 2 * qipDefaultRefresh + 28 * 24 * 3600 * second < margin.
Proof. reflexivity. Qed.
End Renew.

(** Nothing bounds the interval a profile asks for: with one of sixty days a certificate
    downloaded with fifty days left has expired before the first tick, however reachable
    qip.sh is. *)
Lemma long_refresh_lapses :
  let day := 24 * 3600 * second in
  let pair (s : string) := Some (Cert [] (Some (50 * day))) in
  let q0 := (fetch pair (fun _ => None) (QIP "u" None) (Response 200 (Some "pem"%string))).1 in
  works pair (fun _ => None) (Response 200 (Some "pem"%string)) = true /\
  get q0 = Ok (Cert [] (Some (50 * day))) /\ renew pair (fun _ => None) q0 [] = q0 /\ 50 * day < 60 * day.
Proof. by vm_compute. Qed.

(** ** Addresses *)

Lemma demo_addresses :
  map isLoopbackAddr ["127.0.0.1:443"; "localhost:443"; "[::1]:443"; "[::ffff:127.9.9.9]:443"; "127.255.0.1"; "[0:0::0.0.0.1]:8443"]%string
  = [true; true; true; true; true; true] /\
  map isLoopbackAddr [":443"; "0.0.0.0:443"; "[::]:443"; "127.0.0.1.evil.example:443"; "127.0.0.01:443"; "[::1%lo]:443"; "1::2::3"; "128.0.0.1:1"]%string
  = [false; false; false; false; false; false; false; false].
Proof. by vm_compute. Qed.

Lemma cover_spec hosts : forall t, let t' := fold_left cover hosts t in
  (forall ip, ip ∈ t.1 -> ip ∈ t'.1) /\ (forall n, n ∈ t.2 -> n ∈ t'.2) /\
  (forall h, h ∈ hosts -> match ParseIP h with Some ip => ip ∈ t'.1 | None => h ∈ t'.2 end) /\
  (forall n, n ∈ t'.2 -> n ∈ t.2 \/ n ∈ hosts).
Proof.
  induction hosts as [|h r IH]; intros t; [cbn; split; [done|]; split; [done|]; split; [by intros h ?%not_elem_of_nil|by left]|].
  cbn [fold_left]. destruct (IH (cover t h)) as (H1 & H2 & H3 & H4).
  assert ((forall ip, ip ∈ t.1 -> ip ∈ (cover t h).1) /\ (forall n, n ∈ t.2 -> n ∈ (cover t h).2)) as [C1 C2]
    by (unfold cover; split; intros x Hx; destruct (ParseIP h); cbn; rewrite ?elem_of_app; auto).
  split; [by auto|]. split; [by auto|]. split.
  - intros x [->|Hx]%elem_of_cons; [|by apply H3]. unfold cover in *. destruct (ParseIP h) as [ip|]; cbn in *;
      [apply H1|apply H2]; apply elem_of_app; right; by apply list_elem_of_singleton.
  - intros n Hn. destruct (H4 n Hn) as [Hc|Hr]; [|right; by right]. unfold cover in Hc. destruct (ParseIP h); cbn in Hc; [by left|].
    apply elem_of_app in Hc as [Hc|Hc%list_elem_of_singleton]; [by left|right; subst; left].
Qed.

(** A self-signed certificate names every configured host, as an address or as a name, both
    loopback addresses, and nothing else; it is valid for a year. *)
Theorem self_signed_covers now hosts : let t := self_signed_template now hosts in
  (forall h, h ∈ hosts -> match ParseIP h with Some ip => ip ∈ IPAddresses t | None => h ∈ DNSNames t end) /\
  IPv6loopback ∈ IPAddresses t /\ (exists v4, v4 ∈ IPAddresses t /\ To4 v4 = Some [127; 0; 0; 1]) /\
  (forall n, n ∈ DNSNames t -> n ∈ hosts \/ n = "localhost"%string) /\ DNSNames t <> [] /\
  NotBefore t < now < t_NotAfter t.
Proof.
  unfold self_signed_template. pose proof (cover_spec hosts ([replicate 10 0 ++ [255; 255] ++ [127; 0; 0; 1]; IPv6loopback], [])) as H.
  cbv zeta in H. destruct (fold_left cover hosts _) as [ips names]. cbn [fst snd] in H. destruct H as (H1 & _ & H3 & H4).
  cbn [IPAddresses DNSNames NotBefore t_NotAfter]. split; [|split; [|split; [|split; [|split]]]].
  - intros h Hh. specialize (H3 h Hh). destruct (ParseIP h); [done|]. destruct names; [by apply not_elem_of_nil in H3|done].
  - apply H1. right. left.
  - eexists. split; [apply H1; left|reflexivity].
  - intros n Hn. destruct names; [apply list_elem_of_singleton in Hn; by right|].
    left. by destruct (H4 n Hn) as [?%not_elem_of_nil|].
  - by destruct names.
  - unfold devCertValidity, second. lia.
Qed.

(** A certificate of ninety days, and qip.sh out of reach at the first tick. *)
Definition demo_pair (s : string) : option certificate := Some (Cert [] (Some (90 * 24 * 3600 * second))).
Definition demo_answer : download := Response 200 (Some "pem"%string).
Definition demo_qip : qipCert := (fetch demo_pair (fun _ => None) (QIP "u" None) demo_answer).1.

Lemma certificate_never_lapses_witness :
  exists c na, get (renew demo_pair (fun _ => None) demo_qip (turns [(qipDefaultRefresh, Unreachable)])) = Ok c /\
    Leaf c = Some na /\ 20 * 3600 * second < na.
Proof.
  apply (certificate_never_lapses demo_pair (fun _ => None) qipDefaultRefresh (28 * 24 * 3600 * second) "u" demo_qip 0 demo_answer
    [(qipDefaultRefresh, Unreachable)] [] (20 * 3600 * second)).
  - discriminate.
  - discriminate.
  - reflexivity.
  - reflexivity.
  - intros c Hc. vm_compute in Hc. injection Hc as <-. eexists. split; reflexivity.
  - split; [|exact I]. split; discriminate.
  - apply List.Forall_cons; [|apply List.Forall_nil]. intros c Hc. vm_compute in Hc. discriminate Hc.
  - vm_compute. split; [discriminate|exact I].
  - vm_compute. split; discriminate.
Defined.
