(* ===== verification/Reconcile.v ===== *)
(** * serverd: which databases a start serves, and under which policy

    [reconcile] and [buildPolicy] of [src/serverd/serverd.go], over the meta store of
    [Meta.v] and composed with the provisioner of [Provision.v]: how what was created and
    dropped while the server ran, and what failed meanwhile, decides what the next start
    serves. *)
From S2P Require Import Prelude GoStd Authz Config Secret Storage Registry Meta Provision.
From stdpp Require Import sorting.
#[local] Open Scope Z_scope.

(** ** The merge *)

(** The [byName] map and the order of first appearance. *)
Definition add (acc : gmap string database * list string) (db : database) : gmap string database * list string :=
  (<[db_name db := db]> acc.1, if bool_decide (is_Some (acc.1 !! db_name db)) then acc.2 else acc.2 ++ [db_name db]).
(** The checks a stored specification passes before it is served. *)
Definition meta_ok (dataDir : string) (db : database) : bool :=
  is_ok (ValidateDatabase db) &&
  negb (UsesPath (db_backend db) && negb (String.eqb (db_path db) "") && bool_decide (WithinDir dataDir (db_path db) = None)).
Definition merge (dataDir : string) (seeds created : list database) : list database :=
  let acc1 := fold_left add seeds (∅, []) in
  let acc2 := fold_left (fun acc db => if meta_ok dataDir db then add acc db else acc) created acc1 in
  omap (fun n => acc2.1 !! n) acc2.2.

Definition reconcile (decode : string -> option database) (io : bool) (seeds : list database) (store : option Meta.store) (dataDir : string)
    : result merr (list database) :=
  match store with
  | None => Ok seeds
  | Some s => let* created := Meta.Databases decode db_name io s in Ok (merge dataDir seeds created)
  end.

(** ** The policy *)

Definition grant_db (p : policy) (db : database) : policy :=
  fold_left (fun p g => match ParseLevel (g_level g) with (lvl, true) => Authz.Grant p (db_name db) (g_principal g) lvl | (_, false) => p end)
    (db_grants db) p.
Definition buildPolicy (c : config) (dbs : list database) : policy :=
  let configured := negb (bool_decide (c_principals c = [])) || AnyGrants dbs in
  fold_left grant_db dbs (NewPolicy (negb configured)).

(** ** What the merge serves *)

(** The specification served under each name. *)
Definition index (dbs : list database) : gmap string database := fold_left (fun m db => <[db_name db := db]> m) dbs ∅.

Lemma index_snoc l db : index (l ++ [db]) = <[db_name db := db]> (index l).
Proof. unfold index. by rewrite fold_left_app. Qed.
Lemma index_name l n db : index l !! n = Some db -> db_name db = n /\ db ∈ l.
Proof.
  induction l as [|x l IH] using rev_ind; [by intros ?|]. rewrite index_snoc, lookup_insert, elem_of_app, list_elem_of_singleton.
  case_decide; [intros [= <-]; auto|intros Hx; destruct (IH Hx); auto].
Qed.
Lemma index_none l n : index l !! n = None <-> n ∉ db_name <$> l.
Proof.
  induction l as [|x l IH] using rev_ind; [split; [intros _ ?%not_elem_of_nil|]; done|].
  rewrite index_snoc, fmap_app, elem_of_app. cbn. rewrite list_elem_of_singleton, lookup_insert. case_decide; naive_solver.
Qed.
Lemma index_nodup l db : NoDup (db_name <$> l) -> db ∈ l -> index l !! db_name db = Some db.
Proof.
  intros Hn Hin. destruct (index l !! db_name db) as [db'|] eqn:E.
  - apply index_name in E as [Hd Hin']. f_equal. apply list_elem_of_lookup in Hin as [i Hi]. apply list_elem_of_lookup in Hin' as [j Hj].
    assert (i = j) as ->; [|congruence]. eapply (NoDup_lookup _ _ _ (db_name db) Hn); rewrite list_lookup_fmap; [by rewrite Hi|by rewrite Hj; cbn; rewrite Hd].
  - apply index_none in E. destruct E. apply list_elem_of_fmap. by exists db.
Qed.

(** The accumulator after any list of additions. *)
Lemma add_spec l : forall acc, (forall n, is_Some (acc.1 !! n) <-> n ∈ acc.2) -> NoDup acc.2 ->
  let acc' := fold_left add l acc in
  acc'.1 = fold_left (fun m db => <[db_name db := db]> m) l acc.1 /\ (forall n, is_Some (acc'.1 !! n) <-> n ∈ acc'.2) /\ NoDup acc'.2 /\
  acc.2 `prefix_of` acc'.2.
Proof.
  induction l as [|db l IH]; intros [m o] Hd Hn; [done|]. cbn [fold_left fst snd] in *.
  destruct (IH (add (m, o) db)) as (H1 & H2 & H3 & H4).
  - intros n. unfold add. cbn [fst snd]. rewrite lookup_insert_is_Some. case_bool_decide as E; [|rewrite elem_of_app, list_elem_of_singleton];
      rewrite Hd in *; destruct (decide (db_name db = n)); naive_solver.
  - unfold add. cbn [fst snd]. case_bool_decide as E; [done|]. apply NoDup_app. split; [done|]. split; [|by apply NoDup_singleton].
    intros n Hin ->%list_elem_of_singleton. apply E. by apply Hd.
  - split; [done|]. split; [done|]. split; [done|]. etrans; [|exact H4]. unfold add. cbn. case_bool_decide; [done|by apply prefix_app_r].
Qed.
Lemma filtered_adds dataDir created : forall acc,
  fold_left (fun acc db => if meta_ok dataDir db then add acc db else acc) created acc = fold_left add (List.filter (meta_ok dataDir) created) acc.
Proof. induction created as [|db l IH]; intros acc; [done|]. cbn. rewrite IH. by destruct (meta_ok dataDir db). Qed.

Definition accepted (dataDir : string) (seeds created : list database) : list database := seeds ++ List.filter (meta_ok dataDir) created.
(** The merge is the last specification of each name: names are distinct, a stored
    specification that passes the checks wins over a seed, and the seeds keep their order. *)
Lemma merge_spec dataDir seeds created :
  let dbs := merge dataDir seeds created in
  NoDup (db_name <$> dbs) /\ index dbs = index (accepted dataDir seeds created) /\
  (forall db, db ∈ dbs -> db ∈ seeds \/ db ∈ created /\ meta_ok dataDir db = true).
Proof.
  intros dbs. subst dbs. unfold merge. rewrite filtered_adds, <- fold_left_app. fold (accepted dataDir seeds created).
  set (l := accepted dataDir seeds created).
  destruct (add_spec l (∅, [])) as (H1 & H2 & H3 & _).
  { intros n. cbn. rewrite lookup_empty. split; [by intros []|by intros ?%not_elem_of_nil]. } { by constructor. }
  cbn [fst] in H1. fold (index l) in H1. rewrite H1. rewrite H1 in H2. set (o := (fold_left add l (∅, [])).2) in *.
  assert (Hnames : db_name <$> omap (fun n => index l !! n) o = o).
  { assert (Ho : forall n, n ∈ o -> is_Some (index l !! n)) by (intros n; apply H2). clear H2 H3. revert Ho. clearbody o. induction o as [|n o IH]; intros Ho; [done|].
    cbn. destruct (Ho n ltac:(left)) as [db Hdb]. rewrite Hdb. cbn. f_equal; [by apply index_name in Hdb as [? _]|]. apply IH. intros k Hk. apply Ho. by right. }
  assert (Hel : forall db, db ∈ omap (fun n => index l !! n) o -> index l !! db_name db = Some db).
  { intros db (n & _ & Hdb)%list_elem_of_omap. by apply index_name in Hdb as Hdb2; destruct Hdb2 as [-> _]. }
  rewrite Hnames. split; [done|]. split.
  - apply map_eq. intros n. destruct (index l !! n) as [db|] eqn:E.
    + apply index_name in E as Hn. destruct Hn as [<- _]. apply index_nodup; [by rewrite Hnames|].
      apply list_elem_of_omap. exists (db_name db). split; [|done]. apply H2. by eexists.
    + apply index_none. rewrite Hnames. intros Hin%H2. rewrite E in Hin. by destruct Hin.
  - intros db Hdb%Hel. apply index_name in Hdb as [_ Hin]. unfold l, accepted in Hin. apply elem_of_app in Hin as [?|Hin]; [by left|right].
    apply list_elem_of_In, filter_In in Hin. by rewrite <- list_elem_of_In in Hin.
Qed.
Lemma index_app a b n : index (a ++ b) !! n = match index b !! n with Some db => Some db | None => index a !! n end.
Proof.
  induction b as [|x b IH] using rev_ind; [by rewrite app_nil_r|]. rewrite app_assoc, !index_snoc, !lookup_insert. by case_decide.
Qed.

(** ** What survives a restart *)

Section Restart.
Context {K : Type}.
Variable RecommendedPragmas : pragma_set.
Variable canonicalPath : string -> string.
Variable encode : database -> option string.
Variable decode : string -> option database.
Variable sec : Resolver K.
Variable dataDir : string.
Notation Create := (Provision.Create RecommendedPragmas canonicalPath encode sec dataDir).
Notation Databases := (Meta.Databases decode db_name true).

(** The stored specifications a restart accepts. *)
Definition kept (s : Meta.store) : gmap string database := index (List.filter (meta_ok dataDir) (omap (decode_row decode db_name) (databases s))).
Definition rows_ok (s : Meta.store) : Prop := NoDup (d_name <$> databases s).

Lemma decode_row_name r db : decode_row decode db_name r = Some db -> db_name db = d_name r /\ decode (d_spec r) = Some db.
Proof. unfold decode_row. destruct (decode (d_spec r)) as [x|]; [|done]. destruct (String.eqb_spec (db_name x) (d_name r)); [|done]. by intros [= <-]. Qed.
Lemma decoded_nodup (l : list dbrow) : NoDup (d_name <$> l) -> NoDup (db_name <$> omap (decode_row decode db_name) l).
Proof.
  induction l as [|r l IH]; [done|]. cbn. rewrite NoDup_cons. intros [Hr Hl]. destruct (decode_row decode db_name r) as [db|] eqn:E; [|by apply IH].
  cbn. rewrite NoDup_cons. split; [|by apply IH]. apply decode_row_name in E as [-> _]. intros (db' & Hn & (r' & Hr' & Hd)%list_elem_of_omap)%list_elem_of_fmap.
  apply decode_row_name in Hd as [Hd _]. apply Hr, list_elem_of_fmap. exists r'. split; [congruence|done].
Qed.
Lemma filter_nodup {A} (f : A -> string) (p : A -> bool) l : NoDup (f <$> l) -> NoDup (f <$> List.filter p l).
Proof.
  induction l as [|x l IH]; [done|]. cbn. rewrite NoDup_cons. intros [Hx Hl]. destruct (p x); [|by apply IH]. cbn. rewrite NoDup_cons.
  split; [|by apply IH]. intros (y & Hy & Hin)%list_elem_of_fmap. apply Hx, list_elem_of_fmap. exists y. split; [done|].
  by apply list_elem_of_In, filter_In, proj1, list_elem_of_In in Hin.
Qed.
Lemma kept_elem s n db : rows_ok s -> kept s !! n = Some db <->
  (exists r, r ∈ databases s /\ d_name r = n /\ decode (d_spec r) = Some db) /\ db_name db = n /\ meta_ok dataDir db = true.
Proof.
  intros Hr. unfold kept. set (l := List.filter _ _). assert (Hin : forall db, db ∈ l <->
    (exists r, r ∈ databases s /\ decode_row decode db_name r = Some db) /\ meta_ok dataDir db = true).
  { intros d. unfold l. rewrite list_elem_of_In, filter_In, <- list_elem_of_In, list_elem_of_omap. done. }
  split.
  - intros [<- H]%index_name. apply Hin in H as [(r & Hrin & Hd) Hm]. apply decode_row_name in Hd as [Hn Hd]. eauto 10.
  - intros ((r & Hrin & Hn & Hd) & <- & Hm). apply index_nodup; [by apply filter_nodup, decoded_nodup|]. apply Hin. split; [|done].
    exists r. split; [done|]. unfold decode_row. by rewrite Hd, Hn, String.eqb_refl.
Qed.

(** A restart serves the accepted stored specifications, and the seeds they do not shadow. *)
Lemma restart_spec seeds s : rows_ok s -> exists dbs, reconcile decode true seeds (Some s) dataDir = Ok dbs /\
  NoDup (db_name <$> dbs) /\ index dbs = kept s ∪ index seeds /\ (forall db, db ∈ dbs -> db ∈ seeds \/ meta_ok dataDir db = true).
Proof.
  intros Hr. unfold reconcile, Meta.Databases, exec. cbn [rbind]. eexists. split; [done|].
  destruct (merge_spec dataDir seeds (omap (decode_row decode db_name) (merge_sort by_name (databases s)))) as (H1 & H2 & H3).
  split; [done|]. split; [|intros db Hdb; destruct (H3 db Hdb) as [?|[_ ?]]; auto]. rewrite H2. apply map_eq. intros n. unfold accepted. rewrite index_app, lookup_union.
  assert (Hp : index (List.filter (meta_ok dataDir) (omap (decode_row decode db_name) (merge_sort by_name (databases s)))) !! n = kept s !! n).
  { assert (Hrows : rows_ok (Store (merge_sort by_name (databases s)) [] [] [])) by (unfold rows_ok; cbn; by rewrite merge_sort_Permutation).
    change (kept (Store (merge_sort by_name (databases s)) [] [] []) !! n = kept s !! n). apply option_eq. intros db.
    rewrite !kept_elem by done. cbn [databases]. by setoid_rewrite merge_sort_Permutation. }
  rewrite Hp. destruct (kept s !! n) as [db|]; [by rewrite union_Some_l|]. by rewrite (left_id_L None _).
Qed.

(** ** Creating and dropping while the server runs *)

(** The create-time checks are the restart's. *)
Lemma create_checks_agree db : spec_ok dataDir db = meta_ok dataDir db.
Proof. done. Qed.

Lemma put_kept io now s db spec s' : rows_ok s -> encode db = Some spec -> decode spec = Some db -> meta_ok dataDir db = true ->
  Meta.Put encode db_name io now s db = Ok s' -> rows_ok s' /\ kept s' = <[db_name db := db]> (kept s).
Proof.
  intros Hr He Hd Hm. unfold Meta.Put. rewrite He. intros [_ <-]%exec_ok. set (s' := set_databases _ _).
  assert (Hr' : rows_ok s').
  { unfold rows_ok, s', upsert in *. cbn. destruct (existsb _ (databases s)) eqn:E.
    - assert (d_name <$> map (fun r => if String.eqb (d_name r) (db_name db) then DBRow (db_name db) spec (d_created r) else r) (databases s) = d_name <$> databases s) as ->; [|done].
      clear. induction (databases s) as [|r l IH]; [done|]. cbn. rewrite IH. f_equal. by destruct (String.eqb_spec (d_name r) (db_name db)).
    - rewrite fmap_app. apply NoDup_app. split; [done|]. split; [|by apply NoDup_singleton]. intros n Hn Hn2. cbn in Hn2. apply list_elem_of_singleton in Hn2 as ->.
      by apply not_exists_map in E. }
  split; [done|]. apply map_eq. intros n. apply option_eq. intros d. rewrite lookup_insert, kept_elem by done. destruct (decide (db_name db = n)) as [<-|Hne].
  - split.
    + intros ((r & Hin & Hn & Hdr) & _). apply upsert_elem in Hin as [[_ Hs]|[? _]]; [|done]. rewrite Hs in Hdr. congruence.
    + intros [= <-]. split; [|done]. destruct (upsert_has (db_name db) spec now (databases s)) as (r & Hin & Hn & Hs). exists r. split; [done|]. split; [done|]. congruence.
  - rewrite kept_elem by done. split; intros ((r & Hin & Hn & Hdr) & Hrest); (split; [|done]); exists r; (split; [|done]).
    + apply upsert_elem in Hin as [[? _]|[_ ?]]; [congruence|done].
    + apply upsert_keeps; [congruence|done].
Qed.
Lemma delete_kept s n s' : rows_ok s -> Meta.Delete true s n = Ok s' -> rows_ok s' /\ kept s' = delete n (kept s).
Proof.
  intros Hr. unfold Meta.Delete. intros [_ <-]%exec_ok. set (s' := set_databases _ _).
  assert (Hr' : rows_ok s') by (unfold rows_ok, s' in *; cbn; eapply sublist_NoDup; [exact Hr|]; apply fmap_sublist, sublist_filter).
  split; [done|]. apply map_eq. intros m. apply option_eq. intros d. rewrite lookup_delete, kept_elem by done. unfold s'. cbn [databases set_databases].
  case_decide as E.
  - subst m. split; [|done]. intros ((r & Hin & Hn & _) & _). by apply list_elem_of_filter in Hin as [? _].
  - rewrite kept_elem by done. setoid_rewrite list_elem_of_filter. split; intros ((r & Hin & Hn & Hd) & Hrest); (split; [|done]); exists r; [naive_solver|].
    split; [|done]. split; [congruence|done].
Qed.

(** A running server: the provisioner's world, the specification behind each name served,
    and the specifications of the databases dropped while the meta store failed to delete
    their record, which the code only logs. *)
Record live := Live { l_w : pworld; l_specs : gmap string database; l_stale : gmap string database }.
Inductive op : Type := OpCreate (a : answers) (db : database) | OpDrop (io_del : bool) (io_rm : string -> bool) (n : string) (del : bool).
Definition do_op (x : live) (o : op) : live :=
  match o with
  | OpCreate a db =>
      match Create a (l_w x) db with
      | (w', Ok _) => Live w' (<[db_name db := db]> (l_specs x)) (l_stale x)
      | (w', Err _) => Live w' (l_specs x) (l_stale x)
      end
  | OpDrop io rm n del =>
      match Provision.Drop io rm (l_w x) n del with
      | (w', Ok _) => Live w' (delete n (l_specs x)) (if io then delete n (l_stale x) else partial_alter (fun _ => l_specs x !! n) n (l_stale x))
      | (w', Err _) => Live w' (l_specs x) (l_stale x)
      end
  end.
Definition deletes_record (o : op) : bool := match o with OpDrop io _ _ _ => io | OpCreate _ _ => true end.
Fixpoint run_ok (x : live) (ops : list op) : Prop :=
  match ops with
  | [] => True
  | o :: rest => match o with
                 | OpCreate a db => fresh_answers a (l_w x) /\ (exists spec, encode db = Some spec /\ decode spec = Some db)
                 | OpDrop _ _ _ _ => True
                 end /\ run_ok (do_op x o) rest
  end.
Record running (seeds : list database) (x : live) : Prop := {
  rn_inv : pinv (l_w x);
  rn_names : dom (backends (w_reg (l_w x))) = dom (l_specs x);
  rn_store : exists s, w_store (l_w x) = Some s /\ rows_ok s /\ kept s ∪ index seeds = l_specs x ∪ l_stale x ∪ index seeds
}.
Lemma running_create seeds x a db : running seeds x -> run_ok x [OpCreate a db] -> running seeds (do_op x (OpCreate a db)).
Proof.
  destruct x as [w specs stale]. intros [Hp Hn (s & Hs & Hr & He)] [Ho _]. cbn [l_w l_specs l_stale do_op] in *.
  destruct Ho as (Hf & spec & Henc & Hdec). pose proof (Create_cases RecommendedPragmas canonicalPath encode sec dataDir a w db Hp Hf) as H.
  pose proof (Create_pinv RecommendedPragmas canonicalPath encode sec dataDir a w db Hp Hf) as Hp'. destruct (Create a w db) as [w' [u|e]]; cbn [fst] in Hp'.
  - destruct H as (Hok & Hb & be & h & _ & Hbe & _ & _ & _ & Hst & _). rewrite create_checks_agree in Hok.
    destruct Hst as [[_ Hst]|(s0 & s' & Hs0 & Hs' & Hput)]; [congruence|]. rewrite Hs in Hs0. injection Hs0 as <-.
    destruct (put_kept _ _ s db spec s' Hr Henc Hdec Hok Hput) as [Hr' Hk]. split; cbn [l_w l_specs l_stale]; [done| |].
    + rewrite Hbe, !dom_insert_L. by rewrite Hn.
    + exists s'. split; [done|]. split; [done|]. rewrite Hk, <- !insert_union_l. by rewrite He.
  - destruct H as [[H1 H2 H3 H4 H5 H6 H7] _]. split; cbn [l_w l_specs l_stale]; [done|by rewrite H1|]. exists s. rewrite H3. done.
Qed.
Lemma running_drop seeds x io rm n del : running seeds x -> running seeds (do_op x (OpDrop io rm n del)).
Proof.
  destruct x as [w specs stale]. intros [Hp Hn (s & Hs & Hr & He)]. cbn [l_w l_specs l_stale do_op] in *.
  pose proof (Drop_cases io rm w n del Hp) as H. pose proof (Drop_pinv io rm w n del Hp) as Hp'.
  destruct (Provision.Drop io rm w n del) as [w' [u|e]]; cbn [fst] in Hp'; [|destruct H as [-> _]; split; [done|done|by exists s]].
  destruct H as (Hsome & Hbe & _ & _ & _ & Hst & _). rewrite Hs in Hst.
  change (w_store w' = Some (match Meta.Delete io s n with Ok s' => s' | Err _ => s end)) in Hst.
  split; cbn [l_w l_specs l_stale]; [done|by rewrite Hbe, !dom_delete_L, Hn|]. destruct io.
  - destruct (Meta.Delete true s n) as [s'|e] eqn:Hdel; [|by unfold Meta.Delete, exec in Hdel].
    destruct (delete_kept s n s' Hr Hdel) as [Hr' Hk]. exists s'. split; [congruence|]. split; [done|]. rewrite Hk. apply map_eq. intros m.
    apply (f_equal (fun x => x !! m)) in He. rewrite !lookup_union in *. rewrite !lookup_delete. by case_decide.
  - exists s. split; [exact Hst|]. split; [done|]. assert (is_Some (specs !! n)) as [d Hd] by (apply elem_of_dom; rewrite <- Hn; by apply elem_of_dom).
    rewrite He. apply map_eq. intros m. rewrite !lookup_union, lookup_delete. destruct (decide (n = m)) as [<-|Hne].
    + rewrite lookup_partial_alter, Hd. rewrite decide_True by done. by destruct (stale !! n), (index seeds !! n).
    + rewrite lookup_partial_alter_ne by done. done.
Qed.
Lemma running_step seeds x o : running seeds x -> run_ok x [o] -> running seeds (do_op x o).
Proof. destruct o; [apply running_create|intros; by apply running_drop]. Qed.
Lemma nothing_stale ops : forall x, Forall (fun o => deletes_record o = true) ops -> l_stale x = ∅ -> l_stale (fold_left do_op ops x) = ∅.
Proof.
  induction ops as [|o ops IH]; intros x Ho Hx; [done|]. inversion Ho as [|? ? Hd Hr]; subst. apply IH; [done|]. destruct o as [a db|io rm n del]; cbn [do_op].
  - by destruct (Create a (l_w x) db) as [w' [|]].
  - cbn in Hd. subst io. destruct (Provision.Drop true rm (l_w x) n del) as [w' [|]]; cbn; [|done]. rewrite Hx. apply delete_empty.
Qed.
Lemma running_run seeds ops : forall x, running seeds x -> run_ok x ops -> running seeds (fold_left do_op ops x).
Proof.
  induction ops as [|o ops IH]; intros x Hx Ho; [done|]. cbn [fold_left]. destruct Ho as [H1 H2]. apply IH; [|done]. by apply running_step.
Qed.

End Restart.

(** ** The policy a start compiles *)

Definition grant_ops (dbs : list database) : list policy_op :=
  concat (map (fun db => omap (fun g => match ParseLevel (g_level g) with (lvl, true) => Some (OpGrant (db_name db) (g_principal g) lvl) | (_, false) => None end)
                           (db_grants db)) dbs).
Lemma buildPolicy_history c dbs : buildPolicy c dbs = run_policy (bool_decide (c_principals c = []) && negb (AnyGrants dbs)) (grant_ops dbs).
Proof.
  unfold buildPolicy, run_policy, grant_ops. rewrite negb_orb, negb_involutive. generalize (NewPolicy (bool_decide (c_principals c = []) && negb (AnyGrants dbs))) as p.
  induction dbs as [|db dbs IH]; intros p; [done|]. cbn [fold_left map concat]. rewrite fold_left_app, IH. f_equal. unfold grant_db.
  generalize (db_grants db) as gs. clear. intros gs. revert p. induction gs as [|g gs IH]; intros p; [done|]. cbn [fold_left omap list_omap].
  destruct (ParseLevel (g_level g)) as [lvl []]; cbn [fold_left policy_step]; apply IH.
Qed.
Lemma grant_ops_elem dbs d s l : OpGrant d s l ∈ grant_ops dbs <->
  exists db g, db ∈ dbs /\ g ∈ db_grants db /\ db_name db = d /\ g_principal g = s /\ ParseLevel (g_level g) = (l, true).
Proof.
  unfold grant_ops. rewrite list_elem_of_In, in_concat. split.
  - intros (x & (db & <- & Hdb)%in_map_iff & Hin). apply list_elem_of_In, list_elem_of_omap in Hin as (g & Hg & E).
    apply list_elem_of_In in Hdb. exists db, g. destruct (ParseLevel (g_level g)) as [lvl []]; [|done]. by injection E as -> -> ->.
  - intros (db & g & Hdb & Hg & <- & <- & E). eexists. split; [apply in_map_iff; exists db; split; [done|by apply list_elem_of_In]|].
    apply list_elem_of_In, list_elem_of_omap. exists g. by rewrite E.
Qed.
Lemma granted_ge ops d s l : (forall o, o ∈ ops -> exists d s l, o = OpGrant d s l) ->
  level_int l <= level_int (granted ops d s) <-> l = LNone \/ exists l', OpGrant d s l' ∈ ops /\ level_int l <= level_int l'.
Proof.
  induction ops as [|o ops IH]; intros Hg.
  - cbn. split; [destruct l; cbn; try lia; by left|]. intros [->|(l' & []%not_elem_of_nil & _)]. done.
  - destruct (Hg o ltac:(left)) as (d' & s' & l0 & ->). cbn [granted]. specialize (IH ltac:(intros o Ho; apply Hg; by right)).
    destruct (String.eqb_spec d d') as [->|Hd], (String.eqb_spec s s') as [->|Hs]; cbn [andb].
    2,3,4: rewrite IH; split; intros [?|(l' & Hin & Hle)]; [by left|right; exists l'; split; [by right|done]|by left|right];
      apply elem_of_cons in Hin as [E|Hin]; [congruence|by exists l'].
    unfold max_level. split.
    + intros H. destruct (Z.gtb_spec (level_int l0) (level_int (granted ops d' s'))); [right; exists l0; split; [left|done]|].
      apply IH in H as [?|(l' & Hin & Hle)]; [by left|right]. exists l'. split; [by right|done].
    + intros [->|(l' & Hin & Hle)]; [cbn; destruct (_ >? _); apply level_int_nonneg|].
      assert (level_int l <= level_int l0 \/ level_int l <= level_int (granted ops d' s')).
      { apply elem_of_cons in Hin as [[= ->]|Hin]; [by left|right]. apply IH. right. by exists l'. }
      destruct (Z.gtb_spec (level_int l0) (level_int (granted ops d' s'))); lia.
Qed.

(** (start-up policy) The policy is open exactly when the configuration declares no
    principal and none of the databases to be served carries a grant, so never with the
    control plane or self-service enrollment on, whatever the meta store holds.  When it is
    not open, a principal has a level on a database exactly when the specification served
    under that name carries a grant of at least that level to it or to everyone: nothing is
    granted that no specification states, no level name that does not parse counts, and the
    anonymous principal only has what is granted to everyone. *)
Theorem start_policy_is_the_grants c dbs :
  (Authz.Open (buildPolicy c dbs) = true <-> c_principals c = [] /\ Forall (fun d => db_grants d = []) dbs) /\
  (sound_config c -> cp_enabled (c_control c) = true \/ Config.e_enabled (c_enroll c) = true -> Authz.Open (buildPolicy c dbs) = false) /\
  (Authz.Open (buildPolicy c dbs) = false -> forall pr n l, l <> LNone ->
     level_int l <= level_int (Level (buildPolicy c dbs) pr n) <->
     exists db g l', db ∈ dbs /\ g ∈ db_grants db /\ db_name db = n /\ ParseLevel (g_level g) = (l', true) /\ level_int l <= level_int l' /\
       (g_principal g = Wildcard \/ IsAnonymous pr = false /\ g_principal g = Authz.Name (default Anonymous pr))).
Proof.
  rewrite buildPolicy_history. unfold Authz.Open. rewrite open_run.
  assert (Hany : AnyGrants dbs = false <-> Forall (fun d => db_grants d = []) dbs).
  { unfold AnyGrants. rewrite Forall_forall. split.
    - intros H d Hd. destruct (decide (db_grants d = [])) as [|Hne]; [done|]. assert (existsb (fun d => negb (bool_decide (db_grants d = []))) dbs = true); [|congruence].
      apply existsb_exists. exists d. split; [by apply list_elem_of_In|]. by rewrite bool_decide_false.
    - intros H. apply not_true_iff_false. intros (d & Hd & Hne)%existsb_exists. apply list_elem_of_In in Hd. rewrite bool_decide_true in Hne by (by apply H). done. }
  split; [rewrite andb_true_iff, bool_decide_eq_true, negb_true_iff, Hany; done|]. split.
  - intros Hs Hcp. assert (Hon : cp_enabled (c_control c) = true) by (destruct Hcp as [?|He]; [done|by destruct (so_enroll _ Hs He) as (_ & ? & _)]).
    destruct (so_admins _ Hs) as [Hadm Hne]. specialize (Hne Hon). rewrite bool_decide_false; [done|]. intros Hp.
    destruct (cp_admins (c_control c)) as [|a l]; [done|]. apply Forall_cons_1, proj1 in Hadm. rewrite Hp in Hadm. by apply not_elem_of_nil in Hadm.
  - intros -> pr n l Hl. rewrite Level_refines_history.
    assert (Hgr : forall o, o ∈ rev (grant_ops dbs) -> exists d s l, o = OpGrant d s l).
    { intros o Ho%list_elem_of_In%in_rev. unfold grant_ops in Ho. apply in_concat in Ho as (x & (db & <- & _)%in_map_iff & Hin).
      apply list_elem_of_In, list_elem_of_omap in Hin as (g & _ & E). destruct (ParseLevel _) as [lvl []]; [|done]. injection E as <-. eauto. }
    assert (Hst : forall s, level_int l <= level_int (granted (rev (grant_ops dbs)) n s) <-> exists db g l', db ∈ dbs /\ g ∈ db_grants db /\ db_name db = n /\
        ParseLevel (g_level g) = (l', true) /\ level_int l <= level_int l' /\ g_principal g = s).
    { intros s. rewrite granted_ge by done. split.
      - intros [?|(l' & Hin & Hle)]; [done|]. apply list_elem_of_In, in_rev, list_elem_of_In, grant_ops_elem in Hin as (db & g & ? & ? & ? & ? & ?). exists db, g, l'. done.
      - intros (db & g & l' & Hdb & Hg & Hn & Hp & Hle & Hs). right. exists l'. split; [|done]. rewrite list_elem_of_In, <- in_rev, <- list_elem_of_In. apply grant_ops_elem. by exists db, g. }
    assert (Hmax : forall a b, level_int l <= level_int (max_level a b) <-> level_int l <= level_int a \/ level_int l <= level_int b).
    { intros a b. unfold max_level. destruct (Z.gtb_spec (level_int a) (level_int b)); lia. }
    rewrite Hmax, Hst. assert (Hn : ~ level_int l <= level_int LNone) by (destruct l; cbn; [done|lia|lia|lia]). split.
    + intros [(db & g & l' & H)|H]; [exists db, g, l'; naive_solver|]. destruct (IsAnonymous pr) eqn:E; [done|]. apply Hst in H as (db & g & l' & H). exists db, g, l'. naive_solver.
    + intros (db & g & l' & H1 & H2 & H3 & H4 & H5 & [H6|[H6 H7]]); [left; by exists db, g, l'|right]. rewrite H6. apply Hst. by exists db, g, l'.
Qed.

(** ** A concrete history *)

Definition demo_seeds : list database := [demo_file "seed" "seed.db"].
Definition demo_start : pworld :=
  PWorld (Registry.New {[ "seed"%string := Registry.Backend_ "file" false (Some "/data/seed.db"%string) ]}) (Some empty_store) None None ∅ [].
Definition demo_unlisted (n : string) : op := OpDrop false (fun _ => true) n false.
Definition demo_ops : list op :=
  [OpCreate (demo_ok 1) (demo_file "a" "a.db"); OpCreate (demo_ok 2) (demo_file "b" "b.db"); OpDrop true (fun _ => true) "seed" false; demo_unlisted "b"].
Definition demo_run := fold_left (do_op no_pragmas id demo_encode demo_resolver "/data") demo_ops (Live demo_start (index demo_seeds) ∅).

