(* ===== verification/Serverd.v ===== *)
(** * serverd: start-up and shutdown

    [Run] and [Shutdown] of [src/serverd/serverd.go] and the feature modules of
    [src/serverd/feature.go]: the stages in their order over the real components
    ([Reconcile], [Storage.All], [Registry.Warm], [Session.NewStore], [Enroll.New] and
    [LoadExisting], [Transport.Serve]), with what each failure tears down.  What the
    outside answers at each stage is a field of [env]; [proc] is what the process holds,
    with a log of what it closed. *)
From S2P Require Import Prelude GoStd Crypto Wire Authz Limits Engine Feed Session Config Secret Storage Registry Meta Auth Hrana HttpApi Endpoints Provision.
From S2P Require Import Enroll Reconcile Transport.
From stdpp Require Import sorting.
#[local] Open Scope Z_scope.

(** ** The parts of the configuration only start-up reads *)

Record limits_ := Limits_ {
  MaxRows : Z; MaxResultBytes : Z; MaxRequestBytes : Z; MaxBlobBytes : Z; MaxExportBytes : Z; MaxRestoreBytes : Z;
  StatementTimeout : Z; TxIdleTimeout : Z; MaxTxLifetime : Z; MaxSessionsPerDB : Z; MaxConcurrentPerDB : Z; IdleHandleTimeout : Z;
  PerPrincipalRPS : SpecFloat.spec_float
}.
Record server_config := ServerConfig {
  sc_config : config; sc_limits : limits_; sc_routing : HttpApi.routing; sc_data_dir : string; sc_allow_attach : bool
}.
Definition orDefault (d def : Z) : Z := if d <=? 0 then def else d.
Definition warmTimeout : Z := 30 * second.
Definition defaultStatementTimeout : Z := 30 * second.
Definition defaultTxIdleTimeout : Z := 30 * second.
Definition defaultMaxTxLifetime : Z := 300 * second.
Definition reapInterval : Z := 15 * second.

(** ** Optional features *)

(** [src/config/section.go]: top-level keys a feature owns.  A node is YAML's; decoding one
    is the feature's. *)
Section Sections.
Context {Node : Type}.
Definition RegisterSection (registered : gset string) (key : string) : gset string := {[key]} ∪ registered.
(** [nodes]: the file's top-level mapping, if it parses. *)
Definition captureSections (registered : gset string) (nodes : option (gmap string Node)) (sections : gmap string Node) : gmap string Node :=
  match nodes with None => sections | Some m => filter (fun kn => kn.1 ∈ registered) m ∪ sections end.
Definition DecodeSection {A} (sections : gmap string Node) (key : string) (dec : Node -> result string A) : result string (option A) :=
  match sections !! key with
  | None => Ok None
  | Some n => match dec n with Ok a => Ok (Some a) | Err m => Err m end
  end.

(** A feature sees its section exactly when it registered the key and the file has it. *)
Lemma section_seen registered nodes key {A} (dec : Node -> result string A) :
  DecodeSection (captureSections registered nodes ∅) key dec =
  match nodes ≫= (fun m => m !! key) with
  | Some n => if bool_decide (key ∈ registered) then match dec n with Ok a => Ok (Some a) | Err m => Err m end else Ok None
  | None => Ok None
  end.
Proof.
  unfold DecodeSection, captureSections. destruct nodes as [m|]; cbn; [|by rewrite lookup_empty]. rewrite (right_id_L ∅ (∪)), map_lookup_filter.
  destruct (m !! key) as [n|]; cbn; [|done]. case_bool_decide; case_guard; done.
Qed.
End Sections.


(** A registered feature: its name, and what [Setup] gives: an error, or whether there is a
    closer. *)
Record feature := Feature { f_name : string; f_setup : result string bool }.
Definition RegisterFeature (fs : list feature) (f : feature) : list feature := fs ++ [f].

(** ** What the process holds *)

Inductive event : Type :=
| StoppedListeners | StoppedReaper | ClosedFeature (f : string) | ClosedSessions | ClosedHandle (h : nat) | ClosedStore.

Section Serverd.
Context {K W B : Type}.
Notation handler := (@Transport.handler W B).
Notation set_ := (@Transport.set_ W B).
Variable RecommendedPragmas : pragma_set.
Variable canonicalPath : string -> string.
Variable decode : string -> option database.
Variable sec_bytes : Resolver K -> string -> result Secret.secerr string.
Variable key_of : string -> option string.
(** The authentication middleware of a listener around a handler, and the HTTP handler over
    its parts: what [Auth.Wrap] and [HttpApi], [Streams], ... define, as functions of
    requests and headers. *)
Variable middleware : Auth.authenticator -> listener -> handler -> handler.
Variable http_handler : data_handler -> Registry.registry -> option broker -> limiter -> engine -> handler.

Record env := Env {
  en_secrets : result string (Resolver K);      (* secret.New *)
  en_meta : result string Meta.store;           (* meta.Open *)
  en_list : bool;                               (* reading its databases *)
  en_exists : string -> bool;
  en_open : string -> result string nat;        (* what opening each database gives *)
  en_now : Z;
  en_key : result string (list byte);           (* the session store's random key *)
  en_authn : result string Auth.authenticator;  (* auth.New *)
  en_enrolled : bool;                           (* reading the enrolled principals *)
  en_features : list feature;
  en_net : Transport.net
}.

Record proc := Proc {
  p_store : option Meta.store;
  p_reg : option Registry.registry;
  p_reaper : bool;                    (* the background loops run *)
  p_sessions : option Session.store;
  p_features : list string;           (* features whose closer is still to be called *)
  p_servers : option set_;
  p_log : list event
}.
Definition proc0 : proc := Proc None None false None [] None [].

Definition log (p : proc) (es : list event) : proc :=
  Proc (p_store p) (p_reg p) (p_reaper p) (p_sessions p) (p_features p) (p_servers p) (p_log p ++ es).
Definition with_store (p : proc) (s : option Meta.store) : proc :=
  Proc s (p_reg p) (p_reaper p) (p_sessions p) (p_features p) (p_servers p) (p_log p).
Definition with_reg (p : proc) (r : Registry.registry) : proc :=
  Proc (p_store p) (Some r) (p_reaper p) (p_sessions p) (p_features p) (p_servers p) (p_log p).
Definition with_sessions (p : proc) (s : option Session.store) : proc :=
  Proc (p_store p) (p_reg p) true s (p_features p) (p_servers p) (p_log p).
Definition with_features (p : proc) (fs : list string) : proc :=
  Proc (p_store p) (p_reg p) (p_reaper p) (p_sessions p) fs (p_servers p) (p_log p).
Definition with_servers (p : proc) (s : option set_) : proc :=
  Proc (p_store p) (p_reg p) (p_reaper p) (p_sessions p) (p_features p) s (p_log p).

(** ** Tearing down *)

Definition closeStore (p : proc) : proc :=
  match p_store p with None => p | Some _ => log (with_store p None) [ClosedStore] end.
Definition closeRegistry (p : proc) : proc :=
  match p_reg p with
  | None => p
  | Some r => let '(r', pending) := Close_swap r in log (with_reg p r') (map ClosedHandle (Close_drain r pending))
  end.
Definition stopReaper (p : proc) : proc :=
  log (Proc (p_store p) (p_reg p) false (p_sessions p) (p_features p) (p_servers p) (p_log p)) [StoppedReaper].
Definition closeSessions (p : proc) : proc :=
  log (Proc (p_store p) (p_reg p) (p_reaper p) ((fun s => (Session.CloseAll s).1) <$> p_sessions p) (p_features p) (p_servers p) (p_log p)) [ClosedSessions].
(** The four lines every late failure runs. *)
Definition teardown (p : proc) : proc := closeStore (closeRegistry (closeSessions (stopReaper p))).

(** ** Starting *)

Definition handler_options (c : server_config) (policy : Authz.policy) : data_handler :=
  let l := sc_limits c in
  NewData (HttpApi.New (sc_routing c) true
             ([WithMaxBody (MaxRequestBytes l); WithSessions true; WithPolicy (Some policy)] ++
              (if sc_allow_attach c then [WithAttach true (cp_admins (c_control (sc_config c)))] else [])))
    ([WithMaxBlob (MaxBlobBytes l)] ++ (if MaxExportBytes l >? 0 then [WithMaxExport (MaxExportBytes l)] else [])).

(** Every database with a path is observed from its first connection on; the feeds take
    addresses from 0. *)
Definition observe (buf max : Z) (bs : gmap string (Storage.backend K)) : broker :=
  (fold_left (fun (acc : broker * nat) nb => match Storage.Path nb.2 with
     | Some p => (Feed.Register canonicalPath acc.1 nb.1 p acc.2, S acc.2)
     | None => acc end) (map_to_list bs) (Feed.New buf max, 0%nat)).1.

(** Features are set up in order of registration; the first error stops. *)
Fixpoint setup_features (fs : list feature) (p : proc) : proc * result string unit :=
  match fs with
  | [] => (p, Ok tt)
  | f :: rest =>
      match f_setup f with
      | Err m => (p, Err ("feature " +:+ f_name f +:+ ": " +:+ m))
      | Ok closer => setup_features rest (if closer then with_features p (p_features p ++ [f_name f]) else p)
      end
  end.

(** Self-service enrollment: the service, and the principals enrolled before. *)
Definition enrollment (e : env) (sec : Resolver K) (c : config) (store : Meta.store) (authn : Auth.authenticator) (policy : Authz.policy)
    : result string (Auth.authenticator * Authz.policy) :=
  if negb (Config.e_enabled (c_enroll c)) then Ok (authn, policy) else
  match Enroll.New (sec_bytes sec) (c_enroll c) (pv_enabled (e_provision (c_enroll c))) with
  | None => Err "init enrollment"%string
  | Some svc =>
      match LoadExisting key_of (en_enrolled e) (EWorld (W := unit) svc store authn policy tt) with
      | (_, Err _) => Err "load enrolled principals"%string
      | (w, Ok _) => Ok (e_auth w, e_pol w)
      end
  end.

Record instance := Instance {
  in_specs : list database; in_backends : gmap string (Storage.backend K); in_policy : Authz.policy; in_authn : Auth.authenticator;
  in_feed : option broker; in_limiter : limiter; in_engine : engine; in_handler : data_handler
}.

(** From the open registry to the listeners. *)
Definition control_plane (c : server_config) (e : env) (sec : Resolver K) (authn : Auth.authenticator) (policy : Authz.policy) (p : proc)
    : proc * result string (Auth.authenticator * Authz.policy) :=
  match p_store p with
  | None => (p, Ok (authn, policy))
  | Some s =>
      match enrollment e sec (sc_config c) s authn policy with
      | Err m => (p, Err m)
      | Ok ap => match setup_features (en_features e) p with (p1, Err m) => (p1, Err m) | (p1, Ok _) => (p1, Ok ap) end
      end
  end.
Definition serve (c : server_config) (e : env) (sec : Resolver K) (dbs : list database) (bs : gmap string (Storage.backend K)) (reg : Registry.registry)
    (feed : option broker) (authn : Auth.authenticator) (p : proc) : proc * result string instance :=
  let policy := buildPolicy (sc_config c) dbs in
  let l := sc_limits c in
  let lim := Limits.New (PerPrincipalRPS l) (MaxConcurrentPerDB l) in
  let eng := NewEngine (MaxRows l) (MaxResultBytes l) in
  match control_plane c e sec authn policy p with
  | (p1, Err m) => (teardown p1, Err m)
  | (p1, Ok (authn, policy)) =>
      let dh := handler_options c policy in
      match Serve (en_net e) (sc_config c) (Some (middleware authn)) (http_handler dh reg feed lim eng) with
      | (s, Err m) => (teardown p1, Err ("start listeners: " +:+ m))
      | (s, Ok _) => (with_servers p1 (Some s), Ok (Instance dbs bs policy authn feed lim eng dh))
      end
  end.
Definition open_databases (c : server_config) (e : env) (sec : Resolver K) (dbs : list database) (bs : gmap string (Storage.backend K)) (p : proc)
    : proc * result string instance :=
  let cf := c_feed (sc_config c) in
  let feed := if f_enabled cf then Some (observe (f_buffer cf) (f_max_subscribers cf) bs) else None in
  match Warm (Registry.New (reg_view <$> bs)) (en_open e) (en_now e) (db_name <$> c_databases (sc_config c)) 0 with
  | (r, Err _) => (closeStore (closeRegistry (with_reg p r)), Err "open seed databases"%string)
  | (r, Ok _) =>
      let p1 := with_reg p r in
      let l := sc_limits c in
      match en_key e with
      | Err _ => (closeStore (closeRegistry (stopReaper p1)), Err "init sessions"%string)
      | Ok key =>
          let st := Session.NewStore key (orDefault (TxIdleTimeout l) defaultTxIdleTimeout) (orDefault (MaxTxLifetime l) defaultMaxTxLifetime) (MaxSessionsPerDB l) in
          let p2 := with_sessions p1 (Some st) in
          match en_authn e with
          | Err _ => (closeStore (closeRegistry (stopReaper p2)), Err "init auth"%string)
          | Ok authn => serve c e sec dbs bs r feed authn p2
          end
      end
  end.
Definition Run (c : server_config) (e : env) : proc * result string instance :=
  match en_secrets e with
  | Err _ => (proc0, Err "init secrets"%string)
  | Ok sec =>
      match (if cp_enabled (c_control (sc_config c)) then match en_meta e with Ok s => Ok (Some s) | Err m => Err m end else Ok None) with
      | Err _ => (proc0, Err "open meta store"%string)
      | Ok store =>
          let p := with_store proc0 store in
          match reconcile decode (en_list e) (c_databases (sc_config c)) store (sc_data_dir c) with
          | Err _ => (closeStore p, Err "reconcile databases"%string)
          | Ok dbs =>
              match Storage.All RecommendedPragmas (en_exists e) dbs sec (sc_data_dir c) with
              | Err _ => (closeStore p, Err "build backends"%string)
              | Ok bs => open_databases c e sec dbs bs p
              end
          end
      end
  end.

(** ** Shutting down *)

Definition closeFeatures (p : proc) : proc := log (with_features p []) (map ClosedFeature (rev (p_features p))).
Definition stopServers (p : proc) : proc := log (with_servers p (Transport.Shutdown <$> p_servers p)) [StoppedListeners].
Definition Shutdown (p : proc) : proc :=
  closeStore (closeRegistry (closeSessions (closeFeatures (stopReaper (stopServers p))))).

(** ** What a start leaves behind *)

Definition closed_handles (es : list event) : list nat := omap (fun x => match x with ClosedHandle h => Some h | _ => None end) es.
Lemma closed_handles_map hs : closed_handles (map ClosedHandle hs) = hs.
Proof. induction hs as [|h hs IH]; [done|]. cbn. by f_equal. Qed.
Lemma closed_handles_app a b : closed_handles (a ++ b) = closed_handles a ++ closed_handles b.
Proof. apply omap_app. Qed.

(** The registry as a start leaves it: a run in which nobody holds a reference, and every
    handle was opened for the seed it is recorded under. *)
Definition warmed_registry (seeds : list string) (open : string -> result string nat) (bs : gmap string Registry.backend) (r : Registry.registry) (hn : gmap nat string) : Prop :=
  rtc Registry.step (init_world bs) (Registry.World r [] [] [] [] hn) /\ backends r = bs /\
  forall h n, hn !! h = Some n -> n ∈ seeds /\ open n = Ok h.

Lemma drained bs r hn : rtc Registry.step (init_world bs) (Registry.World r [] [] [] [] hn) ->
  let hs := Close_drain r (Close_swap r).2 in NoDup hs /\ forall h, h ∈ hs <-> is_Some (hn !! h).
Proof.
  intros Hr hs. destruct (close_closes_every_handle _ _ Hr) as [Hn Ha]. cbn [Registry.reg Registry.closing Registry.closed Registry.hname] in *. rewrite app_nil_r in *.
  split; [exact Hn|]. intros h. split; [|intros [n Hh]; by apply (Ha h n)].
  apply rinv_reachable in Hr. intros (a & Ha' & Hh)%list_elem_of_omap. apply bind_Some in Hh as (x & Hx & Hd).
  unfold Close_swap, vals in Ha'. cbn in Ha'. apply list_elem_of_fmap in Ha' as ([n a'] & -> & Hin%elem_of_map_to_list).
  destruct (v_handle _ Hr n a' x h Hin Hx Hd) as [Hn' _]. by eexists.
Qed.

Lemma warm_spec seeds open now bs : NoDup seeds ->
  (forall n m h, n ∈ seeds -> m ∈ seeds -> open n = Ok h -> open m = Ok h -> n = m) ->
  let '(r, res) := Warm (Registry.New bs) open now seeds 0 in
  exists hn, warmed_registry seeds open bs r hn /\ warm_result open seeds (Registry.New bs) r res.
Proof.
  intros Hnd Hinj. unfold Warm. assert (Hin : forall n, n ∈ merge_sort name_le seeds <-> n ∈ seeds) by (intros n; by rewrite merge_sort_Permutation).
  pose proof (warm_run open now (merge_sort name_le seeds) 0 (Registry.New bs) ∅) as H.
  destruct (warm_loop open now (merge_sort name_le seeds) 0 (Registry.New bs)) as [r res].
  destruct H as (hn & Hrun & Hbe & Hres & Hhn & _).
  - by rewrite merge_sort_Permutation.
  - by intros n _.
  - by intros b _.
  - by intros n x ?.
  - by intros n h _ _.
  - intros n m h. rewrite !Hin. apply Hinj.
  - exists hn. split; [split; [exact Hrun|]; split; [done|]|].
    + intros h n Hh. destruct (Hhn h n Hh) as [Hx|[Hx ?]]; [by rewrite lookup_empty in Hx|]. by rewrite <- Hin.
    + destruct res as [u|[n x]]; cbn in *; [intros n Hn; apply Hres; by apply Hin|]. by rewrite <- Hin.
Qed.

(** Nothing is held: the store is closed, the loops and listeners are not running, no
    handle is open, and each handle that was ever opened was closed once. *)
Record released (e : env) (seeds : list string) (p : proc) : Prop := {
  rl_store : p_store p = None;
  rl_reaper : p_reaper p = false;
  rl_servers : p_servers p = None;
  rl_entries : forall r, p_reg p = Some r -> entries r = ∅;
  rl_handles : closed_handles (p_log p) = [] /\ p_reg p = None \/
    exists bs r hn, warmed_registry seeds (en_open e) bs r hn /\ NoDup (closed_handles (p_log p)) /\ forall h, h ∈ closed_handles (p_log p) <-> is_Some (hn !! h)
}.
(** The closers of the features set up before the first that failed. *)
Fixpoint features_done (fs : list feature) : list string :=
  match fs with
  | [] => []
  | f :: rest => match f_setup f with Err _ => [] | Ok closer => (if closer then [f_name f] else []) ++ features_done rest end
  end.
Lemma setup_features_spec fs : forall p, let '(p', r) := setup_features fs p in
  p' = with_features p (p_features p ++ features_done fs).
Proof.
  induction fs as [|f fs IH]; intros p; cbn [setup_features features_done]; [rewrite app_nil_r; by destruct p|].
  destruct (f_setup f) as [closer|m]; [|rewrite app_nil_r; by destruct p].
  specialize (IH (if closer then with_features p (p_features p ++ [f_name f]) else p)). destruct (setup_features fs _) as [p' r]. rewrite IH.
  destruct closer; cbn; [by rewrite <- app_assoc|done].
Qed.
Lemma control_plane_spec c e sec authn policy p : let '(p', r) := control_plane c e sec authn policy p in
  exists fs, p' = with_features p (p_features p ++ fs) /\ (fs = [] \/ fs = features_done (en_features e)) /\
    (forall ap, r = Ok ap -> fs = (if p_store p then features_done (en_features e) else []) /\
      match p_store p with None => ap = (authn, policy) | Some s => enrollment e sec (sc_config c) s authn policy = Ok ap end).
Proof.
  assert (H0 : p = with_features p (p_features p ++ [])) by (rewrite app_nil_r; by destruct p).
  unfold control_plane. destruct (p_store p) as [s|] eqn:Es.
  - destruct (enrollment e sec (sc_config c) s authn policy) as [ap|m] eqn:Een; [|exists []; split; [done|]; split; [by left|done]].
    pose proof (setup_features_spec (en_features e) p) as H. destruct (setup_features (en_features e) p) as [p1 [u|m]]; subst p1; eexists; (split; [done|]);
      (split; [by right|]); [|done]. by intros ap' [= <-].
  - exists []. split; [done|]. split; [by left|]. by intros ap [= <-].
Qed.

(** Closing the registry and the store is what every failure ends with. *)
Lemma closing_released e seeds bs r hn p : p_reg p = Some r -> warmed_registry seeds (en_open e) bs r hn -> p_reaper p = false -> p_servers p = None ->
  closed_handles (p_log p) = [] -> released e seeds (closeStore (closeRegistry p)) /\ p_features (closeStore (closeRegistry p)) = p_features p.
Proof.
  intros Hr Hw Hre Hse Hlog. destruct (drained _ _ _ (proj1 Hw)) as [Hnd Hin].
  assert (Hs : forall q, p_store (closeStore q) = None /\ p_reaper (closeStore q) = p_reaper q /\ p_servers (closeStore q) = p_servers q /\
     p_reg (closeStore q) = p_reg q /\ p_features (closeStore q) = p_features q /\ closed_handles (p_log (closeStore q)) = closed_handles (p_log q)).
  { intros q. unfold closeStore. destruct (p_store q) eqn:E; cbn; [|by rewrite E]. rewrite closed_handles_app, app_nil_r. done. }
  destruct (Hs (closeRegistry p)) as (H1 & H2 & H3 & H4 & H5 & H6). unfold closeRegistry in *. rewrite Hr in *. cbn [Close_swap] in *. cbn [log with_reg p_store p_reg p_reaper p_servers p_features p_log] in H2, H3, H4, H5, H6.
  assert (Hc : closed_handles (p_log p ++ map ClosedHandle (Close_drain r (vals (entries r)))) = Close_drain r (Close_swap r).2)
    by (rewrite closed_handles_app, Hlog, closed_handles_map; done).
  split; [|exact H5]. constructor; [exact H1|by rewrite H2|by rewrite H3| |].
  - intros r' Hr'. rewrite H4 in Hr'. by injection Hr' as <-.
  - right. exists bs, r, hn. rewrite H6, Hc. done.
Qed.

Definition seed_names (c : server_config) : list string := db_name <$> c_databases (sc_config c).

(** A server that came up. *)
Record ready (c : server_config) (e : env) (sec : Resolver K) (p : proc) (i : instance) : Prop := {
  rd_specs : reconcile decode (en_list e) (c_databases (sc_config c)) (p_store p) (sc_data_dir c) = Ok (in_specs i);
  rd_backends : Storage.All RecommendedPragmas (en_exists e) (in_specs i) sec (sc_data_dir c) = Ok (in_backends i);
  rd_reaper : p_reaper p = true;
  rd_log : p_log p = [];
  rd_features : p_features p = (if p_store p then features_done (en_features e) else []);
  rd_policy : match p_store p with
              | None => in_policy i = buildPolicy (sc_config c) (in_specs i)
              | Some s => exists authn, en_authn e = Ok authn /\
                  enrollment e sec (sc_config c) s authn (buildPolicy (sc_config c) (in_specs i)) = Ok (in_authn i, in_policy i)
              end;
  rd_handler : in_handler i = handler_options c (in_policy i);
  rd_registry : exists r hn, p_reg p = Some r /\ warmed_registry (seed_names c) (en_open e) (reg_view <$> in_backends i) r hn /\
    forall n, n ∈ seed_names c -> exists x h t, en_open e n = Ok h /\ entries r !! n = Some x /\
      heap r !! x = Some (Registry.Entry n false (Some h) None 0 t false);
  rd_servers : exists s, p_servers p = Some s /\ s_bound s = list_to_set (map sv_sock (servers s)) /\
    map sv_listener (servers s) ≡ₚ List.filter Transport.known (c_listeners (sc_config c))
}.

Lemma serve_spec c e sec dbs bs r hn feed authn p : warmed_registry (seed_names c) (en_open e) (reg_view <$> bs) r hn ->
  (forall n, n ∈ seed_names c -> exists x h t, en_open e n = Ok h /\ entries r !! n = Some x /\ heap r !! x = Some (Registry.Entry n false (Some h) None 0 t false)) ->
  p_reg p = Some r -> p_servers p = None -> p_log p = [] -> p_features p = [] -> p_reaper p = true -> en_authn e = Ok authn ->
  reconcile decode (en_list e) (c_databases (sc_config c)) (p_store p) (sc_data_dir c) = Ok dbs ->
  Storage.All RecommendedPragmas (en_exists e) dbs sec (sc_data_dir c) = Ok bs ->
  match serve c e sec dbs bs r feed authn p with
  | (p', Err _) => released e (seed_names c) p' /\ (p_features p' = [] \/ p_features p' = features_done (en_features e))
  | (p', Ok i) => ready c e sec p' i
  end.
Proof.
  intros Hw Hseeds Hr Hse Hlog Hfe Hre Hau Hrec Hall. unfold serve.
  pose proof (control_plane_spec c e sec authn (buildPolicy (sc_config c) dbs) p) as Hc.
  destruct (control_plane c e sec authn (buildPolicy (sc_config c) dbs) p) as [p1 [[authn' policy']|m]]; destruct Hc as (fs & -> & Hfs & Hok); rewrite Hfe in *; cbn [app] in *.
  2:{ destruct (closing_released e (seed_names c) _ r hn (closeSessions (stopReaper (with_features p fs))) Hr Hw eq_refl Hse) as [H1 H2];
        [cbn; by rewrite Hlog|]. split; [exact H1|]. unfold teardown. rewrite H2. exact Hfs. }
  set (hd := http_handler _ _ _ _ _). pose proof (start_all_spec (en_net e) (sc_config c) (Some (middleware authn')) hd (c_listeners (sc_config c)) Transport.empty_set_ empty_set_inv) as Hst.
  unfold Serve. destruct (start_all (en_net e) Transport.empty_set_ (sc_config c) (Some (middleware authn')) hd (c_listeners (sc_config c))) as [s [u|m]].
  2:{ destruct (closing_released e (seed_names c) _ r hn (closeSessions (stopReaper (with_features p fs))) Hr Hw eq_refl Hse) as [H1 H2];
        [cbn; by rewrite Hlog|]. split; [exact H1|]. unfold teardown. rewrite H2. exact Hfs. }
  destruct Hst as (Hinv & l & L1 & L2 & L3). change (servers Transport.empty_set_) with (@nil (@server W B)) in L1. cbn [app] in L1.
  destruct (Hok _ eq_refl) as [Hf He]. constructor; cbn; try done.
  - destruct (p_store p) as [s0|]; [by exists authn|]. by injection He as -> ->.
  - exists r, hn. done.
  - exists s. split; [done|]. split; [apply Hinv|]. by rewrite L1.
Qed.

Lemma open_databases_spec c e sec dbs bs p : NoDup (seed_names c) ->
  (forall n m h, n ∈ seed_names c -> m ∈ seed_names c -> en_open e n = Ok h -> en_open e m = Ok h -> n = m) ->
  p_servers p = None -> p_log p = [] -> p_features p = [] -> p_reaper p = false ->
  reconcile decode (en_list e) (c_databases (sc_config c)) (p_store p) (sc_data_dir c) = Ok dbs ->
  Storage.All RecommendedPragmas (en_exists e) dbs sec (sc_data_dir c) = Ok bs ->
  match open_databases c e sec dbs bs p with
  | (p', Err _) => released e (seed_names c) p' /\ (p_features p' = [] \/ p_features p' = features_done (en_features e))
  | (p', Ok i) => ready c e sec p' i
  end.
Proof.
  intros Hnd Hinj Hse Hlog Hfe Hre Hrec Hall. unfold open_databases.
  pose proof (warm_spec (seed_names c) (en_open e) (en_now e) (reg_view <$> bs) Hnd Hinj) as Hw. fold (seed_names c).
  destruct (Warm _ (en_open e) (en_now e) (seed_names c) 0) as [r [u|m]]; destruct Hw as (hn & Hw & Hres).
  2:{ destruct (closing_released e (seed_names c) _ r hn (with_reg p r) eq_refl Hw Hre Hse) as [H1 H2]; [cbn; by rewrite Hlog|]. split; [done|]. left. by rewrite H2. }
  destruct (en_key e) as [key|m].
  2:{ destruct (closing_released e (seed_names c) _ r hn (stopReaper (with_reg p r)) eq_refl Hw eq_refl Hse) as [H1 H2]; [cbn; by rewrite Hlog|].
      split; [done|]. left. by rewrite H2. }
  set (p2 := with_sessions _ _). destruct (en_authn e) as [authn|m] eqn:Hau.
  2:{ destruct (closing_released e (seed_names c) _ r hn (stopReaper p2) eq_refl Hw eq_refl Hse) as [H1 H2]; [cbn; by rewrite Hlog|].
      split; [done|]. left. by rewrite H2. }
  by apply (serve_spec _ _ _ _ _ r hn).
Qed.

(** What the listeners of a started server answer with. *)
Lemma Run_serves c e p i : Run c e = (p, Ok i) -> exists s r, p_servers p = Some s /\
  Forall (served (sc_config c) (Some (middleware (in_authn i))) (http_handler (in_handler i) r (in_feed i) (in_limiter i) (in_engine i))) (servers s).
Proof.
  unfold Run. destruct (en_secrets e) as [sec|m]; [|done]. destruct (if cp_enabled _ then _ else _) as [store|m]; [|done].
  destruct (reconcile _ _ _ _ _) as [dbs|m]; [|done]. destruct (Storage.All _ _ _ _ _) as [bs|m]; [|done].
  unfold open_databases. destruct (Warm _ _ _ _ _) as [r [u|m]]; [|done]. destruct (en_key e) as [key|m]; [|done].
  destruct (en_authn e) as [authn|m]; [|done]. unfold serve.
  destruct (control_plane _ _ _ _ _ _) as [p1 [[a q]|m]]; [|done].
  match goal with |- context [Serve ?n ?cfg ?w ?h] => pose proof (start_all_spec n cfg w h (c_listeners cfg) Transport.empty_set_ empty_set_inv) as H; unfold Serve;
    destruct (start_all n Transport.empty_set_ cfg w h (c_listeners cfg)) as [s [u'|m]] end; [|done].
  intros [= <- <-]. destruct H as (_ & l & L1 & _ & L3). change (servers Transport.empty_set_) with (@nil (@server W B)) in L1. cbn [app] in L1.
  exists s, r. split; [done|]. by rewrite L1.
Qed.

(** Every path through [Run]. *)
Lemma Run_spec c e : NoDup (seed_names c) ->
  (forall n m h, n ∈ seed_names c -> m ∈ seed_names c -> en_open e n = Ok h -> en_open e m = Ok h -> n = m) ->
  match Run c e with
  | (p, Err _) => released e (seed_names c) p /\ (p_features p = [] \/ p_features p = features_done (en_features e))
  | (p, Ok i) => exists sec, en_secrets e = Ok sec /\ ready c e sec p i
  end.
Proof.
  intros Hnd Hinj. unfold Run.
  assert (H0 : forall s, released e (seed_names c) (closeStore (with_store proc0 s)) /\ p_features (closeStore (with_store proc0 s)) = []).
  { intros [s|]; (split; [|done]); (constructor; [done|done|done|done|by left]). }
  destruct (en_secrets e) as [sec|m]; [|destruct (H0 None); by split; [|left]].
  destruct (if cp_enabled _ then _ else _) as [store|m]; [|destruct (H0 None); by split; [|left]].
  destruct (reconcile _ _ _ _ _) as [dbs|m] eqn:Hrec; [|destruct (H0 store); by split; [|left]].
  destruct (Storage.All _ _ _ _ _) as [bs|m] eqn:Hall; [|destruct (H0 store); by split; [|left]].
  pose proof (open_databases_spec c e sec dbs bs (with_store proc0 store) Hnd Hinj eq_refl eq_refl eq_refl eq_refl Hrec Hall) as H.
  destruct (open_databases c e sec dbs bs (with_store proc0 store)) as [p [i|m]]; [by exists sec|done].
Qed.

(** C19: (start-up) Starting the server is all or nothing, whichever of its stages fails.  On a
    failure nothing stays behind: the meta store is closed, no background loop runs, no
    listener is bound, and every database handle opened while warming the seeds has been
    closed exactly once; only the closers of optional features set up before the failing
    stage have not been called.  On success the server serves the reconciled databases,
    each on the backend of its specification; every configured seed, and nothing but the
    seeds, is open, once and idle, so databases created at run time stay closed until they
    are used; the policy is the one the specifications state, extended by the enrolled
    principals when enrollment is on; every configured listener is up. *)
Theorem start_is_all_or_nothing c e : NoDup (seed_names c) ->
  (forall n m h, n ∈ seed_names c -> m ∈ seed_names c -> en_open e n = Ok h -> en_open e m = Ok h -> n = m) ->
  match Run c e with
  | (p, Err _) => released e (seed_names c) p /\ (p_features p = [] \/ p_features p = features_done (en_features e))
  | (p, Ok i) => exists sec, en_secrets e = Ok sec /\ ready c e sec p i
  end.
Proof.
  exact (Run_spec c e).
Qed.

(** (shutdown) Whatever the registry went through while the server ran, as long as no
    request holds a handle any more: shutting down stops the listeners first, then the
    background loops, closes the features last wired first, rolls the sessions back,
    closes every open database handle exactly once, those already being closed aside, and
    only then the meta store; afterwards no socket is bound and nothing is open. *)
Theorem shutdown_releases_everything p r hn cg cd s bs :
  rtc Registry.step (init_world bs) (Registry.World r [] [] cg cd hn) -> p_reg p = Some r -> p_servers p = Some s ->
  s_bound s = list_to_set (map sv_sock (servers s)) -> p_log p = [] ->
  exists hs, p_log (Shutdown p) =
      [StoppedListeners; StoppedReaper] ++ map ClosedFeature (rev (p_features p)) ++ [ClosedSessions] ++ map ClosedHandle hs ++
      (if p_store p then [ClosedStore] else []) /\
    NoDup (hs ++ cg ++ cd) /\ (forall h n, hn !! h = Some n -> h ∈ hs ++ cg ++ cd) /\
    p_store (Shutdown p) = None /\ p_reaper (Shutdown p) = false /\ p_features (Shutdown p) = [] /\
    (forall r', p_reg (Shutdown p) = Some r' -> entries r' = ∅) /\
    (forall s', p_servers (Shutdown p) = Some s' -> s_bound s' = ∅ /\ s_cancelled s' = true).
Proof.
  intros Hr Hreg Hsrv Hb Hlog. destruct (close_closes_every_handle _ _ Hr) as [Hnd Hall]. cbn [Registry.reg Registry.closing Registry.closed Registry.hname] in *.
  exists (Close_drain r (Close_swap r).2). unfold Shutdown, closeStore, closeRegistry, closeSessions, closeFeatures, stopReaper, stopServers.
  cbn -[Close_drain Close_swap]. rewrite Hreg, Hsrv, Hlog. destruct (p_store p) as [st|] eqn:Es; cbn -[Close_drain vals];
    (split; [by rewrite <- ?app_assoc, ?app_nil_r|]; split; [done|]; split; [done|]; split; [done|]; split; [done|]; split; [done|]; split; [by intros r' [= <-]|]);
    intros s' [= <-]; (split; [by apply shutdown_bound|done]).
Qed.
End Serverd.

(** A feature that fails to set up leaves the closers of the features before it uncalled. *)
Lemma failed_feature_keeps_earlier_closers {W B : Type} (p : @proc W B) :
  (setup_features [Feature "notifier" (Ok true); Feature "accounts" (Err "bad section"%string)] p).2 = Err "feature accounts: bad section"%string /\
  p_features (teardown (setup_features [Feature "notifier" (Ok true); Feature "accounts" (Err "bad section"%string)] p).1) = p_features p ++ ["notifier"%string].
Proof.
  split; [done|]. unfold teardown, closeStore, closeRegistry, closeSessions, stopReaper. cbn.
  destruct (p_reg p); cbn; destruct (p_store p); done.
Qed.

(** ** A concrete start *)

Definition demo_limits : limits_ := Limits_ 0 0 0 0 0 0 0 0 0 0 0 0 (SpecFloat.S754_zero false).
Definition demo_conf : config :=
  Config (c_meta demo_cfg) (c_tls demo_cfg) (c_listeners demo_cfg) (c_principals demo_cfg) (c_session demo_cfg) (c_enroll demo_cfg)
    [demo_file "app" "app.db"] (c_control demo_cfg) (c_format demo_cfg) (c_cors demo_cfg) (c_feed demo_cfg).
Definition demo_server : server_config := ServerConfig demo_conf demo_limits (HttpApi.Routing true false "" "") "/data" false.
(** The store holds a database created earlier; [open] is what opening the seed gives. *)
Definition demo_stored : Meta.store := Store [DBRow "late" "late" 1] [] [] [].
Definition demo_env (open : result string nat) (key : result string (list byte)) : @env string :=
  Env (Ok demo_resolver) (Ok demo_stored) true (fun _ => false) (fun _ => open) 9 key (Ok Auth.demo_auth) true [Feature "notifier" (Ok true)] (demo_net true).
Definition demo_run_ (open : result string nat) (key : result string (list byte)) : @proc nat unit * result string (@instance string) :=
  Run no_pragmas (fun x => x) demo_decode (fun _ _ => Err Secret.ErrMalformedRef) (fun _ => None) (fun _ => demo_wrap) (fun _ _ _ _ _ => demo_hd) demo_server (demo_env open key).
Lemma start_is_all_or_nothing_witness :
  (exists i, (demo_run_ (Ok 4%nat) (Ok [])).2 = Ok i /\ db_name <$> in_specs i = ["app"; "late"]%string) /\
  p_log (demo_run_ (Ok 4%nat) (Err "no entropy"%string)).1 = [StoppedReaper; ClosedHandle 4; ClosedStore] /\
  released (demo_env (Ok 4%nat) (Err "no entropy"%string)) ["app"%string] (demo_run_ (Ok 4%nat) (Err "no entropy"%string)).1.
Proof.
  split; [eexists; split; vm_compute; reflexivity|]. split; [vm_compute; reflexivity|].
  pose proof (start_is_all_or_nothing no_pragmas (fun x => x) demo_decode (fun _ _ => Err Secret.ErrMalformedRef) (fun _ => None) (fun _ => demo_wrap) (fun _ _ _ _ _ => demo_hd)
    demo_server (demo_env (Ok 4%nat) (Err "no entropy"%string)) ltac:(apply NoDup_singleton)) as H.
  unfold demo_run_. destruct (Run _ _ _ _ _ _ _ _ _) as [p [i|m]] eqn:E; [vm_compute in E; discriminate E|]. apply H.
  intros n m' h Hn Hm _ _. apply list_elem_of_singleton in Hn. apply list_elem_of_singleton in Hm. congruence.
Defined.
Lemma shutdown_releases_everything_witness : exists p : @proc nat unit,
  p_log (Shutdown p) = [StoppedListeners; StoppedReaper; ClosedFeature "notifier"; ClosedSessions; ClosedHandle 9; ClosedStore] /\
  p_store (Shutdown p) = None.
Proof.
  set (p := Proc (Some demo_stored) (Some demo_r3) true None ["notifier"%string] (Some (@Transport.empty_set_ nat unit)) []).
  exists p. split; [vm_compute; reflexivity|].
  assert (Hr : rtc Registry.step (init_world {["a"%string := demo_be]}) (Registry.World demo_r3 [] [] [] [] demo_hn)).
  { etrans; [apply Registry.demo_open|]. apply rtc_once. exact (Registry.S_release demo_r2 [] [] [] [] [] demo_hn 0%nat 6). }
  destruct (shutdown_releases_everything p demo_r3 demo_hn [] [] Transport.empty_set_ {["a"%string := demo_be]} Hr eq_refl eq_refl eq_refl eq_refl)
    as (hs & _ & _ & _ & Hs & _). exact Hs.
Defined.
