(* ===== verification/Launch.v ===== *)
(** * The launcher

    What surrounds [Serverd.v] in the daemon: the slow-query log of
    [src/backend/slowlog.go], the opening and migration of the meta store ([Open] of
    [src/meta/meta.go], [src/meta/extension.go]) and [Main] of [src/cli/cli.go], from the
    command line to the exit status.  The meta store's SQL engine, the reading of the
    configuration file and what the requests do while the server runs are parameters. *)
From S2P Require Import Prelude GoStd Crypto Wire Authz Limits Engine Feed Session Config Secret Storage Registry Meta Auth Hrana HttpApi Endpoints.
From S2P Require Import Provision Enroll Reconcile Transport Serverd.
#[local] Open Scope Z_scope.

(** ** The slow-query log *)

(** One traced statement: its duration in nanoseconds, its text with placeholders, its
    text with the parameters written out. *)
Record TraceInfo := Trace { ti_duration : Z; ti_statement : string; ti_expanded : string }.
Record TraceConfig := TraceConf { WantExpandedSQL : bool; Callback : TraceInfo -> option (Z * string) }.   (* duration_ms, sql *)

Definition slow_callback (threshold : Z) (redactParams : bool) (i : TraceInfo) : option (Z * string) :=
  if ti_duration i <? threshold then None
  else Some (ti_duration i ÷ 1000000,
             if negb redactParams && negb (String.eqb (ti_expanded i) "") then ti_expanded i else ti_statement i).
(** [slowLogOnce]: the first call of the process installs the trace, the others nothing. *)
Definition InstallSlowLog (threshold : Z) (redactParams : bool) (installed : option TraceConfig) : option TraceConfig :=
  match installed with
  | Some c => Some c
  | None => Some (TraceConf (negb redactParams) (slow_callback threshold redactParams))
  end.
(** What the connections of the process write to the log: SQLite expands the parameters
    only when the configuration wants them. *)
Definition traced (c : option TraceConfig) (statement expanded : string) (duration : Z) : option (Z * string) :=
  match c with
  | None => None
  | Some t => Callback t (Trace duration statement (if WantExpandedSQL t then expanded else ""))
  end.

(** With redaction on, what is logged does not depend on the bound values, whatever calls
    follow the first. *)
Lemma slow_log_is_redacted threshold later s e1 e2 d :
  let c := fold_left (fun i tr => InstallSlowLog tr.1 tr.2 i) later (InstallSlowLog threshold true None) in
  traced c s e1 d = traced c s e2 d /\ (forall l, traced c s e1 d = Some l -> threshold <= d /\ l.2 = s).
Proof.
  assert (H : fold_left (fun i tr => InstallSlowLog tr.1 tr.2 i) later (InstallSlowLog threshold true None) = InstallSlowLog threshold true None).
  { induction later as [|tr later IH]; [done|]. exact IH. }
  cbv zeta. rewrite H. split; [done|]. intros l. cbn. unfold slow_callback. cbn. destruct (Z.ltb_spec d threshold); [done|]. by intros [= <-].
Qed.

(** ** Opening the meta store *)

(** DDL a feature registers, in order of registration. *)
Definition RegisterMigration (migrations : list string) (ddl : string) : list string := migrations ++ [ddl].

Section MetaOpen.
Context {K D : Type}.
Variable RecommendedPragmas : pragma_set.
Variable schema : string.                                   (* schema.sql, embedded *)
Variable db_exec : D -> string -> D * option string.        (* [db.Exec] of DDL; [Some]: its error *)
Variable has_column : D -> result string Z.                 (* the pragma_table_info query *)

Definition add_last_seen : string := "ALTER TABLE enrolled ADD COLUMN last_seen INTEGER".
(** The specification of the store's database; the flag is the warning that it is not
    encrypted. *)
Definition meta_spec (cfg : metaStore) (key : string) : database * bool :=
  let vault := String.eqb (ms_backend cfg) "vault" in
  let keyed := negb (String.eqb key "") in
  (Database "_meta" (ms_backend cfg) (ms_path cfg) "rwc" (Pool 0 "" 0) "" ∅
     (if vault && keyed then Some (VaultConfig "" "" key [] "" [] false None None) else None) [], vault && negb keyed).

Inductive meta_err : Type :=
| MBackend (e : berr) | MOpen (m : string) | MSchema (m : string) | MInspect (m : string) | MMigrate (m : string) | MFeature (i : nat) (m : string).
(** The file's content, and whether a handle on it is open. *)
Definition mstate : Type := D * bool.

Fixpoint run_migrations (i : nat) (ms : list string) (d : D) : D * option meta_err :=
  match ms with
  | [] => (d, None)
  | ddl :: rest => match db_exec d ddl with (d1, Some m) => (d1, Some (MFeature i m)) | (d1, None) => run_migrations (S i) rest d1 end
  end.
(** Everything after the handle is open: the core schema, the column older stores lack,
    the features' tables. *)
Definition migrate (migrations : list string) (d : D) : D * option meta_err :=
  match db_exec d schema with
  | (d1, Some m) => (d1, Some (MSchema m))
  | (d1, None) =>
      match has_column d1 with
      | Err m => (d1, Some (MInspect m))
      | Ok n =>
          match (if n =? 0 then db_exec d1 add_last_seen else (d1, None)) with
          | (d2, Some m) => (d2, Some (MMigrate m))
          | (d2, None) => run_migrations 0 migrations d2
          end
      end
  end.
Definition Open (exists_ : string -> bool) (open_ : Storage.opening K -> option string) (cfg : metaStore) (key : string) (sec : Resolver K) (dataDir : string)
    (migrations : list string) (d : D) : mstate * result meta_err unit :=
  match For RecommendedPragmas exists_ (meta_spec cfg key).1 sec dataDir with
  | Err e => ((d, false), Err (MBackend e))
  | Ok be =>
      match Storage.Open be with
      | Err e => ((d, false), Err (MBackend e))
      | Ok o =>
          match open_ o with
          | Some m => ((d, false), Err (MOpen m))
          | None => match migrate migrations d with
                    | (d1, Some x) => ((d1, false), Err x)     (* closed again *)
                    | (d1, None) => ((d1, true), Ok tt)
                    end
          end
      end
  end.
Definition Close (s : mstate) : mstate := (s.1, false).

(** A failed open leaves no handle behind, and one that succeeds leaves it open. *)
Lemma open_or_closed exists_ open_ cfg key sec dataDir ms d :
  let '(s, r) := Open exists_ open_ cfg key sec dataDir ms d in s.2 = true <-> r = Ok tt.
Proof. unfold Open. repeat case_match; simplify_eq; split; intros H; simplify_eq/=; done. Qed.

(** What the engine is relied on for: schema and feature DDL are idempotent (they say IF
    NOT EXISTS), the column once added is seen, and no statement takes it away again. *)
Record ddl_laws (ms : list string) : Prop := {
  dl_count : forall d n, has_column d = Ok n -> n = 0 \/ n = 1;
  dl_alter : forall d d', db_exec d add_last_seen = (d', None) -> has_column d' = Ok 1;
  dl_keep : forall d d' ddl, ddl = schema \/ ddl ∈ ms -> db_exec d ddl = (d', None) -> has_column d = Ok 1 -> has_column d' = Ok 1;
  dl_again : forall d d' ddl, ddl = schema \/ ddl ∈ ms -> db_exec d ddl = (d', None) -> db_exec d' ddl = (d', None);
  dl_commute : forall d d' ddl ddl', ddl = schema \/ ddl ∈ ms -> ddl' = schema \/ ddl' = add_last_seen \/ ddl' ∈ ms ->
    db_exec d ddl = (d, None) -> db_exec d ddl' = (d', None) -> db_exec d' ddl = (d', None)
}.

Lemma run_migrations_keep ms0 ms (Hl : ddl_laws ms0) : (forall x, x ∈ ms -> x ∈ ms0) -> forall i d d',
  run_migrations i ms d = (d', None) ->
  (has_column d = Ok 1 -> has_column d' = Ok 1) /\
  (forall ddl, ddl = schema \/ ddl ∈ ms0 -> db_exec d ddl = (d, None) -> db_exec d' ddl = (d', None)) /\
  (forall ddl, ddl ∈ ms -> db_exec d' ddl = (d', None)).
Proof.
  induction ms as [|ddl ms IH]; intros Hin i d d'; cbn [run_migrations].
  - intros [= <-]. split; [done|]. split; [done|]. by intros x ?%not_elem_of_nil.
  - destruct (db_exec d ddl) as [d1 [m|]] eqn:E; [done|]. intros H.
    assert (Hd : ddl ∈ ms0) by (apply Hin; left).
    destruct (IH (fun x Hx => Hin x (list_elem_of_further _ _ _ Hx)) _ _ _ H) as (H1 & H2 & H3). split; [|split].
    + intros Hc. apply H1. eapply dl_keep; [done|by right|exact E|done].
    + intros x Hx Hxx. apply H2; [done|]. eapply dl_commute; [done|exact Hx|by right; right|exact Hxx|exact E].
    + intros x [->|Hx]%elem_of_cons; [|by apply H3]. apply H2; [by right|]. eapply dl_again; [done|by right|exact E].
Qed.
Lemma run_migrations_done ms : forall i d, (forall ddl, ddl ∈ ms -> db_exec d ddl = (d, None)) -> run_migrations i ms d = (d, None).
Proof.
  induction ms as [|ddl ms IH]; intros i d H; cbn; [done|]. rewrite (H ddl) by left. apply IH. intros x Hx. apply H. by right.
Qed.

(** (migration) A store that was opened once has the column and is opened again without a
    change: the migrations take effect at most once, whatever version of the server created
    the file. *)
Theorem migrations_take_effect_once ms d d' : ddl_laws ms -> migrate ms d = (d', None) ->
  has_column d' = Ok 1 /\ migrate ms d' = (d', None).
Proof.
  intros Hl. unfold migrate. destruct (db_exec d schema) as [d1 [m|]] eqn:Es; [done|].
  assert (Hs : db_exec d1 schema = (d1, None)) by (eapply dl_again; [done|by left|exact Es]).
  destruct (has_column d1) as [n|m] eqn:Hc; [|done].
  destruct (if n =? 0 then db_exec d1 add_last_seen else (d1, None)) as [d2 [m|]] eqn:Ea; [done|]. intros Hr.
  assert (Hs2 : db_exec d2 schema = (d2, None) /\ has_column d2 = Ok 1).
  { destruct (Z.eqb_spec n 0) as [->|Hn]; [split; [by eapply dl_commute; [done|by left|by right; left|exact Hs|exact Ea]|by eapply dl_alter]|].
    injection Ea as <-. destruct (dl_count _ Hl _ _ Hc) as [?| ->]; done. }
  destruct Hs2 as [Hs2 Hc2]. destruct (run_migrations_keep ms ms Hl (fun x H => H) _ _ _ Hr) as (H1 & H2 & H3). split; [by apply H1|].
  rewrite (H2 schema (or_introl eq_refl) Hs2), (H1 Hc2). cbn [Z.eqb]. by apply run_migrations_done.
Qed.
End MetaOpen.

(** An engine that remembers the statements it ran. *)
Definition demo_ddl (d : list string) (x : string) : list string * option string := (if mem_string x d then d else d ++ [x], None).
Definition demo_column (d : list string) : result string Z := Ok (if mem_string add_last_seen d then 1 else 0).
Lemma mem_app x d y : mem_string x (d ++ [y]) = mem_string x d || String.eqb x y.
Proof. unfold mem_string. rewrite existsb_app. cbn. by rewrite orb_false_r. Qed.
Lemma demo_ddl_again d x : demo_ddl (demo_ddl d x).1 x = ((demo_ddl d x).1, None).
Proof. unfold demo_ddl. cbn [fst]. destruct (mem_string x d) eqn:E; [by rewrite E|]. by rewrite mem_app, String.eqb_refl, orb_true_r. Qed.
Lemma demo_ddl_laws ms : ddl_laws "CREATE" demo_ddl demo_column ms.
Proof.
  split.
  - intros d n [= <-]. destruct (mem_string _ d); auto.
  - intros d d' [= <-]. unfold demo_column. destruct (mem_string add_last_seen d) eqn:E; [by rewrite E|]. by rewrite mem_app, String.eqb_refl, orb_true_r.
  - intros d d' ddl _ [= <-] H. unfold demo_column in *. destruct (mem_string ddl d); [done|]. rewrite mem_app.
    destruct (mem_string add_last_seen d); [done|discriminate].
  - intros d d' ddl _ H. pose proof (demo_ddl_again d ddl) as Ha. by rewrite H in Ha.
  - intros d d' ddl ddl' _ _ H1 [= <-]. unfold demo_ddl in *. injection H1 as H1.
    destruct (mem_string ddl d) eqn:E; [|by apply (f_equal length) in H1; rewrite length_app in H1; cbn in H1; lia].
    destruct (mem_string ddl' d); [by rewrite E|]. by rewrite mem_app, E.
Qed.
Example old_store_migrated : migrate "CREATE" demo_ddl demo_column ["accounts"%string] [] = (["CREATE"; add_last_seen; "accounts"]%string, None).
Proof. reflexivity. Qed.

(** ** The command line *)

(** [flag.Parse] over the two flags [Main] declares: the configuration's path and whether
    the version is asked for; [Err n]: the process exits with status [n] (2 on a bad
    command line, 0 on a request for help). *)
Fixpoint parse_flags (args : list string) (st : string * bool) : result Z (string * bool) :=
  match args with
  | [] => Ok st
  | a :: rest =>
      match cut_prefix "-" a with
      | None | Some EmptyString => Ok st                 (* the flags end here *)
      | Some s =>
          if String.eqb s "-" then Ok st else            (* so they do at "--" *)
          let s := default s (cut_prefix "-" s) in
          if has_prefix "-" s || has_prefix "=" s then Err 2 else
          let '(name, v, has) := cut_char "=" s in
          if String.eqb name "config" then
            if has then parse_flags rest (v, st.2)
            else match rest with [] => Err 2 | x :: rest' => parse_flags rest' (x, st.2) end
          else if String.eqb name "version" then
            if has then match ParseBool v with Some b => parse_flags rest (st.1, b) | None => Err 2 end
            else parse_flags rest (st.1, true)
          else if String.eqb name "help" || String.eqb name "h" then Err 0 else Err 2
      end
  end.
Example flags :
  parse_flags ["-config"; "/etc/q.yaml"; "--version=f"; "x"; "-nope"]%string ("quicsql.yaml", false)%string = Ok ("/etc/q.yaml", false)%string /\
  parse_flags ["-version"]%string ("quicsql.yaml", false)%string = Ok ("quicsql.yaml", true)%string /\
  parse_flags ["--config=q.yaml"; "--"; "-version"]%string ("d", false)%string = Ok ("q.yaml", false)%string /\
  parse_flags ["-config"]%string ("d", false)%string = Err 2 /\ parse_flags ["-version=maybe"]%string ("d", false)%string = Err 2 /\
  parse_flags ["--help"]%string ("d", false)%string = Err 0.
Proof. repeat split. Qed.

Record Options := MkOptions { Program : string; Version : string; DefaultConfig : string }.
Inductive log_format : Type := LogText | LogJSON.
Definition newLogger (format : string) : log_format := if String.eqb format "json" then LogJSON else LogText.
(** The file-creation mask of the process: owner only. *)
Definition hardenUmask : Z := 63.

Inductive finish : Type :=
| Printed (line : string)        (* --version *)
| Exited (status : Z)            (* with an error or a usage message on stderr *)
| Stopped (f : log_format).      (* after a signal and the graceful shutdown *)

Lemma flag_status args : forall st n, parse_flags args st = Err n -> n = 0 \/ n = 1 \/ n = 2.
Proof.
  induction args as [args IH] using (induction_ltof1 _ (@length string)); unfold ltof in IH. intros st n.
  destruct args as [|a rest]; [done|]. cbn [parse_flags].
  assert (Hr : forall st, parse_flags rest st = Err n -> n = 0 \/ n = 1 \/ n = 2) by (intros st'; apply IH; cbn; lia).
  destruct (cut_prefix "-" a) as [[|ch s]|]; [done| |done]. destruct (String.eqb _ "-"); [done|].
  destruct (_ || _); [intros [= <-]; auto|]. destruct (cut_char _ _) as [[nm v] has].
  destruct (String.eqb nm "config").
  - destruct has; [apply Hr|]. destruct rest as [|x rest']; [intros [= <-]; auto|]. apply IH. cbn. lia.
  - destruct (String.eqb nm "version"); [destruct has; [destruct (ParseBool v); [apply Hr|intros [= <-]; auto]|apply Hr]|].
    destruct (_ || _); intros [= <-]; auto.
Qed.

Section Main.
Context {K W B : Type}.
Variable RecommendedPragmas : pragma_set.
Variable canonicalPath : string -> string.
Variable decode : string -> option database.
Variable sec_bytes : Resolver K -> string -> result Secret.secerr string.
Variable key_of : string -> option string.
Variable middleware : Auth.authenticator -> listener -> @Transport.handler W B -> @Transport.handler W B.
Variable http_handler : data_handler -> Registry.registry -> option broker -> limiter -> engine -> @Transport.handler W B.
Notation proc := (@Serverd.proc W B).
Notation Run := (Serverd.Run RecommendedPragmas canonicalPath decode sec_bytes key_of middleware http_handler).

Definition shutdownGrace : Z := 10 * second.
Definition or_else (s d : string) : string := if String.eqb s "" then d else s.

(** [read]: the configuration file, decoded; [lived]: what the process is when the signal
    comes.  The result carries the creation mask the process ended with. *)
Definition Main (opts : Options) (args : list string) (read : string -> result string server_config) (e : @Serverd.env K) (lived : proc -> proc)
    : Z * proc * finish :=
  let program := or_else (Program opts) "quicsql" in
  let version := or_else (Version opts) "dev" in
  let umask := hardenUmask in
  match parse_flags args (or_else (DefaultConfig opts) "quicsql.yaml", false) with
  | Err n => (umask, proc0, Exited n)
  | Ok (path, show) =>
      if show then (umask, proc0, Printed (program +:+ " " +:+ version)) else
      match read path with
      | Err _ => (umask, proc0, Exited 1)
      | Ok c =>
          match Config.Load (sc_config c) with
          | Err _ => (umask, proc0, Exited 1)
          | Ok (conf, _) =>
              let c := ServerConfig conf (sc_limits c) (sc_routing c) (sc_data_dir c) (sc_allow_attach c) in
              match Run c e with
              | (p, Err _) => (umask, p, Exited 1)
              | (p, Ok _) => (umask, Serverd.Shutdown (lived p), Stopped (newLogger (c_format conf)))
              end
          end
      end
  end.

(** What serving makes of a process up to the moment the requests have drained: the same
    listeners, nothing closed yet, the registry a run further and no handle held. *)
Definition survives (p p' : proc) : Prop :=
  p_log p' = p_log p /\ p_servers p' = p_servers p /\
  forall bs r hn, p_reg p = Some r -> rtc Registry.step (init_world bs) (Registry.World r [] [] [] [] hn) ->
    exists r' cg cd hn', p_reg p' = Some r' /\ rtc Registry.step (init_world bs) (Registry.World r' [] [] cg cd hn').

(** (the daemon) As long as opening two seeds does not give one handle: however the process ends, by a bad command line, a configuration that does
    not load, a start that fails or a signal, it ends with its files created for the owner
    only and with nothing open: no meta store, no background loop, no database handle, no
    bound socket; the exit status is 0 exactly when it was not a failure. *)
Theorem exit_leaves_nothing opts args read e lived :
  (forall n m h, en_open e n = Ok h -> en_open e m = Ok h -> n = m) -> (forall p, survives p (lived p)) ->
  let '(mask, p, x) := Main opts args read e lived in
  mask = 63 /\ p_store p = None /\ p_reaper p = false /\ (forall r, p_reg p = Some r -> entries r = ∅) /\
  (forall s, p_servers p = Some s -> s_bound s = ∅) /\ (forall n, x = Exited n -> n = 0 \/ n = 1 \/ n = 2).
Proof.
  intros Hinj Hl. unfold Main.
  assert (H0 : forall n, n = 0 \/ n = 1 \/ n = 2 -> hardenUmask = 63 /\ p_store (proc0 : proc) = None /\ p_reaper (proc0 : proc) = false /\
     (forall r, p_reg (proc0 : proc) = Some r -> entries r = ∅) /\ (forall s, p_servers (proc0 : proc) = Some s -> s_bound s = ∅) /\
     (forall m, Exited n = Exited m -> m = 0 \/ m = 1 \/ m = 2)) by (intros n Hn; repeat split; try done; by intros m [= <-]).
  destruct (parse_flags _ _) as [[path show]|n] eqn:Ep; [|apply H0; by eapply flag_status].
  destruct show; [by repeat split|]. destruct (read path) as [c|m] eqn:Er; [|apply H0; auto].
  destruct (Config.Load (sc_config c)) as [[conf w]|m] eqn:El; [|apply H0; auto].
  set (c' := ServerConfig _ _ _ _ _). pose proof (Run_spec RecommendedPragmas canonicalPath decode sec_bytes key_of middleware http_handler c' e
    (so_names _ (Load_sound _ _ _ El)) (fun n m h _ _ => Hinj n m h)) as H.
  destruct (Run c' e) as [p [i|m]].
  - destruct H as (sec & _ & Hr). destruct (rd_registry _ _ _ _ _ _ _ _ _ Hr) as (r & hn & Hreg & (Hrtc & _) & _).
    destruct (rd_servers _ _ _ _ _ _ _ _ _ Hr) as (s & Hs & Hb & _). destruct (Hl p) as (H1 & H2 & H3).
    destruct (H3 _ _ _ Hreg Hrtc) as (r' & cg & cd & hn' & Hreg' & Hrtc').
    destruct (shutdown_releases_everything (lived p) r' hn' cg cd s _ Hrtc' Hreg') as (hs & _ & _ & _ & S1 & S2 & _ & S3 & S4);
      [by rewrite H2|done|by rewrite H1, (rd_log _ _ _ _ _ _ _ _ _ Hr)|].
    split; [done|]. split; [exact S1|]. split; [exact S2|]. split; [exact S3|]. split; [|done]. intros s' Hs'. by destruct (S4 _ Hs').
  - destruct H as [[R1 R2 R3 R4 _] _]. repeat split; [done|done|done| |by intros n [= <-]; auto]. intros s Hs. congruence.
Qed.
End Main.
