(* ===== verification/Server.v ===== *)
(** * The server: its parts composed

    What [src/serverd/serverd.go] (Run) wires together, run for one request: a listener's
    handler ([Transport.v]) around the authentication middleware (Middleware.Wrap of
    [src/auth/auth.go]) around ServeHTTP of [src/httpapi/handler.go], whose endpoints,
    control plane and enrollment work on one state, [site]: one registry, one policy, one
    meta store, one session store, one authenticator.  Each component keeps its own model;
    the views below say which part of the site is its world.  What the outside answers
    while a request runs is an [ask], carried with the state.

    A request runs here from its arrival to its answer on the state it finds; requests that
    overlap meet in the operations under the mutexes, whose interleavings are the subject of
    [Session.v], [Registry.v], [Limits.v], [Feed.v], [EnrollGate.v] and [BlobCache.v].  A
    database's content is that of a served database: the data endpoints work on it, a
    restore replaces it, and what a database created later holds is its driver's. *)
From S2P Require Import Prelude GoStd Crypto Wire Authz Limits Engine Feed Backend Session Config Secret Storage Registry Meta.
From S2P Require Import Token Auth Hrana Sqlite HttpApi Envelope Endpoints Blob Changes Streams Provision Enroll Admin Transport Reconcile Serverd.
#[local] Open Scope Z_scope.

(** ** The enrollment service behind the control plane *)

Record enroll_calls := EnrollCalls {
  ec_list : bool; ec_del : bool; ec_prov : answers * (bool * (string -> bool));
  ec_gc : bool; ec_put : bool; ec_raw : result string (list byte);   (* crypto/rand *)
  ec_now : Z; ec_text : string
}.

Section Enrollment.
Context {K : Type}.
Variable RecommendedPragmas : pragma_set.
Variable canonicalPath : string -> string.
Variable encode : database -> option string.
Variable sec : Secret.Resolver K.
Variable dataDir : string.
Let prov : Provisioner pworld (answers * (bool * (string -> bool))) :=
  provision_provisioner RecommendedPragmas canonicalPath encode sec dataDir.
#[local] Existing Instance prov.
Notation eworld := (Enroll.eworld (W := pworld)).
Notation estate := (Enroll.service * Auth.authenticator)%type.

(** The service's world: its own state, the authenticator, and the shared rest.  There is
    one meta store: the service writes the enrolled principals, the codes and the audit
    log, the provisioner the databases. *)
Definition enroll_view (e : estate) (s : Meta.store) (p : pworld) (q : policy) : eworld := Enroll.EWorld e.1 s e.2 q p.
Definition joint_store (s : Meta.store) (p : pworld) : Meta.store :=
  Meta.Store (match w_store p with Some t => databases t | None => databases s end) (enrolled s) (enroll_codes s) (Meta.audit s).
Definition enroll_back (w : eworld) : pworld := Provision.set_store (Enroll.e_db w) (Some (joint_store (Enroll.e_store w) (Enroll.e_db w))).

Definition service_list (c : enroll_calls) (e : estate) (p : pworld) : option (list Enrolled) :=
  match w_store p with
  | None => None
  | Some s => match Meta.EnrolledList (ec_list c) s with Ok l => Some l | Err _ => None end
  end.
Definition service_delete (c : enroll_calls) (e : estate) (p : pworld) (q : policy) (n : string)
    : estate * pworld * policy * result del_err bool :=
  match w_store p with
  | None => (e, p, q, Err DelFailed)   (* without a meta store there is no enrollment service *)
  | Some s =>
      let '(w, r) := Enroll.Delete (ec_del c) (ec_prov c) (enroll_view e s p q) n in
      (Enroll.e_svc w, Enroll.e_auth w, enroll_back w, Enroll.e_pol w,
       match r with Ok b => Ok b | Err DBusy => Err DelBusy | Err _ => Err DelFailed end)
  end.
Definition mint_text (c : enroll_calls) (m : merror) : string :=
  match m with
  | ErrCodesDisabled => "enroll: single-use codes are not enabled (auth.enroll.codes.enabled)"
  | ErrStore => ec_text c
  end.
Definition service_mint (c : enroll_calls) (e : estate) (p : pworld) : estate * pworld * result string (string * Z) :=
  match w_store p with
  | None => (e, p, Err (ec_text c))
  | Some s =>
      match ec_raw c with
      | Err m => (e, p, Err (if negb (Config.e_codes (Enroll.cfg e.1)) then mint_text c ErrCodesDisabled else m))
      | Ok raw =>
          let '(w, r) := Enroll.MintCode (ec_gc c) (ec_put c) (ec_now c) raw (enroll_view e s p (Authz.NewPolicy false)) in   (* minting reads no policy *)
          (Enroll.e_svc w, Enroll.e_auth w, enroll_back w, match r with Ok x => Ok x | Err m => Err (mint_text c m) end)
      end
  end.

Lemma delete_audit io a (w : eworld) n : Meta.audit (Enroll.e_store (Enroll.Delete io a w n).1) = Meta.audit (Enroll.e_store w).
Proof.
  unfold Enroll.Delete. assert (Hd : Enroll.e_store (Enroll.delete_drop a w n).1 = Enroll.e_store w)
    by (unfold Enroll.delete_drop; destruct (_ && _); [by destruct (prov_drop _ _ _)|done]).
  destruct (Enroll.delete_drop a w n) as [w1 [x|]]; cbn [fst] in *; [by rewrite Hd|].
  unfold Meta.DeleteEnrolled, exec. destruct io; cbn; [|by rewrite Hd]. by destruct (existsb _ _); cbn; rewrite Hd.
Qed.
Lemma mint_audit gc put now raw (w : eworld) : Meta.audit (Enroll.e_store (Enroll.MintCode gc put now raw w).1) = Meta.audit (Enroll.e_store w).
Proof.
  unfold Enroll.MintCode. destruct (negb _); [done|]. unfold Meta.GCEnrollCodes, Meta.PutEnrollCode, exec. repeat case_match; simplify_eq; done.
Qed.

(** The service keeps what the control plane asks of it. *)
#[export] Instance service_enrollments : Enrollments estate enroll_calls.
Proof.
  refine {| enr_list := service_list; enr_delete := service_delete; enr_mint := service_mint |}.
  - intros c e p q n. unfold service_delete. destruct (w_store p) as [s|] eqn:Es; [|cbn; by rewrite Es].
    pose proof (delete_audit (ec_del c) (ec_prov c) (enroll_view e s p q) n) as H.
    destruct (Enroll.Delete _ _ _ _) as [w r]. cbn in *. by rewrite H.
  - intros c e p. unfold service_mint. destruct (w_store p) as [s|] eqn:Es; [|cbn; by rewrite Es].
    destruct (ec_raw c) as [raw|m]; [|cbn; by rewrite Es].
    pose proof (mint_audit (ec_gc c) (ec_put c) (ec_now c) raw (enroll_view e s p (Authz.NewPolicy false))) as H.
    destruct (Enroll.MintCode _ _ _ _ _) as [w r]. cbn in *. by rewrite H.
Defined.
End Enrollment.

(** ** One state for all components *)

(** A database as the data endpoints see it. *)
Record cell (S : Type) := Cell {
  ce_content : S; ce_refs : Z; ce_pool : list pconn; ce_conns : Z; ce_temps : Z; ce_backups : Z
}.
Arguments Cell {S}. Arguments ce_content {S}. Arguments ce_refs {S}. Arguments ce_pool {S}. Arguments ce_conns {S}.
Arguments ce_temps {S}. Arguments ce_backups {S}.

Record site (S St : Type) := Site {
  si_p : pworld;                             (* registry, meta store, change feed, files *)
  si_pol : Authz.policy;
  si_auth : Auth.authenticator;
  si_svc : option Enroll.service;            (* [None]: enrollment is off *)
  si_fs : gmap string string;
  si_lim : option limiter;
  si_met : list metric;
  si_sess : Session.store;
  si_torn : list Session.teardown;
  si_modes : gmap nat pconn;                 (* the pinned connections *)
  si_exports : Z;                            (* export slots in use *)
  si_stores : gmap (nat * string) St;        (* opened blob stores *)
  si_dbs : string -> cell S                  (* by name, for the databases served *)
}.
Arguments Site {S St}. Arguments si_p {S St}. Arguments si_pol {S St}. Arguments si_auth {S St}. Arguments si_svc {S St}.
Arguments si_fs {S St}. Arguments si_lim {S St}. Arguments si_met {S St}. Arguments si_sess {S St}. Arguments si_torn {S St}. Arguments si_modes {S St}.
Arguments si_exports {S St}. Arguments si_stores {S St}. Arguments si_dbs {S St}.

(** What the outside answers while a request runs: its body, the clock at its start and its
    end, the registry's open, the drivers, the random bytes, the control plane's and the
    enrollment service's statements. *)
Record ask (S : Type) := Ask {
  k_body : Blob.stream;
  k_now : Z; k_end : Z;
  k_rnd : list byte;
  k_get : result geterr nat;                 (* opening the handle of a served database *)
  k_streams : stream_env S;
  k_driver : Endpoints.driver S;
  k_lines : nat;                             (* the lines of a cursor its client takes *)
  k_sub : nat;                               (* the address of a new subscriber *)
  k_admin : Admin.answer;
  k_reload : string -> S;                    (* what a database opened on an image holds *)
  k_calls : enroll_calls;
  k_io : Enroll.io;
  k_prov : answers * (bool * (string -> bool))
}.
Arguments Ask {S}. Arguments k_body {S}. Arguments k_now {S}. Arguments k_end {S}. Arguments k_rnd {S}. Arguments k_get {S}.
Arguments k_streams {S}. Arguments k_driver {S}. Arguments k_lines {S}. Arguments k_sub {S}. Arguments k_admin {S}. Arguments k_reload {S}.
Arguments k_calls {S}. Arguments k_io {S}. Arguments k_prov {S}.

(** What start-up fixes for good. *)
Record setup := Setup {
  su_handler : data_handler; su_engine : engine; su_metrics : bool; su_admin : option Admin.handler
}.

(** What a response carries; a message is the JSON error envelope. *)
Inductive answer_ : Type :=
| CHealth
| CMetrics (l : list metric)
| CMsg (m : string)
| CChallenge (c : string)
| CToken (tok principal expires : string) (max_expires : option string)
| CHrana (p : payload)
| CData (r : Endpoints.reply)
| CChanges (s : opened_stream)
| CAdmin (b : Admin.abody)
| CEnroll (x : Enroll.reply).

Section Server.
Context `{FT : FloatText} {K S St : Type}.
Variable RecommendedPragmas : pragma_set.
Variable canonicalPath : string -> string.
Variable encode : database -> option string.
Variable sec : Secret.Resolver K.
Variable dataDir : string.
Variable bcrypt_ok : string -> string -> bool.
Variable parse_key : string -> option (string * string * string).
Variable verify_sig : string -> list byte -> list byte -> bool.
Variable decode_token : string -> option string.
Variable decode : list byte -> result string (queryRequest * bool).
Variable text : wire_err -> string.
Variable decode_pipeline : list byte -> result string (option string * list streamRequest).
Variable decode_cursor : list byte -> result string (option string * option hBatch).
Variable decode_pair : list byte -> result string (string * string).
Variable quote : string -> string.
Variable dec : Admin.decoders.
Variable L : Blob.library S St.

Notation site := (site S St).
Notation world := (ask S * site)%type.
Notation handler := (@Transport.handler world answer_).
Notation response := (@Transport.response answer_).
(** The account endpoints are a feature module's. *)
Variable account : handler.

(** *** The components' worlds *)

Definition with_dbs (s : site) (f : string -> cell S) : site :=
  Site (si_p s) (si_pol s) (si_auth s) (si_svc s) (si_fs s) (si_lim s) (si_met s) (si_sess s) (si_torn s) (si_modes s) (si_exports s) (si_stores s) f.
Definition with_auth (s : site) (a : Auth.authenticator) : site :=
  Site (si_p s) (si_pol s) a (si_svc s) (si_fs s) (si_lim s) (si_met s) (si_sess s) (si_torn s) (si_modes s) (si_exports s) (si_stores s) (si_dbs s).
Definition with_svc (s : site) (v : option Enroll.service) : site :=
  Site (si_p s) (si_pol s) (si_auth s) v (si_fs s) (si_lim s) (si_met s) (si_sess s) (si_torn s) (si_modes s) (si_exports s) (si_stores s) (si_dbs s).

(** The part every data endpoint shares: limiter, metrics, and one database. *)
Definition db_view {X} (s : site) (db : string) (x : X) : HttpApi.world X :=
  HttpApi.World (si_lim s) (si_met s) (ce_refs (si_dbs s db)) (ce_pool (si_dbs s db)) x.
Definition db_back {X} (s : site) (db : string) (w : HttpApi.world X) (c : cell S) : site :=
  Site (si_p s) (si_pol s) (si_auth s) (si_svc s) (si_fs s) (w_lim w) (w_met w) (si_sess s) (si_torn s) (si_modes s) (si_exports s) (si_stores s)
    (fun n => if String.eqb n db then Cell (ce_content c) (w_refs w) (w_pool w) (ce_conns c) (ce_temps c) (ce_backups c) else si_dbs s n).
Definition put_content (c : cell S) (x : S) : cell S := Cell x (ce_refs c) (ce_pool c) (ce_conns c) (ce_temps c) (ce_backups c).

Definition query_view (s : site) (db : string) : HttpApi.world S := db_view s db (ce_content (si_dbs s db)).
Definition query_back (s : site) (db : string) (w : HttpApi.world S) : site := db_back s db w (put_content (si_dbs s db) (w_db w)).

Definition stream_view (s : site) (db : string) : swork S := SWork (query_view s db) (si_sess s) (si_torn s) (si_modes s).
Definition with_sessions (s : site) (st : Session.store) (ts : list Session.teardown) (m : gmap nat pconn) : site :=
  Site (si_p s) (si_pol s) (si_auth s) (si_svc s) (si_fs s) (si_lim s) (si_met s) st ts m (si_exports s) (si_stores s) (si_dbs s).
Definition stream_back (s : site) (db : string) (w : swork S) : site :=
  with_sessions (query_back s db (sv w)) (store_ w) (torn_ w) (modes_ w).

Definition data_view (s : site) (db : string) : HttpApi.world (Endpoints.data S) :=
  let c := si_dbs s db in db_view s db (Endpoints.Data (ce_content c) (ce_conns c) (si_exports s) (ce_temps c) (ce_backups c)).
Definition with_exports (s : site) (n : Z) : site :=
  Site (si_p s) (si_pol s) (si_auth s) (si_svc s) (si_fs s) (si_lim s) (si_met s) (si_sess s) (si_torn s) (si_modes s) n (si_stores s) (si_dbs s).
Definition data_back (s : site) (db : string) (w : HttpApi.world (Endpoints.data S)) : site :=
  let d := w_db w in
  with_exports (db_back s db w (Cell (Endpoints.content d) 0 [] (Endpoints.conns d) (Endpoints.temps d) (Endpoints.backups d))) (Endpoints.exports d).

Definition blob_view (s : site) (db : string) : HttpApi.world (@Blob.blobs S St) :=
  db_view s db (Blob.Blobs (ce_content (si_dbs s db)) (si_stores s)).
Definition with_stores (s : site) (c : gmap (nat * string) St) : site :=
  Site (si_p s) (si_pol s) (si_auth s) (si_svc s) (si_fs s) (si_lim s) (si_met s) (si_sess s) (si_torn s) (si_modes s) (si_exports s) c (si_dbs s).
Definition blob_back (s : site) (db : string) (w : HttpApi.world (@Blob.blobs S St)) : site :=
  with_stores (db_back s db w (put_content (si_dbs s db) (Blob.db_ (w_db w)))) (Blob.stores (w_db w)).

Definition feed_view (s : site) (db : string) : HttpApi.world Feed.broker :=
  db_view s db (default (Feed.New 0 0) (w_feed (si_p s))).
Definition with_p (s : site) (p : pworld) : site :=
  Site p (si_pol s) (si_auth s) (si_svc s) (si_fs s) (si_lim s) (si_met s) (si_sess s) (si_torn s) (si_modes s) (si_exports s) (si_stores s) (si_dbs s).
Definition feed_back (s : site) (db : string) (w : HttpApi.world Feed.broker) : site :=
  let s1 := db_back s db w (si_dbs s db) in
  match w_feed (si_p s) with Some _ => with_p s1 (Provision.set_feed (si_p s) (Some (w_db w))) | None => s1 end.

Notation estate := (Enroll.service * Auth.authenticator)%type.
Definition admin_view (s : site) : Admin.aworld (E := estate) :=
  Admin.AWorld (si_p s) (si_pol s) (Some (si_sess s)) ((fun v => (v, si_auth s)) <$> si_svc s) (si_fs s) [].
(** The image that now is in the file of [d]: a restore swaps it under the closed handle, so
    the database holds what the image does from its next opening on. *)
Definition db_path (s : site) (d : string) : option string := Registry.Backend (w_reg (si_p s)) d ≫= BPath.
Definition swapped_in (s : site) (w : Admin.aworld (E := estate)) (d : string) : option string :=
  db_path s d ≫= fun f => if bool_decide (Admin.fs w !! f = si_fs s !! f) then None else Admin.fs w !! f.
Definition admin_back (k : ask S) (s : site) (w : Admin.aworld (E := estate)) : site :=
  Site (Admin.p_ w) (Admin.pol w) (match Admin.enr w with Some e => e.2 | None => si_auth s end) (fst <$> Admin.enr w) (Admin.fs w)
    (si_lim s) (si_met s) (default (si_sess s) (Admin.sess w)) (si_torn s ++ Admin.killed w) (si_modes s) (si_exports s) (si_stores s)
    (fun d => match swapped_in s w d with Some image => put_content (si_dbs s d) (k_reload k image) | None => si_dbs s d end).
Definition enroll_site (s : site) (w : Enroll.eworld (W := pworld)) : site :=
  Site (enroll_back w) (Enroll.e_pol w) (Enroll.e_auth w) (Some (Enroll.e_svc w)) (si_fs s) (si_lim s) (si_met s) (si_sess s) (si_torn s) (si_modes s)
    (si_exports s) (si_stores s) (si_dbs s).

(** *** One request *)

Definition live (su : setup) (s : site) : data_handler :=
  let d := su_handler su in DataHandler (HttpApi.WithPolicy (Some (si_pol s)) (base d)) (maxBlob d) (maxExport d).
Definition body_of_ask (k : ask S) : HttpApi.body :=
  Body (Blob.whole (k_body k)) (match Blob.cut (k_body k) with Some _ => true | None => false end).
Definition to_http (k : ask S) (r : Auth.request) : http_request :=
  HReq (Auth.r_method r) (Auth.r_path r) (Auth.r_host r) (body_of_ask k) (Auth.r_ctx r).
Definition known (s : site) (db : string) : bool := bool_decide (is_Some (backends (w_reg (si_p s)) !! db)).
Definition got (s : site) (k : ask S) (db : string) : result geterr nat := if known s db then k_get k else Err GUnknownDB.
Definition got_unit (s : site) (k : ask S) (db : string) : result geterr unit :=
  match got s k db with Ok _ => Ok tt | Err x => Err x end.
Definition env_at (s : site) (k : ask S) : HttpApi.env S :=
  let v := base_env (k_streams k) in
  HttpApi.Env S (known s) (got_unit s k) (borrow v) (pragma_on v) (up1 v) (up2 v) (up3 v) (up4 v) (mode_err v) (pool_q v) (pool_tx v)
    (conn_q v) (conn_tx v).
Definition streams_at (s : site) (k : ask S) : stream_env S :=
  SEnv S (env_at s k) (Streams.pin (k_streams k)) (rand_id (k_streams k)) (conn_ops (k_streams k)).
Definition driver_at (s : site) (k : ask S) : Endpoints.driver S :=
  let d := k_driver k in
  Endpoints.Driver S (known s) (got_unit s k) (get_text d) (conn_ d) (is_sqlite d) (apply_cs d) (invert_cs d) (concat_cs d) (image_size d)
    (serialize d) (slot d) (temp_file d) (dest_open d) (dest_conn d) (backup_init d) (backup_steps d) (backup_finish d) (image d) (reopen d).

Definition respond (hd : headers) (code : Z) (c : answer_) : response := Transport.Response code hd (Some c).
Definition hrana_answer (hd : headers) (x : HttpApi.response) : response := respond hd (status x) (CHrana (payload_ x)).
Definition data_answer (hd : headers) (x : Endpoints.reply) : response := respond hd (reply_status x) (CData x).

(** The endpoints of [backup.go], [export.go], [changeset.go], [blob.go] and [changes.go]. *)
Definition endpoint_of (ep : string) : option Endpoints.endpoint :=
  if String.eqb ep "/export" then Some EExport
  else if String.eqb ep "/backup" then Some EBackup
  else if String.eqb ep "/changeset/apply" then Some EApply
  else if String.eqb ep "/changeset/invert" then Some EInvert
  else if String.eqb ep "/changeset/concat" then Some EConcat
  else None.
Definition serve_data (su : setup) (k : ask S) (db ep : string) (r : Auth.request) (hd : headers) (s : site) : site * response :=
  let q := ParseQuery (Auth.r_rawquery r) in
  match endpoint_of ep with
  | Some o =>
      let '(w, rp) := Endpoints.serve (live su s) (driver_at s k) decode_pair quote o (to_http k r) q db (k_now k) (data_view s db) in
      (data_back s db w, data_answer hd rp)
  | None =>
      if String.eqb ep "/changes" then
        let on := match w_feed (si_p s) with Some _ => true | None => false end in
        let '(w, x) := Changes.handleChanges (base (live su s)) on (to_http k r) q (Auth.r_header r "Last-Event-ID") db (k_sub k) (k_now k)
                         (feed_view s db) in
        (feed_back s db w, match x with Ok os => respond hd 200 (CChanges os) | Err rp => data_answer hd rp end)
      else
        let '(w, rp) := Blob.handleBlob L (live su s) (known s db) (got s k db) (to_http k r) q (k_body k) db ep (k_now k) (blob_view s db) in
        (blob_back s db w, data_answer hd rp)
  end.

Definition serve_admin (k : ask S) (ah : Admin.handler) (r : Auth.request) (hd : headers) (s : site) : site * response :=
  let ar := Admin.AReq (Auth.r_method r) (Auth.r_path r) (query_get (ParseQuery (Auth.r_rawquery r)) "database") (Auth.r_ctx r)
              (string_of (Blob.whole (k_body k))) in
  let '(w, p) := Admin.ServeHTTP (Enrollments0 := service_enrollments RecommendedPragmas canonicalPath encode sec dataDir)
                   RecommendedPragmas canonicalPath encode sec dec ah (k_calls k) (k_admin k) (admin_view s) ar in
  (admin_back k s w, respond hd (Admin.st p) (CAdmin (Admin.body_ p))).

Definition no_route (e : routeerr) : string :=
  match e with
  | errNoDatabase => "no database in request (name it in the path, host, or set a default)"
  | errInvalidDB => "invalid or reserved database name"
  end.

Definition serve_metrics (su : setup) (hd : headers) (s : site) : site * response :=
  if su_metrics su then (s, respond (hset "Content-Type" "text/plain; version=0.0.4" hd) 200 (CMetrics (si_met s)))
  else (s, respond hd 404 (CMsg "metrics not enabled")).

(** [Handler.ServeHTTP], endpoint by endpoint. *)
Definition route (su : setup) (k : ask S) (r : Auth.request) (hd : headers) (s : site) : site * response :=
  let h := base (live su s) in
  let hr := to_http k r in
  match HttpApi.ServeHTTP h hr with
  | DHealth => (s, respond hd 200 CHealth)
  | DMetrics => serve_metrics su hd s
  | DAdmin => match su_admin su with
              | None => (s, respond hd 404 (CMsg "control plane not enabled"))
              | Some ah => serve_admin k ah r hd s
              end
  | DReserved => (s, respond hd 404 (CMsg "reserved path not available"))
  | DNoRoute e => (s, respond hd 404 (CMsg (no_route e)))
  | DQuery db =>
      let '(w, x) := handleQuery (su_engine su) decode text h (env_at s k) hr db (k_now k) (query_view s db) in
      (query_back s db w, hrana_answer hd x)
  | DPipeline db =>
      let '(w, x) := handlePipeline (su_engine su) h (streams_at s k) decode_pipeline hr db (k_now k) (k_end k) (stream_view s db) in
      (stream_back s db w, hrana_answer hd x)
  | DCursor db =>
      let '(w, x) := handleCursor (su_engine su) h (streams_at s k) decode_cursor hr db (k_now k) (k_end k) (k_lines k) (stream_view s db) in
      (stream_back s db w, hrana_answer hd x)
  | DProbe => (s, Transport.Response 200 hd None)
  | DData db ep => serve_data su k db ep r hd s
  | DUnknown ep => (s, respond hd 404 (CMsg ("unknown endpoint " +:+ ep)))
  end.
Definition root (su : setup) : handler := fun r hd w =>
  let '(s, x) := route su w.1 r hd w.2 in ((w.1, s), x).

(** *** In front of it: the middleware *)

(** [http.SetCookie] as [WriteSessionTransport] and [ClearSessionTransport] call it; [None]
    expires the cookie. *)
Definition cookie_line (name v : string) (expires : option Z) : string :=
  name +:+ "=" +:+ v +:+ "; Path=/" +:+ match expires with Some t => "; Expires=" +:+ http_time t | None => "; Max-Age=0" end +:+
  "; HttpOnly; Secure; SameSite=Strict".
Definition set_cookie (a : Auth.authenticator) (v : option string) (expires : option Z) (hd : headers) : headers :=
  match v with Some v => hadd "Set-Cookie" (cookie_line (Auth.cookieName a) v expires) hd | None => hd end.

Definition serve_challenge (hd : headers) (c : option string) : response :=
  match c with Some c => respond hd 200 (CChallenge c) | None => respond hd 405 (CMsg "use GET") end.
Definition deny (hd : headers) : response :=
  respond (hset "WWW-Authenticate" ("Bearer, Basic realm=" +:+ dquote +:+ "restricted" +:+ dquote) hd) 401 (CMsg "authentication required").
Definition write_session (a : Auth.authenticator) (hd : headers) (x : session_resp) : response :=
  match x with
  | RToken tok p exp hard cookie =>
      respond (set_cookie a cookie (Some exp) hd) 200 (CToken tok p (RFC3339 exp) (if is_zero_time hard then None else Some (RFC3339 hard)))
  | RDenied _ => deny hd
  | RConflict => respond hd 409 (CMsg "session tokens are not renewable (set auth.session.max_ttl)")
  | RNoContent cookie => Transport.Response 204 (set_cookie a cookie None hd) None
  | RMethodNotAllowed => respond hd 405 (CMsg "use POST (mint), PUT (renew), or DELETE (revoke)")
  end.
(** The extended token travels the way the old one came. *)
Definition refresh_header (a : Auth.authenticator) (x : option (string * Z * bool)) (hd : headers) : headers :=
  match x with
  | None => hd
  | Some (nt, ne, true) => set_cookie a (WriteSessionTransport a nt) (Some ne) hd
  | Some (nt, ne, false) => hset "X-Session-Expires" (RFC3339 ne) (hset "X-Session-Token" nt hd)
  end.

Definition with_ctx (r : Auth.request) (p : Authz.principal) : Auth.request :=
  Auth.Request (Auth.r_method r) (Auth.r_path r) (Auth.r_rawquery r) (Auth.r_header r) (Auth.r_cookie r) (Auth.r_cert r) (Auth.r_uid r)
    (Auth.r_host r) (Auth.r_remote r) (Some p).

(** The seen-hook is the service's [Touch] (start-up sets it with an idle time to live); the
    credential hook belongs to a feature. *)
Definition touch (now : Z) (s : site) (x : Auth.hook) : site :=
  match x, si_svc s with
  | Seen n, Some v =>
      with_svc s (Some (Enroll.e_svc (Enroll.Touch (Enroll.EWorld v Meta.empty_store (si_auth s) (si_pol s) (si_p s)) (now / second) n)))
  | _, _ => s
  end.

Definition with_ip (o : Enroll.io) (ip : string) : Enroll.io :=
  Enroll.IO ip (i_errtext o) (i_lookup o) (i_code o) (i_consume o) (i_put o) (i_recheck o) (i_delete o) (i_release o) (i_audit o).
Definition serve_enroll (k : ask S) (r : Auth.request) (hd : headers) (s : site) : site * response :=
  match si_svc s, w_store (si_p s) with
  | Some v, Some st =>
      let '(w, x) := Enroll.ServeHTTP (Provisioner0 := provision_provisioner RecommendedPragmas canonicalPath encode sec dataDir)
                       parse_key verify_sig decode_token (with_ip (k_io k) (Enroll.remoteIP r)) (k_now k) (k_prov k)
                       (enroll_view (v, si_auth s) st (si_p s) (si_pol s)) (RequestIn r (string_of (Blob.whole (k_body k)))) in
      (enroll_site s w, respond hd (match x with Created _ _ => 200 | Refused n => n end) (CEnroll x))
  | _, _ => (s, respond hd 404 (CMsg "404 page not found"))   (* no service: [Wrap] does not route here *)
  end.

(** [Middleware.Wrap] of a listener. *)
Definition middleware (lc : listener) (next : handler) : handler := fun r hd w =>
  let '(k, s) := w in
  let '(a, out, hooks) := Auth.Wrap bcrypt_ok parse_key verify_sig (si_auth s) (l_auth lc) (k_now k) (k_rnd k) r in
  let s1 := fold_left (touch (k_now k)) hooks (with_auth s a) in
  match out with
  | ToChallenge c => ((k, s1), serve_challenge hd c)
  | ToSession x => ((k, s1), write_session a hd x)
  | ToAccount => account r hd (k, s1)
  | ToEnroll => let '(s2, x) := serve_enroll k r hd s1 in ((k, s2), x)
  | ToNext p refresh => next (with_ctx r p) (refresh_header a refresh hd) (k, s1)
  | Denied _ => ((k, s1), deny hd)
  end.

(** What answers on a listener. *)
Definition listening_on (cfg : config) (su : setup) (lc : listener) : handler :=
  Transport.listener_handler cfg (Some middleware) lc (root su).

(** ** What a request can bring about *)

(** What is assumed of the outside for a database a request works on: the pool hands out
    connections in the base mode, and to a stream one that no other stream holds; the driver
    compiles and runs statements as [Sqlite.v] has it; no change of its own is pending on a
    connection it hands out. *)
Record sqlite_behind (lib : sqlite S) (clean : S -> Prop) (k : ask S) (s : site) (d : string) : Prop := {
  ho_borrow : borrow (base_env (k_streams k)) = Ok base_conn;
  ho_pin : pin_fresh (k_streams k) (si_sess s);
  ho_on : pragma_on (base_env (k_streams k)) "ON" = true;
  ho_off : pragma_on (base_env (k_streams k)) "OFF" = false;
  ho_q : drives_q (pragma_on (base_env (k_streams k))) lib (conn_q (base_env (k_streams k)));
  ho_tx : drives_tx (pragma_on (base_env (k_streams k))) lib (conn_tx (base_env (k_streams k)));
  ho_ops : drives (pragma_on (base_env (k_streams k))) lib (conn_ops (k_streams k));
  ho_clean : clean (ce_content (si_dbs s d))
}.

(** The sessions and their connections are as they should be: at the start ([pinned_none]),
    and after every request ([server_enforces_policy]). *)
Definition streams_ok (s : site) : Prop := pinned_ok (si_sess s) (si_modes s).

Lemma kill_streams_ok st m i : pinned_ok st m -> pinned_ok (Session.Kill st i).1.1 m.
Proof.
  apply shrinks_pinned. intros j t. unfold Session.Kill. destruct (b64_decode _ _) as [raw|]; [|by exists t].
  destruct (negb _); [by exists t|]. destruct (Session.sessions st !! raw) as [x|]; [|by exists t]. destruct (Session.busy x); [by exists t|].
  pose proof (sessions_closeLocked st raw) as Hc. destruct (closeLocked st raw) as [st' ts]. cbn [fst] in *. rewrite Hc.
  intros [_ Ht]%lookup_delete_Some. by exists t.
Qed.

Section Contained.
Context {D : Type} (content : S -> D).   (* what of a database's state counts as its content *)
Context (lib : sqlite S) (clean : S -> Prop) (laws : sqlite_laws lib content clean).
#[local] Notation honest := (sqlite_behind lib clean).

Definition cont (s : site) (d : string) : D := content (ce_content (si_dbs s d)).
(** The request names database [d], by its path or its host. *)
Definition addressed (su : setup) (k : ask S) (r : Auth.request) (d : string) : Prop :=
  exists ep, HttpApi.resolve (base (su_handler su)) (to_http k r) = Ok (d, ep).
Definition level_of (s : site) (p : Authz.principal) (d : string) : level := Level (si_pol s) (Some p) d.
(** Answers that carry something of a database. *)
Definition db_answer (c : answer_) : bool :=
  match c with CHrana _ | CData _ | CChanges _ => true | _ => false end.

(** Who may do what: the policy, the databases served, the stored specifications, principals
    and codes, the enrolled keys. *)
Record governed (s s' : site) : Prop := {
  gv_pol : si_pol s' = si_pol s;
  gv_backends : backends (w_reg (si_p s')) = backends (w_reg (si_p s));
  gv_tables : Admin.tables (w_store (si_p s')) = Admin.tables (w_store (si_p s));
  gv_keys : Auth.dynKeyring (si_auth s') = Auth.dynKeyring (si_auth s)
}.
Lemma governed_refl s : governed s s.
Proof. by split. Qed.

Definition by_admin (su : setup) (r : Auth.request) (p : Authz.principal) : Prop :=
  (Auth.r_path r = "/_admin"%string \/ has_prefix "/_admin/" (Auth.r_path r) = true) /\
  exists ah, su_admin su = Some ah /\ Authz.Name p ∈ Admin.admins ah.

(** The content of [d] is replaced by what is put in its file: a named administrator's
    restore; or the snapshot an administrator of some database asks for, where [d], as
    served, has no file yet. *)
Definition replaces (su : setup) (r : Auth.request) (s : site) (p : Authz.principal) (d : string) : Prop :=
  by_admin su r p \/
  (Auth.r_path r = "/_admin"%string \/ has_prefix "/_admin/" (Auth.r_path r) = true) /\ (exists d', CanAdmin (level_of s p d') = true) /\
  exists f, db_path s d = Some f /\ f ∉ w_files (si_p s).

(** The effect of a request behind the middleware, for the principal [p]. *)
Record route_ok (su : setup) (k : ask S) (r : Auth.request) (p : Authz.principal) (s s' : site) (resp : response) : Prop := {
  ro_content : forall d, cont s' d <> cont s d -> addressed su k r d /\ CanRead (level_of s p d) = true /\
    (CanWrite (level_of s p d) = true \/ writer_stream (si_sess s) d (Authz.Name p)) \/ replaces su r s p d;
  ro_read : forall c, Transport.content resp = Some c -> db_answer c = true -> code resp < 400 ->
    exists d, addressed su k r d /\ CanRead (level_of s p d) = true;
  ro_governed : governed s s' \/ by_admin su r p;
  ro_streams : streams_ok s -> streams_ok s'
}.

Lemma cont_back {X} s db (w : HttpApi.world X) c d : cont (db_back s db w c) d = if String.eqb d db then content (ce_content c) else cont s d.
Proof. unfold cont, db_back. cbn [si_dbs]. by destruct (String.eqb d db). Qed.

(** A request for one database that leaves everything else alone. *)
Lemma route_db su k r p s s' resp db ep :
  HttpApi.resolve (base (su_handler su)) (to_http k r) = Ok (db, ep) -> governed s s' -> (streams_ok s -> streams_ok s') ->
  (forall d, d <> db -> cont s' d = cont s d) ->
  (code resp < 400 -> CanRead (level_of s p db) = true) ->
  (cont s' db <> cont s db -> CanRead (level_of s p db) = true /\ (CanWrite (level_of s p db) = true \/ writer_stream (si_sess s) db (Authz.Name p))) ->
  route_ok su k r p s s' resp.
Proof.
  intros Ha Hg Hs Ho Hc Hw. split; [| |by left|done].
  - intros d Hd. destruct (decide (d = db)) as [->|Hne]; [|by rewrite Ho in Hd]. left. split; [by exists ep|auto].
  - intros c _ _ Hlt. exists db. split; [by exists ep|auto].
Qed.
(** A request that changes nothing and shows nothing. *)
Lemma route_none su k r p s resp : (forall c, Transport.content resp = Some c -> db_answer c = true -> False) -> route_ok su k r p s s resp.
Proof. intros H. split; [done| |left; apply governed_refl|done]. intros c Hc Hd. by destruct (H c Hc Hd). Qed.

Section Request.
Variable su : setup.
Variable k : ask S.
Variable r : Auth.request.
Variable p : Authz.principal.
Hypothesis Hctx : Auth.r_ctx r = Some p.

Lemma live_level s d : Level (policy_ (base (live su s))) (Some (FromContext (q_principal (to_http k r)))) d = level_of s p d.
Proof using Hctx. unfold live, to_http, level_of. cbn. by rewrite Hctx. Qed.

Lemma query_route s db ep hd : honest k s db -> HttpApi.resolve (base (su_handler su)) (to_http k r) = Ok (db, ep) ->
  let '(w, x) := handleQuery (su_engine su) decode text (base (live su s)) (env_at s k) (to_http k r) db (k_now k) (query_view s db) in
  route_ok su k r p s (query_back s db w) (hrana_answer hd x).
Proof using Hctx laws.
  intros Hh Ha. destruct (handleQuery _ _ _ _ _ _ _ _ _) as [w x] eqn:E.
  pose proof (query_is_gated _ _ _ _ _ _ _ _ _ _ _ E) as [_ Hno]. rewrite live_level in Hno.
  assert (Hcont : cont (query_back s db w) db = content (w_db w)) by (unfold query_back; by rewrite cont_back, String.eqb_refl).
  eapply route_db; [exact Ha|done|done| | |].
  - intros d Hd. unfold query_back. rewrite cont_back. by rewrite (proj2 (String.eqb_neq _ _) Hd).
  - destruct (CanRead _); [done|]. destruct (Hno eq_refl) as [_ ->]. cbn. by destruct (String.eqb _ _).
  - intros Hne. destruct (CanRead (level_of s p db)) eqn:Er.
    2:{ destruct (Hno eq_refl) as [-> _]. destruct Hne. by rewrite Hcont. }
    split; [done|]. left. destruct (CanWrite (level_of s p db)) eqn:Ew; [done|]. destruct Hne. rewrite Hcont.
    destruct Hh. pose proof (handleQuery_ro (su_engine su) decode text (base (live su s)) (env_at s k) lib content clean laws
      (conj ho_q0 ho_tx0) (to_http k r) db (k_now k) (query_view s db) w x) as Hro.
    rewrite live_level in Hro. by apply (Hro Ew ho_clean0 ho_borrow0 ho_on0 ho_off0 E).
Qed.

Lemma stream_route s db ep hd : streams_ok s -> honest k s db -> HttpApi.resolve (base (su_handler su)) (to_http k r) = Ok (db, ep) ->
  forall w x, handlePipeline (su_engine su) (base (live su s)) (streams_at s k) decode_pipeline (to_http k r) db (k_now k) (k_end k) (stream_view s db) = (w, x) \/
    handleCursor (su_engine su) (base (live su s)) (streams_at s k) decode_cursor (to_http k r) db (k_now k) (k_end k) (k_lines k) (stream_view s db) = (w, x) ->
  route_ok su k r p s (stream_back s db w) (hrana_answer hd x).
Proof using Hctx laws.
  intros Hpin Hh Ha w x E.
  pose proof (streams_are_gated (su_engine su) (base (live su s)) (streams_at s k) decode_pipeline decode_cursor lib content clean laws
    (ho_ops _ _ _ _ _ Hh) (ho_on _ _ _ _ _ Hh) (to_http k r) db (k_now k) (k_end k) (k_lines k) (stream_view s db) w x) as Hg.
  cbv zeta in Hg. rewrite live_level in Hg.
  destruct (Hg Hpin (ho_pin _ _ _ _ _ Hh) (ho_clean _ _ _ _ _ Hh) E) as (H1 & Hpin' & H2).
  eapply route_db; [exact Ha|done|by intros _| |exact H1|].
  - intros d Hd. unfold stream_back, cont, with_sessions. cbn [si_dbs]. fold (cont (query_back s db (sv w)) d). unfold query_back. rewrite cont_back.
    by rewrite (proj2 (String.eqb_neq _ _) Hd).
  - intros Hne. assert (Hc : cont (stream_back s db w) db = content (w_db (sv w))).
    { unfold stream_back, cont, with_sessions. cbn [si_dbs]. fold (cont (query_back s db (sv w)) db). unfold query_back. by rewrite cont_back, String.eqb_refl. }
    rewrite Hc in Hne. destruct (H2 Hne) as [H3 H4]. split; [done|]. destruct H4 as [?|H4]; [by left|right].
    cbn in H4. by rewrite Hctx in H4.
Qed.

Lemma data_route s db ep hd : HttpApi.resolve (base (su_handler su)) (to_http k r) = Ok (db, ep) ->
  let '(s', x) := serve_data su k db ep r hd s in route_ok su k r p s s' x.
Proof using Hctx.
  intros Ha. unfold serve_data. cbv zeta. destruct (endpoint_of ep) as [o|]; [|destruct (String.eqb ep "/changes")].
  - destruct (Endpoints.serve _ _ _ _ _ _ _ _ _ _) as [w x] eqn:E. apply serve_effect in E. cbv zeta in E. rewrite live_level in E. destruct E as [H1 H2].
    assert (Hc : forall d, cont (data_back s db w) d = if String.eqb d db then content (Endpoints.content (w_db w)) else cont s d)
      by (intros d; exact (cont_back s db w _ d)).
    eapply route_db; [exact Ha|done|done| |exact H1|].
    + intros d Hd. rewrite Hc. by rewrite (proj2 (String.eqb_neq _ _) Hd).
    + rewrite Hc, String.eqb_refl. intros Hne. destruct H2 as [H2 H3]; [|by split; [|left]].
      intros Heq. apply Hne. unfold cont. by rewrite Heq.
  - destruct (Changes.handleChanges _ _ _ _ _ _ _ _ _) as [w x] eqn:E.
    assert (Hr : match x with Ok _ => CanRead (level_of s p db) = true | Err rp => reply_status rp < 400 -> CanRead (level_of s p db) = true end).
    { revert E. unfold Changes.handleChanges, authorize. rewrite live_level. destruct (negb _); [by intros [= <- <-]|].
      destruct (negb _); [by intros [= <- <-]|]. destruct (CanRead _) eqn:Er; [|by intros [= <- <-]].
      intros _. by destruct x. }
    assert (Hc : forall d, cont (feed_back s db w) d = cont s d).
    { intros d. assert (cont (db_back s db w (si_dbs s db)) d = cont s d)
        by (rewrite cont_back; destruct (String.eqb_spec d db) as [->|]; done).
      unfold feed_back. cbv zeta. by destruct (w_feed (si_p s)). }
    eapply route_db; [exact Ha| | | | |].
    + unfold feed_back. cbv zeta. by destruct (w_feed (si_p s)).
    + unfold feed_back, streams_ok. cbv zeta. by destruct (w_feed (si_p s)).
    + intros d _. apply Hc.
    + destruct x as [os|rp]; [done|exact Hr].
    + rewrite Hc. done.
  - destruct (Blob.handleBlob _ _ _ _ _ _ _ _ _ _ _) as [w x] eqn:E. apply handleBlob_effect in E. cbv zeta in E. rewrite live_level in E. destruct E as [H1 H2].
    assert (Hc : forall d, cont (blob_back s db w) d = if String.eqb d db then content (Blob.db_ (w_db w)) else cont s d)
      by (intros d; exact (cont_back s db w _ d)).
    eapply route_db; [exact Ha|done|done| |exact H1|].
    + intros d Hd. rewrite Hc. by rewrite (proj2 (String.eqb_neq _ _) Hd).
    + rewrite Hc, String.eqb_refl. intros Hne. destruct H2 as [H2 H3]; [|by split; [|left]].
      intros Heq. apply Hne. by rewrite Heq.
Qed.

Lemma admin_route s ah hd : su_admin su = Some ah -> Admin.names_ok (w_reg (si_p s)) ->
  Auth.r_path r = "/_admin"%string \/ has_prefix "/_admin/" (Auth.r_path r) = true ->
  let '(s', x) := serve_admin k ah r hd s in route_ok su k r p s s' x.
Proof using Hctx.
  intros Hah Hok Hp. unfold serve_admin. cbv zeta. set (ar := Admin.AReq _ _ _ _ _).
  pose proof (Admin.nonadmin_keeps (Enrollments0 := service_enrollments RecommendedPragmas canonicalPath encode sec dataDir)
    RecommendedPragmas canonicalPath encode sec dec ah (k_calls k) (k_admin k) (admin_view s) ar Hok) as Hn. cbv zeta in Hn.
  pose proof (Admin.nonadmin_effect (Enrollments0 := service_enrollments RecommendedPragmas canonicalPath encode sec dataDir)
    RecommendedPragmas canonicalPath encode sec dec ah (k_calls k) (k_admin k) (admin_view s) ar Hok) as He.
  pose proof (Admin.ServeHTTP_sess (Enrollments0 := service_enrollments RecommendedPragmas canonicalPath encode sec dataDir)
    RecommendedPragmas canonicalPath encode sec dec ah (k_calls k) (k_admin k) (admin_view s) ar) as Hk. cbv zeta in Hk.
  destruct (Admin.ServeHTTP _ _ _ _ _ _ _ _ _ _) as [w x]. cbn [fst] in Hn, Hk.
  assert (Hname : Admin.principal_ ar = Authz.Name p) by (unfold ar, Admin.principal_; cbn; by rewrite Hctx).
  assert (Hadmin : Admin.isServerAdmin ah ar = true -> by_admin su r p).
  { unfold Admin.isServerAdmin. rewrite Hname. intros Hadm%bool_decide_eq_true. split; [done|]. by exists ah. }
  split; [|by intros c [= <-]| |].
  3:{ unfold streams_ok, admin_back. cbn [si_sess si_modes]. destruct Hk as [->|(st & i & [= <-] & ->)]; [done|apply kill_streams_ok]. }
  { intros d Hd. right. destruct (Admin.isServerAdmin ah ar) eqn:Hadm; [left; by apply Hadmin|right]. split; [done|].
    unfold cont, admin_back in Hd. cbn [si_dbs] in Hd. destruct (swapped_in s w d) as [image|] eqn:Esw; [|done].
    unfold swapped_in in Esw. destruct (db_path s d) as [f|] eqn:Ef; [|done]. cbn in Esw. case_bool_decide as Hf; [done|].
    destruct (He eq_refl) as [[[s0 [-> _]]|(q & _ & _ & _ & Hmay & _ & _ & _ & Hfr & _)] _]; [by destruct Hf|].
    split; [exists (Admin.m_db q); rewrite <- Hmay; unfold level_of; cbn; by rewrite Hctx|].
    exists f. split; [done|]. intros Hin. apply Hf, (Admin.fr_files _ _ _ _ Hfr f). intros [_ Hno]. unfold Admin.file_there in Hno.
    by apply bool_decide_eq_false in Hno. }
  destruct (Admin.isServerAdmin ah ar) eqn:Hadm.
  - right. by apply Hadmin.
  - left. destruct (Hn eq_refl) as (H1 & H2 & H3 & H4 & H5 & _). unfold admin_back. constructor; cbn [si_pol si_p si_auth]; try done.
    rewrite H4. cbn. by destruct (si_svc s).
Qed.

Lemma route_effect s hd : (forall d, addressed su k r d -> honest k s d) -> Admin.names_ok (w_reg (si_p s)) -> streams_ok s ->
  let '(s', x) := route su k r hd s in route_ok su k r p s s' x.
Proof using Hctx laws.
  intros Hh Hok Hstr. unfold route. cbv zeta.
  assert (Hres : HttpApi.resolve (base (live su s)) (to_http k r) = HttpApi.resolve (base (su_handler su)) (to_http k r)) by done.
  unfold HttpApi.ServeHTTP. change (q_path (to_http k r)) with (Auth.r_path r).
  assert (Hno : forall code m, route_ok su k r p s s (respond hd code (CMsg m))) by (intros; apply route_none; by intros c [= <-]).
  destruct (String.eqb _ "/_health"); [apply route_none; by intros c [= <-]|].
  destruct (String.eqb _ "/_metrics"); [unfold serve_metrics; destruct (su_metrics su); [apply route_none; by intros c [= <-]|apply Hno]|].
  destruct (String.eqb (Auth.r_path r) "/_admin" || has_prefix "/_admin/" (Auth.r_path r)) eqn:Ea.
  { destruct (su_admin su) as [ah|] eqn:Eah; [|apply Hno]. apply admin_route; [done|done|].
    apply orb_true_iff in Ea as [Ea|Ea]; [left; by apply String.eqb_eq|by right]. }
  destruct (has_prefix "/_" _); [apply Hno|]. rewrite Hres.
  destruct (HttpApi.resolve _ _) as [[db ep]|e] eqn:Er; [|apply Hno].
  assert (Hd : honest k s db) by (apply Hh; by exists ep).
  destruct (String.eqb ep "/query").
  { pose proof (query_route s db ep hd Hd Er) as H. by destruct (handleQuery _ _ _ _ _ _ _ _ _). }
  destruct (mem_string ep _).
  { pose proof (stream_route s db ep hd Hstr Hd Er) as H. destruct (handlePipeline _ _ _ _ _ _ _ _ _) as [w x]. apply H. by left. }
  destruct (mem_string ep _); [apply route_none; by intros c [= <-]|].
  destruct (mem_string ep _).
  { pose proof (stream_route s db ep hd Hstr Hd Er) as H. destruct (handleCursor _ _ _ _ _ _ _ _ _ _) as [w x]. apply H. by right. }
  destruct (mem_string ep _); [by apply data_route|apply Hno].
Qed.
End Request.

(** *** The middleware in front *)

Definition authenticated (lc : listener) (k : ask S) (r : Auth.request) (s : site) (p : Authz.principal) : Prop :=
  exists h, Auth.authenticateFor bcrypt_ok parse_key verify_sig (si_auth s) (l_auth lc) (k_now k) r false = (Ok p, h).
(** An enrollment that shows possession of its key. *)
Definition enrolls (lc : listener) (k : ask S) (r : Auth.request) (s : site) : Prop :=
  Auth.r_path r = "/_auth/enroll"%string /\ Auth.r_method r = "POST"%string /\ Auth.accepts (l_auth lc) "keyring" = true /\
  exists canon pub, Auth.VerifyPresented parse_key verify_sig (si_auth s) (k_now k) r = Ok (canon, pub).
Definition public_paths : list string := ["/_auth/challenge"; "/_auth/session"; "/_auth/enroll"; "/_health"]%string.

Lemma touched now hooks : forall s, exists v, fold_left (touch now) hooks s = with_svc s v.
Proof.
  induction hooks as [|x hooks IH]; intros s; [exists (si_svc s); by destruct s|]. cbn [fold_left].
  destruct (IH (touch now s x)) as [v ->]. exists v. unfold touch. by destruct x, (si_svc s).
Qed.

Lemma enroll_effect k r hd s : let '(s', x) := serve_enroll k r hd s in
  (forall d, cont s' d = cont s d) /\ (forall c, Transport.content x = Some c -> db_answer c = false) /\
  (governed s s' \/ Auth.r_method r = "POST"%string /\
     exists canon pub, Auth.VerifyPresented parse_key verify_sig (si_auth s) (k_now k) r = Ok (canon, pub)) /\
  si_sess s' = si_sess s /\ si_modes s' = si_modes s.
Proof.
  unfold serve_enroll. assert (Hs : forall hd, (forall d, cont s d = cont s d) /\
    (forall c, Transport.content (respond hd 404 (CMsg "404 page not found")) = Some c -> db_answer c = false) /\ (governed s s \/
     Auth.r_method r = "POST"%string /\ exists canon pub, Auth.VerifyPresented parse_key verify_sig (si_auth s) (k_now k) r = Ok (canon, pub)) /\
    si_sess s = si_sess s /\ si_modes s = si_modes s)
    by (intros h0; split; [done|]; split; [by intros c [= <-]|split; [left; apply governed_refl|done]]).
  destruct (si_svc s) as [v|] eqn:Ev; [|apply Hs]. destruct (w_store (si_p s)) as [st|] eqn:Est; [|apply Hs]. clear Hs.
  set (w0 := enroll_view (v, si_auth s) st (si_p s) (si_pol s)). set (o := with_ip _ _).
  assert (Hg : forall w : Enroll.eworld (W := pworld), Enroll.e_auth w = si_auth s -> Enroll.e_pol w = si_pol s -> Enroll.e_db w = si_p s ->
    enrolled (Enroll.e_store w) = enrolled st -> enroll_codes (Enroll.e_store w) = enroll_codes st -> governed s (enroll_site s w)).
  { intros w H1 H2 H3 H4 H5. unfold enroll_site, enroll_back, joint_store. constructor; cbn [si_pol si_p si_auth w_reg Provision.set_store w_store]; try done.
    - by rewrite H3.
    - rewrite H3, Est. unfold Admin.tables. cbn. by rewrite H4, H5.
    - by rewrite H1. }
  unfold Enroll.ServeHTTP. cbn [q_req q_body].
  destruct (String.eqb_spec (Auth.r_method r) "POST") as [Hm|]; cbn [negb].
  2:{ split; [done|]. split; [by intros c [= <-]|]. split; [left; by apply Hg|done]. }
  destruct (Enroll.allow _ _ _) as [v1 ok]. destruct ok; cbn [negb].
  2:{ split; [done|]. split; [by intros c [= <-]|]. split; [left; by apply Hg|done]. }
  change (Enroll.e_auth (Enroll.set_svc w0 v1)) with (si_auth s).
  destruct (Auth.VerifyPresented _ _ _ _ _) as [[canon pub]|x] eqn:Ep.
  - match goal with |- let '(s', x) := (let '(w, y) := ?e in _) in _ => destruct e as [w y] end.
    split; [done|]. split; [by intros c [= <-]|]. split; [right; split; [done|]; by exists canon, pub|done].
  - split; [done|]. split; [by intros c [= <-]|]. split; [|done]. left.
    pose proof (Enroll.audit_fields o (k_now k / second) (Enroll.set_svc w0 v1) "" "enroll.denied" ("invalid possession proof ip=" +:+ i_ip o)) as H.
    cbv zeta in H. destruct H as (_ & H2 & H3 & H4 & H5 & H6 & _). by apply Hg.
Qed.

(** What one request to a listener may bring about, and for whom. *)
Record contained (su : setup) (lc : listener) (k : ask S) (r : Auth.request) (s s' : site) (resp : response) : Prop := {
  cn_content : forall d, cont s' d <> cont s d -> exists p, authenticated lc k r s p /\
    (addressed su k r d /\ CanRead (level_of s p d) = true /\ (CanWrite (level_of s p d) = true \/ writer_stream (si_sess s) d (Authz.Name p)) \/
     replaces su r s p d);
  cn_answer : forall c, Transport.content resp = Some c -> db_answer c = true -> code resp < 400 ->
    exists p d, authenticated lc k r s p /\ addressed su k r d /\ CanRead (level_of s p d) = true;
  cn_governed : governed s s' \/ (exists p, authenticated lc k r s p /\ by_admin su r p) \/ enrolls lc k r s;
  cn_streams : streams_ok s -> streams_ok s';
  cn_refused : forall e h, Auth.authenticateFor bcrypt_ok parse_key verify_sig (si_auth s) (l_auth lc) (k_now k) r false = (Err e, h) ->
    Auth.r_path r ∉ public_paths -> s' = s /\ (code resp = 401 \/ code resp = 204 /\ is_preflight r = true)
}.

(** A request that never reaches the endpoints. *)
Lemma contained_outside su lc k r s s' resp : (forall d, cont s' d = cont s d) ->
  (forall c, Transport.content resp = Some c -> db_answer c = false) -> governed s s' \/ enrolls lc k r s -> si_sess s' = si_sess s /\ si_modes s' = si_modes s ->
  (Auth.r_path r ∉ public_paths -> s' = s /\ (code resp = 401 \/ code resp = 204 /\ is_preflight r = true)) -> contained su lc k r s s' resp.
Proof.
  intros H1 H2 H3 [H4 H5] H6. split.
  - intros d Hd. by rewrite H1 in Hd.
  - intros c Hc Hd. by rewrite (H2 c Hc) in Hd.
  - destruct H3; auto.
  - unfold streams_ok. by rewrite H4, H5.
  - auto.
Qed.
Lemma with_auth_self s : with_auth s (si_auth s) = s.
Proof. by destruct s. Qed.

Lemma governed_from s v s' : governed (with_svc s v) s' -> governed s s'.
Proof. intros []. by split. Qed.

(** Behind the middleware: what the endpoints did for [p] is contained. *)
Lemma contained_next su lc k r s v p s' resp : authenticated lc k r s p -> route_ok su k (with_ctx r p) p (with_svc s v) s' resp ->
  contained su lc k r s s' resp.
Proof.
  intros Hau [H1 H2 H3 H4]. split.
  - intros d Hd. exists p. split; [done|]. exact (H1 d Hd).
  - intros c Hc Hd Hlt. destruct (H2 c Hc Hd Hlt) as (d & Hd1 & Hd2). exists p, d. done.
  - destruct H3 as [H3|H3]; [left; by eapply governed_from|right; left; by exists p].
  - exact H4.
  - intros e h He. destruct Hau as [h' Hau]. by rewrite Hau in He.
Qed.

Lemma middleware_contained su lc k r hd s : Auth.acctPaths (si_auth s) = None -> Admin.names_ok (w_reg (si_p s)) -> streams_ok s ->
  (forall p d, authenticated lc k r s p -> addressed su k r d -> honest k s d) ->
  let '((k', s'), resp) := middleware lc (root su) r hd (k, s) in k' = k /\ contained su lc k r s s' resp.
Proof using laws.
  intros Hacc Hok Hstr Hh. unfold middleware.
  pose proof (Auth.Wrap_out bcrypt_ok parse_key verify_sig (si_auth s) (l_auth lc) (k_now k) (k_rnd k) r Hacc) as Hw.
  pose proof (Auth.Wrap_keys bcrypt_ok parse_key verify_sig (si_auth s) (l_auth lc) (k_now k) (k_rnd k) r) as Hk.
  destruct (Auth.Wrap _ _ _ _ _ _ _ _) as [[a out] hooks]. cbn [fst] in Hk.
  destruct (touched (k_now k) hooks (with_auth s a)) as [v Ev]. rewrite Ev.
  assert (Hg : governed s (with_svc (with_auth s a) v)) by (by split).
  assert (Hpub : forall q, Auth.r_path r = q -> bool_decide (q ∈ public_paths) = true -> Auth.r_path r ∉ public_paths -> False)
    by (by intros q -> Hq%bool_decide_eq_true).
  destruct out as [[c|]|x| | |p refresh|e].
  - split; [done|]. apply contained_outside; [done|by intros y [= <-]|by left|done|].
    intros Hn. destruct Hw as [Hw|Hw]; destruct (Hpub _ Hw eq_refl Hn).
  - split; [done|]. apply contained_outside; [done|by intros y [= <-]|by left|done|].
    intros Hn. destruct Hw as [Hw|Hw]; destruct (Hpub _ Hw eq_refl Hn).
  - split; [done|]. apply contained_outside; [done|by intros y; destruct x; cbn; intros [= <-]|by left|done|].
    intros Hn. destruct Hw as [Hw|Hw]; destruct (Hpub _ Hw eq_refl Hn).
  - done.
  - destruct Hw as (-> & -> & Hp & Ha). cbn [fold_left] in Ev. rewrite <- Ev, with_auth_self.
    pose proof (enroll_effect k r hd s) as He. destruct (serve_enroll k r hd s) as [s2 x]. destruct He as (H1 & H2 & H3 & H4). split; [done|].
    apply contained_outside; [done|done|destruct H3 as [H3|(Hm & Hv)]; [by left|right; by repeat split]|done|].
    intros Hn. destruct (Hpub _ Hp eq_refl Hn).
  - destruct Hw as [-> Hw]. rewrite with_auth_self. unfold root. cbn [fst snd].
    destruct (route su k (with_ctx r p) (refresh_header (si_auth s) refresh hd) (with_svc s v)) as [s' x] eqn:Er. split; [done|].
    destruct Hw as [Hp|Hau].
    + unfold route in Er. cbv zeta in Er. unfold HttpApi.ServeHTTP in Er.
      change (q_path (to_http k (with_ctx r p))) with (Auth.r_path r) in Er. rewrite Hp in Er. cbn [String.eqb Ascii.eqb Bool.eqb] in Er.
      injection Er as <- <-. apply contained_outside; [done|by intros y [= <-]|left; by split|done|].
      intros Hn. destruct (Hpub _ Hp eq_refl Hn).
    + assert (Hauth : authenticated lc k r s p) by (by exists hooks).
      apply (contained_next su lc k r s v p s' x Hauth).
      pose proof (route_effect su k (with_ctx r p) p eq_refl (with_svc s v) (refresh_header (si_auth s) refresh hd)) as He.
      rewrite Er in He. apply He; [|exact Hok|exact Hstr]. intros d Hd. destruct (Hh p d Hauth Hd). by split.
  - destruct Hw as [-> He]. rewrite with_auth_self in Ev. pose proof (Auth.refused_quiet _ _ _ _ _ _ _ _ _ _ He) as ->. cbn in Ev.
    rewrite with_auth_self, <- Ev. split; [done|].
    apply contained_outside; [done|by intros y [= <-]|left; apply governed_refl|done|]. intros _. split; [done|by left].
Qed.
End Contained.

(** *** The server that start-up brings up *)

Definition setup_of (c : server_config) (started : Z) (dh : data_handler) (eng : engine) : setup :=
  let conf := sc_config c in
  Setup dh eng true
    (if cp_enabled (c_control conf)
     then Some (Admin.Handler (list_to_set (cp_admins (c_control conf))) (sc_data_dir c) (MaxRestoreBytes (sc_limits c)) started) else None).
Definition start (sec_bytes : Resolver K -> string -> result Secret.secerr string) (db_decode : string -> option database)
    (key_of : string -> option string) (c : server_config) (started : Z) (e : @Serverd.env K) : @proc world answer_ * result string (@instance K) :=
  Serverd.Run RecommendedPragmas canonicalPath db_decode sec_bytes key_of (fun _ => middleware)
    (fun dh _ _ _ eng => root (setup_of c started dh eng)) c e.

(** C1: (the server) Once the server is up, whatever request reaches whichever of its listeners,
    in whatever state: a database's content changes only when the request names that
    database and authenticates, by a method the listener accepts, as a principal that may
    write it, or as one that resumes a stream it opened when it might (the level of a live
    stream is not looked at again: [downgraded_principal_keeps_writer_stream]), or when its
    file is replaced by an administrator through the control plane; anything of a database
    is answered by its endpoints only to such a principal that may read it; the policy, the
    databases served, the stored specifications, the enrolled principals and their keys
    change only by a named administrator on the control plane or an enrollment that proves
    possession of its key; a request whose credentials are refused changes nothing at all
    and is told so, unless it is a preflight; and the streams of readers stay on connections
    that deny writes.  The drivers are any that keep to [Sqlite.v]: a statement runs only if the
    authorizer of its connection accepted all its actions, and reading actions do not write. *)
Theorem server_enforces_policy sec_bytes db_decode key_of c started e p i {D} (lib : sqlite S) (content : S -> D) clean :
  sqlite_laws lib content clean -> start sec_bytes db_decode key_of c started e = (p, Ok i) ->
  let su := setup_of c started (in_handler i) (in_engine i) in
  exists up, p_servers p = Some up /\ forall sv, sv ∈ servers up -> let lc := sv_listener sv in
  forall k r hd s, Auth.acctPaths (si_auth s) = None -> Admin.names_ok (w_reg (si_p s)) -> streams_ok s ->
    (forall q d, authenticated lc k r s q -> addressed su k r d -> sqlite_behind lib clean k s d) ->
    let '((k', s'), resp) := sv_handler sv r hd (k, s) in
    (forall d, cont content s' d <> cont content s d -> exists q, authenticated lc k r s q /\
       (addressed su k r d /\ CanRead (level_of s q d) = true /\ (CanWrite (level_of s q d) = true \/ writer_stream (si_sess s) d (Authz.Name q)) \/
        replaces su r s q d)) /\
    (forall a, Transport.content resp = Some a -> db_answer a = true -> code resp < 400 ->
       exists q d, authenticated lc k r s q /\ addressed su k r d /\ CanRead (level_of s q d) = true) /\
    (governed s s' \/ (exists q, authenticated lc k r s q /\ by_admin su r q) \/ enrolls lc k r s) /\
    (forall x h, Auth.authenticateFor bcrypt_ok parse_key verify_sig (si_auth s) (l_auth lc) (k_now k) r false = (Err x, h) ->
       Auth.r_path r ∉ public_paths -> s' = s /\ (code resp = 401 \/ code resp = 204 /\ is_preflight r = true)) /\
    streams_ok s'.
Proof.
  intros laws Hrun su. destruct (Run_serves _ _ _ _ _ _ _ _ _ _ _ Hrun) as (up & reg & Hup & Hall). exists up. split; [done|].
  intros sv Hsv lc k r hd s Hacc Hok Hstr Hh. rewrite Forall_forall in Hall. destruct (Hall sv Hsv) as [Hhd _].
  rewrite Hhd. fold lc su.
  assert (H : let '((k', s'), resp) := Transport.listener_handler (sc_config c) (Some middleware) lc (root su) r hd (k, s) in
    contained content su lc k r s s' resp).
  { destruct (listener_cases (sc_config c) middleware lc (root su) r hd (k, s)) as [(x & -> & Hc & Hn & _ & _ & Hp)|[h' ->]].
    - apply contained_outside; [done|by rewrite Hn|left; apply governed_refl|done|by auto].
    - pose proof (middleware_contained content lib clean laws su lc k r h' s Hacc Hok Hstr Hh) as H.
      destruct (middleware lc (root su) r h' (k, s)) as [[k' s'] x]. apply H. }
  destruct (Transport.listener_handler _ _ _ _ _ _ _) as [[k' s'] x]. destruct H. auto 10.
Qed.
End Server.


(** ** A concrete server *)

Import DemoFloat.

Definition no_blobs : Blob.library (list string) string := {|
  bs_open s _ _ _ := (s, Err ErrNotFound); bs_open_ro _ _ _ := Err ErrNotFound; bs_create s _ := (s, Err ErrNotFound);
  bs_writer _ _ _ := Err ErrNotFound; bs_write_at s _ _ _ _ := (s, Err ErrNotFound); bs_close_writer s _ _ := s;
  bs_truncate s _ _ _ := (s, Err ErrNotFound); bs_size _ _ _ := Err ErrNotFound; bs_reader _ _ _ := Err ErrNotFound;
  bs_read_at _ _ _ _ _ := ([], RFail "gone"); bs_delete s _ _ := (s, Err ErrNotFound) |}.
Definition demo_drivers : Endpoints.driver (list string) := {|
  known_ _ := false; get_ _ := Err GUnknownDB; get_text _ := ""%string; conn_ := Ok tt; is_sqlite := true;
  apply_cs s cs _ := (s ++ [string_of cs], Ok tt); invert_cs _ cs := Ok (rev cs); concat_cs _ a b := Ok (a ++ b);
  image_size s := Ok (Z.of_nat (length s)); serialize s := Ok []; slot := true; temp_file := true;
  dest_open := Ok tt; dest_conn := Ok tt; backup_init := Ok tt; backup_steps := []; backup_finish := Ok tt; image s := []; reopen := true |}.

Definition demo_k (body : string) : ask (list string) :=
  Ask (Blob.Stream [bytes_of body] None) 2000 3000 [] (Ok 4%nat)
    (SEnv (list string) HttpApi.demo_env (Ok (3%nat, base_conn)) (Some demo_id) (conn_ops demo_senv)) demo_drivers 9 5 Admin.demo_answer (fun s => [s])
    (EnrollCalls true true (Enroll.demo_answers 2) true true (Ok []) 2000 "") Enroll.io_fine (Enroll.demo_answers 2).
Definition demo_account : @Transport.handler (ask (list string) * site (list string) string) answer_ :=
  fun r hd w => (w, Transport.Response 404 hd None).
Definition demo_peers : Auth.authenticator :=
  Auth.Authenticator [] None false "__Host-session" ∅ ∅ ∅ ∅ ∅ {[7 := "bob"%string; 8 := "ann"%string]} ∅ false None false false.
Definition demo_site : site (list string) string :=
  Site (PWorld (Registry.New {["app"%string := Registry.demo_be]}) None None None ∅ [])
    (Authz.Grant (Authz.Grant (NewPolicy false) "app" "ann" Authz.ReadOnly) "app" "bob" Authz.ReadWrite)
    demo_peers None ∅ None [] (NewStore (bytes_of "key") 0 0 0) [] ∅ 0 ∅ (fun _ => Cell [] 0 [] 0 0 0).
Definition demo_call (uid : Z) (path : string) : Auth.request :=
  Auth.Request "POST" path "" (fun _ => ""%string) (fun _ => None) None (Some uid) "localhost" "" None.
Definition demo_start : @proc (ask (list string) * site (list string) string) answer_ * result string (@instance string) :=
  start no_pragmas (fun x => x) Provision.demo_encode demo_resolver "/data" Auth.demo_bcrypt Auth.demo_key Auth.demo_verify Enroll.demo_body
    HttpApi.demo_decode HttpApi.demo_text Streams.demo_pipeline Streams.demo_cursor (fun _ => Err "json"%string) (fun s => s) Admin.demo_decoders
    no_blobs demo_account (fun _ _ => Err Secret.ErrMalformedRef) Provision.demo_decode (fun _ => None) Serverd.demo_server 0
    (Serverd.demo_env (Ok 4%nat) (Ok [])).
Definition demo_local : listener := Listener "local" "unix" "/run/q.sock" "" ["peercred"]%string false "0660".
Definition demo_up : @Transport.set_ (ask (list string) * site (list string) string) answer_ :=
  default Transport.empty_set_ (p_servers demo_start.1).

Lemma demo_honest b d : sqlite_behind (St := string) demo_sqlite (fun _ => True) (demo_k b) demo_site d.
Proof.
  constructor; [done| |done|done|apply demo_drives_q|apply demo_drives_tx|apply demo_drives|done]. split; [|by intros i [= <-]].
  intros cn c [= <- <-]. split; [done|]. intros i x Hi. exact (False_ind _ (lookup_empty_Some _ _ Hi)).
Qed.
Lemma demo_streams_ok : streams_ok demo_site.
Proof. by apply pinned_none. Qed.

(** The Unix peers 7 and 8 are bob, who may write, and ann, who may read; 9 is nobody. *)
Lemma server_enforces_policy_witness :
  let k := demo_k "INSERT INTO t VALUES (1)" in
  match servers demo_up !! 1%nat with
  | None => False
  | Some sv =>
      let run u := sv_handler sv (demo_call u "/app/query") ∅ (k, demo_site) in
      let after u := ce_content (si_dbs (run u).1.2 "app"%string) in
      sv_listener sv = demo_local /\ code (run 7).2 = 200 /\ after 7 = ["INSERT INTO t VALUES (1)"%string] /\ code (run 9).2 = 401 /\
      after 8 = ce_content (si_dbs demo_site "app"%string) /\
      exists q, authenticated Auth.demo_bcrypt Auth.demo_key Auth.demo_verify demo_local k (demo_call 7 "/app/query") demo_site q /\
        CanWrite (level_of demo_site q "app") = true
  end.
Proof.
  intros k.
  assert (Hi : match demo_start.2 with Ok _ => True | Err _ => False end) by (vm_compute; exact I).
  assert (Hc : match servers demo_up !! 1%nat with
    | None => False
    | Some sv => let run u := sv_handler sv (demo_call u "/app/query") ∅ (k, demo_site) in
        sv_listener sv = demo_local /\ code (run 7).2 = 200 /\ ce_content (si_dbs (run 7).1.2 "app"%string) = ["INSERT INTO t VALUES (1)"%string] /\
        code (run 9).2 = 401
    end) by (vm_compute; repeat split).
  unfold demo_up in *. destruct demo_start as [p [i|m]] eqn:E; cbn [fst snd] in *; [|destruct Hi]. unfold demo_start in E.
  destruct (server_enforces_policy _ _ _ _ _ _ _ _ _ _ _ _ _ _ _ _ _ _ _ _ _ _ _ _ _ _ demo_sqlite (fun x : list string => x) (fun _ => True) demo_sqlite_laws E) as (up & Hup & H).
  rewrite Hup in *. cbn [default from_option] in *. unfold Datatypes.id in *.
  destruct (servers up !! 1%nat) as [sv|] eqn:Esv; [|destruct Hc]. destruct Hc as (Hl & H1 & H2 & H3).
  assert (Hr : forall u, (exists q, authenticated Auth.demo_bcrypt Auth.demo_key Auth.demo_verify demo_local k (demo_call u "/app/query") demo_site q /\
      CanWrite (level_of demo_site q "app") = true) \/
    ce_content (si_dbs (sv_handler sv (demo_call u "/app/query") ∅ (k, demo_site)).1.2 "app"%string) = ce_content (si_dbs demo_site "app"%string)).
  { intros u. pose proof (H sv (list_elem_of_lookup_2 _ _ _ Esv) k (demo_call u "/app/query") ∅ demo_site eq_refl
      (fun n a Hn => False_ind _ (lookup_empty_Some _ _ Hn)) demo_streams_ok (fun q d _ _ => demo_honest _ _)) as Hu.
    destruct (sv_handler sv (demo_call u "/app/query") ∅ (k, demo_site)) as [[k' s'] x]. destruct Hu as (Hu & _). rewrite Hl in Hu. cbn [fst snd].
    destruct (decide (ce_content (si_dbs s' "app"%string) = ce_content (si_dbs demo_site "app"%string))) as [Hs|Hs]; [by right|left].
    destruct (Hu "app"%string Hs) as (q & Hq & [(_ & _ & [Hw|(j & y & Hj & _)])|Hrep]);
      [by exists q|exact (False_ind _ (lookup_empty_Some _ _ Hj))|].
    destruct Hrep as [[[Hp|Hp] _]|[[Hp|Hp] _]]; discriminate Hp. }
  repeat (split; [assumption|]). split.
  - destruct (Hr 8) as [(q & [h Hq] & Hw)|Hs]; [|exact Hs]. vm_compute in Hq. injection Hq as <- _. vm_compute in Hw. discriminate Hw.
  - destruct (Hr 7) as [Hq|Hs]; [exact Hq|]. rewrite H2 in Hs. discriminate Hs.
Defined.

(** A mutation the audit log does not record: revoking a name nobody holds is answered 404
    and leaves no row, but the service has dropped the database its template gives for it. *)
Definition demo_books : site (list string) string :=
  Site (Provision.set_store (demo_create (demo_ok 1) demo_world (demo_file "books" "books.db")).1 (Some empty_store))
    (Authz.NewPolicy false) demo_peers (Some (Enroll.Service Enroll.bare_conf [] true 0 ∅ ∅)) ∅ None [] (NewStore (bytes_of "key") 0 0 0) [] ∅ 0 ∅
    (fun _ => Cell [] 0 [] 0 0 0).
Definition demo_revoke : Auth.request := Auth.Request "POST" "/_admin/principals/delete" "" (fun _ => ""%string) (fun _ => None) None None "localhost" ""
  (Some (MkPrincipal "root" "mtls" None)).
Lemma unaudited_database_drop :
  let r := serve_admin no_pragmas (fun x => x) Provision.demo_encode demo_resolver "/data" Admin.demo_decoders (demo_k "books") Admin.demo_handler demo_revoke ∅ demo_books in
  known demo_books "books" = true /\ code r.2 = 404 /\ known r.1 "books" = false /\ (Meta.audit <$> w_store (si_p r.1)) = Some [].
Proof. vm_compute. repeat split. Qed.
